(** * The I/O-wait core of libgo (src/libgo/linux/io_wait.cpp)

    A shallow embedding of [co::IoWait]: the block/resume protocol
    ([CoSwitch], [SchedulerSwitch], [Cancel]), the wait loop ([WaitLoop])
    and the lazily created pair of epoll instances ([ChooseEpoll],
    [GetEpoll], [CreateEpoll], [IsEpollCreated]).

    The C++ object graph is written as an explicit world that every
    function threads through a small state-and-failure monad:
    - the kernel side of the epoll system calls (environment),
    - the scheduler and the task heap (external collaborators),
    - the members of the [IoWait] object itself.

    The embedding of a function is sequential: a call runs to completion
    before the next one starts.  Locks that are taken and released inside
    one call ([io_block_lock_], [timeout_list_lock_], [epoll_create_lock_])
    are therefore invisible and left out; the outcome of the one [try_lock]
    in [WaitLoop] is an input of the call.  The part on the contention for
    the wake-up of a block cuts [Cancel] and [SchedulerSwitch] into their
    steps and lets the steps of the actors run in any order. *)

From Stdlib Require Import ZArith Lia List.
From stdpp Require Import base gmap sets list.
Import ListNotations.

Local Open Scope Z_scope.

(** ** Constants of <sys/epoll.h> and <errno.h> *)

Definition EPOLLIN : Z := 1.
Definition EPOLLOUT : Z := 4.
Definition EPOLLONESHOT : Z := 1073741824.   (* 1u << 30 *)

Definition ENOENT : Z := 2.
Definition EINTR : Z := 4.
Definition EBADF : Z := 9.
Definition EEXIST : Z := 17.
Definition EINVAL : Z := 22.
Definition EMFILE : Z := 24.

(** ** Machine integers *)

(** [uint32_t] arithmetic: the value is kept in [0, 2^32). *)
Definition wrap32 (z : Z) : Z := z mod 4294967296.

(** [uint64_t] arithmetic. *)
Definition wrap64 (z : Z) : Z := z mod 18446744073709551616.

(** [int] arithmetic, two's complement in [-2^31, 2^31). *)
Definition wrap_int (z : Z) : Z := (z + 2147483648) mod 4294967296 - 2147483648.

Definition int_range (z : Z) : Prop := -2147483648 <= z < 2147483648.

(** ** Data model *)

(** [enum class EpollType { read, write }]. *)
Inductive EpollType : Set := read | write.

#[global] Instance EpollType_eq_dec : EqDecision EpollType.
Proof. solve_decision. Defined.

Definition EpollType_to_int (ty : EpollType) : Z :=
  match ty with read => 0 | write => 1 end.

(** Modelled from the spec: the scheduler state tag of a task (declared in
    task.h, which is not part of the sources at hand).  The spec names the
    states [running], [io_block] and [runnable]. *)
Inductive TaskState : Set := running | runnable | io_block.

(** A [Task*] is an address in the task heap. *)
Abbreviation TaskPtr := nat.

(** Modelled from the spec: [EpollPtr], the back-pointer installed in the
    kernel's event cookie (declared in io_wait.h).  The [fdst] field, read by
    debug output only, is left out. *)
Record EpollPtr : Set := mkEpollPtr {
  ep_tk : option TaskPtr;      (* tk, null until stamped *)
  ep_io_block_id : Z;          (* io_block_id : uint32_t *)
  ep_revent : Z                (* revent : uint32_t *)
}.

(** Modelled from the spec: [FdStruct], one entry of an interest list
    (declared in io_wait.h). *)
Record FdStruct : Set := mkFdStruct {
  fd : Z;                      (* int *)
  event : Z;                   (* uint32_t *)
  epoll_ptr : EpollPtr
}.

(** The address of [fdst.epoll_ptr]: the owning task and the position of
    the entry in that task's [wait_fds_]. *)
Abbreviation Cookie := (TaskPtr * nat)%type.

(** Modelled from the spec: [IoWaitData], the per-task part of the state
    (declared in io_wait.h). *)
Record IoWaitData : Set := mkIoWaitData {
  io_block_id_ : Z;                 (* uint32_t generation *)
  wait_fds_ : list FdStruct;
  wait_successful_ : Z;             (* uint32_t *)
  io_block_timeout_ : Z;            (* int, -1: no timeout *)
  io_block_timer_ : option nat      (* timer handle *)
}.

(** Modelled from the spec: the part of [Task] this file touches (declared
    in task.h): identity, state tag, reference count and [IoWaitData]. *)
Record Task : Set := mkTask {
  id_ : Z;                          (* uint64_t *)
  state_ : TaskState;
  ref_count_ : Z;
  io_wait_data_ : IoWaitData
}.

(** The closure handed to [timer_mgr_.ExpireAt] by [SchedulerSwitch]:
    [[=]{ this->Cancel(tk, id); tk->DecrementRef(); }] with its captured
    variables, together with the handle and the deadline of the timer. *)
Record CoTimer : Set := mkCoTimer {
  timer_id : nat;
  deadline : Z;                     (* absolute, in ms *)
  cb_tk : TaskPtr;
  cb_id : Z;
  cb_task_id : Z
}.

(** One entry of [epollwait_tasks_]: [EpollWaitSt{tk, id}]. *)
Abbreviation EpollWaitSt := (TaskPtr * Z)%type.

(** ** The kernel (environment) *)

(** What [epoll_ctl] answers: [0], or [-1] with an [errno]. *)
Inductive CtlResult : Set := CtlOk | CtlErr (errno : Z).

Inductive CtlOp : Set := EPOLL_CTL_ADD | EPOLL_CTL_DEL.

(** The system calls the core issues, as the kernel saw them. *)
Inductive Syscall : Set :=
| sys_epoll_ctl (op : CtlOp) (epfd fd_ : Z) (res : CtlResult)
| sys_epoll_wait (epfd timeout : Z)
| sys_epoll_create (size res : Z)
| sys_close (fd_ : Z).

(** Environment model of the epoll facility, after epoll_ctl(2):
    - [k_epolls]: the open epoll descriptors of the process;
    - [k_interest]: the interest lists of all of them, keyed by
      (epoll descriptor, registered descriptor), holding the event mask and
      the cookie ([data.ptr]);
    - [k_files]: the open descriptors that may be registered;
    - [k_next], [k_limit]: descriptor numbers are handed out in increasing
      order up to a limit (the lowest-free rule is abstracted: only the
      freshness of a new descriptor matters);
    - [k_now]: the clock in ms;
    - [k_log]: the calls issued so far, oldest first. *)
Record Kernel : Type := mkKernel {
  k_pid : Z;
  k_epolls : gset Z;
  k_interest : gmap (Z * Z) (Z * Cookie);
  k_files : gset Z;
  k_next : Z;
  k_limit : Z;
  k_now : Z;
  k_log : list Syscall
}.

(** ** The scheduler and the task heap (external collaborators) *)

(** Modelled from the spec: what the core consumes from the scheduler
    ([g_Scheduler], scheduler.h): the options, [GetCurrentTask], [CoYield],
    [AddTaskRunnable], and the deferred-delete list of tasks whose reference
    count reached zero. *)
Record Scheduler : Type := mkScheduler {
  opt_max_sleep_ms : Z;
  opt_epoll_event_size : Z;
  current_task : option TaskPtr;
  heap : gmap nat Task;
  run_queue : list TaskPtr;          (* AddTaskRunnable calls, oldest first *)
  yields : nat;                      (* number of CoYield calls *)
  delete_list : list TaskPtr
}.

(** ** The members of [IoWait] *)

Record IoWait : Type := mkIoWait {
  loop_index_ : Z;
  epollwait_ms_ : Z;
  epoll_fds_ : Z * Z;                (* [0]: read, [1]: write *)
  epoll_event_size_ : Z;
  epoll_owner_pid_ : Z;
  wait_tasks_ : gset nat;
  timer_mgr_ : list CoTimer;         (* pending timers *)
  timer_seq_ : nat;                  (* next timer handle *)
  timeout_list_ : list CoTimer;
  epollwait_tasks_ : list EpollWaitSt
}.

Record World : Type := mkWorld {
  kernel : Kernel;
  sched : Scheduler;
  iowait : IoWait
}.

(** [IoWait::IoWait()]. *)
Definition IoWait_ctor : IoWait :=
  {| loop_index_ := 0; epollwait_ms_ := 0; epoll_fds_ := (-1, -1);
     epoll_event_size_ := 1024; epoll_owner_pid_ := 0;
     wait_tasks_ := ∅; timer_mgr_ := []; timer_seq_ := 0%nat;
     timeout_list_ := []; epollwait_tasks_ := [] |}.

(** *** Field updates *)

Definition set_kernel (k : Kernel) (w : World) : World :=
  {| kernel := k; sched := sched w; iowait := iowait w |}.
Definition set_sched (s : Scheduler) (w : World) : World :=
  {| kernel := kernel w; sched := s; iowait := iowait w |}.
Definition set_iowait (i : IoWait) (w : World) : World :=
  {| kernel := kernel w; sched := sched w; iowait := i |}.

Definition k_set_interest (m : gmap (Z * Z) (Z * Cookie)) (k : Kernel) : Kernel :=
  {| k_pid := k_pid k; k_epolls := k_epolls k; k_interest := m;
     k_files := k_files k; k_next := k_next k; k_limit := k_limit k;
     k_now := k_now k; k_log := k_log k |}.
Definition k_set_epolls (e : gset Z) (k : Kernel) : Kernel :=
  {| k_pid := k_pid k; k_epolls := e; k_interest := k_interest k;
     k_files := k_files k; k_next := k_next k; k_limit := k_limit k;
     k_now := k_now k; k_log := k_log k |}.
Definition k_set_next (n : Z) (k : Kernel) : Kernel :=
  {| k_pid := k_pid k; k_epolls := k_epolls k; k_interest := k_interest k;
     k_files := k_files k; k_next := n; k_limit := k_limit k;
     k_now := k_now k; k_log := k_log k |}.
Definition k_record (c : Syscall) (k : Kernel) : Kernel :=
  {| k_pid := k_pid k; k_epolls := k_epolls k; k_interest := k_interest k;
     k_files := k_files k; k_next := k_next k; k_limit := k_limit k;
     k_now := k_now k; k_log := k_log k ++ [c] |}.

Definition s_set_heap (h : gmap nat Task) (s : Scheduler) : Scheduler :=
  {| opt_max_sleep_ms := opt_max_sleep_ms s;
     opt_epoll_event_size := opt_epoll_event_size s;
     current_task := current_task s; heap := h; run_queue := run_queue s;
     yields := yields s; delete_list := delete_list s |}.
Definition s_set_run_queue (q : list TaskPtr) (s : Scheduler) : Scheduler :=
  {| opt_max_sleep_ms := opt_max_sleep_ms s;
     opt_epoll_event_size := opt_epoll_event_size s;
     current_task := current_task s; heap := heap s; run_queue := q;
     yields := yields s; delete_list := delete_list s |}.
Definition s_set_yields (n : nat) (s : Scheduler) : Scheduler :=
  {| opt_max_sleep_ms := opt_max_sleep_ms s;
     opt_epoll_event_size := opt_epoll_event_size s;
     current_task := current_task s; heap := heap s; run_queue := run_queue s;
     yields := n; delete_list := delete_list s |}.
Definition s_set_delete_list (l : list TaskPtr) (s : Scheduler) : Scheduler :=
  {| opt_max_sleep_ms := opt_max_sleep_ms s;
     opt_epoll_event_size := opt_epoll_event_size s;
     current_task := current_task s; heap := heap s; run_queue := run_queue s;
     yields := yields s; delete_list := l |}.

Definition i_set_loop_index (z : Z) (i : IoWait) : IoWait :=
  {| loop_index_ := z; epollwait_ms_ := epollwait_ms_ i;
     epoll_fds_ := epoll_fds_ i; epoll_event_size_ := epoll_event_size_ i;
     epoll_owner_pid_ := epoll_owner_pid_ i; wait_tasks_ := wait_tasks_ i;
     timer_mgr_ := timer_mgr_ i; timer_seq_ := timer_seq_ i;
     timeout_list_ := timeout_list_ i; epollwait_tasks_ := epollwait_tasks_ i |}.
Definition i_set_epollwait_ms (z : Z) (i : IoWait) : IoWait :=
  {| loop_index_ := loop_index_ i; epollwait_ms_ := z;
     epoll_fds_ := epoll_fds_ i; epoll_event_size_ := epoll_event_size_ i;
     epoll_owner_pid_ := epoll_owner_pid_ i; wait_tasks_ := wait_tasks_ i;
     timer_mgr_ := timer_mgr_ i; timer_seq_ := timer_seq_ i;
     timeout_list_ := timeout_list_ i; epollwait_tasks_ := epollwait_tasks_ i |}.
Definition i_set_epoll_fds (p : Z * Z) (i : IoWait) : IoWait :=
  {| loop_index_ := loop_index_ i; epollwait_ms_ := epollwait_ms_ i;
     epoll_fds_ := p; epoll_event_size_ := epoll_event_size_ i;
     epoll_owner_pid_ := epoll_owner_pid_ i; wait_tasks_ := wait_tasks_ i;
     timer_mgr_ := timer_mgr_ i; timer_seq_ := timer_seq_ i;
     timeout_list_ := timeout_list_ i; epollwait_tasks_ := epollwait_tasks_ i |}.
Definition i_set_epoll_event_size (z : Z) (i : IoWait) : IoWait :=
  {| loop_index_ := loop_index_ i; epollwait_ms_ := epollwait_ms_ i;
     epoll_fds_ := epoll_fds_ i; epoll_event_size_ := z;
     epoll_owner_pid_ := epoll_owner_pid_ i; wait_tasks_ := wait_tasks_ i;
     timer_mgr_ := timer_mgr_ i; timer_seq_ := timer_seq_ i;
     timeout_list_ := timeout_list_ i; epollwait_tasks_ := epollwait_tasks_ i |}.
Definition i_set_epoll_owner_pid (z : Z) (i : IoWait) : IoWait :=
  {| loop_index_ := loop_index_ i; epollwait_ms_ := epollwait_ms_ i;
     epoll_fds_ := epoll_fds_ i; epoll_event_size_ := epoll_event_size_ i;
     epoll_owner_pid_ := z; wait_tasks_ := wait_tasks_ i;
     timer_mgr_ := timer_mgr_ i; timer_seq_ := timer_seq_ i;
     timeout_list_ := timeout_list_ i; epollwait_tasks_ := epollwait_tasks_ i |}.
Definition i_set_wait_tasks (s : gset nat) (i : IoWait) : IoWait :=
  {| loop_index_ := loop_index_ i; epollwait_ms_ := epollwait_ms_ i;
     epoll_fds_ := epoll_fds_ i; epoll_event_size_ := epoll_event_size_ i;
     epoll_owner_pid_ := epoll_owner_pid_ i; wait_tasks_ := s;
     timer_mgr_ := timer_mgr_ i; timer_seq_ := timer_seq_ i;
     timeout_list_ := timeout_list_ i; epollwait_tasks_ := epollwait_tasks_ i |}.
Definition i_set_timer_mgr (l : list CoTimer) (n : nat) (i : IoWait) : IoWait :=
  {| loop_index_ := loop_index_ i; epollwait_ms_ := epollwait_ms_ i;
     epoll_fds_ := epoll_fds_ i; epoll_event_size_ := epoll_event_size_ i;
     epoll_owner_pid_ := epoll_owner_pid_ i; wait_tasks_ := wait_tasks_ i;
     timer_mgr_ := l; timer_seq_ := n;
     timeout_list_ := timeout_list_ i; epollwait_tasks_ := epollwait_tasks_ i |}.
Definition i_set_timeout_list (l : list CoTimer) (i : IoWait) : IoWait :=
  {| loop_index_ := loop_index_ i; epollwait_ms_ := epollwait_ms_ i;
     epoll_fds_ := epoll_fds_ i; epoll_event_size_ := epoll_event_size_ i;
     epoll_owner_pid_ := epoll_owner_pid_ i; wait_tasks_ := wait_tasks_ i;
     timer_mgr_ := timer_mgr_ i; timer_seq_ := timer_seq_ i;
     timeout_list_ := l; epollwait_tasks_ := epollwait_tasks_ i |}.
Definition i_set_epollwait_tasks (l : list EpollWaitSt) (i : IoWait) : IoWait :=
  {| loop_index_ := loop_index_ i; epollwait_ms_ := epollwait_ms_ i;
     epoll_fds_ := epoll_fds_ i; epoll_event_size_ := epoll_event_size_ i;
     epoll_owner_pid_ := epoll_owner_pid_ i; wait_tasks_ := wait_tasks_ i;
     timer_mgr_ := timer_mgr_ i; timer_seq_ := timer_seq_ i;
     timeout_list_ := timeout_list_ i; epollwait_tasks_ := l |}.

Definition d_set_io_block_id (z : Z) (d : IoWaitData) : IoWaitData :=
  {| io_block_id_ := z; wait_fds_ := wait_fds_ d;
     wait_successful_ := wait_successful_ d;
     io_block_timeout_ := io_block_timeout_ d;
     io_block_timer_ := io_block_timer_ d |}.
Definition d_set_wait_fds (l : list FdStruct) (d : IoWaitData) : IoWaitData :=
  {| io_block_id_ := io_block_id_ d; wait_fds_ := l;
     wait_successful_ := wait_successful_ d;
     io_block_timeout_ := io_block_timeout_ d;
     io_block_timer_ := io_block_timer_ d |}.
Definition d_set_wait_successful (z : Z) (d : IoWaitData) : IoWaitData :=
  {| io_block_id_ := io_block_id_ d; wait_fds_ := wait_fds_ d;
     wait_successful_ := z;
     io_block_timeout_ := io_block_timeout_ d;
     io_block_timer_ := io_block_timer_ d |}.
Definition d_set_io_block_timeout (z : Z) (d : IoWaitData) : IoWaitData :=
  {| io_block_id_ := io_block_id_ d; wait_fds_ := wait_fds_ d;
     wait_successful_ := wait_successful_ d;
     io_block_timeout_ := z;
     io_block_timer_ := io_block_timer_ d |}.
Definition d_set_io_block_timer (o : option nat) (d : IoWaitData) : IoWaitData :=
  {| io_block_id_ := io_block_id_ d; wait_fds_ := wait_fds_ d;
     wait_successful_ := wait_successful_ d;
     io_block_timeout_ := io_block_timeout_ d;
     io_block_timer_ := o |}.

Definition t_set_state (s : TaskState) (t : Task) : Task :=
  {| id_ := id_ t; state_ := s; ref_count_ := ref_count_ t;
     io_wait_data_ := io_wait_data_ t |}.
Definition t_set_ref_count (z : Z) (t : Task) : Task :=
  {| id_ := id_ t; state_ := state_ t; ref_count_ := z;
     io_wait_data_ := io_wait_data_ t |}.
Definition t_set_io_wait_data (d : IoWaitData) (t : Task) : Task :=
  {| id_ := id_ t; state_ := state_ t; ref_count_ := ref_count_ t;
     io_wait_data_ := d |}.

(** [tk->GetIoWaitData()] followed by an update of the data. *)
Definition t_upd_data (f : IoWaitData -> IoWaitData) (t : Task) : Task :=
  t_set_io_wait_data (f (io_wait_data_ t)) t.

(** ** The monad: state passing with two ways to stop *)

Inductive Failure : Set :=
| process_exit      (* exit(1) in CreateEpoll *)
| bad_pointer       (* a Task* or EpollPtr* that points at no live object *)
| out_of_fuel.      (* the bound given to a loop of the embedding ran out *)

Inductive Res (A : Type) : Type :=
| Ok (a : A) (w : World)
| Fail (e : Failure).
Arguments Ok {A} a w.
Arguments Fail {A} e.

Definition M (A : Type) : Type := World -> Res A.

Definition ret {A} (a : A) : M A := fun w => Ok a w.

Definition bind {A B} (m : M A) (k : A -> M B) : M B :=
  fun w => match m w with
           | Ok a w' => k a w'
           | Fail e => Fail e
           end.

Definition fail {A} (e : Failure) : M A := fun _ => Fail e.

Declare Scope io_scope.
Delimit Scope io_scope with io.
Bind Scope io_scope with M.
Notation "'let*' x := m 'in' k" := (bind m (fun x => k))
  (at level 10, x name, m at level 100, k at level 200) : io_scope.
Notation "m ;; k" := (bind m (fun _ => k))
  (at level 100, k at level 200, right associativity) : io_scope.
Local Open Scope io_scope.

Definition gets {A} (f : World -> A) : M A := fun w => Ok (f w) w.
Definition modify (f : World -> World) : M unit := fun w => Ok tt (f w).

Definition upd_kernel (f : Kernel -> Kernel) : M unit :=
  modify (fun w => set_kernel (f (kernel w)) w).
Definition upd_sched (f : Scheduler -> Scheduler) : M unit :=
  modify (fun w => set_sched (f (sched w)) w).
Definition upd_iowait (f : IoWait -> IoWait) : M unit :=
  modify (fun w => set_iowait (f (iowait w)) w).

(** Run [f] on every element of a list, in order ([for (auto &x : l)]). *)
Fixpoint for_each {A} (f : A -> M unit) (l : list A) : M unit :=
  match l with
  | [] => ret tt
  | x :: l' => f x ;; for_each f l'
  end.

(** ** System calls *)

Definition getpid : M Z := gets (fun w => k_pid (kernel w)).

(** Whether the kernel accepts [epfd] and [fd_] as the two descriptors of an
    [epoll_ctl] call at all; it answers EBADF otherwise. *)
Definition ctl_target_ok (epfd fd_ : Z) (k : Kernel) : bool :=
  bool_decide (epfd ∈ k_epolls k) && bool_decide (fd_ ∈ k_files k).

Definition kernel_ctl_add (epfd fd_ ev : Z) (c : Cookie) (k : Kernel)
  : CtlResult * Kernel :=
  if ctl_target_ok epfd fd_ k then
    match k_interest k !! (epfd, fd_) with
    | Some _ => (CtlErr EEXIST, k)
    | None => (CtlOk, k_set_interest (<[(epfd, fd_) := (ev, c)]> (k_interest k)) k)
    end
  else (CtlErr EBADF, k).

Definition kernel_ctl_del (epfd fd_ : Z) (k : Kernel) : CtlResult * Kernel :=
  if ctl_target_ok epfd fd_ k then
    match k_interest k !! (epfd, fd_) with
    | Some _ => (CtlOk, k_set_interest (delete (epfd, fd_) (k_interest k)) k)
    | None => (CtlErr ENOENT, k)
    end
  else (CtlErr EBADF, k).

(** [epoll_ctl(epfd, EPOLL_CTL_ADD, fd, &ev)] with [ev = {events, {ptr}}]. *)
Definition epoll_ctl_add (epfd fd_ ev : Z) (c : Cookie) : M CtlResult :=
  fun w =>
    let rk := kernel_ctl_add epfd fd_ ev c (kernel w) in
    Ok rk.1 (set_kernel
               (k_record (sys_epoll_ctl EPOLL_CTL_ADD epfd fd_ rk.1) rk.2) w).

(** [epoll_ctl(epfd, EPOLL_CTL_DEL, fd, NULL)]. *)
Definition epoll_ctl_del (epfd fd_ : Z) : M CtlResult :=
  fun w =>
    let rk := kernel_ctl_del epfd fd_ (kernel w) in
    Ok rk.1 (set_kernel
               (k_record (sys_epoll_ctl EPOLL_CTL_DEL epfd fd_ rk.1) rk.2) w).

(** [close(fd)]: the descriptor and every registration that mentions it are
    gone; closing a number that is not open changes nothing. *)
Definition kernel_close (fd_ : Z) (k : Kernel) : Kernel :=
  {| k_pid := k_pid k;
     k_epolls := k_epolls k ∖ {[fd_]};
     k_interest := filter (fun kv => kv.1.1 ≠ fd_ ∧ kv.1.2 ≠ fd_) (k_interest k);
     k_files := k_files k ∖ {[fd_]};
     k_next := k_next k; k_limit := k_limit k; k_now := k_now k;
     k_log := k_log k ++ [sys_close fd_] |}.

Definition close (fd_ : Z) : M unit := upd_kernel (kernel_close fd_).

(** [epoll_create(size)]: a fresh epoll descriptor, or [-1] when [size] is
    not positive or no descriptor is left. *)
Definition kernel_epoll_create (size : Z) (k : Kernel) : Z * Kernel :=
  if (0 <? size) && (k_next k <? k_limit k) then
    (k_next k,
     k_record (sys_epoll_create size (k_next k))
       (k_set_next (k_next k + 1) (k_set_epolls ({[k_next k]} ∪ k_epolls k) k)))
  else (-1, k_record (sys_epoll_create size (-1)) k).

Definition epoll_create (size : Z) : M Z :=
  fun w => let rk := kernel_epoll_create size (kernel w) in
           Ok rk.1 (set_kernel rk.2 w).

(** ** Tasks and the scheduler *)

(** Dereference a [Task*]. *)
Definition get_task (tk : TaskPtr) : M Task :=
  fun w => match heap (sched w) !! tk with
           | Some t => Ok t w
           | None => Fail bad_pointer
           end.

Definition put_task (tk : TaskPtr) (t : Task) : M unit :=
  upd_sched (fun s => s_set_heap (<[tk := t]> (heap s)) s).

Definition modify_task (tk : TaskPtr) (f : Task -> Task) : M unit :=
  let* t := get_task tk in put_task tk (f t).

(** Modelled from the spec: [tk->IncrementRef()] (task.h). *)
Definition IncrementRef (tk : TaskPtr) : M unit :=
  modify_task tk (fun t => t_set_ref_count (ref_count_ t + 1) t).

(** Modelled from the spec: [tk->DecrementRef()] (task.h): the object is
    destroyed when the count reaches zero, and the destruction is deferred
    to the wait loop through the delete list. *)
Definition DecrementRef (tk : TaskPtr) : M unit :=
  let* t := get_task tk in
  put_task tk (t_set_ref_count (ref_count_ t - 1) t);;
  if decide (ref_count_ t - 1 = 0)
  then upd_sched (fun s => s_set_delete_list (delete_list s ++ [tk]) s)
  else ret tt.

(** Modelled from the spec: [g_Scheduler.GetCurrentTask()]. *)
Definition GetCurrentTask : M (option TaskPtr) :=
  gets (fun w => current_task (sched w)).

(** Modelled from the spec: [g_Scheduler.CoYield()], the context switch back
    to the scheduler; the embedding counts the calls. *)
Definition CoYield : M unit :=
  upd_sched (fun s => s_set_yields (S (yields s)) s).

(** Modelled from the spec: [g_Scheduler.AddTaskRunnable(tk)] enqueues a
    ready task. *)
Definition AddTaskRunnable (tk : TaskPtr) : M unit :=
  upd_sched (fun s => s_set_run_queue (run_queue s ++ [tk]) s).

(** Modelled from the spec: [Task::PopDeleteList] followed by [delete tk]
    for every task on it. *)
Definition PopDeleteList_and_delete : M unit :=
  upd_sched (fun s =>
    s_set_delete_list []
      (s_set_heap (foldr (fun tk h => delete tk h) (heap s) (delete_list s)) s)).

(** ** The wait-set and the timer manager *)

(** Modelled from the spec: [wait_tasks_.push(tk)] on the wait-set, a set of
    task references. *)
Definition wait_tasks_push (tk : TaskPtr) : M unit :=
  upd_iowait (fun i => i_set_wait_tasks ({[tk]} ∪ wait_tasks_ i) i).

(** Modelled from the spec: [wait_tasks_.erase(tk)], membership test and
    removal in one step; [true] iff [tk] was a member. *)
Definition wait_tasks_erase (tk : TaskPtr) : M bool :=
  fun w =>
    if decide (tk ∈ wait_tasks_ (iowait w))
    then Ok true (set_iowait
                    (i_set_wait_tasks (wait_tasks_ (iowait w) ∖ {[tk]}) (iowait w)) w)
    else Ok false w.

(** Modelled from the spec: [timer_mgr_.ExpireAt(duration, callback)]
    schedules the callback at now + duration and returns a handle. *)
Definition ExpireAt (duration : Z) (tk : TaskPtr) (id task_id : Z) : M nat :=
  fun w =>
    let i := iowait w in
    let t := {| timer_id := timer_seq_ i;
                deadline := k_now (kernel w) + duration;
                cb_tk := tk; cb_id := id; cb_task_id := task_id |} in
    Ok (timer_seq_ i)
       (set_iowait (i_set_timer_mgr (timer_mgr_ i ++ [t]) (S (timer_seq_ i)) i) w).

(** Modelled from the spec: the selection made by
    [timer_mgr_.GetExpired(out, limit)]: up to [limit] timers whose deadline
    has passed are taken out of the pending ones. *)
Fixpoint take_expired (limit : nat) (now : Z) (l : list CoTimer)
  : list CoTimer * list CoTimer :=
  match l with
  | [] => ([], [])
  | t :: l' =>
      match limit with
      | O => ([], l)
      | S n =>
          if deadline t <=? now
          then let r := take_expired n now l' in (t :: r.1, r.2)
          else let r := take_expired limit now l' in (r.1, t :: r.2)
      end
  end.

Definition GetExpired (limit : nat) : M (list CoTimer) :=
  fun w =>
    let i := iowait w in
    let r := take_expired limit (k_now (kernel w)) (timer_mgr_ i) in
    Ok r.1 (set_iowait (i_set_timer_mgr r.2 (timer_seq_ i) i) w).

(** ** [IoWait]: the wait quantum *)

(** [IoWait::DelayEventWaitTime]. *)
Definition DelayEventWaitTime : M unit :=
  upd_iowait (fun i => i_set_epollwait_ms (wrap_int (epollwait_ms_ i + 1)) i);;
  let* max_sleep_ms := gets (fun w => opt_max_sleep_ms (sched w)) in
  upd_iowait (fun i => i_set_epollwait_ms (Z.min (epollwait_ms_ i) max_sleep_ms) i).

(** [IoWait::ResetEventWaitTime]. *)
Definition ResetEventWaitTime : M unit :=
  upd_iowait (i_set_epollwait_ms 0).

(** ** [IoWait]: the pair of epoll instances *)

(** [epoll_fds_[(int)type]]. *)
Definition epoll_fd_of (ty : EpollType) (i : IoWait) : Z :=
  match ty with read => (epoll_fds_ i).1 | write => (epoll_fds_ i).2 end.

Definition set_epoll_fd (ty : EpollType) (v : Z) (i : IoWait) : IoWait :=
  match ty with
  | read => i_set_epoll_fds (v, (epoll_fds_ i).2) i
  | write => i_set_epoll_fds ((epoll_fds_ i).1, v) i
  end.

(** [IoWait::IsEpollCreated]. *)
Definition IsEpollCreated : M bool :=
  let* pid := getpid in
  let* owner := gets (fun w => epoll_owner_pid_ (iowait w)) in
  ret (bool_decide (owner = pid)).

(** One round of the [for] loop of [CreateEpoll]. *)
Definition CreateEpoll_one (ty : EpollType) : M unit :=
  let* old := gets (fun w => epoll_fd_of ty (iowait w)) in
  close old;;
  let* size := gets (fun w => epoll_event_size_ (iowait w)) in
  let* efd := epoll_create size in
  upd_iowait (set_epoll_fd ty efd);;
  if decide (efd ≠ -1) then ret tt else fail process_exit.

(** [IoWait::CreateEpoll].  The second comparison of the owner pid, made
    under [epoll_create_lock_], repeats the first one in a sequential run. *)
Definition CreateEpoll : M unit :=
  let* pid := getpid in
  let* owner := gets (fun w => epoll_owner_pid_ (iowait w)) in
  if decide (owner = pid) then ret tt else
  upd_iowait (i_set_epoll_owner_pid pid);;
  let* size := gets (fun w => opt_epoll_event_size (sched w)) in
  upd_iowait (i_set_epoll_event_size size);;
  for_each CreateEpoll_one [read; write].

(** The selection made by [ChooseEpoll]:
    [(event & EPOLLIN) ? epoll_fds_[read] : epoll_fds_[write]]. *)
Definition choose_type (ev : Z) : EpollType :=
  if decide (Z.land ev EPOLLIN ≠ 0) then read else write.

(** [IoWait::ChooseEpoll]. *)
Definition ChooseEpoll (ev : Z) : M Z :=
  CreateEpoll;;
  gets (fun w => epoll_fd_of (choose_type ev) (iowait w)).

(** [IoWait::GetEpoll]. *)
Definition GetEpoll (ty : EpollType) : M Z :=
  CreateEpoll;;
  gets (fun w => epoll_fd_of ty (iowait w)).

(** [IoWait::GetEpollType]. *)
Definition GetEpollType (epoll_fd : Z) : M Z :=
  let* i := gets iowait in
  if decide (epoll_fd = epoll_fd_of read i) then ret (EpollType_to_int read)
  else if decide (epoll_fd = epoll_fd_of write i) then ret (EpollType_to_int write)
  else ret (-1).

(** ** [IoWait]: the block/resume protocol *)

(** The second loop of [CoSwitch]: stamp the back-pointer of an entry. *)
Definition stamp (tk : TaskPtr) (id : Z) (fdst : FdStruct) : FdStruct :=
  {| fd := fd fdst; event := event fdst;
     epoll_ptr := {| ep_tk := Some tk; ep_io_block_id := id;
                     ep_revent := ep_revent (epoll_ptr fdst) |} |}.

(** [IoWait::CoSwitch(std::vector<FdStruct> && fdsts, int timeout_ms)].
    The result is what the caller's vector holds afterwards: [swap] hands it
    the previous [wait_fds_]. *)
Definition CoSwitch (fdsts : list FdStruct) (timeout_ms : Z) : M (list FdStruct) :=
  let* cur := GetCurrentTask in
  match cur with
  | None => ret fdsts
  | Some tk =>
      let* t0 := get_task tk in
      let id := wrap32 (io_block_id_ (io_wait_data_ t0) + 1) in
      modify_task tk (t_upd_data (d_set_io_block_id id));;
      modify_task tk (t_set_state io_block);;
      modify_task tk (t_upd_data (d_set_wait_successful 0));;
      modify_task tk (t_upd_data (d_set_io_block_timeout timeout_ms));;
      modify_task tk (t_upd_data (d_set_io_block_timer None));;
      let* t1 := get_task tk in
      let swapped := wait_fds_ (io_wait_data_ t1) in
      modify_task tk (t_upd_data (d_set_wait_fds fdsts));;
      modify_task tk (t_upd_data (fun d => d_set_wait_fds (map (stamp tk id) (wait_fds_ d)) d));;
      CoYield;;
      ret swapped
  end.

(** One round of a teardown loop: [EPOLL_CTL_DEL] of [fd_] in the instance
    chosen by [ev]; who deletes a registration drops its reference. *)
Definition del_one (tk : TaskPtr) (fd_ ev : Z) : M unit :=
  let* epoll_fd := ChooseEpoll ev in
  let* r := epoll_ctl_del epoll_fd fd_ in
  match r with
  | CtlOk => DecrementRef tk
  | CtlErr _ => ret tt
  end.

(** The registration loop of [SchedulerSwitch] over the remaining entries
    [fds], the first of which sits at position [idx] of [wait_fds_]; [ok]
    and [rollback_list] are the loop's local variables. *)
Fixpoint register_fds (tk : TaskPtr) (fds : list FdStruct) (idx : nat)
    (ok : bool) (rollback_list : list (Z * Z)) : M bool :=
  match fds with
  | [] => ret ok
  | fdst :: rest =>
      let* epoll_fd := ChooseEpoll (event fdst) in
      IncrementRef tk;;
      let* r := epoll_ctl_add epoll_fd (fd fdst)
                  (Z.lor (event fdst) EPOLLONESHOT) (tk, idx) in
      match r with
      | CtlErr errno =>
          DecrementRef tk;;
          if decide (errno = EEXIST) then
            for_each (fun fd_pair => del_one tk fd_pair.1 fd_pair.2) rollback_list;;
            ret false
          else register_fds tk rest (S idx) ok rollback_list
      | CtlOk =>
          register_fds tk rest (S idx) true
            (rollback_list ++ [(fd fdst, event fdst)])
      end
  end.

(** [IoWait::SchedulerSwitch(Task* tk)].  [RefGuard<> ref_guard(tk)] holds
    one reference from its declaration to the end of the function. *)
Definition SchedulerSwitch (tk : TaskPtr) : M unit :=
  let* t := get_task tk in
  let id := io_block_id_ (io_wait_data_ t) in
  IncrementRef tk;;
  wait_tasks_push tk;;
  let* ok := register_fds tk (wait_fds_ (io_wait_data_ t)) 0 false [] in
  (if negb ok then
     let* erased := wait_tasks_erase tk in
     if erased then AddTaskRunnable tk else ret tt
   else
     let* t' := get_task tk in
     if decide (io_block_timeout_ (io_wait_data_ t') ≠ -1) then
       IncrementRef tk;;
       let task_id := id_ t' in
       let* timer := ExpireAt (io_block_timeout_ (io_wait_data_ t')) tk id task_id in
       modify_task tk (t_upd_data (d_set_io_block_timer (Some timer)))
     else ret tt);;
  DecrementRef tk.

(** [IoWait::Cancel(Task *tk, uint32_t id)]. *)
Definition Cancel (tk : TaskPtr) (id : Z) : M unit :=
  let* t := get_task tk in
  if decide (io_block_id_ (io_wait_data_ t) ≠ id) then ret tt else
  let* erased := wait_tasks_erase tk in
  if erased then
    let* t' := get_task tk in
    for_each (fun fdst => del_one tk (fd fdst) (event fdst))
      (wait_fds_ (io_wait_data_ t'));;
    AddTaskRunnable tk
  else ret tt.

(** The body of the closure armed by [SchedulerSwitch]. *)
Definition timer_callback (t : CoTimer) : M unit :=
  Cancel (cb_tk t) (cb_id t);;
  DecrementRef (cb_tk t).

(** ** [IoWait]: the wait loop *)

(** One [epoll_event] as [epoll_wait] fills it in. *)
Record epoll_event : Set := mk_epoll_event {
  ev_events : Z;
  ev_data_ptr : Cookie
}.

(** What the kernel answers to the [epoll_wait] calls on one instance during
    one [WaitLoop]: [eintrs] times [-1] with EINTR, then either [-1] with
    another errno ([None]) or the events that are ready. *)
Record WaitAnswer : Set := mkWaitAnswer {
  eintrs : nat;
  answer : option (list epoll_event)
}.

(** What the environment decides during one call of [WaitLoop]. *)
Record LoopEnv : Set := mkLoopEnv {
  lock_acquired : bool;              (* epoll_lock_.try_lock() *)
  wait_read : WaitAnswer;
  wait_write : WaitAnswer
}.

(** The first loop of [WaitLoop]: move the expired timers, 128 at a time,
    to [timeout_list_] and count them in [c].  [std::list::merge] orders
    the list by pointer value, which the embedding does not track: the
    batch is appended. *)
Fixpoint drain_timers (fuel : nat) (c : Z) : M Z :=
  match fuel with
  | O => fail out_of_fuel
  | S n =>
      let* timers := GetExpired 128 in
      match timers with
      | [] => ret c
      | _ :: _ =>
          let c' := wrap_int (c + Z.of_nat (length timers)) in
          upd_iowait (fun i => i_set_timeout_list (timeout_list_ i ++ timers) i);;
          drain_timers n c'
      end
  end.

(** [epoll_wait] on the instance of type [ty], retried from the label
    [retry] while the kernel answers EINTR. *)
Fixpoint epoll_wait_retry (enable_block : bool) (c : Z) (ty : EpollType)
    (n_eintr : nat) (final : option (list epoll_event))
  : M (option (list epoll_event)) :=
  let* ms := gets (fun w => epollwait_ms_ (iowait w)) in
  let timeout :=
    if enable_block && bool_decide (ty = read) && bool_decide (c = 0)
    then ms else 0 in
  let* epfd := GetEpoll ty in
  upd_kernel (k_record (sys_epoll_wait epfd timeout));;
  match n_eintr with
  | S n => epoll_wait_retry enable_block c ty n final
  | O => ret final
  end.

(** [epollwait_tasks_.insert(EpollWaitSt{tk, id})]: a set; the embedding
    keeps the entries in the order of their first insertion. *)
Definition epollwait_tasks_insert (st : EpollWaitSt) : M unit :=
  upd_iowait (fun i =>
    if decide (st ∈ epollwait_tasks_ i) then i
    else i_set_epollwait_tasks (epollwait_tasks_ i ++ [st]) i).

(** The body of the loop over the events of one [epoll_wait].  The cookie
    addresses an entry of the owner's [wait_fds_]. *)
Definition on_event (e : epoll_event) : M unit :=
  let* owner := get_task (ev_data_ptr e).1 in
  match wait_fds_ (io_wait_data_ owner) !! (ev_data_ptr e).2 with
  | None => fail bad_pointer
  | Some fdst =>
      let ep := epoll_ptr fdst in
      let fdst' := {| fd := fd fdst; event := event fdst;
                      epoll_ptr := {| ep_tk := ep_tk ep;
                                      ep_io_block_id := ep_io_block_id ep;
                                      ep_revent := ev_events e |} |} in
      modify_task (ev_data_ptr e).1
        (t_upd_data (fun d =>
           d_set_wait_fds (<[(ev_data_ptr e).2 := fdst']> (wait_fds_ d)) d));;
      match ep_tk ep with
      | None => fail bad_pointer
      | Some tk =>
          modify_task tk
            (t_upd_data (fun d =>
               d_set_wait_successful (wrap32 (wait_successful_ d + 1)) d));;
          epollwait_tasks_insert (tk, ep_io_block_id ep)
      end
  end.

(** One round of the loop over the two instances. *)
Definition drain_instance (enable_block : bool) (c : Z) (ty : EpollType)
    (a : WaitAnswer) (epoll_n : Z) : M Z :=
  let* r := epoll_wait_retry enable_block c ty (eintrs a) (answer a) in
  match r with
  | None => ret epoll_n
  | Some evs =>
      let epoll_n' := wrap_int (epoll_n + Z.of_nat (length evs)) in
      for_each on_event evs;;
      ret epoll_n'
  end.

(** The body of [if (IsEpollCreated())] in [WaitLoop]: drain the read
    instance, then the write instance, then call [Cancel] for every buffered
    entry and clear the buffer.  The result is [epoll_n]. *)
Definition drain_epoll (env : LoopEnv) (enable_block : bool) (c : Z) : M Z :=
  let* n_read := drain_instance enable_block c read (wait_read env) 0 in
  let* n_both := drain_instance enable_block c write (wait_write env) n_read in
  let* sts := gets (fun w => epollwait_tasks_ (iowait w)) in
  for_each (fun st => Cancel st.1 st.2) sts;;
  upd_iowait (i_set_epollwait_tasks []);;
  ret n_both.

(** The part of [WaitLoop] after the drain: swap [timeout_list_] into a
    local list and call every callback on it. *)
Definition run_timeout_list : M unit :=
  let* timeout_list := gets (fun w => timeout_list_ (iowait w)) in
  upd_iowait (i_set_timeout_list []);;
  for_each timer_callback timeout_list.

(** [IoWait::WaitLoop(bool enable_block)]. *)
Definition WaitLoop (env : LoopEnv) (enable_block : bool) : M Z :=
  let* pending := gets (fun w => timer_mgr_ (iowait w)) in
  let* c := drain_timers (S (length pending)) 0 in
  if negb (lock_acquired env) then ret (if decide (c ≠ 0) then c else -1) else
  upd_iowait (fun i => i_set_loop_index (wrap64 (loop_index_ i + 1)) i);;
  let* created := IsEpollCreated in
  let* epoll_n :=
    (if created then drain_epoll env enable_block c else ret 0) in
  run_timeout_list;;
  PopDeleteList_and_delete;;
  ret (wrap_int (epoll_n + c)).

(** * Running the embedding on the scenarios of the specification *)

Module Scenario.

Definition task0 : Task :=
  {| id_ := 7; state_ := running; ref_count_ := 1;
     io_wait_data_ := {| io_block_id_ := 0; wait_fds_ := [];
                         wait_successful_ := 0; io_block_timeout_ := -1;
                         io_block_timer_ := None |} |}.

Definition kernel0 : Kernel :=
  {| k_pid := 100; k_epolls := ∅; k_interest := ∅;
     k_files := {[10; 11; 12; 13; 14]};
     k_next := 3; k_limit := 1024; k_now := 0; k_log := [] |}.

Definition sched0 : Scheduler :=
  {| opt_max_sleep_ms := 20; opt_epoll_event_size := 1024;
     current_task := Some 1%nat; heap := {[1%nat := task0]};
     run_queue := []; yields := 0; delete_list := [] |}.

Definition world0 : World :=
  {| kernel := kernel0; sched := sched0; iowait := IoWait_ctor |}.

Definition fds (fd_ ev : Z) : FdStruct :=
  {| fd := fd_; event := ev;
     epoll_ptr := {| ep_tk := None; ep_io_block_id := 0; ep_revent := 0 |} |}.

Definition ref_of (tk : TaskPtr) (r : Res unit) : option Z :=
  match r with
  | Ok _ w => ref_count_ <$> heap (sched w) !! tk
  | Fail _ => None
  end.

End Scenario.

(** * Reasoning about the embedding *)

(** ** The epoll pair: created, or creatable *)

(** The instances belong to the running process: [CreateEpoll] returns at
    its first comparison. *)
Definition settled (w : World) : Prop :=
  epoll_owner_pid_ (iowait w) = k_pid (kernel w).

(** The instances belong to another process (or to none yet) and the kernel
    has what [CreateEpoll] needs to make the two of them. *)
Definition can_create (w : World) : Prop :=
  epoll_owner_pid_ (iowait w) ≠ k_pid (kernel w) ∧
  0 < opt_epoll_event_size (sched w) ∧
  0 <= k_next (kernel w) ∧ k_next (kernel w) + 1 < k_limit (kernel w).

Definition epoll_usable (w : World) : Prop := settled w ∨ can_create w.

(** A system call other than [epoll_ctl]. *)
Definition not_ctl (c : Syscall) : Prop :=
  match c with sys_epoll_ctl _ _ _ _ => False | _ => True end.

(** The world after a successful [CreateEpoll]. *)
Definition created (w : World) : World :=
  match CreateEpoll w with
  | Ok _ w' => w'
  | Fail _ => w
  end.

Lemma CreateEpoll_settled w : settled w → CreateEpoll w = Ok tt w.
Proof.
  unfold settled, CreateEpoll, bind, getpid, gets. intros H.
  destruct (decide _) as [_|n]; [reflexivity | contradiction].
Qed.

Lemma created_settled_id w : settled w → created w = w.
Proof. intros H. unfold created. by rewrite CreateEpoll_settled. Qed.

Lemma CreateEpoll_can_create w :
  can_create w →
  ∃ w', CreateEpoll w = Ok tt w' ∧ settled w' ∧
        sched w' = sched w ∧
        k_pid (kernel w') = k_pid (kernel w) ∧
        k_now (kernel w') = k_now (kernel w) ∧
        wait_tasks_ (iowait w') = wait_tasks_ (iowait w) ∧
        timer_mgr_ (iowait w') = timer_mgr_ (iowait w) ∧
        timer_seq_ (iowait w') = timer_seq_ (iowait w) ∧
        timeout_list_ (iowait w') = timeout_list_ (iowait w) ∧
        epoll_fds_ (iowait w') = (k_next (kernel w), k_next (kernel w) + 1) ∧
        ((epoll_fds_ (iowait w)).2 ≠ k_next (kernel w) →
         {[k_next (kernel w); k_next (kernel w) + 1]} ⊆ k_epolls (kernel w')) ∧
        (∃ cl, k_log (kernel w') = k_log (kernel w) ++ cl ∧ Forall not_ctl cl).
Proof.
  intros (Hne & Hsz & Hn0 & Hlim).
  unfold CreateEpoll, bind, getpid, gets.
  destruct (decide _) as [e|_]; [contradiction|].
  unfold upd_iowait, modify, for_each, CreateEpoll_one, bind, gets, close,
    upd_kernel, modify, epoll_create, upd_iowait, kernel_epoll_create. simpl.
  assert (H1 : (0 <? opt_epoll_event_size (sched w)) = true) by (apply Z.ltb_lt; lia).
  assert (H2 : (k_next (kernel w) <? k_limit (kernel w)) = true) by (apply Z.ltb_lt; lia).
  assert (H3 : (k_next (kernel w) + 1 <? k_limit (kernel w)) = true) by (apply Z.ltb_lt; lia).
  rewrite H1, H2. simpl.
  destruct (decide (k_next (kernel w) ≠ -1)) as [_|n]; [|exfalso; apply n; lia].
  simpl. rewrite H1, H3. simpl.
  destruct (decide (k_next (kernel w) + 1 ≠ -1)) as [_|n]; [|exfalso; apply n; lia].
  eexists. split; [reflexivity|].
  unfold settled, ret. simpl. repeat split; try reflexivity.
  - intros Hfresh. set_solver.
  - eexists. rewrite <- !app_assoc. split; [reflexivity|].
    repeat constructor.
Qed.

Lemma ChooseEpoll_settled ev w :
  settled w →
  ChooseEpoll ev w = Ok (epoll_fd_of (choose_type ev) (iowait w)) w.
Proof.
  intros H. unfold ChooseEpoll, bind. by rewrite CreateEpoll_settled.
Qed.

Lemma ChooseEpoll_usable ev w :
  epoll_usable w →
  ChooseEpoll ev w
  = Ok (epoll_fd_of (choose_type ev) (iowait (created w))) (created w)
  ∧ settled (created w).
Proof.
  intros [H|H].
  - rewrite created_settled_id by done. split; [by apply ChooseEpoll_settled | done].
  - destruct (CreateEpoll_can_create w H) as (w' & E & Hs & _).
    unfold ChooseEpoll, created, bind. rewrite E. done.
Qed.

(** ** The world as the loops over [wait_fds_] see it

    The registration and teardown loops change four things only: the
    interest lists and the call log of the kernel, the reference count of
    the task, and the delete list.  [loop_world] is the world [b] with these
    four replaced. *)

Definition loop_world (b : World) (tk : TaskPtr) (t : Task)
    (m : gmap (Z * Z) (Z * Cookie)) (log : list Syscall) (r : Z)
    (dl : list TaskPtr) : World :=
  {| kernel := {| k_pid := k_pid (kernel b); k_epolls := k_epolls (kernel b);
                  k_interest := m; k_files := k_files (kernel b);
                  k_next := k_next (kernel b); k_limit := k_limit (kernel b);
                  k_now := k_now (kernel b); k_log := log |};
     sched := s_set_delete_list dl
                (s_set_heap (<[tk := t_set_ref_count r t]> (heap (sched b)))
                   (sched b));
     iowait := iowait b |}.

Lemma loop_world_self w tk t :
  heap (sched w) !! tk = Some t →
  loop_world w tk t (k_interest (kernel w)) (k_log (kernel w)) (ref_count_ t)
    (delete_list (sched w)) = w.
Proof.
  intros H. destruct w as [k s i]. destruct k, s. unfold loop_world; simpl in *.
  f_equal. unfold s_set_delete_list, s_set_heap; simpl. f_equal.
  apply insert_id. rewrite H. by destruct t.
Qed.

Lemma settled_loop_world b tk t m log r dl :
  settled b → settled (loop_world b tk t m log r dl).
Proof. done. Qed.

Section LoopSteps.
Context (b : World) (tk : TaskPtr) (t : Task).
Implicit Types (m : gmap (Z * Z) (Z * Cookie)) (log : list Syscall)
  (r : Z) (dl : list TaskPtr).

Local Abbreviation LW := (loop_world b tk t).

Lemma get_task_lw m log r dl :
  get_task tk (LW m log r dl) = Ok (t_set_ref_count r t) (LW m log r dl).
Proof. unfold get_task. simpl. by rewrite lookup_insert_eq. Qed.

Lemma IncrementRef_lw m log r dl :
  IncrementRef tk (LW m log r dl) = Ok tt (LW m log (r + 1) dl).
Proof.
  unfold IncrementRef, modify_task, bind. rewrite get_task_lw.
  unfold put_task, upd_sched, modify, loop_world, set_sched. simpl.
  by rewrite insert_insert_eq.
Qed.

Lemma DecrementRef_lw m log r dl :
  DecrementRef tk (LW m log r dl)
  = Ok tt (LW m log (r - 1) (if decide (r - 1 = 0) then dl ++ [tk] else dl)).
Proof.
  unfold DecrementRef, bind. rewrite get_task_lw.
  unfold put_task, upd_sched, modify, loop_world, set_sched. simpl.
  rewrite insert_insert_eq. by destruct (decide _).
Qed.

Lemma ChooseEpoll_lw ev m log r dl :
  settled b →
  ChooseEpoll ev (LW m log r dl)
  = Ok (epoll_fd_of (choose_type ev) (iowait b)) (LW m log r dl).
Proof. intros H. by rewrite ChooseEpoll_settled. Qed.

Lemma epoll_ctl_add_lw epfd fd_ ev c m log r dl :
  epoll_ctl_add epfd fd_ ev c (LW m log r dl)
  = if ctl_target_ok epfd fd_ (kernel b) then
      match m !! (epfd, fd_) with
      | Some _ =>
          Ok (CtlErr EEXIST)
            (LW m (log ++ [sys_epoll_ctl EPOLL_CTL_ADD epfd fd_ (CtlErr EEXIST)]) r dl)
      | None =>
          Ok CtlOk
            (LW (<[(epfd, fd_) := (ev, c)]> m)
               (log ++ [sys_epoll_ctl EPOLL_CTL_ADD epfd fd_ CtlOk]) r dl)
      end
    else Ok (CtlErr EBADF)
           (LW m (log ++ [sys_epoll_ctl EPOLL_CTL_ADD epfd fd_ (CtlErr EBADF)]) r dl).
Proof.
  unfold epoll_ctl_add, kernel_ctl_add, ctl_target_ok. simpl.
  destruct (_ && _); [|reflexivity].
  by destruct (m !! (epfd, fd_)).
Qed.

Lemma epoll_ctl_del_lw epfd fd_ m log r dl :
  epoll_ctl_del epfd fd_ (LW m log r dl)
  = if ctl_target_ok epfd fd_ (kernel b) then
      match m !! (epfd, fd_) with
      | Some _ =>
          Ok CtlOk
            (LW (delete (epfd, fd_) m)
               (log ++ [sys_epoll_ctl EPOLL_CTL_DEL epfd fd_ CtlOk]) r dl)
      | None =>
          Ok (CtlErr ENOENT)
            (LW m (log ++ [sys_epoll_ctl EPOLL_CTL_DEL epfd fd_ (CtlErr ENOENT)]) r dl)
      end
    else Ok (CtlErr EBADF)
           (LW m (log ++ [sys_epoll_ctl EPOLL_CTL_DEL epfd fd_ (CtlErr EBADF)]) r dl).
Proof.
  unfold epoll_ctl_del, kernel_ctl_del, ctl_target_ok. simpl.
  destruct (_ && _); [|reflexivity].
  by destruct (m !! (epfd, fd_)).
Qed.

End LoopSteps.

(** ** Keys of registrations and counts of acknowledged calls *)

#[global] Instance CtlOp_eq_dec : EqDecision CtlOp.
Proof. solve_decision. Defined.

(** The key under which [(fd_, ev)] is registered: the descriptor of the
    instance chosen by [ev], and [fd_]. *)
Definition fd_key (b : World) (p : Z * Z) : Z * Z :=
  (epoll_fd_of (choose_type p.2) (iowait b), p.1).

Definition fdst_pair (fdst : FdStruct) : Z * Z := (fd fdst, event fdst).

(** The kernel accepts the two descriptors of the key. *)
Definition key_ok (b : World) (k : Z * Z) : Prop :=
  ctl_target_ok k.1 k.2 (kernel b) = true.

#[global] Instance key_ok_dec b k : Decision (key_ok b k).
Proof. unfold key_ok. apply _. Defined.

Definition ok_keys (b : World) (ps : list (Z * Z)) : list (Z * Z) :=
  filter (key_ok b) (map (fd_key b) ps).

Definition ctl_entry (op : CtlOp) (k : Z * Z) (res : CtlResult) : Syscall :=
  sys_epoll_ctl op k.1 k.2 res.

(** An [epoll_ctl] call of kind [op] that the kernel acknowledged. *)
Definition acked (op : CtlOp) (c : Syscall) : bool :=
  match c with
  | sys_epoll_ctl op' _ _ CtlOk => bool_decide (op' = op)
  | _ => false
  end.

Definition count_acked (op : CtlOp) (log : list Syscall) : Z :=
  Z.of_nat (length (List.filter (acked op) log)).

Lemma count_acked_app op l1 l2 :
  count_acked op (l1 ++ l2) = count_acked op l1 + count_acked op l2.
Proof.
  unfold count_acked. rewrite List.filter_app, length_app. lia.
Qed.

Lemma count_acked_nil op : count_acked op [] = 0.
Proof. reflexivity. Qed.

Lemma for_each_map {A B} (g : A → B) (f : B → M unit) (l : list A) :
  for_each (fun x => f (g x)) l = for_each f (map g l).
Proof. induction l as [|x l IH]; simpl; [done | by rewrite IH]. Qed.

Lemma ok_keys_cons b p ps :
  ok_keys b (p :: ps)
  = if decide (key_ok b (fd_key b p)) then fd_key b p :: ok_keys b ps
    else ok_keys b ps.
Proof. unfold ok_keys. simpl. by rewrite filter_cons. Qed.

Section Teardown.
Context (b : World) (tk : TaskPtr) (t : Task) (Hb : settled b).
Implicit Types (m : gmap (Z * Z) (Z * Cookie)) (log : list Syscall)
  (r : Z) (dl : list TaskPtr).

Local Abbreviation LW := (loop_world b tk t).

(** The answer of the kernel to the [EPOLL_CTL_DEL] of key [k]. *)
Definition del_answer m (k : Z * Z) : CtlResult :=
  if decide (key_ok b k) then
    match m !! k with Some _ => CtlOk | None => CtlErr ENOENT end
  else CtlErr EBADF.

Lemma del_one_lw p m log r dl :
  ∃ dl',
    del_one tk p.1 p.2 (LW m log r dl)
    = Ok tt (LW (match del_answer m (fd_key b p) with
                 | CtlOk => delete (fd_key b p) m
                 | CtlErr _ => m
                 end)
               (log ++ [ctl_entry EPOLL_CTL_DEL (fd_key b p)
                          (del_answer m (fd_key b p))])
               (match del_answer m (fd_key b p) with
                | CtlOk => r - 1
                | CtlErr _ => r
                end) dl').
Proof.
  unfold del_one, bind. rewrite ChooseEpoll_lw by done.
  rewrite epoll_ctl_del_lw. unfold del_answer, key_ok, fd_key, ctl_entry. simpl.
  destruct (decide _) as [E|E].
  - rewrite E. destruct (m !! _).
    + rewrite DecrementRef_lw. eauto.
    + eauto.
  - apply not_true_is_false in E. rewrite E. eauto.
Qed.

(** A teardown loop over the pairs [ps].  It drops one reference for each
    acknowledged delete, and adds nothing.  When the admissible keys of
    [ps] are distinct and all registered, each of them is deleted. *)
Lemma teardown_lw ps : ∀ m log r dl,
  ∃ m' delta dl',
    for_each (fun p => del_one tk p.1 p.2) ps (LW m log r dl)
    = Ok tt (LW m' (log ++ delta) (r - count_acked EPOLL_CTL_DEL delta) dl')
    ∧ count_acked EPOLL_CTL_ADD delta = 0
    ∧ (NoDup (ok_keys b ps) →
       (∀ k, k ∈ ok_keys b ps → is_Some (m !! k)) →
       count_acked EPOLL_CTL_DEL delta = Z.of_nat (length (ok_keys b ps))
       ∧ (∀ k, m' !! k = if decide (k ∈ ok_keys b ps) then None else m !! k)
       ∧ delta = map (fun p => ctl_entry EPOLL_CTL_DEL (fd_key b p)
                                 (if decide (key_ok b (fd_key b p))
                                  then CtlOk else CtlErr EBADF)) ps).
Proof.
  induction ps as [|p ps IH]; intros m log r dl.
  - exists m, [], dl. simpl. rewrite app_nil_r, Z.sub_0_r.
    split; [done|]. split; [done|]. intros _ _.
    split; [done|]. split; [|done]. intros k. done.
  - simpl. unfold bind.
    destruct (del_one_lw p m log r dl) as (dl1 & E1). rewrite E1.
    set (a := del_answer m (fd_key b p)) in *.
    set (m1 := match a with CtlOk => delete (fd_key b p) m | CtlErr _ => m end).
    set (r1 := match a with CtlOk => r - 1 | CtlErr _ => r end).
    destruct (IH m1 (log ++ [ctl_entry EPOLL_CTL_DEL (fd_key b p) a]) r1 dl1)
      as (m' & delta & dl' & E2 & Hadd & Hprec).
    exists m', (ctl_entry EPOLL_CTL_DEL (fd_key b p) a :: delta), dl'.
    assert (Hcnt : count_acked EPOLL_CTL_DEL
                     (ctl_entry EPOLL_CTL_DEL (fd_key b p) a :: delta)
                   = (match a with CtlOk => 1 | CtlErr _ => 0 end)
                     + count_acked EPOLL_CTL_DEL delta).
    { change (?x :: delta) with ([x] ++ delta). rewrite count_acked_app.
      f_equal. by destruct a. }
    split.
    { rewrite E2, <- app_assoc. simpl. do 2 f_equal.
      rewrite Hcnt. subst r1. destruct a; lia. }
    split.
    { change (?x :: delta) with ([x] ++ delta). rewrite count_acked_app, Hadd.
      by destruct a. }
    intros Hnd Hin. rewrite ok_keys_cons in Hnd, Hin. rewrite ok_keys_cons.
    subst a m1 r1. unfold del_answer in *.
    destruct (decide (key_ok b (fd_key b p))) as [Hok|Hok].
    + apply NoDup_cons in Hnd as [Hnotin Hnd].
      destruct (Hin (fd_key b p)) as [v Hv]; [by left|].
      rewrite Hv in *.
      destruct Hprec as (Hc & Hm & Hd); [done| |].
      { intros k Hk. rewrite lookup_delete_ne; [apply Hin; by right|].
        intros Heq. by rewrite <- Heq in Hk. }
      split; [rewrite Hcnt, Hc; simpl length; lia|].
      split; [|simpl; by rewrite Hd].
      intros k. rewrite Hm.
      destruct (decide (k ∈ ok_keys b ps)) as [Hk|Hk].
      * rewrite decide_True; [done | by right].
      * destruct (decide (k = fd_key b p)) as [->|Hne].
        -- rewrite decide_True by (by left). apply lookup_delete_eq.
        -- rewrite decide_False; [by apply lookup_delete_ne|].
           intros [?|?]%elem_of_cons; done.
    + destruct Hprec as (Hc & Hm & Hd); [done|done|].
      split; [rewrite Hcnt, Hc; lia|].
      split; [done | simpl; by rewrite Hd].
Qed.

End Teardown.

Section Register.
Context (b : World) (tk : TaskPtr) (t : Task) (Hb : settled b).
Implicit Types (m : gmap (Z * Z) (Z * Cookie)) (log : list Syscall)
  (r : Z) (dl : list TaskPtr).

Local Abbreviation LW := (loop_world b tk t).

(** The pairs whose key the kernel accepts. *)
Definition ok_pairs (ps : list (Z * Z)) : list (Z * Z) :=
  filter (fun p => key_ok b (fd_key b p)) ps.

(** The log entry of an [EPOLL_CTL_ADD] that did not meet a duplicate. *)
Definition add_entry (p : Z * Z) : Syscall :=
  ctl_entry EPOLL_CTL_ADD (fd_key b p)
    (if decide (key_ok b (fd_key b p)) then CtlOk else CtlErr EBADF).

Definition del_entry (p : Z * Z) : Syscall :=
  ctl_entry EPOLL_CTL_DEL (fd_key b p) CtlOk.

Lemma ok_keys_ok_pairs ps : ok_keys b ps = map (fd_key b) (ok_pairs ps).
Proof.
  unfold ok_keys, ok_pairs. induction ps as [|p ps IH]; [done|].
  simpl. rewrite !filter_cons. destruct (decide _); simpl; by rewrite IH.
Qed.

Lemma ok_keys_all ps :
  (∀ k, k ∈ map (fd_key b) ps → key_ok b k) → ok_keys b ps = map (fd_key b) ps.
Proof.
  unfold ok_keys. induction ps as [|p ps IH]; [done|]. simpl. intros H.
  rewrite filter_cons, decide_True by (apply H; by left).
  rewrite IH; [done|]. intros k Hk. apply H. by right.
Qed.

Lemma count_add_entries ps :
  count_acked EPOLL_CTL_ADD (map add_entry ps) = Z.of_nat (length (ok_pairs ps))
  ∧ count_acked EPOLL_CTL_DEL (map add_entry ps) = 0.
Proof.
  unfold ok_pairs. induction ps as [|p ps [IH1 IH2]]; [done|].
  simpl map. change (?x :: map add_entry ps) with ([x] ++ map add_entry ps).
  rewrite !count_acked_app, IH1, IH2, filter_cons. unfold add_entry.
  destruct (decide _); simpl length; unfold count_acked; simpl; split; lia.
Qed.

Lemma count_del_entries ps :
  count_acked EPOLL_CTL_DEL (map del_entry ps) = Z.of_nat (length ps)
  ∧ count_acked EPOLL_CTL_ADD (map del_entry ps) = 0.
Proof.
  induction ps as [|p ps [IH1 IH2]]; [done|].
  simpl map. change (?x :: map del_entry ps) with ([x] ++ map del_entry ps).
  rewrite !count_acked_app, IH1, IH2. unfold count_acked; simpl length.
  split; simpl; lia.
Qed.

(** The registration loop, from any point of its run.  Either every
    remaining entry is registered or skipped, or the loop meets a duplicate
    and rolls back everything on its rollback list. *)
Lemma register_fds_lw fds : ∀ idx ok rb m log r dl,
  NoDup (map (fd_key b) rb) →
  (∀ k, k ∈ map (fd_key b) rb → key_ok b k ∧ is_Some (m !! k)) →
  ∃ ok' m' delta r' dl',
    register_fds tk fds idx ok rb (LW m log r dl)
    = Ok ok' (LW m' (log ++ delta) r' dl')
    ∧ r' = r + count_acked EPOLL_CTL_ADD delta - count_acked EPOLL_CTL_DEL delta
    ∧ ( ( NoDup (ok_keys b (map fdst_pair fds))
          ∧ (∀ k, k ∈ ok_keys b (map fdst_pair fds) → m !! k = None)
          ∧ (∀ k, k ∈ ok_keys b (map fdst_pair fds) → is_Some (m' !! k))
          ∧ (∀ k, k ∉ ok_keys b (map fdst_pair fds) → m' !! k = m !! k)
          ∧ ok' = ok || bool_decide (ok_keys b (map fdst_pair fds) ≠ [])
          ∧ delta = map add_entry (map fdst_pair fds) )
      ∨ ( ok' = false
          ∧ (∀ k, m' !! k = if decide (k ∈ map (fd_key b) rb) then None
                            else m !! k)
          ∧ ∃ pre dup post,
              map fdst_pair fds = pre ++ dup :: post
              ∧ delta = map add_entry pre
                        ++ [ctl_entry EPOLL_CTL_ADD (fd_key b dup) (CtlErr EEXIST)]
                        ++ map del_entry (rb ++ ok_pairs pre)
              ∧ NoDup (ok_keys b pre)
              ∧ (∀ k, k ∈ ok_keys b pre → m !! k = None)
              ∧ key_ok b (fd_key b dup)
              ∧ (is_Some (m !! fd_key b dup) ∨ fd_key b dup ∈ ok_keys b pre) ) ).
Proof.
  induction fds as [|fdst rest IH]; intros idx ok rb m log r dl Hnd Hrb.
  { exists ok, m, [], r, dl. simpl. rewrite app_nil_r.
    split; [done|]. split; [rewrite !count_acked_nil; lia|]. left.
    unfold ok_keys; simpl. repeat split; try done.
    - constructor.
    - intros k Hk. by apply elem_of_nil in Hk.
    - intros k Hk. by apply elem_of_nil in Hk.
    - by destruct ok. }
  set (p := fdst_pair fdst). set (k := fd_key b p).
  cbn [register_fds]. unfold bind at 1. rewrite ChooseEpoll_lw by done.
  unfold bind at 1. rewrite IncrementRef_lw.
  unfold bind at 1. rewrite epoll_ctl_add_lw.
  change (epoll_fd_of (choose_type (event fdst)) (iowait b), fd fdst) with k.
  change (ctl_target_ok (epoll_fd_of (choose_type (event fdst)) (iowait b))
            (fd fdst) (kernel b)) with (ctl_target_ok k.1 k.2 (kernel b)).
  change (sys_epoll_ctl EPOLL_CTL_ADD
            (epoll_fd_of (choose_type (event fdst)) (iowait b)) (fd fdst))
    with (ctl_entry EPOLL_CTL_ADD k).
  simpl map. fold p. rewrite ok_keys_cons. fold k.
  destruct (decide (key_ok b k)) as [Hok|Hok].
  - (* the kernel accepts the descriptors *)
    unfold key_ok in Hok. rewrite Hok.
    destruct (m !! k) as [v|] eqn:Hmk.
    + (* already present: roll back *)
      unfold bind at 1. rewrite DecrementRef_lw.
      rewrite decide_True by done.
      destruct (teardown_lw b tk t Hb rb m
                  (log ++ [ctl_entry EPOLL_CTL_ADD k (CtlErr EEXIST)])
                  (r + 1 - 1)
                  (if decide (r + 1 - 1 = 0) then dl ++ [tk] else dl))
        as (m' & delta & dl' & E & Hadd & Hprec).
      destruct Hprec as (Hc & Hm & Hd).
      { rewrite ok_keys_all; [done|]. intros k' Hk'. by apply Hrb. }
      { rewrite ok_keys_all; [|intros k' Hk'; by apply Hrb].
        intros k' Hk'. by apply Hrb. }
      rewrite ok_keys_all in Hc, Hm by (intros k' Hk'; by apply Hrb).
      assert (Hdelta : delta = map del_entry rb).
      { rewrite Hd. apply map_ext_in. intros q Hq. unfold del_entry.
        rewrite decide_True; [done|]. apply Hrb.
        apply list_elem_of_In in Hq. by apply list_elem_of_fmap_2. }
      exists false, m', ([ctl_entry EPOLL_CTL_ADD k (CtlErr EEXIST)] ++ delta),
        (r + 1 - 1 - count_acked EPOLL_CTL_DEL delta), dl'.
      split.
      { unfold bind. rewrite E. rewrite <- app_assoc. done. }
      split.
      { rewrite !count_acked_app, Hadd.
        change (count_acked EPOLL_CTL_ADD [ctl_entry EPOLL_CTL_ADD k (CtlErr EEXIST)]) with 0.
        change (count_acked EPOLL_CTL_DEL [ctl_entry EPOLL_CTL_ADD k (CtlErr EEXIST)]) with 0.
        lia. }
      right. split; [done|]. split; [done|].
      exists [], p, (map fdst_pair rest). split; [done|].
      split; [simpl; rewrite app_nil_r; by rewrite Hdelta|].
      split; [constructor|].
      split; [intros k' Hk'; by apply elem_of_nil in Hk'|].
      split; [exact Hok|]. left. fold k. rewrite Hmk. eauto.
    + (* registered *)
      destruct (IH (S idx) true (rb ++ [p])
                  (<[k := (Z.lor (event fdst) EPOLLONESHOT, (tk, idx))]> m)
                  (log ++ [ctl_entry EPOLL_CTL_ADD k CtlOk]) (r + 1) dl)
        as (ok' & m' & delta & r' & dl' & E & Hr & Hcase).
      { rewrite map_app. apply NoDup_app. split; [done|]. split.
        - intros k' Hk' Hin. simpl in Hin. apply list_elem_of_singleton in Hin.
          subst k'. destruct (Hrb _ Hk') as [_ [v Hv]]. fold k in Hv. congruence.
        - simpl. apply NoDup_singleton. }
      { intros k' Hk'. rewrite map_app in Hk'. apply elem_of_app in Hk'.
        destruct Hk' as [Hk'|Hk'].
        - destruct (Hrb _ Hk') as [H1 [v Hv]]. split; [done|].
          destruct (decide (k = k')) as [<-|Hne]; [congruence|].
          rewrite lookup_insert_ne by done. eauto.
        - simpl in Hk'. apply list_elem_of_singleton in Hk'. subst k'.
          split; [done|]. fold k. rewrite lookup_insert_eq. eauto. }
      exists ok', m', ([ctl_entry EPOLL_CTL_ADD k CtlOk] ++ delta), r', dl'.
      split; [rewrite <- app_assoc in E; exact E|].
      split.
      { rewrite Hr, !count_acked_app.
        change (count_acked EPOLL_CTL_ADD [ctl_entry EPOLL_CTL_ADD k CtlOk]) with 1.
        change (count_acked EPOLL_CTL_DEL [ctl_entry EPOLL_CTL_ADD k CtlOk]) with 0.
        lia. }
      destruct Hcase as [(Hnd' & Hfresh & Hsome & Hsame & Hok' & Hdelta)
                        |(Hok' & Hm' & pre & dup & post & Hsplit & Hdelta
                          & Hpnd & Hpfr & Hdok & Hdin)].
      * left.
        assert (Hk : k ∉ ok_keys b (map fdst_pair rest)).
        { intros Hin. specialize (Hfresh _ Hin).
          rewrite lookup_insert_eq in Hfresh. done. }
        split; [by constructor|]. split.
        { intros k' [->|Hk']%elem_of_cons; [done|].
          specialize (Hfresh _ Hk').
          destruct (decide (k = k')) as [<-|Hne]; [done|].
          by rewrite lookup_insert_ne in Hfresh. }
        split.
        { intros k' [->|Hk']%elem_of_cons; [|by apply Hsome].
          rewrite Hsame by done. rewrite lookup_insert_eq. eauto. }
        split.
        { intros k' Hk'. apply not_elem_of_cons in Hk' as [Hne Hk'].
          rewrite Hsame by done. by rewrite lookup_insert_ne. }
        split.
        { rewrite Hok'. rewrite (bool_decide_true (_ :: _ ≠ [])) by done.
          by rewrite orb_true_r. }
        simpl. rewrite Hdelta. unfold add_entry at 2. fold k.
        rewrite decide_True by done. done.
      * right. split; [done|]. split.
        { intros k'. rewrite Hm'. rewrite map_app. simpl.
          destruct (decide (k' = k)) as [->|Hne].
          - rewrite decide_True by (apply elem_of_app; right; by left).
            destruct (decide _) as [Hin|_]; [done|]. done.
          - rewrite lookup_insert_ne by done.
            destruct (decide (k' ∈ map (fd_key b) rb)) as [Hin|Hin].
            + rewrite decide_True; [done|]. apply elem_of_app. by left.
            + rewrite decide_False; [done|].
              intros [?|?%list_elem_of_singleton]%elem_of_app; done. }
        exists (p :: pre), dup, post. split; [simpl; by rewrite Hsplit|].
        split.
        { rewrite Hdelta. simpl. unfold add_entry at 2. fold k.
          rewrite decide_True by done. unfold ok_pairs. rewrite filter_cons.
          fold k. rewrite decide_True by done.
          do 3 f_equal. rewrite <- app_assoc. done. }
        rewrite ok_keys_cons. fold k. rewrite decide_True by done.
        assert (Hkp : k ∉ ok_keys b pre).
        { intros Hin. specialize (Hpfr _ Hin).
          by rewrite lookup_insert_eq in Hpfr. }
        split; [by constructor|]. split.
        { intros k' [->|Hk']%elem_of_cons; [done|].
          specialize (Hpfr _ Hk').
          destruct (decide (k = k')) as [<-|Hne]; [done|].
          by rewrite lookup_insert_ne in Hpfr. }
        split; [done|].
        destruct (decide (fd_key b dup = k)) as [->|Hne]; [right; by left|].
        destruct Hdin as [Hdin|Hdin]; [left | right; by right].
        by rewrite lookup_insert_ne in Hdin.
  - (* EBADF: skip the entry *)
    unfold key_ok in Hok. apply not_true_is_false in Hok. rewrite Hok.
    unfold bind at 1. rewrite DecrementRef_lw.
    rewrite decide_False by done.
    destruct (IH (S idx) ok rb m (log ++ [ctl_entry EPOLL_CTL_ADD k (CtlErr EBADF)])
                (r + 1 - 1) (if decide (r + 1 - 1 = 0) then dl ++ [tk] else dl)
                Hnd Hrb)
      as (ok' & m' & delta & r' & dl' & E & Hr & Hcase).
    exists ok', m', ([ctl_entry EPOLL_CTL_ADD k (CtlErr EBADF)] ++ delta), r', dl'.
    split; [rewrite <- app_assoc in E; exact E|].
    split.
    { rewrite Hr, !count_acked_app.
      change (count_acked EPOLL_CTL_ADD [ctl_entry EPOLL_CTL_ADD k (CtlErr EBADF)]) with 0.
      change (count_acked EPOLL_CTL_DEL [ctl_entry EPOLL_CTL_ADD k (CtlErr EBADF)]) with 0.
      lia. }
    assert (Hnk : ¬ key_ok b k) by (unfold key_ok; by rewrite Hok).
    destruct Hcase as [(Hnd' & Hfresh & Hsome & Hsame & Hok' & Hdelta)
                      |(Hok' & Hm' & pre & dup & post & Hsplit & Hdelta
                        & Hpnd & Hpfr & Hdok & Hdin)].
    + left. repeat split; try done.
      simpl. rewrite Hdelta. unfold add_entry at 2. fold k.
      by rewrite decide_False.
    + right. split; [done|]. split; [done|].
      exists (p :: pre), dup, post. split; [simpl; by rewrite Hsplit|].
      split.
      { rewrite Hdelta. simpl. unfold add_entry at 2. fold k.
        rewrite decide_False by done. unfold ok_pairs. rewrite filter_cons.
        fold k. by rewrite decide_False. }
      rewrite ok_keys_cons. fold k. by rewrite decide_False.
Qed.

End Register.

(** [CreateEpoll] reads the scheduler for its option only and leaves the
    wait-set alone: changes of the two commute with it. *)
Lemma CreateEpoll_frame w s' S :
  opt_epoll_event_size s' = opt_epoll_event_size (sched w) →
  CreateEpoll (set_iowait (i_set_wait_tasks S (iowait w)) (set_sched s' w))
  = match CreateEpoll w with
    | Ok a w' => Ok a (set_iowait (i_set_wait_tasks S (iowait w')) (set_sched s' w'))
    | Fail e => Fail e
    end.
Proof.
  intros Hopt.
  unfold CreateEpoll, bind, getpid, gets. simpl.
  destruct (decide _) as [e|_]; [reflexivity|].
  unfold upd_iowait, modify, for_each, CreateEpoll_one, bind, gets, close,
    upd_kernel, modify, epoll_create, upd_iowait, kernel_epoll_create. simpl.
  rewrite Hopt.
  repeat (first [ reflexivity
                | destruct (decide (_ ≠ -1)); simpl
                | destruct (_ && _); simpl ]).
Qed.

Lemma created_frame w s' S :
  opt_epoll_event_size s' = opt_epoll_event_size (sched w) →
  created (set_iowait (i_set_wait_tasks S (iowait w)) (set_sched s' w))
  = set_iowait (i_set_wait_tasks S (iowait (created w))) (set_sched s' (created w)).
Proof.
  intros H. unfold created. rewrite CreateEpoll_frame by done.
  by destruct (CreateEpoll w).
Qed.

Lemma epoll_usable_frame w s' S :
  opt_epoll_event_size s' = opt_epoll_event_size (sched w) →
  epoll_usable w →
  epoll_usable (set_iowait (i_set_wait_tasks S (iowait w)) (set_sched s' w)).
Proof.
  intros H [Hs|(H1 & H2 & H3)]; [by left | right].
  unfold can_create. simpl. by rewrite H.
Qed.

(** ** Single steps on an arbitrary world *)

(** The world with the task at address [tk] replaced. *)
Definition with_task (tk : TaskPtr) (t : Task) (w : World) : World :=
  set_sched (s_set_heap (<[tk := t]> (heap (sched w))) (sched w)) w.

Lemma get_task_ok tk t w :
  heap (sched w) !! tk = Some t → get_task tk w = Ok t w.
Proof. intros H. unfold get_task. by rewrite H. Qed.

Lemma modify_task_ok tk t f w :
  heap (sched w) !! tk = Some t →
  modify_task tk f w = Ok tt (with_task tk (f t) w).
Proof. intros H. unfold modify_task, bind. by rewrite (get_task_ok _ _ _ H). Qed.

Lemma heap_with_task tk t w :
  heap (sched (with_task tk t w)) !! tk = Some t.
Proof. simpl. apply lookup_insert_eq. Qed.

Lemma with_task_twice tk t t' w :
  with_task tk t' (with_task tk t w) = with_task tk t' w.
Proof.
  unfold with_task, set_sched, s_set_heap. simpl. by rewrite insert_insert_eq.
Qed.

Lemma IncrementRef_ok tk t w :
  heap (sched w) !! tk = Some t →
  IncrementRef tk w = Ok tt (with_task tk (t_set_ref_count (ref_count_ t + 1) t) w).
Proof. intros H. unfold IncrementRef. by rewrite (modify_task_ok _ _ _ _ H). Qed.

Lemma DecrementRef_ok tk t w :
  heap (sched w) !! tk = Some t →
  ∃ dl,
    DecrementRef tk w
    = Ok tt (set_sched
               (s_set_delete_list dl
                  (sched (with_task tk (t_set_ref_count (ref_count_ t - 1) t) w)))
               (with_task tk (t_set_ref_count (ref_count_ t - 1) t) w)).
Proof.
  intros H. unfold DecrementRef, bind. rewrite (get_task_ok _ _ _ H).
  unfold put_task, upd_sched, modify. fold (with_task tk (t_set_ref_count (ref_count_ t - 1) t) w).
  destruct (decide _).
  - eexists. reflexivity.
  - exists (delete_list (sched w)). reflexivity.
Qed.

(** ** [CoSwitch] *)

(** The task as [CoSwitch] leaves it before it yields. *)
Definition blocked (tk : TaskPtr) (t : Task) (fdsts : list FdStruct)
    (timeout_ms : Z) : Task :=
  let G := wrap32 (io_block_id_ (io_wait_data_ t) + 1) in
  {| id_ := id_ t; state_ := io_block; ref_count_ := ref_count_ t;
     io_wait_data_ := {| io_block_id_ := G;
                         wait_fds_ := map (stamp tk G) fdsts;
                         wait_successful_ := 0;
                         io_block_timeout_ := timeout_ms;
                         io_block_timer_ := None |} |}.

(** The world after one more [CoYield]. *)
Definition yielded (w : World) : World :=
  set_sched (s_set_yields (S (yields (sched w))) (sched w)) w.

Lemma CoSwitch_no_task fdsts timeout_ms w :
  current_task (sched w) = None → CoSwitch fdsts timeout_ms w = Ok fdsts w.
Proof.
  intros H. unfold CoSwitch, bind, GetCurrentTask, gets. by rewrite H.
Qed.

Lemma CoSwitch_ok fdsts timeout_ms tk t w :
  current_task (sched w) = Some tk →
  heap (sched w) !! tk = Some t →
  CoSwitch fdsts timeout_ms w
  = Ok (wait_fds_ (io_wait_data_ t))
       (yielded (with_task tk (blocked tk t fdsts timeout_ms) w)).
Proof.
  intros Hcur Hheap. unfold CoSwitch, GetCurrentTask, gets.
  unfold bind at 1. rewrite Hcur.
  unfold bind at 1. rewrite (get_task_ok _ _ _ Hheap).
  unfold bind at 1. rewrite (modify_task_ok _ _ _ _ Hheap).
  do 4 (unfold bind at 1;
        rewrite (modify_task_ok _ _ _ _ (heap_with_task _ _ _)), with_task_twice).
  unfold bind at 1. rewrite (get_task_ok _ _ _ (heap_with_task _ _ _)).
  do 2 (unfold bind at 1;
        rewrite (modify_task_ok _ _ _ _ (heap_with_task _ _ _)), with_task_twice).
  reflexivity.
Qed.

(** ** [SchedulerSwitch] *)

Lemma created_facts w :
  epoll_usable w →
  settled (created w) ∧
  sched (created w) = sched w ∧
  k_pid (kernel (created w)) = k_pid (kernel w) ∧
  k_now (kernel (created w)) = k_now (kernel w) ∧
  wait_tasks_ (iowait (created w)) = wait_tasks_ (iowait w) ∧
  timer_mgr_ (iowait (created w)) = timer_mgr_ (iowait w) ∧
  timer_seq_ (iowait (created w)) = timer_seq_ (iowait w) ∧
  timeout_list_ (iowait (created w)) = timeout_list_ (iowait w).
Proof.
  intros [H|H].
  - rewrite created_settled_id by done. done.
  - destruct (CreateEpoll_can_create w H)
      as (w' & E & Hs & H1 & H2 & H3 & H4 & H5 & H6 & H7 & _).
    unfold created. rewrite E. done.
Qed.

Lemma created_log w :
  epoll_usable w →
  ∃ cl, k_log (kernel (created w)) = k_log (kernel w) ++ cl ∧ Forall not_ctl cl.
Proof.
  intros [H|H].
  - rewrite created_settled_id by done. exists []. by rewrite app_nil_r.
  - destruct (CreateEpoll_can_create w H) as (w' & E & _ & _ & _ & _ & _ & _ & _ & _ & _ & _ & Hl).
    unfold created. by rewrite E.
Qed.

Lemma count_rollback_log b pre dup okp :
  let delta := map (add_entry b) pre
               ++ [ctl_entry EPOLL_CTL_ADD (fd_key b dup) (CtlErr EEXIST)]
               ++ map (del_entry b) okp in
  count_acked EPOLL_CTL_ADD delta = Z.of_nat (length (ok_pairs b pre))
  ∧ count_acked EPOLL_CTL_DEL delta = Z.of_nat (length okp).
Proof.
  intros delta. subst delta. rewrite !count_acked_app.
  destruct (count_add_entries b pre) as [-> ->].
  destruct (count_del_entries b okp) as [-> ->].
  unfold count_acked. simpl. lia.
Qed.

Lemma register_fds_created tk fdst rest idx ok rb w :
  epoll_usable w →
  register_fds tk (fdst :: rest) idx ok rb w
  = register_fds tk (fdst :: rest) idx ok rb (created w).
Proof.
  intros H. destruct (ChooseEpoll_usable (event fdst) w H) as [E Hs].
  cbn [register_fds]. unfold bind.
  rewrite E. by rewrite (ChooseEpoll_settled _ _ Hs).
Qed.

Lemma teardown_created tk p ps w :
  epoll_usable w →
  for_each (fun p => del_one tk p.1 p.2) (p :: ps) w
  = for_each (fun p => del_one tk p.1 p.2) (p :: ps) (created w).
Proof.
  intros H. destruct (ChooseEpoll_usable p.2 w H) as [E Hs].
  cbn [for_each]. unfold del_one, bind.
  rewrite E. by rewrite (ChooseEpoll_settled _ _ Hs).
Qed.

(** The world whose epoll state the loops over [fds] start from: they
    create the instances at their first round, if they have one. *)
Definition pre_reg (w : World) (fds : list FdStruct) : World :=
  match fds with [] => w | _ :: _ => created w end.

Definition pairs_of (t : Task) : list (Z * Z) :=
  map fdst_pair (wait_fds_ (io_wait_data_ t)).

(** The timer [SchedulerSwitch] arms for the block of [t] in world [w]. *)
Definition block_timer (tk : TaskPtr) (t : Task) (w : World) : CoTimer :=
  {| timer_id := timer_seq_ (iowait w);
     deadline := k_now (kernel w) + io_block_timeout_ (io_wait_data_ t);
     cb_tk := tk; cb_id := io_block_id_ (io_wait_data_ t);
     cb_task_id := id_ t |}.

Lemma task_ext (t t' : Task) :
  id_ t = id_ t' → state_ t = state_ t' → ref_count_ t = ref_count_ t' →
  io_block_id_ (io_wait_data_ t) = io_block_id_ (io_wait_data_ t') →
  wait_fds_ (io_wait_data_ t) = wait_fds_ (io_wait_data_ t') →
  wait_successful_ (io_wait_data_ t) = wait_successful_ (io_wait_data_ t') →
  io_block_timeout_ (io_wait_data_ t) = io_block_timeout_ (io_wait_data_ t') →
  io_block_timer_ (io_wait_data_ t) = io_block_timer_ (io_wait_data_ t') →
  t = t'.
Proof.
  destruct t as [? ? ? []], t' as [? ? ? []]. simpl. by intros -> -> -> -> -> -> -> ->.
Qed.

Lemma SchedulerSwitch_spec tk t w :
  heap (sched w) !! tk = Some t →
  (wait_fds_ (io_wait_data_ t) ≠ [] → epoll_usable w) →
  let b := pre_reg w (wait_fds_ (io_wait_data_ t)) in
  ∃ w' delta r' o,
    SchedulerSwitch tk w = Ok tt w'
    ∧ heap (sched w')
      = <[tk := t_upd_data (d_set_io_block_timer o) (t_set_ref_count r' t)]>
          (heap (sched w))
    ∧ k_log (kernel w') = k_log (kernel b) ++ delta
    ∧ epoll_fds_ (iowait w') = epoll_fds_ (iowait b)
    ∧ k_epolls (kernel w') = k_epolls (kernel b)
    ∧ k_files (kernel w') = k_files (kernel b)
    ∧ k_pid (kernel w') = k_pid (kernel w)
    ∧ epoll_owner_pid_ (iowait w') = epoll_owner_pid_ (iowait b)
    ∧ (wait_fds_ (io_wait_data_ t) ≠ [] → settled b ∧ settled w')
    ∧ r' = ref_count_ t + count_acked EPOLL_CTL_ADD delta
           - count_acked EPOLL_CTL_DEL delta
           + (Z.of_nat (length (timer_mgr_ (iowait w')))
              - Z.of_nat (length (timer_mgr_ (iowait w))))
    ∧ ( ( wait_tasks_ (iowait w') = wait_tasks_ (iowait w) ∖ {[tk]}
          ∧ run_queue (sched w') = run_queue (sched w) ++ [tk]
          ∧ timer_mgr_ (iowait w') = timer_mgr_ (iowait w)
          ∧ r' = ref_count_ t ∧ o = io_block_timer_ (io_wait_data_ t)
          ∧ k_interest (kernel w') = k_interest (kernel b)
          ∧ ( (ok_keys b (pairs_of t) = [] ∧ delta = map (add_entry b) (pairs_of t))
              ∨ (∃ pre dup post,
                    pairs_of t = pre ++ dup :: post
                    ∧ delta = map (add_entry b) pre
                              ++ [ctl_entry EPOLL_CTL_ADD (fd_key b dup) (CtlErr EEXIST)]
                              ++ map (del_entry b) (ok_pairs b pre)
                    ∧ NoDup (ok_keys b pre)
                    ∧ (∀ k, k ∈ ok_keys b pre → k_interest (kernel b) !! k = None)
                    ∧ key_ok b (fd_key b dup)
                    ∧ (is_Some (k_interest (kernel b) !! fd_key b dup)
                       ∨ fd_key b dup ∈ ok_keys b pre)) ) )
      ∨ ( wait_tasks_ (iowait w') = {[tk]} ∪ wait_tasks_ (iowait w)
          ∧ run_queue (sched w') = run_queue (sched w)
          ∧ NoDup (ok_keys b (pairs_of t))
          ∧ ok_keys b (pairs_of t) ≠ []
          ∧ (∀ k, k ∈ ok_keys b (pairs_of t) →
                  k_interest (kernel b) !! k = None
                  ∧ is_Some (k_interest (kernel w') !! k))
          ∧ (∀ k, k ∉ ok_keys b (pairs_of t) →
                  k_interest (kernel w') !! k = k_interest (kernel b) !! k)
          ∧ delta = map (add_entry b) (pairs_of t)
          ∧ ( ( io_block_timeout_ (io_wait_data_ t) = -1
                ∧ timer_mgr_ (iowait w') = timer_mgr_ (iowait w)
                ∧ o = io_block_timer_ (io_wait_data_ t)
                ∧ r' = ref_count_ t + Z.of_nat (length (ok_keys b (pairs_of t))) )
              ∨ ( io_block_timeout_ (io_wait_data_ t) ≠ -1
                  ∧ timer_mgr_ (iowait w')
                    = timer_mgr_ (iowait w) ++ [block_timer tk t w]
                  ∧ o = Some (timer_seq_ (iowait w))
                  ∧ r' = ref_count_ t
                         + Z.of_nat (length (ok_keys b (pairs_of t))) + 1 ) ) ) ).
Proof.
  intros Hheap Huse0 b.
  unfold SchedulerSwitch.
  unfold bind at 1. rewrite (get_task_ok _ _ _ Hheap).
  unfold bind at 1. rewrite (IncrementRef_ok _ _ _ Hheap).
  unfold bind at 1. unfold wait_tasks_push at 1, upd_iowait, modify.
  set (t1 := t_set_ref_count (ref_count_ t + 1) t).
  set (w1 := set_iowait _ (with_task tk t1 w)).
  assert (Hh1 : heap (sched w1) !! tk = Some t1) by apply lookup_insert_eq.
  assert (Hin1 : tk ∈ wait_tasks_ (iowait w1)) by (simpl; set_solver).
  destruct (wait_fds_ (io_wait_data_ t)) as [|fdst rest] eqn:Hfds.
  - (* nothing to register *)
    cbn [register_fds]. unfold bind at 1, ret at 1. cbn [negb].
    unfold bind at 1. unfold bind at 1, wait_tasks_erase.
    rewrite decide_True by done.
    unfold AddTaskRunnable at 1, upd_sched, modify.
    match goal with |- context [DecrementRef tk ?x] => set (w2 := x) end.
    assert (Hh2 : heap (sched w2) !! tk = Some t1) by apply lookup_insert_eq.
    destruct (DecrementRef_ok tk t1 w2 Hh2) as [dl E]. rewrite E.
    eexists _, [], (ref_count_ t), (io_block_timer_ (io_wait_data_ t)).
    split; [reflexivity|]. subst b. simpl.
    split.
    { rewrite insert_insert_eq. f_equal. apply task_ext; simpl; try done. lia. }
    split; [by rewrite app_nil_r|]. do 6 (split; [done|]).
    split; [rewrite !count_acked_nil; lia|].
    left. split; [set_solver|]. do 5 (split; [done|]).
    left. unfold pairs_of. by rewrite Hfds.
  - (* at least one entry: the first round creates the instances *)
    assert (Huse : epoll_usable w) by (by apply Huse0).
    assert (Huse1 : epoll_usable w1).
    { apply (epoll_usable_frame w (s_set_heap (<[tk:=t1]> (heap (sched w))) (sched w))
               ({[tk]} ∪ wait_tasks_ (iowait w))); done. }
    unfold bind at 1. rewrite (register_fds_created _ _ _ _ _ _ _ Huse1).
    destruct (ChooseEpoll_usable 0 w Huse) as [_ Hsb].
    subst b. cbn [pre_reg]. set (b := created w) in *.
    assert (Eb1 : created w1
                  = set_iowait (i_set_wait_tasks ({[tk]} ∪ wait_tasks_ (iowait w))
                                  (iowait b))
                      (set_sched (s_set_heap (<[tk:=t1]> (heap (sched w))) (sched w)) b)).
    { apply (created_frame w (s_set_heap (<[tk:=t1]> (heap (sched w))) (sched w))
               ({[tk]} ∪ wait_tasks_ (iowait w))). done. }
    rewrite Eb1. clear Eb1.
    match goal with |- context [register_fds _ _ _ _ _ ?x] => set (b1 := x) end.
    assert (Hsb1 : settled b1) by exact Hsb.
    assert (Hhb1 : heap (sched b1) !! tk = Some t1) by apply lookup_insert_eq.
    destruct (register_fds_lw b1 tk t1 Hsb1 (fdst :: rest) 0 false []
                (k_interest (kernel b1)) (k_log (kernel b1)) (ref_count_ t1)
                (delete_list (sched b1)))
      as (ok' & m' & delta & r' & dl' & E & Hr & Hcase).
    { constructor. }
    { intros k Hk. by apply elem_of_nil in Hk. }
    rewrite (loop_world_self b1 tk t1 Hhb1) in E.
    rewrite E. clear E.
    destruct (created_facts w Huse) as (_ & Fs & Fpid & Fnow & Fwt & Ftm & Fts & Ftl).
    fold b in Fs, Fpid, Fnow, Fwt, Ftm, Fts, Ftl.
    change (ok_keys b1) with (ok_keys b) in Hcase.
    change (kernel b1) with (kernel b) in Hcase.
    change (add_entry b1) with (add_entry b) in Hcase.
    change (del_entry b1) with (del_entry b) in Hcase.
    change (ok_pairs b1) with (ok_pairs b) in Hcase.
    change (fd_key b1) with (fd_key b) in Hcase.
    change (map fdst_pair (fdst :: rest)) with (map fdst_pair (fdst :: rest)) in Hcase.
    replace (map fdst_pair (fdst :: rest)) with (pairs_of t) in Hcase
      by (unfold pairs_of; by rewrite Hfds).
    change (ref_count_ t1) with (ref_count_ t + 1) in Hr.
    destruct ok'; cbn [negb].
    + (* registered *)
      destruct Hcase as [(Hnd' & Hfresh & Hsome & Hsame & Hok' & Hdelta)
                        |(Hok' & _)]; [|done].
      symmetry in Hok'. rewrite orb_false_l in Hok'.
      apply bool_decide_eq_true in Hok'.
      assert (Hr' : r' = ref_count_ t + 1
                         + Z.of_nat (length (ok_keys b (pairs_of t)))).
      { rewrite Hr, Hdelta.
        destruct (count_add_entries b (pairs_of t)) as [-> ->].
        rewrite ok_keys_ok_pairs, length_map. lia. }
      unfold bind at 1. unfold bind at 1. rewrite get_task_lw.
      cbn [io_block_timeout_ io_wait_data_ t_set_ref_count t1].
      destruct (decide (io_block_timeout_ (io_wait_data_ t) ≠ -1)) as [Hto|Hto].
      * (* arm the timer *)
        unfold bind at 1. rewrite IncrementRef_lw.
        unfold bind at 1. unfold ExpireAt at 1.
        match goal with |- context [modify_task tk ?f ?x] => set (w2 := x) end.
        assert (Hh2 : heap (sched w2) !! tk = Some (t_set_ref_count (r' + 1) t1))
          by apply lookup_insert_eq.
        rewrite (modify_task_ok _ _ _ _ Hh2).
        match goal with
        | |- context [DecrementRef tk (with_task tk ?tt ?ww)] =>
            destruct (DecrementRef_ok tk tt (with_task tk tt ww)
                        (heap_with_task tk tt ww)) as [dl E]
        end.
        rewrite E. clear E.
        eexists _, delta, (r' + 1 - 1), (Some (timer_seq_ (iowait w))).
        split; [reflexivity|]. simpl.
        split.
        { by rewrite !insert_insert_eq, Fts. }
        do 4 (split; [done|]). split; [done|]. split; [done|].
        split; [done|].
        split; [rewrite length_app, Ftm; simpl; lia|].
        right. do 2 (split; [done|]). split; [done|]. split; [done|].
        split; [intros k Hk; split; [by apply Hfresh | by apply Hsome]|].
        split; [done|]. split; [done|].
        right. split; [done|]. split.
        { rewrite Ftm. unfold block_timer. by rewrite Fts, Fnow. }
        split; [done|]. lia.
      * (* no timeout *)
        unfold ret at 1.
        assert (Hh2 : heap (sched (loop_world b1 tk t1 m' (k_log (kernel b1) ++ delta) r' dl'))
                      !! tk = Some (t_set_ref_count r' t1))
          by apply lookup_insert_eq.
        destruct (DecrementRef_ok tk _ _ Hh2) as [dl E].
        rewrite E. clear E.
        eexists _, delta, (r' - 1), (io_block_timer_ (io_wait_data_ t)).
        split; [reflexivity|]. simpl.
        split.
        { rewrite !insert_insert_eq. f_equal. by apply task_ext. }
        do 4 (split; [done|]). split; [done|]. split; [done|].
        split; [done|].
        split; [rewrite Ftm; lia|].
        right. do 2 (split; [done|]). split; [done|]. split; [done|].
        split; [intros k Hk; split; [by apply Hfresh | by apply Hsome]|].
        split; [done|]. split; [done|].
        left. split; [by apply dec_stable|]. split; [done|]. split; [done|]. lia.
    + (* nothing registered, or rolled back *)
      unfold bind at 1. unfold bind at 1, wait_tasks_erase.
      rewrite decide_True by (simpl; set_solver).
      unfold AddTaskRunnable at 1, upd_sched, modify.
      match goal with |- context [DecrementRef tk ?x] => set (w2 := x) end.
      assert (Hh2 : heap (sched w2) !! tk = Some (t_set_ref_count r' t1))
        by apply lookup_insert_eq.
      destruct (DecrementRef_ok tk _ w2 Hh2) as [dl E]. rewrite E. clear E.
      eexists _, delta, (r' - 1), (io_block_timer_ (io_wait_data_ t)).
      split; [reflexivity|]. simpl.
      assert (Hm' : m' = k_interest (kernel b) ∧ r' = ref_count_ t + 1
                    ∧ ( (ok_keys b (pairs_of t) = [] ∧ delta = map (add_entry b) (pairs_of t))
              ∨ (∃ pre dup post,
                    pairs_of t = pre ++ dup :: post
                    ∧ delta = map (add_entry b) pre
                              ++ [ctl_entry EPOLL_CTL_ADD (fd_key b dup) (CtlErr EEXIST)]
                              ++ map (del_entry b) (ok_pairs b pre)
                    ∧ NoDup (ok_keys b pre)
                    ∧ (∀ k, k ∈ ok_keys b pre → k_interest (kernel b) !! k = None)
                    ∧ key_ok b (fd_key b dup)
                    ∧ (is_Some (k_interest (kernel b) !! fd_key b dup)
                       ∨ fd_key b dup ∈ ok_keys b pre)) )).
      { destruct Hcase as [(Hnd' & Hfresh & Hsome & Hsame & Hok' & Hdelta)
                          |(Hok' & Hm' & pre & dup & post & Hsplit & Hdelta & Hmore)].
        - symmetry in Hok'. rewrite orb_false_l in Hok'.
          apply bool_decide_eq_false in Hok'.
          assert (Hnil : ok_keys b (pairs_of t) = []).
          { destruct (ok_keys b (pairs_of t)); [done|]. exfalso. by apply Hok'. }
          split; [|split; [|left; done]].
          + apply map_eq. intros k. apply Hsame. rewrite Hnil. apply not_elem_of_nil.
          + rewrite Hr, Hdelta.
            destruct (count_add_entries b (pairs_of t)) as [-> ->].
            rewrite <- (length_map (fd_key b)), <- ok_keys_ok_pairs, Hnil. simpl. lia.
        - split; [|split; [|right; exists pre, dup, post; by split]].
          + apply map_eq. intros k. rewrite Hm'. done.
          + rewrite Hr, Hdelta.
            destruct (count_rollback_log b pre dup ([] ++ ok_pairs b pre)) as [-> ->].
            simpl. lia. }
      destruct Hm' as (-> & -> & Hd). clear Hcase.
      split.
      { rewrite !insert_insert_eq. f_equal. apply task_ext; simpl; try done. }
      do 4 (split; [done|]). split; [done|]. split; [done|].
      split; [done|].
      split; [rewrite Ftm; lia|].
      left. split; [set_solver|]. split; [done|]. split; [done|].
      split; [lia|]. split; [done|]. split; [done|].
      destruct Hd as [Hd|(pre & dup & post & Hd1 & Hd2 & Hmore)]; [by left|].
      right. exists pre, dup, post. split; [done|]. by rewrite Hd2.
Qed.

(** ** [Cancel] *)

Lemma CreateEpoll_frame_wait_tasks w S :
  CreateEpoll (set_iowait (i_set_wait_tasks S (iowait w)) w)
  = match CreateEpoll w with
    | Ok a w' => Ok a (set_iowait (i_set_wait_tasks S (iowait w')) w')
    | Fail e => Fail e
    end.
Proof.
  unfold CreateEpoll, bind, getpid, gets. simpl.
  destruct (decide _) as [e|_]; [reflexivity|].
  unfold upd_iowait, modify, for_each, CreateEpoll_one, bind, gets, close,
    upd_kernel, modify, epoll_create, upd_iowait, kernel_epoll_create. simpl.
  repeat (first [ reflexivity
                | destruct (decide (_ ≠ -1)); simpl
                | destruct (_ && _); simpl ]).
Qed.

Lemma created_frame_wait_tasks w S :
  created (set_iowait (i_set_wait_tasks S (iowait w)) w)
  = set_iowait (i_set_wait_tasks S (iowait (created w))) (created w).
Proof.
  unfold created. rewrite CreateEpoll_frame_wait_tasks.
  by destruct (CreateEpoll w).
Qed.

Lemma Cancel_stale tk t id w :
  heap (sched w) !! tk = Some t →
  io_block_id_ (io_wait_data_ t) ≠ id →
  Cancel tk id w = Ok tt w.
Proof.
  intros Hheap Hid. unfold Cancel, bind. rewrite (get_task_ok _ _ _ Hheap).
  by rewrite decide_True.
Qed.

Lemma Cancel_lost tk t id w :
  heap (sched w) !! tk = Some t →
  tk ∉ wait_tasks_ (iowait w) →
  Cancel tk id w = Ok tt w.
Proof.
  intros Hheap Hout. unfold Cancel, bind. rewrite (get_task_ok _ _ _ Hheap).
  destruct (decide _); [done|].
  unfold wait_tasks_erase. by rewrite decide_False.
Qed.

Lemma Cancel_won tk t w :
  heap (sched w) !! tk = Some t →
  tk ∈ wait_tasks_ (iowait w) →
  (wait_fds_ (io_wait_data_ t) ≠ [] → epoll_usable w) →
  let b := pre_reg w (wait_fds_ (io_wait_data_ t)) in
  ∃ w' delta r',
    Cancel tk (io_block_id_ (io_wait_data_ t)) w = Ok tt w'
    ∧ heap (sched w') = <[tk := t_set_ref_count r' t]> (heap (sched w))
    ∧ wait_tasks_ (iowait w') = wait_tasks_ (iowait w) ∖ {[tk]}
    ∧ run_queue (sched w') = run_queue (sched w) ++ [tk]
    ∧ timer_mgr_ (iowait w') = timer_mgr_ (iowait w)
    ∧ k_log (kernel w') = k_log (kernel b) ++ delta
    ∧ epoll_fds_ (iowait w') = epoll_fds_ (iowait b)
    ∧ k_epolls (kernel w') = k_epolls (kernel b)
    ∧ k_files (kernel w') = k_files (kernel b)
    ∧ k_pid (kernel w') = k_pid (kernel w)
    ∧ epoll_owner_pid_ (iowait w') = epoll_owner_pid_ (iowait b)
    ∧ r' = ref_count_ t - count_acked EPOLL_CTL_DEL delta
    ∧ count_acked EPOLL_CTL_ADD delta = 0
    ∧ (NoDup (ok_keys b (pairs_of t)) →
       (∀ k, k ∈ ok_keys b (pairs_of t) → is_Some (k_interest (kernel b) !! k)) →
       r' = ref_count_ t - Z.of_nat (length (ok_keys b (pairs_of t)))
       ∧ (∀ k, k_interest (kernel w') !! k
               = if decide (k ∈ ok_keys b (pairs_of t)) then None
                 else k_interest (kernel b) !! k))
    ∧ (epoll_usable w → epoll_usable w')
    ∧ timeout_list_ (iowait w') = timeout_list_ (iowait w).
Proof.
  intros Hheap Hin Huse0 b.
  unfold Cancel. unfold bind at 1. rewrite (get_task_ok _ _ _ Hheap).
  rewrite decide_False by (intros H; by apply H).
  unfold bind at 1, wait_tasks_erase. rewrite decide_True by done.
  set (w1 := set_iowait _ w).
  assert (Hh1 : heap (sched w1) !! tk = Some t) by exact Hheap.
  unfold bind at 1. rewrite (get_task_ok _ _ _ Hh1).
  change (fun fdst => del_one tk (fd fdst) (event fdst))
    with (fun fdst => (fun p => del_one tk p.1 p.2) (fdst_pair fdst)).
  rewrite for_each_map. fold (pairs_of t).
  unfold AddTaskRunnable, upd_sched, modify.
  destruct (wait_fds_ (io_wait_data_ t)) as [|fdst rest] eqn:Hfds.
  - unfold pairs_of. rewrite Hfds. simpl. unfold bind, ret.
    eexists _, [], (ref_count_ t). split; [reflexivity|]. subst b. simpl.
    split.
    { symmetry. apply insert_id. rewrite Hheap. f_equal. by apply task_ext. }
    do 3 (split; [done|]). split; [by rewrite app_nil_r|].
    do 5 (split; [done|]). split; [rewrite count_acked_nil; lia|].
    split; [done|]. split; [intros _ _; split; [lia|]; done|].
    split; [|done]. intros [H|H]; [by left | by right].
  - assert (Huse : epoll_usable w) by (by apply Huse0).
    assert (Huse1 : epoll_usable w1).
    { destruct Huse as [H|H]; [by left | by right]. }
    assert (Hp : pairs_of t = fdst_pair fdst :: map fdst_pair rest)
      by (unfold pairs_of; by rewrite Hfds).
    unfold bind at 1. rewrite Hp.
    rewrite (teardown_created _ _ _ _ Huse1). rewrite <- Hp.
    destruct (created_facts w Huse) as (Hsb & Fs & Fpid & Fnow & Fwt & Ftm & Fts & Ftl).
    subst b. cbn [pre_reg]. set (b := created w) in *.
    unfold w1. rewrite created_frame_wait_tasks. fold b.
    match goal with |- context [for_each _ _ ?x] => set (b1 := x) end.
    assert (Hsb1 : settled b1) by exact Hsb.
    assert (Hhb1 : heap (sched b1) !! tk = Some t) by (simpl; by rewrite Fs).
    destruct (teardown_lw b1 tk t Hsb1 (pairs_of t)
                (k_interest (kernel b1)) (k_log (kernel b1)) (ref_count_ t)
                (delete_list (sched b1)))
      as (m' & delta & dl' & E & Hadd & Hprec).
    rewrite (loop_world_self b1 tk t Hhb1) in E. rewrite E. clear E.
    change (ok_keys b1) with (ok_keys b) in Hprec.
    change (kernel b1) with (kernel b) in Hprec.
    eexists _, delta, _. split; [reflexivity|]. simpl.
    rewrite Fs. do 5 (split; [done|]).
    do 5 (split; [done|]). split; [done|]. split; [done|].
    split.
    { intros Hnd Hsome. destruct (Hprec Hnd Hsome) as (Hc & Hm & _).
      split; [lia|]. exact Hm. }
    split; [|done]. intros _. left. exact Hsb.
Qed.

(** * The protocol as the scheduler drives it *)

(** Modelled from the spec: a task that blocks calls [CoSwitch], and the
    scheduler that regains control at the yield calls [SchedulerSwitch] on
    that task (the caller lives in the scheduler's sources, which are not at
    hand). *)
Definition block_call (tk : TaskPtr) (fdsts : list FdStruct) (timeout_ms : Z)
  : M unit :=
  CoSwitch fdsts timeout_ms;; SchedulerSwitch tk.

Definition task_at (tk : TaskPtr) (w : World) : option Task :=
  heap (sched w) !! tk.

Definition ref_at (tk : TaskPtr) (w : World) : option Z :=
  ref_count_ <$> task_at tk w.

Lemma pairs_of_blocked tk t fdsts timeout_ms :
  pairs_of (blocked tk t fdsts timeout_ms) = map fdst_pair fdsts.
Proof.
  unfold pairs_of, blocked. simpl. rewrite map_map. by apply map_ext.
Qed.

Lemma land_EPOLLIN_testbit ev :
  Z.land ev EPOLLIN ≠ 0 ↔ Z.testbit ev 0 = true.
Proof.
  unfold EPOLLIN. change 1 with (Z.ones 1). rewrite Z.land_ones by lia.
  change (2 ^ 1) with 2. rewrite <- Z.bit0_mod.
  destruct (Z.testbit ev 0); simpl; split; (done || lia).
Qed.

(** * Claims *)

(** C3 — Stale-generation cancel is a no-op: a call [Cancel tk G] whose [G]
    differs from the current [io_block_id_] of [tk] returns at once and
    leaves the whole world as it was: the wait-set is not touched, no
    [epoll_ctl] is issued, no reference count changes and the task is not
    made runnable. *)
Theorem C3_stale_cancel_is_noop (w : World) (tk : TaskPtr) (t : Task) (G : Z) :
  task_at tk w = Some t →
  io_block_id_ (io_wait_data_ t) ≠ G →
  Cancel tk G w = Ok tt w.
Proof. intros H1 H2. by apply (Cancel_stale tk t). Qed.

(** C6 — [CoSwitch] before it yields.  Without a current task it returns
    and changes nothing.  With a current task [tk] it sets the generation to
    the old one plus 1 in [uint32_t] arithmetic (so plus 1 exactly unless
    the counter wraps), sets the state to [io_block], resets
    [wait_successful_], stores the timeout, clears the timer handle, moves
    the caller's list into [wait_fds_] (the caller is handed the previous
    list by the swap) and stamps every entry with the task and the new
    generation; nothing else in the world changes but the count of yields. *)
Theorem C6_CoSwitch_postconditions (w : World) (fdsts : list FdStruct)
    (timeout_ms : Z) :
  (current_task (sched w) = None → CoSwitch fdsts timeout_ms w = Ok fdsts w)
  ∧ (∀ tk t,
       current_task (sched w) = Some tk →
       task_at tk w = Some t →
       let G := wrap32 (io_block_id_ (io_wait_data_ t) + 1) in
       ∃ w' t',
         CoSwitch fdsts timeout_ms w = Ok (wait_fds_ (io_wait_data_ t)) w'
         ∧ w' = yielded (with_task tk t' w)
         ∧ io_block_id_ (io_wait_data_ t') = G
         ∧ (0 <= io_block_id_ (io_wait_data_ t) < 4294967295 →
            G = io_block_id_ (io_wait_data_ t) + 1)
         ∧ state_ t' = io_block
         ∧ wait_successful_ (io_wait_data_ t') = 0
         ∧ io_block_timeout_ (io_wait_data_ t') = timeout_ms
         ∧ io_block_timer_ (io_wait_data_ t') = None
         ∧ length (wait_fds_ (io_wait_data_ t')) = length fdsts
         ∧ (∀ i fdst, fdsts !! i = Some fdst →
              ∃ fdst', wait_fds_ (io_wait_data_ t') !! i = Some fdst'
                       ∧ fd fdst' = fd fdst ∧ event fdst' = event fdst
                       ∧ ep_tk (epoll_ptr fdst') = Some tk
                       ∧ ep_io_block_id (epoll_ptr fdst') = G)
         ∧ id_ t' = id_ t ∧ ref_count_ t' = ref_count_ t).
Proof.
  split; [apply CoSwitch_no_task|].
  intros tk t Hcur Hheap G.
  exists (yielded (with_task tk (blocked tk t fdsts timeout_ms) w)),
    (blocked tk t fdsts timeout_ms).
  split; [by apply CoSwitch_ok|]. split; [done|]. split; [done|].
  split.
  { intros Hr. subst G. unfold wrap32. apply Z.mod_small. lia. }
  do 4 (split; [done|]). split; [simpl; by rewrite length_map|].
  split; [|done].
  intros i fdst Hi. exists (stamp tk G fdst). split; [|done].
  simpl. rewrite list_lookup_fmap. fold G. by rewrite Hi.
Qed.

Lemma SchedulerSwitch_empty tk t w :
  task_at tk w = Some t →
  wait_fds_ (io_wait_data_ t) = [] →
  ∃ w',
    SchedulerSwitch tk w = Ok tt w'
    ∧ kernel w' = kernel w
    ∧ heap (sched w') = heap (sched w)
    ∧ run_queue (sched w') = run_queue (sched w) ++ [tk]
    ∧ wait_tasks_ (iowait w') = wait_tasks_ (iowait w) ∖ {[tk]}
    ∧ timer_mgr_ (iowait w') = timer_mgr_ (iowait w)
    ∧ timeout_list_ (iowait w') = timeout_list_ (iowait w)
    ∧ epoll_fds_ (iowait w') = epoll_fds_ (iowait w)
    ∧ epoll_owner_pid_ (iowait w') = epoll_owner_pid_ (iowait w).
Proof.
  intros Hheap Hfds. unfold SchedulerSwitch.
  unfold bind at 1. rewrite (get_task_ok _ _ _ Hheap).
  unfold bind at 1. rewrite (IncrementRef_ok _ _ _ Hheap).
  unfold bind at 1. unfold wait_tasks_push at 1, upd_iowait, modify.
  rewrite Hfds. cbn [register_fds]. unfold bind at 1, ret at 1. cbn [negb].
  unfold bind at 1. unfold bind at 1, wait_tasks_erase.
  rewrite decide_True by (simpl; set_solver).
  unfold AddTaskRunnable at 1, upd_sched, modify.
  match goal with |- context [DecrementRef tk ?x] => set (w2 := x) end.
  assert (Hh2 : heap (sched w2) !! tk
                = Some (t_set_ref_count (ref_count_ t + 1) t))
    by apply lookup_insert_eq.
  destruct (DecrementRef_ok tk _ w2 Hh2) as [dl E]. rewrite E.
  eexists. split; [reflexivity|]. simpl.
  split; [done|]. split.
  { rewrite insert_insert_eq. apply insert_id. unfold task_at in Hheap.
    rewrite Hheap. f_equal. apply task_ext; simpl; try done. lia. }
  split; [done|]. split; [set_solver|]. done.
Qed.

(** C9 — An empty interest list resumes at once: after [CoSwitch] with an
    empty list, [SchedulerSwitch] issues no system call (the kernel is as
    before), takes the task out of the wait-set and enqueues it runnable,
    with [wait_successful_] 0; no timer is armed whatever the timeout is,
    and the reference count is as before. *)
Theorem C9_empty_list_resumes_immediately (w : World) (tk : TaskPtr) (t : Task)
    (timeout_ms : Z) :
  current_task (sched w) = Some tk →
  task_at tk w = Some t →
  ∃ w' t',
    block_call tk [] timeout_ms w = Ok tt w'
    ∧ kernel w' = kernel w
    ∧ tk ∉ wait_tasks_ (iowait w')
    ∧ run_queue (sched w') = run_queue (sched w) ++ [tk]
    ∧ timer_mgr_ (iowait w') = timer_mgr_ (iowait w)
    ∧ task_at tk w' = Some t'
    ∧ wait_successful_ (io_wait_data_ t') = 0
    ∧ wait_fds_ (io_wait_data_ t') = []
    ∧ io_block_timeout_ (io_wait_data_ t') = timeout_ms
    ∧ io_block_timer_ (io_wait_data_ t') = None
    ∧ ref_count_ t' = ref_count_ t.
Proof.
  intros Hcur Hheap. unfold block_call, bind.
  rewrite (CoSwitch_ok _ _ _ _ _ Hcur Hheap).
  set (t' := blocked tk t [] timeout_ms).
  destruct (SchedulerSwitch_empty tk t' (yielded (with_task tk t' w)))
    as (w' & E & Hk & Hh & Hq & Hwt & Htm & _); [apply lookup_insert_eq|done|].
  exists w', t'. split; [done|]. split; [by rewrite Hk|].
  split; [rewrite Hwt; set_solver|]. split; [by rewrite Hq|].
  split; [by rewrite Htm|]. split; [|done].
  unfold task_at. rewrite Hh. apply lookup_insert_eq.
Qed.

(** The targets (epoll descriptor, registered descriptor) of the
    [EPOLL_CTL_ADD] calls of a log, in order. *)
Definition add_targets (log : list Syscall) : list (Z * Z) :=
  omap (fun c => match c with
                 | sys_epoll_ctl EPOLL_CTL_ADD e f _ => Some (e, f)
                 | _ => None
                 end) log.

Lemma add_targets_app l1 l2 :
  add_targets (l1 ++ l2) = add_targets l1 ++ add_targets l2.
Proof. apply omap_app. Qed.

Lemma add_targets_add_entries b ps :
  add_targets (map (add_entry b) ps) = map (fd_key b) ps.
Proof.
  induction ps as [|p ps IH]; [done|].
  change (map (add_entry b) (p :: ps)) with ([add_entry b p] ++ map (add_entry b) ps).
  rewrite add_targets_app, IH. by destruct (fd_key b p).
Qed.

Lemma add_targets_del_entries b ps :
  add_targets (map (del_entry b) ps) = [].
Proof. by induction ps as [|p ps IH]. Qed.

(** The instance [ChooseEpoll] selects for [ev] in world [w], after the
    lazy creation: the read instance iff bit 0 (EPOLLIN) of [ev] is set. *)
Definition chosen_fd (w : World) (ev : Z) : Z :=
  if Z.testbit ev 0 then (epoll_fds_ (iowait (created w))).1
  else (epoll_fds_ (iowait (created w))).2.

Lemma chosen_fd_key w p : fd_key (created w) p = (chosen_fd w p.2, p.1).
Proof.
  unfold fd_key, chosen_fd, choose_type. f_equal.
  destruct (decide _) as [H|H].
  - apply land_EPOLLIN_testbit in H. by rewrite H.
  - destruct (Z.testbit p.2 0) eqn:E; [|done].
    exfalso. apply H. by apply land_EPOLLIN_testbit.
Qed.

Lemma ChooseEpoll_chosen w ev :
  epoll_usable w → ChooseEpoll ev w = Ok (chosen_fd w ev) (created w).
Proof.
  intros Huse. destruct (ChooseEpoll_usable ev w Huse) as [E _]. rewrite E.
  f_equal. change (epoll_fd_of (choose_type ev) (iowait (created w)))
    with (fd_key (created w) (0, ev)).1. by rewrite chosen_fd_key.
Qed.

(** The log entry says that the kernel answered EEXIST to an add. *)
Definition is_eexist (c : Syscall) : Prop :=
  ∃ e f, c = sys_epoll_ctl EPOLL_CTL_ADD e f (CtlErr EEXIST).

Lemma no_eexist_add_entries b ps c :
  c ∈ map (add_entry b) ps → ¬ is_eexist c.
Proof.
  intros Hin (e & f & ->). apply list_elem_of_fmap in Hin as (p & Hp & _).
  unfold add_entry, ctl_entry in Hp. by destruct (decide _).
Qed.

Lemma no_eexist_del_entries b ps c :
  c ∈ map (del_entry b) ps → ¬ is_eexist c.
Proof.
  intros Hin (e & f & ->). by apply list_elem_of_fmap in Hin as (p & Hp & _).
Qed.

(** C10 — Instance choice gives readable interest precedence.  [ChooseEpoll]
    returns the read instance for every mask with the EPOLLIN bit set (also
    with EPOLLOUT set as well) and the write instance for every other mask
    (also for a mask with neither bit); two freshly created instances are
    distinct; and the registration loop of [SchedulerSwitch] issues its
    adds one per entry, in order, each on the instance chosen for the
    entry's mask, so an entry is registered in one instance only. *)
Theorem C10_choose_gives_readable_precedence (w : World) :
  epoll_usable w →
  (∀ ev, ChooseEpoll ev w = Ok (chosen_fd w ev) (created w))
  ∧ chosen_fd w (Z.lor EPOLLIN EPOLLOUT) = (epoll_fds_ (iowait (created w))).1
  ∧ chosen_fd w EPOLLIN = (epoll_fds_ (iowait (created w))).1
  ∧ chosen_fd w EPOLLOUT = (epoll_fds_ (iowait (created w))).2
  ∧ chosen_fd w 0 = (epoll_fds_ (iowait (created w))).2
  ∧ (can_create w →
     (epoll_fds_ (iowait (created w))).1 ≠ (epoll_fds_ (iowait (created w))).2)
  ∧ (∀ tk t,
       task_at tk w = Some t →
       ∃ w' delta,
         SchedulerSwitch tk w = Ok tt w'
         ∧ k_log (kernel w')
           = k_log (kernel (pre_reg w (wait_fds_ (io_wait_data_ t)))) ++ delta
         ∧ add_targets delta
           `prefix_of` map (fun p => (chosen_fd w p.2, p.1)) (pairs_of t)
         ∧ ((∀ c, c ∈ delta → ¬ is_eexist c) →
            add_targets delta
            = map (fun p => (chosen_fd w p.2, p.1)) (pairs_of t))).
Proof.
  intros Huse. split.
  { intros ev. by apply ChooseEpoll_chosen. }
  do 4 (split; [done|]). split.
  { intros Hc. destruct (CreateEpoll_can_create w Hc)
      as (w' & E & _ & _ & _ & _ & _ & _ & _ & _ & Hfds & _).
    unfold created. rewrite E, Hfds. simpl. lia. }
  intros tk t Hheap.
  destruct (SchedulerSwitch_spec tk t w Hheap (fun _ => Huse))
    as (w' & delta & r' & o & E & _ & Hlog & _ & _ & _ & _ & _ & _ & _ & Hcase).
  exists w', delta. split; [done|]. split; [done|].
  assert (Hkeys : ∀ ps, wait_fds_ (io_wait_data_ t) ≠ [] →
            map (fd_key (pre_reg w (wait_fds_ (io_wait_data_ t)))) ps
            = map (fun p => (chosen_fd w p.2, p.1)) ps).
  { intros ps Hne. destruct (wait_fds_ (io_wait_data_ t)); [done|]. simpl.
    apply map_ext. intros p. apply chosen_fd_key. }
  destruct (decide (wait_fds_ (io_wait_data_ t) = [])) as [Hnil|Hne].
  { assert (Hp : pairs_of t = []) by (unfold pairs_of; by rewrite Hnil).
    rewrite Hp in *. simpl.
    assert (delta = []) as ->; [|done].
    destruct Hcase as [(_ & _ & _ & _ & _ & _ & [[_ Hd]|(pre & dup & post & Hs & _)])
                      |(_ & _ & _ & Hok & _)]; [done| |].
    - by destruct pre.
    - exfalso. by apply Hok. }
  set (b := pre_reg w (wait_fds_ (io_wait_data_ t))) in *.
  destruct Hcase as [(_ & _ & _ & _ & _ & _ & [[_ Hd]|(pre & dup & post & Hs & Hd & _)])
                    |(_ & _ & _ & _ & _ & _ & Hd & _)].
  - rewrite Hd, add_targets_add_entries, Hkeys by done. done.
  - split.
    + rewrite Hd, !add_targets_app, add_targets_add_entries,
        add_targets_del_entries, app_nil_r.
      rewrite <- Hkeys, Hs by done. rewrite map_app. simpl.
      exists (map (fd_key b) post). rewrite <- app_assoc. simpl.
      reflexivity.
    + intros Hno. exfalso. apply (Hno (ctl_entry EPOLL_CTL_ADD (fd_key b dup) (CtlErr EEXIST))).
      * rewrite Hd. apply elem_of_app. right. apply elem_of_app. left. by left.
      * by eexists _, _.
  - rewrite Hd, add_targets_add_entries, Hkeys by done. done.
Qed.

(** * The life of one block *)

(** What can happen to a blocked task [tk] of generation [G]:
    - [ev_ready]: the wait loop has buffered a readiness event of the block
      and calls [Cancel(st.tk, st.id)];
    - [ev_cancel]: somebody calls [Cancel(tk, G)] explicitly;
    - [ev_timeout]: the timer of the block fires, that is, the timer manager
      hands its callback over and the wait loop calls it. *)
Inductive BlockEvent : Set := ev_ready | ev_cancel | ev_timeout.

#[global] Instance BlockEvent_eq_dec : EqDecision BlockEvent.
Proof. solve_decision. Defined.

(** The first pending timer whose callback is for [(tk, G)], and the
    pending timers without it. *)
Fixpoint take_timer (tk : TaskPtr) (G : Z) (l : list CoTimer)
  : option (CoTimer * list CoTimer) :=
  match l with
  | [] => None
  | tm :: l' =>
      if decide (cb_tk tm = tk ∧ cb_id tm = G) then Some (tm, l')
      else match take_timer tk G l' with
           | Some (x, r) => Some (x, tm :: r)
           | None => None
           end
  end.

(** The timer of the block fires, if there is one pending. *)
Definition fire_timer (tk : TaskPtr) (G : Z) : M unit :=
  fun w =>
    match take_timer tk G (timer_mgr_ (iowait w)) with
    | None => Ok tt w
    | Some (tm, rest) =>
        timer_callback tm
          (set_iowait (i_set_timer_mgr rest (timer_seq_ (iowait w)) (iowait w)) w)
    end.

Definition block_event (tk : TaskPtr) (G : Z) (e : BlockEvent) : M unit :=
  match e with
  | ev_ready => Cancel tk G
  | ev_cancel => Cancel tk G
  | ev_timeout => fire_timer tk G
  end.

Definition run_events (tk : TaskPtr) (G : Z) (evs : list BlockEvent) : M unit :=
  for_each (block_event tk G) evs.

(** The number of pending timers whose callback is for [(tk, G)]. *)
Definition pending (tk : TaskPtr) (G : Z) (w : World) : nat :=
  length (filter (fun tm => cb_tk tm = tk ∧ cb_id tm = G) (timer_mgr_ (iowait w))).

(** The block is over: the task has been resumed and its timer has run. *)
Definition completed (tk : TaskPtr) (G : Z) (w : World) : Prop :=
  tk ∉ wait_tasks_ (iowait w) ∧ pending tk G w = 0%nat.


Lemma take_timer_spec tk G l :
  match take_timer tk G l with
  | None => length (filter (fun tm => cb_tk tm = tk ∧ cb_id tm = G) l) = 0%nat
  | Some (tm, rest) =>
      cb_tk tm = tk ∧ cb_id tm = G
      ∧ length (filter (fun tm => cb_tk tm = tk ∧ cb_id tm = G) l)
        = S (length (filter (fun tm => cb_tk tm = tk ∧ cb_id tm = G) rest))
  end.
Proof.
  induction l as [|tm l IH]; [done|]. cbn [take_timer]. rewrite filter_cons.
  destruct (decide _) as [[H1 H2]|H]; [done|].
  destruct (take_timer tk G l) as [[x r]|]; [|done].
  destruct IH as (H1 & H2 & H3). split; [done|]. split; [done|].
  by rewrite filter_cons, decide_False.
Qed.

Section BlockInvariant.
Context (tk : TaskPtr) (G : Z) (ps : list (Z * Z)).

(** The references the block holds in world [w]: one for each live
    registration while the task is in the wait-set, one for each pending
    timer. *)
Definition held (w : World) : Z :=
  (if decide (tk ∈ wait_tasks_ (iowait w))
   then Z.of_nat (length (ok_keys w ps)) else 0)
  + Z.of_nat (pending tk G w).

(** The invariant of a block in progress, for a task that had [r0]
    references when it blocked. *)
Record block_inv (r0 : Z) (w : World) : Prop := mk_block_inv {
  bi_task : ∃ t, task_at tk w = Some t
                 ∧ io_block_id_ (io_wait_data_ t) = G
                 ∧ pairs_of t = ps
                 ∧ ref_count_ t = r0 + held w;
  bi_settled : ps ≠ [] → settled w;
  bi_regs : tk ∈ wait_tasks_ (iowait w) →
            NoDup (ok_keys w ps)
            ∧ ∀ k, k ∈ ok_keys w ps → is_Some (k_interest (kernel w) !! k);
  bi_one_timer : (pending tk G w ≤ 1)%nat
}.

Lemma pairs_nil_iff t : pairs_of t = [] ↔ wait_fds_ (io_wait_data_ t) = [].
Proof.
  unfold pairs_of. split; [|by intros ->].
  by destruct (wait_fds_ (io_wait_data_ t)).
Qed.

Lemma block_inv_Cancel r0 w :
  block_inv r0 w →
  ∃ w', Cancel tk G w = Ok tt w'
        ∧ block_inv r0 w'
        ∧ tk ∉ wait_tasks_ (iowait w')
        ∧ pending tk G w' = pending tk G w.
Proof.
  intros Hinv. pose proof Hinv as [(t & Ht & HG & Hps & Href) Hset Hregs Hone].
  destruct (decide (tk ∈ wait_tasks_ (iowait w))) as [Hin|Hout].
  - assert (Hpre : wait_fds_ (io_wait_data_ t) ≠ [] → settled w).
    { intros Hne. apply Hset. rewrite <- Hps. by rewrite pairs_nil_iff. }
    assert (Hb : pre_reg w (wait_fds_ (io_wait_data_ t)) = w).
    { destruct (wait_fds_ (io_wait_data_ t)) eqn:E; [done|].
      simpl. apply created_settled_id. by apply Hpre. }
    destruct (Cancel_won tk t w Ht Hin (fun H => or_introl (Hpre H)))
      as (w' & delta & r' & E & Hh & Hwt & Hq & Htm & Hlog & Hfds & Hep & Hfi
          & Hpid & Hown & Hr & Hadd & Hprec & _).
    rewrite Hb, Hps in *. rewrite HG in E.
    destruct (Hregs Hin) as [Hnd Hsome].
    destruct (Hprec Hnd Hsome) as [Hr' Hm].
    assert (Hpend : pending tk G w' = pending tk G w)
      by (unfold pending; by rewrite Htm).
    exists w'. split; [done|]. split; [|split; [rewrite Hwt; set_solver | done]].
    split.
    + exists (t_set_ref_count r' t). split; [unfold task_at; rewrite Hh; apply lookup_insert_eq|].
      split; [done|]. split; [done|]. simpl. rewrite Hr', Href. unfold held.
      rewrite decide_True by done. rewrite decide_False by (rewrite Hwt; set_solver).
      rewrite Hpend. lia.
    + intros Hne. unfold settled. rewrite Hown, Hpid. by apply Hset.
    + intros Hin'. exfalso. rewrite Hwt in Hin'. set_solver.
    + by rewrite Hpend.
  - exists w. split; [by apply (Cancel_lost tk t)|]. done.
Qed.

End BlockInvariant.

Section BlockRun.
Context (tk : TaskPtr) (G : Z) (ps : list (Z * Z)).

Local Abbreviation inv := (block_inv tk G ps).

Lemma block_inv_fire_timer r0 w :
  inv r0 w →
  ∃ w', fire_timer tk G w = Ok tt w'
        ∧ inv r0 w'
        ∧ (tk ∉ wait_tasks_ (iowait w) → tk ∉ wait_tasks_ (iowait w'))
        ∧ pending tk G w' = 0%nat.
Proof.
  intros Hinv. pose proof Hinv as [(t & Ht & HG & Hps & Href) Hset Hregs Hone].
  unfold fire_timer.
  pose proof (take_timer_spec tk G (timer_mgr_ (iowait w))) as Htake.
  destruct (take_timer tk G (timer_mgr_ (iowait w))) as [[tm rest]|].
  - destruct Htake as (Htk & Hid & Hlen).
    set (w1 := set_iowait _ w).
    assert (Hp1 : pending tk G w1 = 0%nat).
    { unfold pending in *. simpl. lia. }
    assert (Hinv1 : inv (r0 + 1) w1).
    { split; try done.
      - exists t. split; [done|]. split; [done|]. split; [done|].
        rewrite Href. unfold held. change (ok_keys w1) with (ok_keys w).
        change (wait_tasks_ (iowait w1)) with (wait_tasks_ (iowait w)).
        rewrite Hp1. unfold pending at 1. rewrite Hlen.
        unfold pending in Hp1. simpl in Hp1. rewrite Hp1. lia.
      - rewrite Hp1. lia. }
    unfold timer_callback, bind. rewrite Htk, Hid.
    destruct (block_inv_Cancel tk G ps (r0 + 1) w1 Hinv1)
      as (w2 & E & Hinv2 & Hout2 & Hp2).
    rewrite E.
    destruct Hinv2 as [(t2 & Ht2 & HG2 & Hps2 & Href2) Hset2 Hregs2 Hone2].
    destruct (DecrementRef_ok tk t2 w2 Ht2) as [dl E2]. rewrite E2.
    eexists. split; [reflexivity|].
    split; [|split; [done | simpl; by rewrite <- Hp1, <- Hp2]].
    split.
    + exists (t_set_ref_count (ref_count_ t2 - 1) t2).
      split; [apply lookup_insert_eq|]. split; [done|]. split; [done|].
      cbn [ref_count_ t_set_ref_count]. rewrite Href2.
      match goal with
      | |- context [held tk G ps ?x] =>
          lazymatch x with
          | w2 => fail
          | _ => change (held tk G ps x) with (held tk G ps w2)
          end
      end. lia.
    + done.
    + intros Hin. done.
    + exact Hone2.
  - exists w. done.
Qed.

Lemma block_inv_event r0 e w :
  inv r0 w →
  ∃ w', block_event tk G e w = Ok tt w'
        ∧ inv r0 w'
        ∧ (tk ∉ wait_tasks_ (iowait w) → tk ∉ wait_tasks_ (iowait w'))
        ∧ (pending tk G w = 0%nat → pending tk G w' = 0%nat)
        ∧ (e ≠ ev_timeout → tk ∉ wait_tasks_ (iowait w'))
        ∧ (e = ev_timeout → pending tk G w' = 0%nat).
Proof.
  intros Hinv. destruct e; simpl.
  - destruct (block_inv_Cancel tk G ps r0 w Hinv) as (w' & E & Hi & Ho & Hp).
    exists w'. rewrite Hp. done.
  - destruct (block_inv_Cancel tk G ps r0 w Hinv) as (w' & E & Hi & Ho & Hp).
    exists w'. rewrite Hp. done.
  - destruct (block_inv_fire_timer r0 w Hinv) as (w' & E & Hi & Ho & Hp).
    exists w'. done.
Qed.

Lemma block_inv_run r0 evs : ∀ w,
  inv r0 w →
  ∃ w', run_events tk G evs w = Ok tt w'
        ∧ inv r0 w'
        ∧ (tk ∉ wait_tasks_ (iowait w) → tk ∉ wait_tasks_ (iowait w'))
        ∧ (pending tk G w = 0%nat → pending tk G w' = 0%nat)
        ∧ ((∃ e, e ∈ evs ∧ e ≠ ev_timeout) → tk ∉ wait_tasks_ (iowait w'))
        ∧ (ev_timeout ∈ evs → pending tk G w' = 0%nat).
Proof.
  induction evs as [|e evs IH]; intros w Hinv.
  - exists w. split; [done|]. split; [done|]. split; [done|]. split; [done|].
    split; [by intros (e & He%elem_of_nil & _) | by intros He%elem_of_nil].
  - destruct (block_inv_event r0 e w Hinv) as (w1 & E1 & Hi1 & Hw1 & Hp1 & Hc1 & Ht1).
    destruct (IH w1 Hi1) as (w2 & E2 & Hi2 & Hw2 & Hp2 & Hc2 & Ht2).
    exists w2. unfold run_events in *. cbn [for_each]. unfold bind.
    rewrite E1. split; [done|]. split; [done|].
    split; [by intros H; apply Hw2, Hw1|].
    split; [by intros H; apply Hp2, Hp1|].
    split.
    + intros (e' & [->|Hin]%elem_of_cons & Hne).
      * by apply Hw2, Hc1.
      * apply Hc2. eauto.
    + intros [<-|Hin]%elem_of_cons.
      * by apply Hp2, Ht1.
      * by apply Ht2.
Qed.

End BlockRun.


(** * Accounting of the reference count *)

(** The system calls issued between world [w] and the later world [w']. *)
Definition new_calls (w w' : World) : list Syscall :=
  drop (length (k_log (kernel w))) (k_log (kernel w')).

Lemma new_calls_app w w' d :
  k_log (kernel w') = k_log (kernel w) ++ d → new_calls w w' = d.
Proof. intros H. unfold new_calls. rewrite H. apply drop_app_length. Qed.

Lemma new_calls_refl w : new_calls w w = [].
Proof. apply new_calls_app. by rewrite app_nil_r. Qed.

Lemma count_acked_not_ctl op cl : Forall not_ctl cl → count_acked op cl = 0.
Proof.
  induction 1 as [|c cl Hc _ IH]; [done|].
  change (c :: cl) with ([c] ++ cl). rewrite count_acked_app, IH.
  by destruct c.
Qed.

Lemma pre_reg_log w fds :
  (fds ≠ [] → epoll_usable w) →
  ∃ cl, k_log (kernel (pre_reg w fds)) = k_log (kernel w) ++ cl
        ∧ Forall not_ctl cl.
Proof.
  intros H. destruct fds as [|f fds].
  - exists []. by rewrite app_nil_r.
  - apply created_log. by apply H.
Qed.

Lemma SchedulerSwitch_accounting tk t w :
  task_at tk w = Some t →
  epoll_usable w →
  ∃ w',
    SchedulerSwitch tk w = Ok tt w'
    ∧ ref_at tk w'
      = Some (ref_count_ t
              + count_acked EPOLL_CTL_ADD (new_calls w w')
              - count_acked EPOLL_CTL_DEL (new_calls w w')
              + (Z.of_nat (length (timer_mgr_ (iowait w')))
                 - Z.of_nat (length (timer_mgr_ (iowait w))))).
Proof.
  intros Hheap Huse.
  destruct (SchedulerSwitch_spec tk t w Hheap (fun _ => Huse))
    as (w' & delta & r' & o & E & Hh & Hlog & _ & _ & _ & _ & _ & _ & Hr & _).
  destruct (pre_reg_log w (wait_fds_ (io_wait_data_ t)) (fun _ => Huse))
    as (cl & Hcl & Hnc).
  exists w'. split; [done|].
  rewrite Hcl, <- app_assoc in Hlog. rewrite (new_calls_app _ _ _ Hlog).
  rewrite !count_acked_app, !(count_acked_not_ctl _ cl Hnc).
  unfold ref_at, task_at. rewrite Hh, lookup_insert_eq. simpl. f_equal. lia.
Qed.

Lemma Cancel_accounting tk t G w :
  task_at tk w = Some t →
  epoll_usable w →
  ∃ w',
    Cancel tk G w = Ok tt w'
    ∧ (∃ r, task_at tk w' = Some (t_set_ref_count r t)
            ∧ r = ref_count_ t - count_acked EPOLL_CTL_DEL (new_calls w w'))
    ∧ count_acked EPOLL_CTL_ADD (new_calls w w') = 0
    ∧ timer_mgr_ (iowait w') = timer_mgr_ (iowait w)
    ∧ epoll_usable w'.
Proof.
  intros Hheap Huse.
  assert (Hsame : task_at tk w = Some (t_set_ref_count (ref_count_ t - 0) t)).
  { rewrite Hheap. f_equal. apply task_ext; simpl; try done. lia. }
  destruct (decide (io_block_id_ (io_wait_data_ t) = G)) as [<-|Hne].
  2: { exists w. rewrite new_calls_refl. split; [by apply (Cancel_stale tk t)|].
       split; [by eexists|]. done. }
  destruct (decide (tk ∈ wait_tasks_ (iowait w))) as [Hin|Hout].
  2: { exists w. rewrite new_calls_refl. split; [by apply (Cancel_lost tk t)|].
       split; [by eexists|]. done. }
  destruct (Cancel_won tk t w Hheap Hin (fun _ => Huse))
    as (w' & delta & r' & E & Hh & Hwt & Hq & Htm & Hlog & Hfds & Hep & Hfi
        & Hpid & Hown & Hr & Hadd & Hprec & Huse' & _).
  destruct (pre_reg_log w (wait_fds_ (io_wait_data_ t)) (fun _ => Huse))
    as (cl & Hcl & Hnc).
  exists w'. split; [done|].
  rewrite Hcl, <- app_assoc in Hlog. rewrite (new_calls_app _ _ _ Hlog).
  rewrite !count_acked_app, !(count_acked_not_ctl _ cl Hnc).
  split; [|split; [rewrite Hadd; lia | split; [done | by apply Huse']]].
  exists r'. split; [|lia].
  unfold task_at. rewrite Hh. apply lookup_insert_eq.
Qed.

(** What a run ends in satisfies [P]. *)
Definition ends_in {A} (r : Res A) (P : World → Prop) : Prop :=
  match r with
  | Ok _ w => P w
  | Fail _ => False
  end.

(** C5, as stated, fails: a block on one readable descriptor with a timeout
    of 50 ms makes one acknowledged add and no delete, yet the reference
    count of the task goes from 1 to 3 in [SchedulerSwitch] (arming the
    timer takes a reference), and the timeout callback later takes it from 3
    to 1 with one acknowledged delete (the callback drops the reference of
    the timer). *)
Lemma C5_counterexample :
  ref_at 1%nat Scenario.world0 = Some 1
  ∧ ends_in (block_call 1%nat [Scenario.fds 10 EPOLLIN] 50 Scenario.world0)
      (fun w1 =>
         count_acked EPOLL_CTL_ADD (new_calls Scenario.world0 w1) = 1
         ∧ count_acked EPOLL_CTL_DEL (new_calls Scenario.world0 w1) = 0
         ∧ ref_at 1%nat w1 = Some 3
         ∧ ends_in (run_events 1%nat 1 [ev_timeout] w1)
             (fun w2 =>
                count_acked EPOLL_CTL_ADD (new_calls w1 w2) = 0
                ∧ count_acked EPOLL_CTL_DEL (new_calls w1 w2) = 1
                ∧ ref_at 1%nat w2 = Some 1)).
Proof. vm_compute. repeat split. Qed.

(** C5, amended — The reference count moves by +1 for every acknowledged
    add and by -1 for every acknowledged delete, and besides by the
    references of the timeout: [SchedulerSwitch] takes one when it arms a
    timer, and the timer callback drops it after its [Cancel].  (The guard
    of [SchedulerSwitch] takes one reference at entry and drops it at exit.)
    Hence over [SchedulerSwitch] the count changes by adds - deletes +
    timers armed, over [Cancel] by - deletes, over the timer callback by
    - deletes - 1, and over [CoSwitch] not at all. *)
Theorem C5_reference_count_accounting (w : World) (tk : TaskPtr) (t : Task) :
  task_at tk w = Some t →
  epoll_usable w →
  (∃ w', SchedulerSwitch tk w = Ok tt w'
         ∧ ref_at tk w'
           = Some (ref_count_ t
                   + count_acked EPOLL_CTL_ADD (new_calls w w')
                   - count_acked EPOLL_CTL_DEL (new_calls w w')
                   + (Z.of_nat (length (timer_mgr_ (iowait w')))
                      - Z.of_nat (length (timer_mgr_ (iowait w))))))
  ∧ (∀ G, ∃ w', Cancel tk G w = Ok tt w'
                ∧ ref_at tk w'
                  = Some (ref_count_ t
                          - count_acked EPOLL_CTL_DEL (new_calls w w'))
                ∧ count_acked EPOLL_CTL_ADD (new_calls w w') = 0
                ∧ timer_mgr_ (iowait w') = timer_mgr_ (iowait w))
  ∧ (∀ tm, cb_tk tm = tk →
           ∃ w', timer_callback tm w = Ok tt w'
                 ∧ ref_at tk w'
                   = Some (ref_count_ t
                           - count_acked EPOLL_CTL_DEL (new_calls w w') - 1)
                 ∧ count_acked EPOLL_CTL_ADD (new_calls w w') = 0
                 ∧ timer_mgr_ (iowait w') = timer_mgr_ (iowait w))
  ∧ (∀ fdsts timeout_ms,
       current_task (sched w) = Some tk →
       ∃ l w', CoSwitch fdsts timeout_ms w = Ok l w'
               ∧ ref_at tk w' = Some (ref_count_ t)
               ∧ new_calls w w' = []).
Proof.
  intros Hheap Huse.
  split; [by apply SchedulerSwitch_accounting|].
  split.
  { intros G. destruct (Cancel_accounting tk t G w Hheap Huse)
      as (w' & E & (r & Ht & Hr) & Hadd & Htm & _).
    exists w'. split; [done|]. unfold ref_at. rewrite Ht. simpl. by rewrite Hr. }
  split.
  { intros tm <-. unfold timer_callback, bind.
    destruct (Cancel_accounting (cb_tk tm) t (cb_id tm) w Hheap Huse)
      as (w1 & E & (r & Ht & Hr) & Hadd & Htm & _).
    rewrite E. destruct (DecrementRef_ok _ _ w1 Ht) as [dl E2]. rewrite E2.
    eexists. split; [reflexivity|].
    change (new_calls w (set_sched _ _)) with (new_calls w w1).
    split; [|done]. unfold ref_at, task_at. simpl. rewrite lookup_insert_eq.
    simpl. by rewrite Hr. }
  intros fdsts timeout_ms Hcur. eexists _, _.
  split; [by apply CoSwitch_ok|]. split.
  - unfold ref_at, task_at. simpl. by rewrite lookup_insert_eq.
  - exact (new_calls_refl w).
Qed.

(** * The wait loop *)

(** The pending timers whose deadline has passed. *)
Definition due (now : Z) (l : list CoTimer) : list CoTimer :=
  filter (fun t => deadline t <= now) l.

Lemma take_expired_spec limit now l :
  (take_expired limit now l).1 = take limit (due now l)
  ∧ due now (take_expired limit now l).2 = drop limit (due now l)
  ∧ (length (take_expired limit now l).2
     = length l - length (take_expired limit now l).1)%nat
  ∧ (length (take_expired limit now l).1 ≤ length l)%nat
  ∧ (∀ P : CoTimer → Prop, Forall P l →
       Forall P (take_expired limit now l).1
       ∧ Forall P (take_expired limit now l).2)
  ∧ (due now l = [] → (take_expired limit now l).2 = l).
Proof.
  revert limit. unfold due.
  induction l as [|t l IH]; intros limit.
  { cbn [take_expired fst snd]. rewrite filter_nil, take_nil, drop_nil.
    repeat split; done. }
  cbn [take_expired]. rewrite filter_cons.
  destruct limit as [|n].
  { simpl. split; [done|]. split; [by rewrite filter_cons|].
    split; [lia|]. split; [lia|]. split; [|done]. intros P HP. by split. }
  destruct (Z.leb_spec (deadline t) now) as [Hle|Hgt].
  - rewrite decide_True by done.
    destruct (IH n) as (H1 & H2 & H3 & H4 & H5 & H6). simpl.
    split; [by rewrite H1|]. split; [done|]. split; [lia|]. split; [lia|].
    split; [|done]. intros P [HP HPl]%Forall_cons.
    destruct (H5 P HPl). split; [by constructor | done].
  - rewrite decide_False by lia.
    destruct (IH (S n)) as (H1 & H2 & H3 & H4 & H5 & H6). simpl.
    split; [done|]. split; [by rewrite filter_cons, decide_False by lia|].
    split; [lia|]. split; [lia|].
    split.
    + intros P [HP HPl]%Forall_cons.
      destruct (H5 P HPl). split; [done | by constructor].
    + intros Hd. by rewrite H6.
Qed.

(** The world after the first loop of [WaitLoop]: the pending timers are
    [TM] and the timeout list is [TL]. *)
Definition timers_moved (TM TL : list CoTimer) (w : World) : World :=
  set_iowait
    (i_set_timeout_list TL (i_set_timer_mgr TM (timer_seq_ (iowait w)) (iowait w))) w.

Lemma drain_timers_spec fuel : ∀ c w,
  (length (timer_mgr_ (iowait w)) < fuel)%nat →
  let now := k_now (kernel w) in
  ∃ TM TL c',
    drain_timers fuel c w = Ok c' (timers_moved TM TL w)
    ∧ TL = timeout_list_ (iowait w) ++ due now (timer_mgr_ (iowait w))
    ∧ (∀ P : CoTimer → Prop, Forall P (timer_mgr_ (iowait w)) → Forall P TM)
    ∧ (0 <= c →
       c + Z.of_nat (length (due now (timer_mgr_ (iowait w)))) < 2147483648 →
       c' = c + Z.of_nat (length (due now (timer_mgr_ (iowait w)))))
    ∧ (due now (timer_mgr_ (iowait w)) = [] →
       TM = timer_mgr_ (iowait w) ∧ TL = timeout_list_ (iowait w) ∧ c' = c).
Proof.
  induction fuel as [|fuel IH]; intros c w Hfuel now; [lia|].
  cbn [drain_timers]. unfold bind at 1. unfold GetExpired at 1.
  fold now.
  destruct (take_expired_spec 128 now (timer_mgr_ (iowait w)))
    as (H1 & H2 & H3 & H4 & H5 & H6).
  set (r := take_expired 128 now (timer_mgr_ (iowait w))) in *.
  destruct r.1 as [|t0 ts] eqn:Er.
  - (* nothing is due *)
    assert (Hd : due now (timer_mgr_ (iowait w)) = []).
    { destruct (due now (timer_mgr_ (iowait w))); [done|]. done. }
    exists r.2, (timeout_list_ (iowait w)), c.
    split; [reflexivity|]. split; [by rewrite Hd, app_nil_r|].
    split; [intros P HP; by apply H5|].
    split; [rewrite Hd; simpl; lia|]. intros _. by rewrite H6.
  - set (w1 := set_iowait (i_set_timer_mgr r.2 (timer_seq_ (iowait w)) (iowait w)) w).
    unfold upd_iowait, modify. unfold bind at 1.
    match goal with |- context [drain_timers fuel ?c1 ?x] =>
      set (c1' := c1); set (w2 := x) end.
    destruct (IH c1' w2) as (TM & TL & c' & E & HTL & HP & Hc & _).
    { subst w2. simpl. simpl in H3, Hfuel, H4. rewrite H3.
      assert (length r.1 = S (length ts)) by (by rewrite Er). lia. }
    exists TM, TL, c'. split; [exact E|].
    assert (Hdue : due now (timer_mgr_ (iowait w))
                   = (t0 :: ts) ++ due now r.2).
    { rewrite H2, H1. by rewrite take_drop. }
    split.
    { rewrite HTL. subst w2. simpl. fold now. rewrite Hdue.
      by rewrite <- app_assoc. }
    split.
    { intros P HPw. apply HP. subst w2. simpl. by apply H5. }
    split.
    { intros Hc0 Hlt. rewrite Hdue, length_app in Hlt |- *.
      subst w2. simpl in Hc. fold now in Hc.
      assert (Hlen : (length (t0 :: ts) ≤ 128)%nat).
      { rewrite H1. rewrite length_take. lia. }
      assert (Hc1 : c1' = c + Z.of_nat (length (t0 :: ts))).
      { subst c1'. unfold wrap_int. rewrite Z.mod_small; lia. }
      rewrite Hc; lia. }
    intros Hd. rewrite Hdue in Hd. done.
Qed.

(** ** Pointers that the wait loop dereferences *)

(** For each entry of [wait_fds_], the task its back-pointer names. *)
Definition task_shape (t : Task) : list (option TaskPtr) :=
  map (fun f => ep_tk (epoll_ptr f)) (wait_fds_ (io_wait_data_ t)).

(** The live tasks and the back-pointers of their entries: what decides
    whether a dereference in the wait loop is valid. *)
Definition shapes (w : World) : gmap nat (list (option TaskPtr)) :=
  task_shape <$> heap (sched w).

(** The cookie of an event points at an entry of a live task whose
    back-pointer names a live task. *)
Definition cookie_ok (sh : gmap nat (list (option TaskPtr))) (c : Cookie) : Prop :=
  ∃ l tk', sh !! c.1 = Some l ∧ l !! c.2 = Some (Some tk') ∧ is_Some (sh !! tk').

Definition answer_ok (sh : gmap nat (list (option TaskPtr))) (a : WaitAnswer)
  : Prop :=
  match answer a with
  | Some evs => Forall (fun e => cookie_ok sh (ev_data_ptr e)) evs
  | None => True
  end.

Lemma shapes_lookup w tk :
  shapes w !! tk = task_shape <$> task_at tk w.
Proof. unfold shapes, task_at. apply lookup_fmap. Qed.

Lemma shapes_alive w tk :
  is_Some (shapes w !! tk) → ∃ t, task_at tk w = Some t.
Proof.
  rewrite shapes_lookup. intros [l Hl]. destruct (task_at tk w); [eauto|done].
Qed.

Lemma shapes_with_task w tk t t' :
  task_at tk w = Some t →
  task_shape t' = task_shape t →
  shapes (with_task tk t' w) = shapes w.
Proof.
  intros Ht Hs. unfold shapes. simpl. rewrite fmap_insert. apply insert_id.
  rewrite lookup_fmap. unfold task_at in Ht. rewrite Ht. simpl. by rewrite Hs.
Qed.

Lemma on_event_ok sh e w :
  shapes w = sh →
  cookie_ok sh (ev_data_ptr e) →
  ∃ w', on_event e w = Ok tt w'
        ∧ shapes w' = sh
        ∧ kernel w' = kernel w
        ∧ (settled w → settled w')
        ∧ (epoll_usable w → epoll_usable w')
        ∧ timeout_list_ (iowait w') = timeout_list_ (iowait w)
        ∧ epollwait_ms_ (iowait w') = epollwait_ms_ (iowait w)
        ∧ (Forall (fun st => is_Some (sh !! st.1)) (epollwait_tasks_ (iowait w)) →
           Forall (fun st => is_Some (sh !! st.1)) (epollwait_tasks_ (iowait w'))).
Proof.
  intros Hsh (l & tk' & Hl & Hi & Halive). subst sh.
  rewrite shapes_lookup in Hl.
  destruct (task_at (ev_data_ptr e).1 w) as [t|] eqn:Ht; [|done].
  simpl in Hl. injection Hl as <-.
  unfold task_shape in Hi. rewrite list_lookup_fmap in Hi.
  destruct (wait_fds_ (io_wait_data_ t) !! (ev_data_ptr e).2) as [fdst|] eqn:Hf;
    [|done].
  simpl in Hi. injection Hi as Htk'.
  unfold on_event. unfold bind at 1. rewrite (get_task_ok _ _ _ Ht). rewrite Hf.
  unfold bind at 1. rewrite (modify_task_ok _ _ _ _ Ht).
  rewrite Htk'.
  match goal with |- context [with_task _ ?x w] => set (t1 := x) end.
  set (w1 := with_task (ev_data_ptr e).1 t1 w).
  assert (Hs1 : shapes w1 = shapes w).
  { apply (shapes_with_task w _ t); [done|]. unfold t1, task_shape. simpl.
    rewrite list_fmap_insert. simpl. apply list_insert_id.
    rewrite list_lookup_fmap, Hf. simpl. by rewrite Htk'. }
  rewrite <- Hs1 in Halive. destruct (shapes_alive w1 tk' Halive) as [t2 Ht2].
  unfold bind at 1. rewrite (modify_task_ok _ _ _ _ Ht2).
  match goal with |- context [with_task tk' ?x w1] => set (t3 := x) end.
  assert (Hs3 : shapes (with_task tk' t3 w1) = shapes w).
  { rewrite <- Hs1. by apply (shapes_with_task w1 _ t2). }
  unfold epollwait_tasks_insert, upd_iowait, modify.
  eexists. split; [reflexivity|]. split; [exact Hs3|]. split; [done|].
  unfold settled, epoll_usable, can_create, settled. simpl.
  destruct (decide _); simpl; [done|].
  do 4 (split; [done|]). intros HF. apply Forall_app. split; [done|].
  constructor; [|done]. simpl. rewrite <- Hs1. rewrite shapes_lookup, Ht2. eauto.
Qed.

Lemma for_each_on_event_ok sh evs : ∀ w,
  shapes w = sh →
  Forall (fun e => cookie_ok sh (ev_data_ptr e)) evs →
  ∃ w', for_each on_event evs w = Ok tt w'
        ∧ shapes w' = sh
        ∧ kernel w' = kernel w
        ∧ (settled w → settled w')
        ∧ (epoll_usable w → epoll_usable w')
        ∧ timeout_list_ (iowait w') = timeout_list_ (iowait w)
        ∧ epollwait_ms_ (iowait w') = epollwait_ms_ (iowait w)
        ∧ (Forall (fun st => is_Some (sh !! st.1)) (epollwait_tasks_ (iowait w)) →
           Forall (fun st => is_Some (sh !! st.1)) (epollwait_tasks_ (iowait w'))).
Proof.
  induction evs as [|e evs IH]; intros w Hsh Hok.
  { exists w. done. }
  apply Forall_cons in Hok as [He Hok].
  destruct (on_event_ok sh e w Hsh He) as (w1 & E1 & Hs1 & Hk1 & Hse1 & Hu1 & Htl1 & Hms1 & Hb1).
  destruct (IH w1 Hs1 Hok) as (w2 & E2 & Hs2 & Hk2 & Hse2 & Hu2 & Htl2 & Hms2 & Hb2).
  exists w2. cbn [for_each]. unfold bind. rewrite E1.
  split; [done|]. split; [done|]. split; [by rewrite Hk2|].
  split; [by intros H; apply Hse2, Hse1|].
  split; [by intros H; apply Hu2, Hu1|].
  split; [by rewrite Htl2|]. split; [by rewrite Hms2|].
  by intros H; apply Hb2, Hb1.
Qed.

Lemma Cancel_total sh tk id w :
  shapes w = sh →
  epoll_usable w →
  is_Some (sh !! tk) →
  ∃ w', Cancel tk id w = Ok tt w'
        ∧ shapes w' = sh
        ∧ epoll_usable w'
        ∧ timeout_list_ (iowait w') = timeout_list_ (iowait w).
Proof.
  intros Hsh Huse Halive. subst sh.
  destruct (shapes_alive w tk Halive) as [t Ht].
  destruct (decide (io_block_id_ (io_wait_data_ t) = id)) as [<-|Hne].
  2: { exists w. split; [by apply (Cancel_stale tk t)|]. done. }
  destruct (decide (tk ∈ wait_tasks_ (iowait w))) as [Hin|Hout].
  2: { exists w. split; [by apply (Cancel_lost tk t)|]. done. }
  destruct (Cancel_won tk t w Ht Hin (fun _ => Huse))
    as (w' & delta & r' & E & Hh & _ & _ & _ & _ & _ & _ & _ & _ & _ & _ & _ & _
        & Huse' & Htl).
  exists w'. split; [done|]. split; [|split; [by apply Huse' | done]].
  unfold shapes. rewrite Hh, fmap_insert. apply insert_id.
  rewrite lookup_fmap. unfold task_at in Ht. by rewrite Ht.
Qed.

Lemma DecrementRef_total sh tk w :
  shapes w = sh →
  is_Some (sh !! tk) →
  ∃ w', DecrementRef tk w = Ok tt w'
        ∧ shapes w' = sh
        ∧ (epoll_usable w → epoll_usable w')
        ∧ timeout_list_ (iowait w') = timeout_list_ (iowait w).
Proof.
  intros Hsh Halive. subst sh.
  destruct (shapes_alive w tk Halive) as [t Ht].
  destruct (DecrementRef_ok tk t w Ht) as [dl E]. rewrite E.
  eexists. split; [reflexivity|]. split; [|split; [|done]].
  - by apply (shapes_with_task w tk t).
  - intros [H|H]; [by left | by right].
Qed.

Lemma for_each_Cancel_total sh sts : ∀ w,
  shapes w = sh →
  epoll_usable w →
  Forall (fun st : EpollWaitSt => is_Some (sh !! st.1)) sts →
  ∃ w', for_each (fun st => Cancel st.1 st.2) sts w = Ok tt w'
        ∧ shapes w' = sh
        ∧ epoll_usable w'
        ∧ timeout_list_ (iowait w') = timeout_list_ (iowait w).
Proof.
  induction sts as [|st sts IH]; intros w Hsh Huse Hok; [by exists w|].
  apply Forall_cons in Hok as [Hst Hok].
  destruct (Cancel_total sh st.1 st.2 w Hsh Huse Hst) as (w1 & E1 & Hs1 & Hu1 & Htl1).
  destruct (IH w1 Hs1 Hu1 Hok) as (w2 & E2 & Hs2 & Hu2 & Htl2).
  exists w2. cbn [for_each]. unfold bind. rewrite E1.
  split; [done|]. split; [done|]. split; [done|]. by rewrite Htl2.
Qed.

Lemma for_each_timer_callback_total sh tl : ∀ w,
  shapes w = sh →
  epoll_usable w →
  Forall (fun tm => is_Some (sh !! cb_tk tm)) tl →
  ∃ w', for_each timer_callback tl w = Ok tt w'
        ∧ shapes w' = sh
        ∧ epoll_usable w'.
Proof.
  induction tl as [|tm tl IH]; intros w Hsh Huse Hok; [by exists w|].
  apply Forall_cons in Hok as [Htm Hok].
  destruct (Cancel_total sh (cb_tk tm) (cb_id tm) w Hsh Huse Htm)
    as (w1 & E1 & Hs1 & Hu1 & _).
  destruct (DecrementRef_total sh (cb_tk tm) w1 Hs1 Htm) as (w2 & E2 & Hs2 & Hu2 & _).
  destruct (IH w2 Hs2 (Hu2 Hu1) Hok) as (w3 & E3 & Hs3 & Hu3).
  exists w3. cbn [for_each]. unfold timer_callback, bind. rewrite E1, E2.
  done.
Qed.

Lemma GetEpoll_settled ty w :
  settled w → GetEpoll ty w = Ok (epoll_fd_of ty (iowait w)) w.
Proof. intros H. unfold GetEpoll, bind. by rewrite CreateEpoll_settled. Qed.

(** An entry of the log that is an [epoll_wait]. *)
Definition is_wait (c : Syscall) : Prop :=
  match c with sys_epoll_wait _ _ => True | _ => False end.

Lemma epoll_wait_retry_ok eb c ty n final : ∀ w,
  settled w →
  ∃ w', epoll_wait_retry eb c ty n final w = Ok final w'
        ∧ sched w' = sched w
        ∧ iowait w' = iowait w
        ∧ settled w'.
Proof.
  induction n as [|n IH]; intros w Hs.
  - cbn [epoll_wait_retry]. unfold bind, gets, upd_kernel, modify, ret.
    rewrite (GetEpoll_settled _ _ Hs). eexists. split; [reflexivity|]. done.
  - cbn [epoll_wait_retry]. unfold bind at 1, gets at 1.
    unfold bind at 1. rewrite (GetEpoll_settled _ _ Hs).
    unfold bind at 1, upd_kernel at 1, modify at 1.
    match goal with |- context [epoll_wait_retry _ _ _ _ _ ?x] => set (w1 := x) end.
    destruct (IH w1) as (w' & E & H1 & H2 & H3); [exact Hs|].
    exists w'. done.
Qed.

(** The events one instance contributes to [epoll_n]. *)
Definition events_of (a : WaitAnswer) : nat :=
  match answer a with
  | Some evs => length evs
  | None => 0
  end.

Lemma drain_instance_ok sh eb c ty a n w :
  shapes w = sh →
  settled w →
  answer_ok sh a →
  ∃ w', drain_instance eb c ty a n w
        = Ok (match answer a with
              | Some evs => wrap_int (n + Z.of_nat (length evs))
              | None => n
              end) w'
        ∧ shapes w' = sh
        ∧ settled w'
        ∧ timeout_list_ (iowait w') = timeout_list_ (iowait w)
        ∧ (Forall (fun st => is_Some (sh !! st.1)) (epollwait_tasks_ (iowait w)) →
           Forall (fun st => is_Some (sh !! st.1)) (epollwait_tasks_ (iowait w'))).
Proof.
  intros Hsh Hs Hok. unfold drain_instance, bind.
  destruct (epoll_wait_retry_ok eb c ty (eintrs a) (answer a) w Hs)
    as (w1 & E1 & Hsc & Hio & Hs1).
  rewrite E1. unfold answer_ok in Hok.
  destruct (answer a) as [evs|].
  - assert (Hsh1 : shapes w1 = sh) by (unfold shapes; by rewrite Hsc).
    destruct (for_each_on_event_ok sh evs w1 Hsh1 Hok)
      as (w2 & E2 & Hs2 & Hk2 & Hse2 & Hu2 & Htl2 & Hms2 & Hb2).
    rewrite E2. exists w2. split; [done|]. split; [done|].
    split; [by apply Hse2|]. split; [by rewrite Htl2, Hio|].
    rewrite <- Hio. exact Hb2.
  - exists w1. split; [done|]. split; [unfold shapes; by rewrite Hsc|].
    split; [done|]. by rewrite Hio.
Qed.

Lemma drain_epoll_ok sh env eb c w :
  shapes w = sh →
  settled w →
  answer_ok sh (wait_read env) →
  answer_ok sh (wait_write env) →
  Forall (fun st => is_Some (sh !! st.1)) (epollwait_tasks_ (iowait w)) →
  ∃ w', drain_epoll env eb c w
        = Ok (match answer (wait_write env) with
              | Some evs =>
                  wrap_int (match answer (wait_read env) with
                            | Some evs' => wrap_int (0 + Z.of_nat (length evs'))
                            | None => 0
                            end + Z.of_nat (length evs))
              | None => match answer (wait_read env) with
                        | Some evs' => wrap_int (0 + Z.of_nat (length evs'))
                        | None => 0
                        end
              end) w'
        ∧ shapes w' = sh
        ∧ epoll_usable w'
        ∧ timeout_list_ (iowait w') = timeout_list_ (iowait w).
Proof.
  intros Hsh Hs Hr Hw Hb. unfold drain_epoll.
  destruct (drain_instance_ok sh eb c read (wait_read env) 0 w Hsh Hs Hr)
    as (w1 & E1 & Hs1 & Hse1 & Htl1 & Hb1).
  unfold bind at 1. rewrite E1.
  match goal with |- context [drain_instance _ _ write _ ?n] => set (n1 := n) end.
  destruct (drain_instance_ok sh eb c write (wait_write env) n1 w1 Hs1 Hse1 Hw)
    as (w2 & E2 & Hs2 & Hse2 & Htl2 & Hb2).
  unfold bind at 1. rewrite E2.
  unfold bind at 1, gets at 1.
  destruct (for_each_Cancel_total sh (epollwait_tasks_ (iowait w2)) w2 Hs2
              (or_introl Hse2) (Hb2 (Hb1 Hb)))
    as (w3 & E3 & Hs3 & Hu3 & Htl3).
  unfold bind at 1. rewrite E3.
  unfold bind, upd_iowait, modify, ret.
  eexists. split; [reflexivity|]. split; [exact Hs3|].
  split.
  { destruct Hu3 as [H|H]; [by left | by right]. }
  simpl. by rewrite Htl3, Htl2, Htl1.
Qed.

Lemma run_timeout_list_ok sh w :
  shapes w = sh →
  epoll_usable w →
  Forall (fun tm => is_Some (sh !! cb_tk tm)) (timeout_list_ (iowait w)) →
  ∃ w', run_timeout_list w = Ok tt w'.
Proof.
  intros Hsh Hu Hok. unfold run_timeout_list, bind, gets, upd_iowait, modify.
  match goal with |- context [for_each timer_callback _ ?x] => set (w1 := x) end.
  destruct (for_each_timer_callback_total sh (timeout_list_ (iowait w)) w1)
    as (w2 & E & _); [done | | done | by exists w2].
  destruct Hu as [H|H]; [by left | by right].
Qed.

(** The number of timers that are due when [WaitLoop] starts. *)
Definition due_count (w : World) : nat :=
  length (due (k_now (kernel w)) (timer_mgr_ (iowait w))).

(** The number of readiness events the kernel hands over in one [WaitLoop]:
    those of both instances, if the instances belong to this process. *)
Definition drained (w : World) (env : LoopEnv) : nat :=
  if decide (settled w)
  then (events_of (wait_read env) + events_of (wait_write env))%nat
  else 0%nat.

(** Every pointer the wait loop will dereference points at a live object. *)
Definition pointers_ok (w : World) (env : LoopEnv) : Prop :=
  Forall (fun tm => is_Some (shapes w !! cb_tk tm))
    (timer_mgr_ (iowait w) ++ timeout_list_ (iowait w))
  ∧ Forall (fun st : EpollWaitSt => is_Some (shapes w !! st.1))
      (epollwait_tasks_ (iowait w))
  ∧ answer_ok (shapes w) (wait_read env)
  ∧ answer_ok (shapes w) (wait_write env).

Lemma wrap_int_small z : -2147483648 <= z < 2147483648 → wrap_int z = z.
Proof. intros H. unfold wrap_int. rewrite Z.mod_small; lia. Qed.

Lemma WaitLoop_unlocked env eb w :
  lock_acquired env = false →
  Z.of_nat (due_count w) < 2147483648 →
  ∃ w', WaitLoop env eb w
        = Ok (if decide (Z.of_nat (due_count w) ≠ 0)
              then Z.of_nat (due_count w) else -1) w'.
Proof.
  intros Hlock Hrange. unfold WaitLoop. unfold bind at 1, gets at 1.
  destruct (drain_timers_spec (S (length (timer_mgr_ (iowait w)))) 0 w)
    as (TM & TL & c' & E & HTL & HP & Hc & _); [lia|].
  unfold bind at 1. rewrite E, Hlock. cbn [negb]. unfold ret.
  rewrite Hc by (unfold due_count in Hrange; lia). rewrite Z.add_0_l.
  eexists. reflexivity.
Qed.

Lemma WaitLoop_locked env eb w :
  lock_acquired env = true →
  epoll_usable w →
  pointers_ok w env →
  Z.of_nat (drained w env) + Z.of_nat (due_count w) < 2147483648 →
  ∃ w', WaitLoop env eb w
        = Ok (Z.of_nat (drained w env) + Z.of_nat (due_count w)) w'.
Proof.
  intros Hlock Huse (Htm & Hbuf & Hrd & Hwr) Hrange.
  unfold WaitLoop. unfold bind at 1, gets at 1.
  destruct (drain_timers_spec (S (length (timer_mgr_ (iowait w)))) 0 w)
    as (TM & TL & c' & E & HTL & HP & Hc & _); [lia|].
  unfold bind at 1. rewrite E, Hlock. cbn [negb].
  rewrite Hc by (unfold due_count in Hrange; lia). clear Hc E.
  rewrite Z.add_0_l.
  fold (due_count w). set (c := Z.of_nat (due_count w)) in *.
  unfold bind at 1, upd_iowait at 1, modify at 1.
  unfold bind at 1, IsEpollCreated, bind, getpid, gets, ret.
  match goal with |- context [bool_decide (epoll_owner_pid_ (iowait ?x) = _)] =>
    set (w1 := x) end.
  assert (Hsh1 : shapes w1 = shapes w) by reflexivity.
  assert (Htl1 : timeout_list_ (iowait w1) = TL) by reflexivity.
  assert (HTLok : Forall (fun tm => is_Some (shapes w !! cb_tk tm)) TL).
  { rewrite HTL. apply Forall_app in Htm as [H1 H2]. apply Forall_app.
    split; [done|]. unfold due. rewrite Forall_forall in H1 |- *.
    intros x [_ Hx]%list_elem_of_filter. by apply H1. }
  assert (Huse1 : epoll_usable w1).
  { destruct Huse as [H|H]; [by left | by right]. }
  unfold drained in *.
  change (epoll_owner_pid_ (iowait w1) = k_pid (kernel w1)) with (settled w).
  destruct (decide (settled w)) as [Hs|Hns].
  - rewrite bool_decide_true by done.
    destruct (drain_epoll_ok (shapes w) env eb c w1 Hsh1 Hs Hrd Hwr Hbuf)
      as (w2 & E2 & Hs2 & Hu2 & Htl2).
    rewrite E2.
    destruct (run_timeout_list_ok (shapes w) w2 Hs2 Hu2) as (w3 & E3).
    { by rewrite Htl2, Htl1. }
    rewrite E3. unfold PopDeleteList_and_delete, upd_sched, modify.
    eexists. f_equal.
    unfold events_of in *.
    destruct (answer (wait_read env)) as [er|], (answer (wait_write env)) as [ew|];
      repeat match goal with
             | |- context [wrap_int ?z] => rewrite (wrap_int_small z) by lia
             end;
      lia.
  - rewrite bool_decide_false by done.
    destruct (run_timeout_list_ok (shapes w) w1 Hsh1 Huse1) as (w3 & E3).
    { by rewrite Htl1. }
    rewrite E3. unfold PopDeleteList_and_delete, upd_sched, modify.
    eexists. f_equal. rewrite wrap_int_small by lia. lia.
Qed.

(** C7 — The value [WaitLoop] returns.  With [c] timers due when the call
    starts (all of them are drained), a call that does not get the epoll
    lock returns [c] if [c] is not zero and [-1] otherwise; a call that gets
    the lock returns [epoll_n + c], where [epoll_n] is the number of
    readiness events of both instances in this call (none if the instances
    are not created for this process, none for an instance whose
    [epoll_wait] fails).  The counts are taken to fit into an [int]. *)
Theorem C7_WaitLoop_return_value (w : World) (env : LoopEnv) (enable_block : bool) :
  let c := Z.of_nat (due_count w) in
  let epoll_n := Z.of_nat (drained w env) in
  (lock_acquired env = false →
   c < 2147483648 →
   ∃ w', WaitLoop env enable_block w = Ok (if decide (c ≠ 0) then c else -1) w')
  ∧ (lock_acquired env = true →
     epoll_usable w →
     pointers_ok w env →
     epoll_n + c < 2147483648 →
     ∃ w', WaitLoop env enable_block w = Ok (epoll_n + c) w').
Proof.
  split; [apply WaitLoop_unlocked | apply WaitLoop_locked].
Qed.

(** What a run returns and ends in satisfies [P]. *)
Definition returns {A} (r : Res A) (P : A → World → Prop) : Prop :=
  match r with
  | Ok a w => P a w
  | Fail _ => False
  end.

Module Forked.

(** A child process right after [fork]: the instances 3 and 4 were created
    by the parent (pid 100), the child has pid 200.  Task 1 is blocked on
    descriptor 10, which sits in the interest list of instance 3. *)
Definition task1 : Task :=
  {| id_ := 7; state_ := io_block; ref_count_ := 2;
     io_wait_data_ :=
       {| io_block_id_ := 1;
          wait_fds_ := [stamp 1%nat 1 (Scenario.fds 10 EPOLLIN)];
          wait_successful_ := 0; io_block_timeout_ := -1;
          io_block_timer_ := None |} |}.

Definition world : World :=
  {| kernel := {| k_pid := 200; k_epolls := {[3; 4]};
                  k_interest := {[(3, 10) := (Z.lor EPOLLIN EPOLLONESHOT,
                                              (1%nat, 0%nat))]};
                  k_files := {[10]}; k_next := 5; k_limit := 1024;
                  k_now := 0; k_log := [] |};
     sched := {| opt_max_sleep_ms := 20; opt_epoll_event_size := 1024;
                 current_task := None; heap := {[1%nat := task1]};
                 run_queue := []; yields := 1; delete_list := [] |};
     iowait := {| loop_index_ := 0; epollwait_ms_ := 0; epoll_fds_ := (3, 4);
                  epoll_event_size_ := 1024; epoll_owner_pid_ := 100;
                  wait_tasks_ := {[1%nat]}; timer_mgr_ := [];
                  timer_seq_ := 0; timeout_list_ := [];
                  epollwait_tasks_ := [] |} |}.

(** Descriptor 10 is readable. *)
Definition env : LoopEnv :=
  {| lock_acquired := true;
     wait_read := {| eintrs := 0;
                     answer := Some [{| ev_events := EPOLLIN;
                                        ev_data_ptr := (1%nat, 0%nat) |}] |};
     wait_write := {| eintrs := 0; answer := Some [] |} |}.

End Forked.

(** C8, as stated, fails: in a freshly forked child (current pid 200, owner
    pid 100) a [WaitLoop] that gets the lock does not create anything: the
    owner pid and both descriptors are as before, no system call is issued at
    all (no [close], no [epoll_create], no [epoll_wait]), the readable
    descriptor is not reported (the call returns 0) and the blocked task
    stays in the wait-set. *)
Lemma C8_counterexample :
  epoll_owner_pid_ (iowait Forked.world) ≠ k_pid (kernel Forked.world)
  ∧ returns (WaitLoop Forked.env true Forked.world)
      (fun v w' =>
         v = 0
         ∧ epoll_owner_pid_ (iowait w') = 100
         ∧ k_pid (kernel w') = 200
         ∧ epoll_fds_ (iowait w') = (3, 4)
         ∧ new_calls Forked.world w' = []
         ∧ run_queue (sched w') = []
         ∧ elements (wait_tasks_ (iowait w')) = [1%nat]).
Proof. split; [by vm_compute|]. vm_compute. repeat split. Qed.

Lemma timers_moved_self w :
  timers_moved (timer_mgr_ (iowait w)) (timeout_list_ (iowait w)) w = w.
Proof. destruct w as [k s i]. by destruct i. Qed.

(** * The theorems at concrete inputs *)

Lemma world0_usable : epoll_usable Scenario.world0.
Proof. right. unfold can_create. simpl. repeat split; (lia || done). Defined.

Lemma forked_usable : epoll_usable Forked.world.
Proof. right. unfold can_create. simpl. repeat split; (lia || done). Defined.

Lemma C3_witness :
  task_at 1%nat Forked.world = Some Forked.task1
  ∧ io_block_id_ (io_wait_data_ Forked.task1) ≠ 0
  ∧ Cancel 1%nat 0 Forked.world = Ok tt Forked.world.
Proof.
  assert (H1 : task_at 1%nat Forked.world = Some Forked.task1) by reflexivity.
  assert (H2 : io_block_id_ (io_wait_data_ Forked.task1) ≠ 0) by (simpl; lia).
  split; [exact H1|]. split; [exact H2|].
  exact (C3_stale_cancel_is_noop Forked.world 1%nat Forked.task1 0 H1 H2).
Defined.

Lemma C5_witness :
  task_at 1%nat Forked.world = Some Forked.task1
  ∧ epoll_usable Forked.world
  ∧ ∃ w', SchedulerSwitch 1%nat Forked.world = Ok tt w'
          ∧ ref_at 1%nat w'
            = Some (2 + count_acked EPOLL_CTL_ADD (new_calls Forked.world w')
                    - count_acked EPOLL_CTL_DEL (new_calls Forked.world w')
                    + (Z.of_nat (length (timer_mgr_ (iowait w'))) - 0)).
Proof.
  split; [reflexivity|]. split; [exact forked_usable|].
  destruct (C5_reference_count_accounting Forked.world 1%nat Forked.task1
              eq_refl forked_usable) as [(w' & E & Hr) _].
  exists w'. split; [exact E | exact Hr].
Defined.

Lemma C6_witness :
  current_task (sched Scenario.world0) = Some 1%nat
  ∧ task_at 1%nat Scenario.world0 = Some Scenario.task0
  ∧ ∃ w' t' fdst',
      CoSwitch [Scenario.fds 10 EPOLLIN] 50 Scenario.world0 = Ok [] w'
      ∧ io_block_id_ (io_wait_data_ t') = 1
      ∧ state_ t' = io_block
      ∧ wait_fds_ (io_wait_data_ t') !! 0%nat = Some fdst'
      ∧ fd fdst' = 10
      ∧ ep_tk (epoll_ptr fdst') = Some 1%nat
      ∧ ep_io_block_id (epoll_ptr fdst') = 1.
Proof.
  split; [reflexivity|]. split; [reflexivity|].
  destruct (C6_CoSwitch_postconditions Scenario.world0
              [Scenario.fds 10 EPOLLIN] 50) as [_ H].
  destruct (H 1%nat Scenario.task0 eq_refl eq_refl)
    as (w' & t' & E & _ & HG & _ & Hst & _ & _ & _ & _ & Hstamp & _).
  destruct (Hstamp 0%nat (Scenario.fds 10 EPOLLIN) eq_refl)
    as (fdst' & Hl & Hfd & Hev & Htk & Hid).
  exists w', t', fdst'. split; [exact E|]. split; [exact HG|].
  split; [exact Hst|]. split; [exact Hl|]. split; [exact Hfd|].
  split; [exact Htk | exact Hid].
Defined.

Module Running.

(** Task 1 blocked on descriptor 10 (readable) and 12 (writable) with a
    timeout of 50 ms, as [CoSwitch] and [SchedulerSwitch] leave it. *)
Definition world : World :=
  match block_call 1%nat [Scenario.fds 10 EPOLLIN; Scenario.fds 12 EPOLLOUT] 50
          Scenario.world0 with
  | Ok _ w => w
  | Fail _ => Scenario.world0
  end.

(** The same world 60 ms later. *)
Definition later : World :=
  set_kernel
    {| k_pid := k_pid (kernel world); k_epolls := k_epolls (kernel world);
       k_interest := k_interest (kernel world);
       k_files := k_files (kernel world); k_next := k_next (kernel world);
       k_limit := k_limit (kernel world); k_now := 60;
       k_log := k_log (kernel world) |} world.

(** Both descriptors are ready. *)
Definition both_ready : LoopEnv :=
  {| lock_acquired := true;
     wait_read := {| eintrs := 1;
                     answer := Some [{| ev_events := EPOLLIN;
                                        ev_data_ptr := (1%nat, 0%nat) |}] |};
     wait_write := {| eintrs := 0;
                      answer := Some [{| ev_events := EPOLLOUT;
                                         ev_data_ptr := (1%nat, 1%nat) |}] |} |}.

(** Another thread holds the epoll lock. *)
Definition contended_pump : LoopEnv :=
  {| lock_acquired := false;
     wait_read := {| eintrs := 0; answer := None |};
     wait_write := {| eintrs := 0; answer := None |} |}.

End Running.

Lemma running_pointers_ok : pointers_ok Running.world Running.both_ready.
Proof.
  assert (H1 : is_Some (shapes Running.world !! 1%nat)) by (vm_compute; eauto).
  split; [|split; [|split]].
  - vm_compute timer_mgr_. vm_compute timeout_list_. simpl. repeat constructor.
    exact H1.
  - vm_compute epollwait_tasks_. constructor.
  - unfold answer_ok. simpl. repeat constructor.
    exists [Some 1%nat; Some 1%nat], 1%nat. split; [by vm_compute|].
    split; [reflexivity | exact H1].
  - unfold answer_ok. simpl. repeat constructor.
    exists [Some 1%nat; Some 1%nat], 1%nat. split; [by vm_compute|].
    split; [reflexivity | exact H1].
Defined.

Lemma C7_witness :
  (lock_acquired Running.contended_pump = false
   ∧ Z.of_nat (due_count Running.later) < 2147483648
   ∧ ∃ w', WaitLoop Running.contended_pump true Running.later = Ok 1 w')
  ∧ (lock_acquired Running.contended_pump = false
     ∧ Z.of_nat (due_count Running.world) < 2147483648
     ∧ ∃ w', WaitLoop Running.contended_pump true Running.world = Ok (-1) w')
  ∧ (lock_acquired Running.both_ready = true
     ∧ epoll_usable Running.world
     ∧ pointers_ok Running.world Running.both_ready
     ∧ Z.of_nat (drained Running.world Running.both_ready)
       + Z.of_nat (due_count Running.world) < 2147483648
     ∧ ∃ w', WaitLoop Running.both_ready true Running.world = Ok 2 w').
Proof.
  assert (Hu : epoll_usable Running.world) by (left; by vm_compute).
  assert (D1 : due_count Running.later = 1%nat) by (vm_compute; reflexivity).
  assert (D2 : due_count Running.world = 0%nat) by (vm_compute; reflexivity).
  assert (D3 : drained Running.world Running.both_ready = 2%nat)
    by (vm_compute; reflexivity).
  assert (R1 : Z.of_nat (due_count Running.later) < 2147483648)
    by (rewrite D1; reflexivity).
  assert (R2 : Z.of_nat (due_count Running.world) < 2147483648)
    by (rewrite D2; reflexivity).
  assert (R3 : Z.of_nat (drained Running.world Running.both_ready)
               + Z.of_nat (due_count Running.world) < 2147483648)
    by (rewrite D2, D3; reflexivity).
  split; [|split].
  - split; [reflexivity|]. split; [exact R1|].
    destruct (C7_WaitLoop_return_value Running.later Running.contended_pump true)
      as [H _].
    destruct (H eq_refl R1) as (w' & E). rewrite D1 in E.
    exists w'. exact E.
  - split; [reflexivity|]. split; [exact R2|].
    destruct (C7_WaitLoop_return_value Running.world Running.contended_pump true)
      as [H _].
    destruct (H eq_refl R2) as (w' & E). rewrite D2 in E.
    exists w'. exact E.
  - split; [reflexivity|]. split; [exact Hu|].
    split; [exact running_pointers_ok|]. split; [exact R3|].
    destruct (C7_WaitLoop_return_value Running.world Running.both_ready true)
      as [_ H].
    destruct (H eq_refl Hu running_pointers_ok R3) as (w' & E).
    rewrite D2, D3 in E. exists w'. exact E.
Defined.

Lemma C9_witness :
  current_task (sched Scenario.world0) = Some 1%nat
  ∧ task_at 1%nat Scenario.world0 = Some Scenario.task0
  ∧ ∃ w' t',
      block_call 1%nat [] 50 Scenario.world0 = Ok tt w'
      ∧ kernel w' = kernel Scenario.world0
      ∧ run_queue (sched w') = [1%nat]
      ∧ timer_mgr_ (iowait w') = []
      ∧ task_at 1%nat w' = Some t'
      ∧ wait_successful_ (io_wait_data_ t') = 0
      ∧ io_block_timeout_ (io_wait_data_ t') = 50
      ∧ io_block_timer_ (io_wait_data_ t') = None.
Proof.
  split; [reflexivity|]. split; [reflexivity|].
  destruct (C9_empty_list_resumes_immediately Scenario.world0 1%nat
              Scenario.task0 50 eq_refl eq_refl)
    as (w' & t' & E & Hk & _ & Hq & Htm & Ht & Hws & _ & Hto & Hti & _).
  exists w', t'. split; [exact E|]. split; [exact Hk|]. split; [exact Hq|].
  split; [exact Htm|]. split; [exact Ht|]. split; [exact Hws|].
  split; [exact Hto | exact Hti].
Defined.

Lemma C10_witness :
  epoll_usable Scenario.world0
  ∧ ChooseEpoll (Z.lor EPOLLIN EPOLLOUT) Scenario.world0
    = Ok 3 (created Scenario.world0)
  ∧ ChooseEpoll EPOLLOUT Scenario.world0 = Ok 4 (created Scenario.world0)
  ∧ ChooseEpoll 0 Scenario.world0 = Ok 4 (created Scenario.world0).
Proof.
  split; [exact world0_usable|].
  destruct (C10_choose_gives_readable_precedence Scenario.world0 world0_usable)
    as (H & _).
  assert (F1 : chosen_fd Scenario.world0 (Z.lor EPOLLIN EPOLLOUT) = 3)
    by (vm_compute; reflexivity).
  assert (F2 : chosen_fd Scenario.world0 EPOLLOUT = 4) by (vm_compute; reflexivity).
  assert (F3 : chosen_fd Scenario.world0 0 = 4) by (vm_compute; reflexivity).
  split; [rewrite <- F1; exact (H (Z.lor EPOLLIN EPOLLOUT))|].
  split; [rewrite <- F2; exact (H EPOLLOUT) | rewrite <- F3; exact (H 0)].
Defined.

(** * The scenarios of the specification, run through [WaitLoop] *)

Module EndToEnd.

(** What is observed after a run: the task, the run queue, the keys of
    the interest lists, the members of the wait-set, the pending timers. *)
Definition observe {A} (r : Res A)
  : option (A * option Task * list TaskPtr * list (Z * Z) * list TaskPtr
            * list CoTimer) :=
  match r with
  | Ok a w =>
      Some (a, task_at 1%nat w, run_queue (sched w),
            (map_to_list (k_interest (kernel w))).*1,
            elements (wait_tasks_ (iowait w)), timer_mgr_ (iowait w))
  | Fail _ => None
  end.

Definition at_time (now : Z) : M unit :=
  upd_kernel (fun k =>
    {| k_pid := k_pid k; k_epolls := k_epolls k; k_interest := k_interest k;
       k_files := k_files k; k_next := k_next k; k_limit := k_limit k;
       k_now := now; k_log := k_log k |}).

Definition quiet : WaitAnswer := {| eintrs := 0; answer := Some [] |}.

Definition ready (evs : list epoll_event) : WaitAnswer :=
  {| eintrs := 0; answer := Some evs |}.

Definition fires (ev : Z) (idx : nat) : epoll_event :=
  {| ev_events := ev; ev_data_ptr := (1%nat, idx) |}.

Definition pump (r w : WaitAnswer) : M Z :=
  WaitLoop {| lock_acquired := true; wait_read := r; wait_write := w |} true.

Definition task_after (G wait_ok timeout : Z) (timer : option nat)
    (fdsts : list FdStruct) : Task :=
  {| id_ := 7; state_ := io_block; ref_count_ := 1;
     io_wait_data_ := {| io_block_id_ := G; wait_fds_ := fdsts;
                         wait_successful_ := wait_ok;
                         io_block_timeout_ := timeout;
                         io_block_timer_ := timer |} |}.

Definition entry (fd_ ev G rev : Z) : FdStruct :=
  {| fd := fd_; event := ev;
     epoll_ptr := {| ep_tk := Some 1%nat; ep_io_block_id := G;
                     ep_revent := rev |} |}.

(** Scenario 1: one readable descriptor, ready at once, no timeout. *)
Example single_fd_ready :
  observe ((block_call 1%nat [Scenario.fds 10 EPOLLIN] (-1);;
            pump (ready [fires EPOLLIN 0]) quiet) Scenario.world0)
  = Some (1, Some (task_after 1 1 (-1) None [entry 10 EPOLLIN 1 EPOLLIN]),
          [1%nat], [], [], []).
Proof. vm_compute. reflexivity. Qed.

(** Scenario 2: one readable descriptor that never gets ready, timeout of
    50 ms; the wait loop runs at 60 ms. *)
Example single_fd_timeout :
  observe ((block_call 1%nat [Scenario.fds 10 EPOLLIN] 50;;
            at_time 60;;
            pump quiet quiet) Scenario.world0)
  = Some (1, Some (task_after 1 0 50 (Some 0%nat) [entry 10 EPOLLIN 1 0]),
          [1%nat], [], [], []).
Proof. vm_compute. reflexivity. Qed.

(** Scenario 3: a readable and a writable descriptor, both ready before
    the wait loop runs. *)
Example multi_fd_mixed :
  observe ((block_call 1%nat [Scenario.fds 11 EPOLLIN; Scenario.fds 12 EPOLLOUT] (-1);;
            pump (ready [fires EPOLLIN 0]) (ready [fires EPOLLOUT 1]))
             Scenario.world0)
  = Some (2, Some (task_after 1 2 (-1) None
                     [entry 11 EPOLLIN 1 EPOLLIN; entry 12 EPOLLOUT 1 EPOLLOUT]),
          [1%nat], [], [], []).
Proof. vm_compute. reflexivity. Qed.

(** Scenario 4: the same descriptor twice. *)
Example duplicate_fd :
  observe (block_call 1%nat [Scenario.fds 13 EPOLLIN; Scenario.fds 13 EPOLLIN] (-1)
             Scenario.world0)
  = Some (tt, Some (task_after 1 0 (-1) None
                      [entry 13 EPOLLIN 1 0; entry 13 EPOLLIN 1 0]),
          [1%nat], [], [], []).
Proof. vm_compute. reflexivity. Qed.

(** The scheduler runs the task again: it becomes the current task. *)
Definition resume : M unit :=
  upd_sched (fun s =>
    {| opt_max_sleep_ms := opt_max_sleep_ms s;
       opt_epoll_event_size := opt_epoll_event_size s;
       current_task := Some 1%nat; heap := heap s; run_queue := [];
       yields := yields s; delete_list := delete_list s |}).

(** Scenario 5: block A (timeout 10 ms) is resumed by readiness at 1 ms,
    the task blocks again (B, no timeout), and the timer of A fires at
    10 ms: B stays blocked, registered, and the count of references is the
    one of B's registration. *)
Example stale_timeout :
  observe ((block_call 1%nat [Scenario.fds 14 EPOLLIN] 10;;
            at_time 1;;
            pump (ready [fires EPOLLIN 0]) quiet;;
            resume;;
            block_call 1%nat [Scenario.fds 14 EPOLLIN] (-1);;
            at_time 10;;
            pump quiet quiet) Scenario.world0)
  = Some (1, Some {| id_ := 7; state_ := io_block; ref_count_ := 2;
                     io_wait_data_ :=
                       {| io_block_id_ := 2;
                          wait_fds_ := [entry 14 EPOLLIN 2 0];
                          wait_successful_ := 0; io_block_timeout_ := -1;
                          io_block_timer_ := None |} |},
          [], [(3, 14)], [1%nat], []).
Proof. vm_compute. reflexivity. Qed.

(** Scenario 6: a second pump that does not get the lock. *)
Example contended_pump :
  observe ((block_call 1%nat [Scenario.fds 10 EPOLLIN] (-1);;
            WaitLoop {| lock_acquired := false; wait_read := quiet;
                        wait_write := quiet |} true) Scenario.world0)
  = Some (-1, Some {| id_ := 7; state_ := io_block; ref_count_ := 2;
                      io_wait_data_ :=
                        {| io_block_id_ := 1;
                           wait_fds_ := [entry 10 EPOLLIN 1 0];
                           wait_successful_ := 0; io_block_timeout_ := -1;
                           io_block_timer_ := None |} |},
          [], [(3, 10)], [1%nat], []).
Proof. vm_compute. reflexivity. Qed.

End EndToEnd.

(** * Further properties of the code *)

(** ** The wait quantum *)

(** [n] calls of [m] in a row. *)
Definition repeat_call (n : nat) (m : M unit) : M unit :=
  for_each (fun _ : unit => m) (replicate n tt).

Lemma DelayEventWaitTime_eq w :
  DelayEventWaitTime w
  = Ok tt (set_iowait
             (i_set_epollwait_ms
                (Z.min (wrap_int (epollwait_ms_ (iowait w) + 1))
                   (opt_max_sleep_ms (sched w))) (iowait w)) w).
Proof. reflexivity. Qed.

Lemma repeat_Delay n : ∀ w,
  0 <= epollwait_ms_ (iowait w) <= opt_max_sleep_ms (sched w) →
  opt_max_sleep_ms (sched w) < 2147483647 →
  repeat_call n DelayEventWaitTime w
  = Ok tt (set_iowait
             (i_set_epollwait_ms
                (Z.min (epollwait_ms_ (iowait w) + Z.of_nat n)
                   (opt_max_sleep_ms (sched w))) (iowait w)) w).
Proof.
  induction n as [|n IH]; intros w Hr Hmax.
  - unfold repeat_call. simpl. unfold ret. f_equal.
    rewrite Z.add_0_r, Z.min_l by lia. by destruct w as [k s []].
  - unfold repeat_call. cbn [replicate for_each]. unfold bind.
    rewrite DelayEventWaitTime_eq. fold (repeat_call n DelayEventWaitTime).
    rewrite IH; simpl; rewrite ?wrap_int_small by lia; [|lia|lia].
    match goal with
    | |- Ok tt (set_iowait (i_set_epollwait_ms ?a _) _)
         = Ok tt (set_iowait (i_set_epollwait_ms ?b _) _) =>
        replace a with b by lia
    end.
    reflexivity.
Qed.

(** X1 — The wait quantum.  [DelayEventWaitTime] never leaves
    [epollwait_ms_] above the option [max_sleep_ms] and touches nothing
    else; after [ResetEventWaitTime], [n] calls of it leave the quantum at
    [min n max_sleep_ms]: it grows by one millisecond per call and saturates
    at the option. *)
Theorem X1_wait_quantum_ramp (w : World) :
  (∃ ms, DelayEventWaitTime w
         = Ok tt (set_iowait (i_set_epollwait_ms ms (iowait w)) w)
         ∧ ms <= opt_max_sleep_ms (sched w))
  ∧ (0 <= opt_max_sleep_ms (sched w) < 2147483647 →
     ∀ n, (ResetEventWaitTime;; repeat_call n DelayEventWaitTime) w
          = Ok tt (set_iowait
                     (i_set_epollwait_ms
                        (Z.min (Z.of_nat n) (opt_max_sleep_ms (sched w)))
                        (iowait w)) w)).
Proof.
  split.
  - eexists. split; [apply DelayEventWaitTime_eq | lia].
  - intros Hmax n. unfold bind, ResetEventWaitTime, upd_iowait, modify.
    rewrite repeat_Delay; simpl; [done | lia | lia].
Qed.

Lemma X1_witness :
  0 <= opt_max_sleep_ms (sched Scenario.world0) < 2147483647
  ∧ (ResetEventWaitTime;; repeat_call 25 DelayEventWaitTime) Scenario.world0
    = Ok tt (set_iowait (i_set_epollwait_ms 20 (iowait Scenario.world0))
               Scenario.world0).
Proof.
  assert (H : 0 <= opt_max_sleep_ms (sched Scenario.world0) < 2147483647)
    by (simpl; lia).
  split; [exact H|].
  destruct (X1_wait_quantum_ramp Scenario.world0) as [_ R].
  exact (R H 25%nat).
Defined.

(** ** The pair of epoll instances *)

(** X2 — [CreateEpoll] creates the pair once.  When the owner pid is not
    the pid of the process and the kernel can hand out two descriptors,
    [CreateEpoll] issues exactly four calls: it closes the old read
    descriptor, creates the new one, closes the old write descriptor and
    creates the new one, with the size taken from the scheduler's options.
    Afterwards the process owns the pair, [IsEpollCreated] answers [true],
    and [CreateEpoll] and [GetEpoll] create nothing more. *)
Theorem X2_CreateEpoll_creates_once (w : World) :
  can_create w →
  let n := k_next (kernel w) in
  let size := opt_epoll_event_size (sched w) in
  ∃ w',
    CreateEpoll w = Ok tt w'
    ∧ new_calls w w'
      = [sys_close (epoll_fds_ (iowait w)).1; sys_epoll_create size n;
         sys_close (epoll_fds_ (iowait w)).2; sys_epoll_create size (n + 1)]
    ∧ epoll_fds_ (iowait w') = (n, n + 1)
    ∧ epoll_event_size_ (iowait w') = size
    ∧ epoll_owner_pid_ (iowait w') = k_pid (kernel w)
    ∧ k_pid (kernel w') = k_pid (kernel w)
    ∧ IsEpollCreated w = Ok false w
    ∧ IsEpollCreated w' = Ok true w'
    ∧ CreateEpoll w' = Ok tt w'
    ∧ (∀ ty, GetEpoll ty w' = Ok (epoll_fd_of ty (iowait w')) w').
Proof.
  intros (Hne & Hsz & Hn0 & Hlim) n size.
  assert (H1 : (0 <? opt_epoll_event_size (sched w)) = true) by (apply Z.ltb_lt; lia).
  assert (H2 : (k_next (kernel w) <? k_limit (kernel w)) = true) by (apply Z.ltb_lt; lia).
  assert (H3 : (k_next (kernel w) + 1 <? k_limit (kernel w)) = true) by (apply Z.ltb_lt; lia).
  assert (E : ∃ w', CreateEpoll w = Ok tt w'
                    ∧ k_log (kernel w')
                      = k_log (kernel w)
                        ++ [sys_close (epoll_fds_ (iowait w)).1;
                            sys_epoll_create size n;
                            sys_close (epoll_fds_ (iowait w)).2;
                            sys_epoll_create size (n + 1)]
                    ∧ epoll_fds_ (iowait w') = (n, n + 1)
                    ∧ epoll_event_size_ (iowait w') = size
                    ∧ epoll_owner_pid_ (iowait w') = k_pid (kernel w)
                    ∧ k_pid (kernel w') = k_pid (kernel w)).
  { unfold CreateEpoll, bind, getpid, gets.
    destruct (decide _) as [e|_]; [contradiction|].
    unfold upd_iowait, modify, for_each, CreateEpoll_one, bind, gets, close,
      upd_kernel, modify, epoll_create, upd_iowait, kernel_epoll_create. simpl.
    rewrite H1, H2. simpl.
    destruct (decide (k_next (kernel w) ≠ -1)) as [_|c]; [|exfalso; apply c; lia].
    simpl. rewrite H1, H3. simpl.
    destruct (decide (k_next (kernel w) + 1 ≠ -1)) as [_|c]; [|exfalso; apply c; lia].
    eexists. split; [reflexivity|]. simpl.
    split; [by rewrite <- !app_assoc|]. done. }
  destruct E as (w' & E & Hlog & Hfds & Hsize & Hown & Hpid).
  assert (Hs : settled w') by (unfold settled; by rewrite Hown, Hpid).
  exists w'. split; [done|]. split; [by apply new_calls_app|].
  do 4 (split; [done|]).
  split.
  { unfold IsEpollCreated, bind, getpid, gets, ret.
    by rewrite bool_decide_false. }
  split.
  { unfold IsEpollCreated, bind, getpid, gets, ret.
    by rewrite bool_decide_true. }
  split; [by apply CreateEpoll_settled|].
  intros ty. by apply GetEpoll_settled.
Qed.

Lemma X2_witness :
  can_create Forked.world
  ∧ ∃ w', CreateEpoll Forked.world = Ok tt w'
          ∧ new_calls Forked.world w'
            = [sys_close 3; sys_epoll_create 1024 5;
               sys_close 4; sys_epoll_create 1024 6]
          ∧ epoll_fds_ (iowait w') = (5, 6)
          ∧ epoll_owner_pid_ (iowait w') = 200.
Proof.
  assert (H : can_create Forked.world) by (unfold can_create; simpl; lia).
  split; [exact H|].
  destruct (X2_CreateEpoll_creates_once Forked.world H)
    as (w' & E & Hlog & Hfds & _ & Hown & _).
  exists w'. split; [exact E|]. split; [exact Hlog|]. split; [exact Hfds|].
  exact Hown.
Defined.

(** X3 — [CreateEpoll] cannot fail and return: if the pair has to be made
    and the kernel refuses one of the two [epoll_create] calls (the size
    option is not positive, or fewer than two descriptors are left), the
    process exits.  The same holds for everything that reaches
    [CreateEpoll]: [GetEpoll], [ChooseEpoll], and [SchedulerSwitch] on a
    task with a non-empty interest list. *)
Theorem X3_CreateEpoll_failure_exits (w : World) :
  epoll_owner_pid_ (iowait w) ≠ k_pid (kernel w) →
  opt_epoll_event_size (sched w) <= 0
  ∨ k_limit (kernel w) <= k_next (kernel w) + 1 →
  CreateEpoll w = Fail process_exit
  ∧ (∀ ty, GetEpoll ty w = Fail process_exit)
  ∧ (∀ ev, ChooseEpoll ev w = Fail process_exit)
  ∧ (∀ tk t, task_at tk w = Some t →
             wait_fds_ (io_wait_data_ t) ≠ [] →
             SchedulerSwitch tk w = Fail process_exit).
Proof.
  intros Hne Hbad.
  assert (E : CreateEpoll w = Fail process_exit).
  { unfold CreateEpoll, bind, getpid, gets.
    destruct (decide _) as [e|_]; [contradiction|].
    unfold upd_iowait, modify, for_each, CreateEpoll_one, bind, gets, close,
      upd_kernel, modify, epoll_create, upd_iowait, kernel_epoll_create. simpl.
    destruct (0 <? opt_epoll_event_size (sched w)) eqn:H1; simpl.
    2: { by destruct (decide (-1 ≠ -1)). }
    destruct (k_next (kernel w) <? k_limit (kernel w)) eqn:H2; simpl.
    2: { by destruct (decide (-1 ≠ -1)). }
    destruct (decide (k_next (kernel w) ≠ -1)) as [_|c]; [|done].
    simpl. rewrite H1. simpl.
    destruct (k_next (kernel w) + 1 <? k_limit (kernel w)) eqn:H3; simpl.
    2: { by destruct (decide (-1 ≠ -1)). }
    exfalso. apply Z.ltb_lt in H1, H3. lia. }
  split; [exact E|].
  split; [intros ty; unfold GetEpoll, bind; by rewrite E|].
  split; [intros ev; unfold ChooseEpoll, bind; by rewrite E|].
  intros tk t Ht Hfds. unfold SchedulerSwitch.
  unfold bind at 1. rewrite (get_task_ok _ _ _ Ht).
  unfold bind at 1. rewrite (IncrementRef_ok _ _ _ Ht).
  unfold bind at 1. unfold wait_tasks_push at 1, upd_iowait, modify.
  destruct (wait_fds_ (io_wait_data_ t)) as [|fdst rest]; [done|].
  cbn [register_fds]. unfold bind at 1. unfold bind at 1.
  unfold ChooseEpoll. unfold bind at 1.
  pose proof (CreateEpoll_frame w
                (s_set_heap (<[tk:=t_set_ref_count (ref_count_ t + 1) t]>
                               (heap (sched w))) (sched w))
                ({[tk]} ∪ wait_tasks_ (iowait w)) eq_refl) as F.
  rewrite E in F. unfold with_task. simpl in F |- *. by rewrite F.
Qed.

Lemma X3_witness :
  let w := set_kernel (k_set_next 1023 Scenario.kernel0) Scenario.world0 in
  epoll_owner_pid_ (iowait w) ≠ k_pid (kernel w)
  ∧ k_limit (kernel w) <= k_next (kernel w) + 1
  ∧ CreateEpoll w = Fail process_exit.
Proof.
  intros w.
  assert (H1 : epoll_owner_pid_ (iowait w) ≠ k_pid (kernel w)) by (simpl; lia).
  assert (H2 : k_limit (kernel w) <= k_next (kernel w) + 1) by (simpl; lia).
  split; [exact H1|]. split; [exact H2|].
  exact (proj1 (X3_CreateEpoll_failure_exits w H1 (or_intror H2))).
Defined.

(** The answer of [GetEpollType] for the pair [(r, w)]. *)
Lemma GetEpollType_eq epoll_fd w :
  GetEpollType epoll_fd w
  = Ok (if decide (epoll_fd = (epoll_fds_ (iowait w)).1) then 0
        else if decide (epoll_fd = (epoll_fds_ (iowait w)).2) then 1 else -1) w.
Proof.
  unfold GetEpollType, bind, gets, ret. simpl.
  by repeat destruct (decide _).
Qed.

(** X4 — [GetEpollType] inverts [GetEpoll].  [GetEpollType] changes nothing
    and answers 0 for the read descriptor, 1 for a write descriptor that is
    not also the read descriptor, and -1 for every other number.
    When the pair has to be created and the kernel allows it, the descriptor
    [GetEpoll ty] creates and returns has type [ty], and the one
    [ChooseEpoll ev] returns has type [read] exactly when [ev] has the
    EPOLLIN bit.  Before the first creation both members are -1, and -1 is
    reported as the read instance. *)
Theorem X4_GetEpollType_inverts_GetEpoll (w : World) :
  (∀ epoll_fd, ∃ v,
     GetEpollType epoll_fd w = Ok v w
     ∧ (v = 0 ↔ epoll_fd = (epoll_fds_ (iowait w)).1)
     ∧ (v = 1 ↔ epoll_fd ≠ (epoll_fds_ (iowait w)).1
                ∧ epoll_fd = (epoll_fds_ (iowait w)).2)
     ∧ (v = -1 ↔ epoll_fd ≠ (epoll_fds_ (iowait w)).1
                 ∧ epoll_fd ≠ (epoll_fds_ (iowait w)).2))
  ∧ (can_create w →
     (∀ ty, ∃ epoll_fd w',
        GetEpoll ty w = Ok epoll_fd w'
        ∧ GetEpollType epoll_fd w' = Ok (EpollType_to_int ty) w')
     ∧ (∀ ev, ∃ epoll_fd w',
          ChooseEpoll ev w = Ok epoll_fd w'
          ∧ GetEpollType epoll_fd w'
            = Ok (if Z.testbit ev 0 then 0 else 1) w'))
  ∧ (epoll_fds_ (iowait w) = epoll_fds_ IoWait_ctor →
     GetEpollType (-1) w = Ok 0 w).
Proof.
  split; [|split].
  - intros epoll_fd. eexists. split; [apply GetEpollType_eq|].
    destruct (decide (epoll_fd = _)) as [H1|H1];
      [|destruct (decide (epoll_fd = _)) as [H2|H2]]; simpl;
      repeat split; intros; try done; try tauto; try lia.
  - intros Hc.
    destruct (CreateEpoll_can_create w Hc)
      as (w' & E & Hs & _ & _ & _ & _ & _ & _ & _ & Hfds & _).
    split.
    + intros ty. exists (epoll_fd_of ty (iowait w')), w'.
      split; [unfold GetEpoll, bind; by rewrite E|].
      rewrite GetEpollType_eq, Hfds. f_equal.
      destruct ty; simpl; rewrite ?Hfds; simpl.
      * by rewrite decide_True.
      * rewrite decide_False by lia. by rewrite decide_True.
    + intros ev. exists (chosen_fd w ev), (created w).
      split; [apply ChooseEpoll_chosen; by right|].
      unfold chosen_fd, created. rewrite E, GetEpollType_eq, Hfds.
      destruct (Z.testbit ev 0); simpl; f_equal.
      * by rewrite decide_True.
      * rewrite decide_False by lia. by rewrite decide_True.
  - intros H. rewrite GetEpollType_eq, H. done.
Qed.

Lemma X4_witness :
  can_create Scenario.world0
  ∧ epoll_fds_ (iowait Scenario.world0) = epoll_fds_ IoWait_ctor
  ∧ (∃ epoll_fd w',
       GetEpoll write Scenario.world0 = Ok epoll_fd w'
       ∧ GetEpollType epoll_fd w' = Ok 1 w')
  ∧ GetEpollType (-1) Scenario.world0 = Ok 0 Scenario.world0.
Proof.
  assert (H : can_create Scenario.world0) by (unfold can_create; simpl; lia).
  split; [exact H|]. split; [reflexivity|].
  destruct (X4_GetEpollType_inverts_GetEpoll Scenario.world0) as (_ & G & I).
  split; [exact (proj1 (G H) write) | exact (I eq_refl)].
Defined.

(** ** What a call leaves alone *)

(** Every run of [m] that returns relates the world it started in to the
    world it ends in by [R]. *)
Definition keeps (R : relation World) {A} (m : M A) : Prop :=
  ∀ w a w', m w = Ok a w' → R w w'.

Section Keeps.
Context (R : relation World) `{!PreOrder R}.

Lemma keeps_ret {A} (a : A) : keeps R (ret a).
Proof. intros w a' w' [= _ <-]. reflexivity. Qed.

Lemma keeps_gets {A} (f : World → A) : keeps R (gets f).
Proof. intros w a' w' [= _ <-]. reflexivity. Qed.

Lemma keeps_fail {A} e : keeps R (@fail A e).
Proof. intros w a' w' [=]. Qed.

Lemma keeps_bind {A B} (m : M A) (k : A → M B) :
  keeps R m → (∀ a, keeps R (k a)) → keeps R (bind m k).
Proof.
  intros Hm Hk w b w' E. unfold bind in E.
  destruct (m w) as [a w1|] eqn:E1; [|done].
  transitivity w1; [by apply (Hm w a) | by apply (Hk a w1 b)].
Qed.

Lemma keeps_for_each {A} (f : A → M unit) (l : list A) :
  (∀ x, keeps R (f x)) → keeps R (for_each f l).
Proof.
  intros Hf. induction l as [|x l IH]; simpl.
  - apply keeps_ret.
  - apply keeps_bind; [apply Hf | intros _; exact IH].
Qed.

Lemma keeps_modify (g : World → World) :
  (∀ w, R w (g w)) → keeps R (modify g).
Proof. intros Hg w a w' E. injection E as _ <-. apply Hg. Qed.

Lemma keeps_get_task tk : keeps R (get_task tk).
Proof.
  intros w a w' E. unfold get_task in E.
  destruct (heap (sched w) !! tk); [|done]. injection E as _ <-. reflexivity.
Qed.

Lemma keeps_modify_task tk f :
  (∀ w t, heap (sched w) !! tk = Some t → R w (with_task tk (f t) w)) →
  keeps R (modify_task tk f).
Proof.
  intros H w a w' E. unfold modify_task, bind, get_task in E.
  destruct (heap (sched w) !! tk) as [t|] eqn:Ht; [|done].
  injection E as _ <-. by apply H.
Qed.

End Keeps.

(** The members of [IoWait] that belong to the wait loop alone, the clock,
    the pid, and the delete list, which only grows. *)
Record calm (w w' : World) : Prop := mk_calm {
  calm_loop_index : loop_index_ (iowait w') = loop_index_ (iowait w);
  calm_ms : epollwait_ms_ (iowait w') = epollwait_ms_ (iowait w);
  calm_timer_mgr : timer_mgr_ (iowait w') = timer_mgr_ (iowait w);
  calm_timer_seq : timer_seq_ (iowait w') = timer_seq_ (iowait w);
  calm_timeout_list : timeout_list_ (iowait w') = timeout_list_ (iowait w);
  calm_now : k_now (kernel w') = k_now (kernel w);
  calm_pid : k_pid (kernel w') = k_pid (kernel w);
  calm_delete_list : delete_list (sched w) `prefix_of` delete_list (sched w')
}.

#[global] Instance calm_preorder : PreOrder calm.
Proof.
  split.
  - intros w. by split.
  - intros w1 w2 w3 [] []. split; try congruence. by etrans.
Qed.

(** The calls issued are no [epoll_wait]. *)
Definition no_waits (w w' : World) : Prop :=
  ∃ d, k_log (kernel w') = k_log (kernel w) ++ d
       ∧ Forall (fun c => ¬ is_wait c) d.

#[global] Instance no_waits_preorder : PreOrder no_waits.
Proof.
  split.
  - intros w. exists []. by rewrite app_nil_r.
  - intros w1 w2 w3 (d1 & E1 & H1) (d2 & E2 & H2). exists (d1 ++ d2).
    split; [by rewrite E2, E1, app_assoc | by apply Forall_app].
Qed.

(** The two of them, and the buffer of the wait loop. *)
Record tame (w w' : World) : Prop := mk_tame {
  tame_calm : calm w w';
  tame_no_waits : no_waits w w';
  tame_buffer : epollwait_tasks_ (iowait w') = epollwait_tasks_ (iowait w)
}.

#[global] Instance tame_preorder : PreOrder tame.
Proof.
  split.
  - intros w. split; reflexivity.
  - intros w1 w2 w3 [] []. split; [by etrans | by etrans | congruence].
Qed.

Lemma no_waits_same_kernel w w' : kernel w' = kernel w → no_waits w w'.
Proof. intros E. exists []. by rewrite E, app_nil_r. Qed.

Lemma no_waits_one w w' c :
  k_log (kernel w') = k_log (kernel w) ++ [c] → ¬ is_wait c → no_waits w w'.
Proof. intros E H. exists [c]. split; [done|]. by constructor. Qed.

Lemma tame_CreateEpoll : keeps tame CreateEpoll.
Proof.
  intros w a w' E.
  unfold CreateEpoll, bind, getpid, gets in E.
  destruct (decide _) as [e|_].
  { injection E as _ <-. reflexivity. }
  unfold upd_iowait, modify, for_each, CreateEpoll_one, bind, gets, close,
    upd_kernel, modify, epoll_create, upd_iowait, kernel_epoll_create in E.
  simpl in E.
  repeat match type of E with
         | context [decide (?x ≠ -1)] => destruct (decide (x ≠ -1)); simpl in E
         | context [?x && ?y] => destruct (x && y); simpl in E
         end;
    try discriminate; injection E as _ <-; (split; [by split| |done]); simpl;
    unfold no_waits; simpl; rewrite <- ?app_assoc;
    eexists; (split; [reflexivity|]);
    repeat constructor; simpl; tauto.
Qed.

(** One structural step of a proof of [keeps]. *)
Ltac keeps_step :=
  first [ apply keeps_ret | apply keeps_gets | apply keeps_fail
        | apply keeps_get_task | apply keeps_bind | apply keeps_for_each ];
  try apply _.

Lemma tame_ChooseEpoll ev : keeps tame (ChooseEpoll ev).
Proof. keeps_step; [apply tame_CreateEpoll | intros _; keeps_step]. Qed.

Lemma tame_GetEpoll ty : keeps tame (GetEpoll ty).
Proof. keeps_step; [apply tame_CreateEpoll | intros _; keeps_step]. Qed.

Lemma tame_epoll_ctl_del epfd fd_ : keeps tame (epoll_ctl_del epfd fd_).
Proof.
  intros w a w' E. unfold epoll_ctl_del in E. injection E as _ <-.
  unfold kernel_ctl_del.
  destruct (ctl_target_ok _ _ _); [destruct (_ !! _)|]; simpl;
    (split; [by split| |done]); (eapply no_waits_one; [reflexivity|]); simpl; tauto.
Qed.

Lemma tame_DecrementRef tk : keeps tame (DecrementRef tk).
Proof.
  intros w a w' E. unfold DecrementRef, bind, get_task in E.
  destruct (heap (sched w) !! tk) as [t|]; [|done].
  unfold put_task, upd_sched, modify, ret in E.
  destruct (decide _); injection E as _ <-; simpl;
    (split; [split; simpl; try done; by apply prefix_app_r
            | by apply no_waits_same_kernel | done]).
Qed.

Lemma tame_del_one tk fd_ ev : keeps tame (del_one tk fd_ ev).
Proof.
  keeps_step; [apply tame_ChooseEpoll | intros epfd].
  keeps_step; [apply tame_epoll_ctl_del | intros []].
  - apply tame_DecrementRef.
  - keeps_step.
Qed.

Lemma tame_wait_tasks_erase tk : keeps tame (wait_tasks_erase tk).
Proof.
  intros w a w' E. unfold wait_tasks_erase in E.
  destruct (decide _); injection E as _ <-; [|reflexivity].
  split; [by split | by apply no_waits_same_kernel | done].
Qed.

Lemma tame_AddTaskRunnable tk : keeps tame (AddTaskRunnable tk).
Proof.
  apply keeps_modify. intros w.
  split; [by split | by apply no_waits_same_kernel | done].
Qed.

Lemma tame_Cancel tk id : keeps tame (Cancel tk id).
Proof.
  keeps_step; [keeps_step | intros t].
  destruct (decide _); [keeps_step|].
  keeps_step; [apply tame_wait_tasks_erase | intros []].
  2: keeps_step.
  keeps_step; [keeps_step | intros t'].
  keeps_step; [| intros _; apply tame_AddTaskRunnable].
  keeps_step. intros fdst. apply tame_del_one.
Qed.

Lemma tame_timer_callback tm : keeps tame (timer_callback tm).
Proof.
  keeps_step; [apply tame_Cancel | intros _; apply tame_DecrementRef].
Qed.

(** ** The winning [Cancel] *)

(** The targets (epoll descriptor, registered descriptor) of the
    [EPOLL_CTL_DEL] calls of a log, in order. *)
Definition del_targets (log : list Syscall) : list (Z * Z) :=
  omap (fun c => match c with
                 | sys_epoll_ctl EPOLL_CTL_DEL e f _ => Some (e, f)
                 | _ => None
                 end) log.

Lemma del_targets_app l1 l2 :
  del_targets (l1 ++ l2) = del_targets l1 ++ del_targets l2.
Proof. apply omap_app. Qed.

Lemma del_targets_not_ctl cl : Forall not_ctl cl → del_targets cl = [].
Proof. induction 1 as [|c cl Hc _ IH]; [done|]. by destruct c. Qed.

Lemma add_targets_not_ctl cl : Forall not_ctl cl → add_targets cl = [].
Proof. induction 1 as [|c cl Hc _ IH]; [done|]. by destruct c. Qed.

(** One round of a teardown loop, with the delete list. *)
Lemma del_one_exact b tk t (Hb : settled b) p m log r dl :
  del_one tk p.1 p.2 (loop_world b tk t m log r dl)
  = Ok tt (loop_world b tk t
             (match del_answer b m (fd_key b p) with
              | CtlOk => delete (fd_key b p) m
              | CtlErr _ => m
              end)
             (log ++ [ctl_entry EPOLL_CTL_DEL (fd_key b p)
                        (del_answer b m (fd_key b p))])
             (match del_answer b m (fd_key b p) with
              | CtlOk => r - 1
              | CtlErr _ => r
              end)
             (match del_answer b m (fd_key b p) with
              | CtlOk => if decide (r - 1 = 0) then dl ++ [tk] else dl
              | CtlErr _ => dl
              end)).
Proof.
  unfold del_one, bind. rewrite ChooseEpoll_lw by done.
  rewrite epoll_ctl_del_lw. unfold del_answer, key_ok, fd_key, ctl_entry. simpl.
  destruct (decide _) as [E|E].
  - rewrite E. destruct (m !! _); [by rewrite DecrementRef_lw | done].
  - apply not_true_is_false in E. by rewrite E.
Qed.

(** A teardown loop whatever the kernel answers: one [EPOLL_CTL_DEL] per
    pair, in order, on the key of the pair; afterwards none of the pairs
    whose key the kernel accepts is registered, and no other registration
    has changed.  The task is not put on the delete list if it holds more
    references than there are pairs. *)
Lemma teardown_targets b tk t (Hb : settled b) ps : ∀ m log r dl,
  ∃ m' delta dl',
    for_each (fun p => del_one tk p.1 p.2) ps (loop_world b tk t m log r dl)
    = Ok tt (loop_world b tk t m' (log ++ delta)
               (r - count_acked EPOLL_CTL_DEL delta) dl')
    ∧ del_targets delta = map (fd_key b) ps
    ∧ add_targets delta = []
    ∧ (∀ k, k ∈ ok_keys b ps → m' !! k = None)
    ∧ (∀ k, k ∉ map (fd_key b) ps → m' !! k = m !! k)
    ∧ (∀ k, m !! k = None → m' !! k = None)
    ∧ (Z.of_nat (length ps) < r → dl' = dl).
Proof.
  induction ps as [|p ps IH]; intros m log r dl.
  - exists m, [], dl. simpl. rewrite app_nil_r, Z.sub_0_r.
    split; [done|]. split; [done|]. split; [done|].
    split; [intros k Hk; by apply elem_of_nil in Hk|]. done.
  - simpl for_each. unfold bind.
    rewrite (del_one_exact b tk t Hb p m log r dl).
    set (a := del_answer b m (fd_key b p)) in *.
    set (m1 := match a with CtlOk => delete (fd_key b p) m | CtlErr _ => m end).
    set (r1 := match a with CtlOk => r - 1 | CtlErr _ => r end).
    set (dl1 := match a with
                | CtlOk => if decide (r - 1 = 0) then dl ++ [tk] else dl
                | CtlErr _ => dl
                end).
    destruct (IH m1 (log ++ [ctl_entry EPOLL_CTL_DEL (fd_key b p) a]) r1 dl1)
      as (m' & delta & dl' & E2 & Hdel & Hadd & Hclr & Hsame & Hnone & Hdl).
    exists m', (ctl_entry EPOLL_CTL_DEL (fd_key b p) a :: delta), dl'.
    assert (Hcnt : count_acked EPOLL_CTL_DEL
                     (ctl_entry EPOLL_CTL_DEL (fd_key b p) a :: delta)
                   = (match a with CtlOk => 1 | CtlErr _ => 0 end)
                     + count_acked EPOLL_CTL_DEL delta).
    { change (?x :: delta) with ([x] ++ delta). rewrite count_acked_app.
      f_equal. by destruct a. }
    assert (Hm1 : ∀ k, m !! k = None → m1 !! k = None).
    { intros k Hk. subst m1. destruct a; [|done].
      destruct (decide (k = fd_key b p)) as [->|Hne];
        [apply lookup_delete_eq | by rewrite lookup_delete_ne]. }
    split.
    { rewrite E2, <- app_assoc. simpl. do 2 f_equal.
      rewrite Hcnt. subst r1. destruct a; lia. }
    split.
    { change (?x :: delta) with ([x] ++ delta).
      rewrite del_targets_app, Hdel. simpl. by f_equal. }
    split.
    { change (?x :: delta) with ([x] ++ delta).
      by rewrite add_targets_app, Hadd. }
    split.
    { intros k Hk. rewrite ok_keys_cons in Hk.
      destruct (decide (key_ok b (fd_key b p))) as [Hok|Hok]; [|by apply Hclr].
      apply elem_of_cons in Hk as [->|Hk]; [|by apply Hclr].
      apply Hnone. subst m1 a. unfold del_answer. rewrite decide_True by done.
      destruct (m !! fd_key b p) eqn:Hm; [apply lookup_delete_eq | done]. }
    split.
    { intros k Hk. simpl in Hk. apply not_elem_of_cons in Hk as [Hne Hk].
      rewrite Hsame by done. subst m1. destruct a; [|done].
      by rewrite lookup_delete_ne. }
    split; [intros k Hk; apply Hnone; by apply Hm1|].
    intros Hlen. simpl length in Hlen. rewrite Hdl.
    + subst dl1. destruct a; [|done]. rewrite decide_False; [done|lia].
    + subst r1. destruct a; lia.
Qed.

(** A [Cancel] that wins the erase, with everything it changes. *)
Lemma Cancel_winner (w : World) (tk : TaskPtr) (t : Task) :
  task_at tk w = Some t →
  tk ∈ wait_tasks_ (iowait w) →
  epoll_usable w →
  ∃ w',
    Cancel tk (io_block_id_ (io_wait_data_ t)) w = Ok tt w'
    ∧ wait_tasks_ (iowait w') = wait_tasks_ (iowait w) ∖ {[tk]}
    ∧ run_queue (sched w') = run_queue (sched w) ++ [tk]
    ∧ del_targets (new_calls w w')
      = map (fun p => (chosen_fd w p.2, p.1)) (pairs_of t)
    ∧ add_targets (new_calls w w') = []
    ∧ task_at tk w'
      = Some (t_set_ref_count
                (ref_count_ t - count_acked EPOLL_CTL_DEL (new_calls w w')) t)
    ∧ (∀ k, k ∈ ok_keys (created w) (pairs_of t) →
            k_interest (kernel w') !! k = None)
    ∧ (∀ k, k ∉ map (fun p => (chosen_fd w p.2, p.1)) (pairs_of t) →
            k_interest (kernel w') !! k
            = k_interest (kernel (pre_reg w (wait_fds_ (io_wait_data_ t)))) !! k)
    ∧ timer_mgr_ (iowait w') = timer_mgr_ (iowait w)
    ∧ Cancel tk (io_block_id_ (io_wait_data_ t)) w' = Ok tt w'
    ∧ (∃ r', heap (sched w') = <[tk := t_set_ref_count r' t]> (heap (sched w)))
    ∧ (Z.of_nat (length (wait_fds_ (io_wait_data_ t))) < ref_count_ t →
       delete_list (sched w') = delete_list (sched w)).
Proof.
  intros Hheap Hin Huse. unfold task_at in Hheap.
  assert (Hkeys : map (fun p => (chosen_fd w p.2, p.1)) (pairs_of t)
                  = map (fd_key (created w)) (pairs_of t)).
  { apply map_ext. intros p. by rewrite chosen_fd_key. }
  rewrite Hkeys.
  assert (Hlost : ∀ w' r', heap (sched w') = <[tk := t_set_ref_count r' t]> (heap (sched w)) →
                    tk ∉ wait_tasks_ (iowait w') →
                    Cancel tk (io_block_id_ (io_wait_data_ t)) w' = Ok tt w').
  { intros w' r' Hh Hout. apply (Cancel_lost tk (t_set_ref_count r' t)); [|done].
    rewrite Hh. apply lookup_insert_eq. }
  unfold Cancel. unfold bind at 1. rewrite (get_task_ok _ _ _ Hheap).
  rewrite decide_False by (intros H; by apply H).
  unfold bind at 1, wait_tasks_erase. rewrite decide_True by done.
  set (w1 := set_iowait _ w).
  assert (Hh1 : heap (sched w1) !! tk = Some t) by exact Hheap.
  unfold bind at 1. rewrite (get_task_ok _ _ _ Hh1).
  change (fun fdst => del_one tk (fd fdst) (event fdst))
    with (fun fdst => (fun p => del_one tk p.1 p.2) (fdst_pair fdst)).
  rewrite for_each_map. fold (pairs_of t).
  unfold AddTaskRunnable, upd_sched, modify.
  destruct (wait_fds_ (io_wait_data_ t)) as [|fdst rest] eqn:Hfds.
  - unfold pairs_of. rewrite Hfds. simpl. unfold bind, ret.
    eexists. split; [reflexivity|].
    assert (Hnc : new_calls w
                    (set_sched (s_set_run_queue (run_queue (sched w1) ++ [tk]) (sched w1)) w1)
                  = []) by (apply new_calls_app; simpl; by rewrite app_nil_r).
    rewrite Hnc. simpl.
    do 4 (split; [done|]).
    split.
    { unfold task_at. simpl. rewrite Hheap. f_equal.
      apply task_ext; simpl; try done. unfold count_acked. simpl. lia. }
    split; [intros k Hk; by apply elem_of_nil in Hk|].
    do 2 (split; [done|]).
    assert (Hid : heap (sched w) = <[tk:=t_set_ref_count (ref_count_ t) t]> (heap (sched w))).
    { symmetry. apply insert_id. rewrite Hheap. f_equal. by apply task_ext. }
    split; [apply (Hlost _ (ref_count_ t)); simpl; [done | set_solver]|].
    split; [by exists (ref_count_ t) | done].
  - assert (Huse1 : epoll_usable w1).
    { destruct Huse as [H|H]; [by left | by right]. }
    assert (Hp : pairs_of t = fdst_pair fdst :: map fdst_pair rest)
      by (unfold pairs_of; by rewrite Hfds).
    unfold bind at 1. rewrite Hp.
    rewrite (teardown_created _ _ _ _ Huse1). rewrite <- Hp.
    destruct (created_facts w Huse) as (Hsb & Fs & Fpid & Fnow & Fwt & Ftm & Fts & Ftl).
    destruct (created_log w Huse) as (cl & Hcl & Hnc).
    cbn [pre_reg]. set (b := created w) in *.
    unfold w1. rewrite created_frame_wait_tasks. fold b.
    match goal with |- context [for_each _ _ ?x] => set (b1 := x) end.
    assert (Hsb1 : settled b1) by exact Hsb.
    assert (Hhb1 : heap (sched b1) !! tk = Some t) by (simpl; by rewrite Fs).
    destruct (teardown_targets b1 tk t Hsb1 (pairs_of t)
                (k_interest (kernel b1)) (k_log (kernel b1)) (ref_count_ t)
                (delete_list (sched b1)))
      as (m' & delta & dl' & E & Hdel & Hadd & Hclr & Hsame & _ & Hdl).
    rewrite (loop_world_self b1 tk t Hhb1) in E. rewrite E. clear E.
    change (ok_keys b1) with (ok_keys b) in Hclr.
    change (fd_key b1) with (fd_key b) in Hdel, Hsame.
    change (kernel b1) with (kernel b) in *.
    eexists. split; [reflexivity|].
    match goal with |- context [new_calls w ?x] =>
      assert (Hcalls : new_calls w x = cl ++ delta)
    end.
    { apply new_calls_app. simpl. rewrite Hcl. by rewrite app_assoc. }
    rewrite Hcalls. simpl.
    rewrite del_targets_app, add_targets_app, count_acked_app.
    rewrite (del_targets_not_ctl _ Hnc), (add_targets_not_ctl _ Hnc),
      (count_acked_not_ctl _ _ Hnc). simpl.
    split; [done|]. split; [by rewrite Fs|]. split; [done|]. split; [done|].
    split.
    { unfold task_at. simpl. rewrite Fs. by rewrite lookup_insert_eq. }
    split; [done|]. split; [done|]. split; [done|].
    split.
    { apply (Hlost _ (ref_count_ t - count_acked EPOLL_CTL_DEL delta)); simpl.
      + by rewrite Fs.
      + set_solver. }
    split; [eexists; by rewrite Fs|].
    intros Hlen. rewrite Hdl; [subst b1; simpl; by rewrite Fs|].
    unfold pairs_of. by rewrite length_map, Hfds.
Qed.


(** X5 — The winning [Cancel].  A [Cancel] for the current generation of a
    task that is in the wait-set takes the task out of the wait-set, issues
    exactly one [EPOLL_CTL_DEL] per entry of [wait_fds_], in order and on
    the instance chosen for the entry's mask, and no [EPOLL_CTL_ADD]; it
    drops one reference per acknowledged delete and changes nothing else of
    the task; it enqueues the task once.  Afterwards no entry whose
    descriptors the kernel accepts is registered, the registrations of
    others are untouched, the timer of the block is still armed, and
    a second [Cancel] is a no-op. *)
Theorem X5_Cancel_winner_tears_down (w : World) (tk : TaskPtr) (t : Task) :
  task_at tk w = Some t →
  tk ∈ wait_tasks_ (iowait w) →
  epoll_usable w →
  ∃ w',
    Cancel tk (io_block_id_ (io_wait_data_ t)) w = Ok tt w'
    ∧ wait_tasks_ (iowait w') = wait_tasks_ (iowait w) ∖ {[tk]}
    ∧ run_queue (sched w') = run_queue (sched w) ++ [tk]
    ∧ del_targets (new_calls w w')
      = map (fun p => (chosen_fd w p.2, p.1)) (pairs_of t)
    ∧ add_targets (new_calls w w') = []
    ∧ task_at tk w'
      = Some (t_set_ref_count
                (ref_count_ t - count_acked EPOLL_CTL_DEL (new_calls w w')) t)
    ∧ (∀ k, k ∈ ok_keys (created w) (pairs_of t) →
            k_interest (kernel w') !! k = None)
    ∧ (∀ k, k ∉ map (fun p => (chosen_fd w p.2, p.1)) (pairs_of t) →
            k_interest (kernel w') !! k
            = k_interest (kernel (pre_reg w (wait_fds_ (io_wait_data_ t)))) !! k)
    ∧ timer_mgr_ (iowait w') = timer_mgr_ (iowait w)
    ∧ Cancel tk (io_block_id_ (io_wait_data_ t)) w' = Ok tt w'.
Proof.
  intros Hheap Hin Huse.
  destruct (Cancel_winner w tk t Hheap Hin Huse)
    as (w' & H1 & H2 & H3 & H4 & H5 & H6 & H7 & H8 & H9 & H10 & _).
  exists w'. done.
Qed.

Module Settled.

(** The world of [Forked] seen from the process that owns the instances:
    task 1 is blocked on descriptor 10, registered in the read instance 3. *)
Definition world : World :=
  set_iowait (i_set_epoll_owner_pid 200 (iowait Forked.world)) Forked.world.

End Settled.

Lemma settled_world_usable : epoll_usable Settled.world.
Proof. left. reflexivity. Defined.

Lemma settled_world_waiting : 1%nat ∈ wait_tasks_ (iowait Settled.world).
Proof. apply (bool_decide_unpack _). vm_compute. exact I. Defined.

Lemma X5_witness :
  task_at 1%nat Settled.world = Some Forked.task1
  ∧ 1%nat ∈ wait_tasks_ (iowait Settled.world)
  ∧ epoll_usable Settled.world
  ∧ ∃ w', Cancel 1%nat 1 Settled.world = Ok tt w'
          ∧ run_queue (sched w') = [1%nat]
          ∧ del_targets (new_calls Settled.world w') = [(3, 10)]
          ∧ k_interest (kernel w') !! (3, 10) = None
          ∧ Cancel 1%nat 1 w' = Ok tt w'.
Proof.
  split; [reflexivity|]. split; [exact settled_world_waiting|].
  split; [exact settled_world_usable|].
  destruct (X5_Cancel_winner_tears_down Settled.world 1%nat Forked.task1
              eq_refl settled_world_waiting settled_world_usable)
    as (w' & E & _ & Hq & Hdel & _ & _ & Hclr & _ & _ & Hagain).
  exists w'. split; [exact E|]. split; [exact Hq|]. split; [exact Hdel|].
  split; [|exact Hagain].
  apply Hclr. apply (bool_decide_unpack _). vm_compute. exact I.
Defined.

(** ** Registration: refused descriptors and the timer *)

Lemma not_ctl_no_eexist cl c : Forall not_ctl cl → c ∈ cl → ¬ is_eexist c.
Proof.
  intros H Hc (e & f & ->). rewrite Forall_forall in H. by apply (H _ Hc).
Qed.

Lemma del_targets_add_entries b ps : del_targets (map (add_entry b) ps) = [].
Proof. by induction ps as [|p ps IH]. Qed.

(** X6 — Descriptors the kernel refuses are skipped.  Take a
    [SchedulerSwitch] in which no [EPOLL_CTL_ADD] is answered EEXIST.  Then
    nothing is rolled back (no [EPOLL_CTL_DEL] is issued), the acknowledged
    adds are those of the entries whose descriptors the kernel accepts, and
    the refused entries change nothing.  If every entry is refused the task
    is resumed at once: it leaves the wait-set, is enqueued, keeps its
    reference count and gets no timer.  If one entry at least is accepted
    the task stays in the wait-set, is not enqueued, and each accepted key is
    registered while every other registration is as before. *)
Theorem X6_SchedulerSwitch_skips_refused (w : World) (tk : TaskPtr) (t : Task) :
  task_at tk w = Some t →
  epoll_usable w →
  let b := created w in
  ∃ w',
    SchedulerSwitch tk w = Ok tt w'
    ∧ ((∀ c, c ∈ new_calls w w' → ¬ is_eexist c) →
       del_targets (new_calls w w') = []
       ∧ count_acked EPOLL_CTL_ADD (new_calls w w')
         = Z.of_nat (length (ok_keys b (pairs_of t)))
       ∧ (ok_keys b (pairs_of t) = [] →
          wait_tasks_ (iowait w') = wait_tasks_ (iowait w) ∖ {[tk]}
          ∧ run_queue (sched w') = run_queue (sched w) ++ [tk]
          ∧ timer_mgr_ (iowait w') = timer_mgr_ (iowait w)
          ∧ task_at tk w' = Some t)
       ∧ (ok_keys b (pairs_of t) ≠ [] →
          wait_tasks_ (iowait w') = {[tk]} ∪ wait_tasks_ (iowait w)
          ∧ run_queue (sched w') = run_queue (sched w)
          ∧ (∀ k, k ∈ ok_keys b (pairs_of t) →
                  is_Some (k_interest (kernel w') !! k))
          ∧ (∀ k, k ∉ ok_keys b (pairs_of t) →
                  k_interest (kernel w') !! k = k_interest (kernel b) !! k))).
Proof.
  intros Hheap Huse b. unfold task_at in Hheap.
  destruct (SchedulerSwitch_spec tk t w Hheap (fun _ => Huse))
    as (w' & delta & r' & o & E & Hh & Hlog & _ & _ & _ & _ & _ & _ & Hr & Hcase).
  destruct (pre_reg_log w (wait_fds_ (io_wait_data_ t)) (fun _ => Huse))
    as (cl & Hcl & Hnc).
  exists w'. split; [exact E|]. intros Hno.
  rewrite Hcl, <- app_assoc in Hlog. rewrite (new_calls_app _ _ _ Hlog) in Hno |- *.
  assert (Hb : ∀ P : World → Prop,
             (wait_fds_ (io_wait_data_ t) = [] → P w) → P b →
             P (pre_reg w (wait_fds_ (io_wait_data_ t)))).
  { intros P H1 H2. destruct (wait_fds_ (io_wait_data_ t)); [by apply H1 | exact H2]. }
  assert (Hnil : wait_fds_ (io_wait_data_ t) = [] →
                 ∀ x, ok_keys x (pairs_of t) = []).
  { intros H x. unfold pairs_of. by rewrite H. }
  assert (Hkeys : ok_keys (pre_reg w (wait_fds_ (io_wait_data_ t))) (pairs_of t)
                  = ok_keys b (pairs_of t)).
  { apply (Hb (fun x => ok_keys x (pairs_of t) = ok_keys b (pairs_of t))); [|done].
    intros H. by rewrite !(Hnil H). }
  assert (Hint : ok_keys b (pairs_of t) ≠ [] →
                 pre_reg w (wait_fds_ (io_wait_data_ t)) = b).
  { intros H. destruct (wait_fds_ (io_wait_data_ t)) eqn:Hf; [|done].
    exfalso. apply H. unfold pairs_of. by rewrite Hf. }
  rewrite Hkeys in Hcase.
  assert (Hdelta : delta = map (add_entry (pre_reg w (wait_fds_ (io_wait_data_ t))))
                             (pairs_of t)).
  { destruct Hcase as [(_ & _ & _ & _ & _ & _ & [[_ Hd]|Hd])|(_ & _ & _ & _ & _ & _ & Hd & _)];
      [done| |done].
    destruct Hd as (pre & dup & post & _ & Hd & _). exfalso.
    apply (Hno (ctl_entry EPOLL_CTL_ADD
                  (fd_key (pre_reg w (wait_fds_ (io_wait_data_ t))) dup)
                  (CtlErr EEXIST))).
    - rewrite Hd. apply elem_of_app. right. apply elem_of_app. right.
      apply elem_of_app. left. by apply list_elem_of_singleton.
    - by eexists _, _. }
  rewrite del_targets_app, count_acked_app, (del_targets_not_ctl _ Hnc),
    (count_acked_not_ctl _ _ Hnc), Hdelta, del_targets_add_entries.
  destruct (count_add_entries (pre_reg w (wait_fds_ (io_wait_data_ t))) (pairs_of t))
    as [Hc _].
  assert (Hlen : length (ok_pairs (pre_reg w (wait_fds_ (io_wait_data_ t))) (pairs_of t))
                 = length (ok_keys b (pairs_of t))).
  { by rewrite <- Hkeys, ok_keys_ok_pairs, length_map. }
  rewrite Hc, Hlen.
  split; [done|]. split; [simpl; lia|].
  split.
  - intros Hnone.
    destruct Hcase as [(Hwt & Hq & Htm & Hr' & Ho & _)|(_ & _ & _ & Hne & _)];
      [|done].
    split; [done|]. split; [done|]. split; [done|].
    unfold task_at. rewrite Hh, lookup_insert_eq. f_equal. subst r' o.
    by apply task_ext.
  - intros Hsome.
    destruct Hcase as [(_ & _ & _ & _ & _ & _ & [[Hnone _]|Hd])
                      |(Hwt & Hq & _ & _ & Hreg & Hoth & _)].
    + done.
    + destruct Hd as (pre & dup & post & _ & Hd & _). exfalso.
      apply (Hno (ctl_entry EPOLL_CTL_ADD
                    (fd_key (pre_reg w (wait_fds_ (io_wait_data_ t))) dup)
                    (CtlErr EEXIST))).
      * rewrite Hd. apply elem_of_app. right. apply elem_of_app. right.
        apply elem_of_app. left. by apply list_elem_of_singleton.
      * by eexists _, _.
    + rewrite (Hint Hsome) in Hreg, Hoth.
      split; [done|]. split; [done|]. split; [|done].
      intros k Hk. by apply Hreg.
Qed.

Module Mixed.

(** Task 1 is about to block on descriptor 99, which is not open, and on
    descriptor 11, with a timeout of 30 ms; [CoSwitch] has run. *)
Definition task1 : Task :=
  {| id_ := 7; state_ := io_block; ref_count_ := 1;
     io_wait_data_ :=
       {| io_block_id_ := 1;
          wait_fds_ := [stamp 1%nat 1 (Scenario.fds 99 EPOLLIN);
                        stamp 1%nat 1 (Scenario.fds 11 EPOLLOUT)];
          wait_successful_ := 0; io_block_timeout_ := 30;
          io_block_timer_ := None |} |}.

Definition world : World :=
  with_task 1%nat task1 Scenario.world0.

End Mixed.

Lemma mixed_usable : epoll_usable Mixed.world.
Proof. right. unfold can_create. simpl. repeat split; (lia || done). Defined.

Lemma X6_witness :
  task_at 1%nat Mixed.world = Some Mixed.task1
  ∧ epoll_usable Mixed.world
  ∧ ∃ w', SchedulerSwitch 1%nat Mixed.world = Ok tt w'
          ∧ (∀ c, c ∈ new_calls Mixed.world w' → ¬ is_eexist c)
          ∧ count_acked EPOLL_CTL_ADD (new_calls Mixed.world w') = 1
          ∧ run_queue (sched w') = []
          ∧ is_Some (k_interest (kernel w') !! (4, 11)).
Proof.
  split; [reflexivity|]. split; [exact mixed_usable|].
  destruct (X6_SchedulerSwitch_skips_refused Mixed.world 1%nat Mixed.task1
              eq_refl mixed_usable) as (w' & E & H).
  assert (Hno : ∀ c, c ∈ new_calls Mixed.world w' → ¬ is_eexist c).
  { pose proof E as E'. vm_compute in E'. injection E' as Hw'.
    rewrite <- Hw'. vm_compute new_calls. apply Forall_forall.
    repeat constructor; intros (e & f & [=]). }
  assert (Hk : ok_keys (created Mixed.world) (pairs_of Mixed.task1) = [(4, 11)])
    by (vm_compute; reflexivity).
  destruct (H Hno) as (_ & Hc & _ & Hreg).
  rewrite Hk in Hc, Hreg.
  destruct Hreg as (_ & Hq & Hin & _); [done|].
  exists w'. split; [exact E|]. split; [exact Hno|]. split; [exact Hc|].
  split; [exact Hq|]. apply Hin. repeat constructor.
Defined.

(** X7 — The timer of a block.  [SchedulerSwitch] changes nothing of the
    task but its reference count and its timer handle.  It arms a timer
    exactly when the task stays in the wait-set and the timeout is not -1:
    then one timer is appended, due at the current time plus the timeout
    (so at once for a timeout of 0 or below), its callback holding the task,
    the generation of the block and the task id, and the handle is stored in
    [io_block_timer_].  In every other case the pending timers and the
    handle are as before. *)
Theorem X7_SchedulerSwitch_arms_one_timer (w : World) (tk : TaskPtr) (t : Task) :
  task_at tk w = Some t →
  epoll_usable w →
  ∃ w' r' o,
    SchedulerSwitch tk w = Ok tt w'
    ∧ task_at tk w'
      = Some (t_upd_data (d_set_io_block_timer o) (t_set_ref_count r' t))
    ∧ (tk ∈ wait_tasks_ (iowait w') ∧ io_block_timeout_ (io_wait_data_ t) ≠ -1 →
       ∃ tm,
         timer_mgr_ (iowait w') = timer_mgr_ (iowait w) ++ [tm]
         ∧ o = Some (timer_id tm)
         ∧ timer_id tm = timer_seq_ (iowait w)
         ∧ deadline tm = k_now (kernel w) + io_block_timeout_ (io_wait_data_ t)
         ∧ cb_tk tm = tk
         ∧ cb_id tm = io_block_id_ (io_wait_data_ t)
         ∧ cb_task_id tm = id_ t
         ∧ (io_block_timeout_ (io_wait_data_ t) <= 0 →
            tm ∈ due (k_now (kernel w)) (timer_mgr_ (iowait w'))))
    ∧ (tk ∉ wait_tasks_ (iowait w') ∨ io_block_timeout_ (io_wait_data_ t) = -1 →
       timer_mgr_ (iowait w') = timer_mgr_ (iowait w)
       ∧ o = io_block_timer_ (io_wait_data_ t)).
Proof.
  intros Hheap Huse. unfold task_at in Hheap.
  destruct (SchedulerSwitch_spec tk t w Hheap (fun _ => Huse))
    as (w' & delta & r' & o & E & Hh & _ & _ & _ & _ & _ & _ & _ & _ & Hcase).
  exists w', r', o. split; [exact E|].
  split; [unfold task_at; rewrite Hh; apply lookup_insert_eq|].
  destruct Hcase as [(Hwt & _ & Htm & _ & Ho & _)
                    |(Hwt & _ & _ & _ & _ & _ & _ & Htimer)].
  - split; [|done]. intros [Hin _]. rewrite Hwt in Hin. set_solver.
  - destruct Htimer as [(Hto & Htm & Ho & _)|(Hto & Htm & Ho & _)].
    + split; [intros [_ H]; done | done].
    + split.
      * intros _. exists (block_timer tk t w). split; [done|].
        do 6 (split; [done|]). intros Hle. rewrite Htm. unfold due.
        apply list_elem_of_filter. split; [simpl; lia|].
        apply elem_of_app. right. by apply list_elem_of_singleton.
      * intros [Hout|Heq]; [|done]. rewrite Hwt in Hout. set_solver.
Qed.

Lemma X7_witness :
  task_at 1%nat Mixed.world = Some Mixed.task1
  ∧ epoll_usable Mixed.world
  ∧ ∃ w', SchedulerSwitch 1%nat Mixed.world = Ok tt w'
          ∧ 1%nat ∈ wait_tasks_ (iowait w')
          ∧ timer_mgr_ (iowait w')
            = [{| timer_id := 0; deadline := 30; cb_tk := 1; cb_id := 1;
                  cb_task_id := 7 |}].
Proof.
  split; [reflexivity|]. split; [exact mixed_usable|].
  destruct (X7_SchedulerSwitch_arms_one_timer Mixed.world 1%nat Mixed.task1
              eq_refl mixed_usable) as (w' & r' & o & E & _ & Harm & _).
  assert (Hin : 1%nat ∈ wait_tasks_ (iowait w')).
  { pose proof E as E'. vm_compute in E'. injection E' as Hw'.
    rewrite <- Hw'. apply (bool_decide_unpack _). vm_compute. exact I. }
  exists w'. split; [exact E|]. split; [exact Hin|].
  destruct Harm as (tm & Htm & _ & Hid & Hdl & Htk & Hcid & Htid & _).
  { split; [exact Hin | simpl; lia]. }
  rewrite Htm. destruct tm as [i d ctk cid ctid]. simpl in *.
  by rewrite Hid, Hdl, Htk, Hcid, Htid.
Defined.

(** ** The wait loop: timers *)

(** The pending timers whose deadline has not passed. *)
Definition not_due (now : Z) (l : list CoTimer) : list CoTimer :=
  filter (fun t => ¬ deadline t <= now) l.

Lemma not_due_all now l : due now l = [] → not_due now l = l.
Proof.
  unfold due, not_due. induction l as [|t l IH]; [done|].
  rewrite !filter_cons. destruct (decide (deadline t <= now)) as [H|H]; [done|].
  intros Hd. rewrite decide_True by done. by rewrite IH.
Qed.

Lemma take_expired_rest limit now l :
  not_due now (take_expired limit now l).2 = not_due now l.
Proof.
  unfold not_due. revert limit. induction l as [|t l IH]; intros limit; [done|].
  cbn [take_expired]. destruct limit as [|n]; [done|].
  destruct (Z.leb_spec (deadline t) now) as [Hle|Hgt]; simpl.
  - rewrite IH. rewrite (filter_cons _ t), decide_False; [done|]. tauto.
  - rewrite !filter_cons. rewrite !decide_True by lia. by rewrite IH.
Qed.

(** The first loop of [WaitLoop] moves every timer that is due, and only
    those, to the end of [timeout_list_], in the order of [timer_mgr_]. *)
Lemma drain_timers_moves fuel : ∀ c w,
  (length (timer_mgr_ (iowait w)) < fuel)%nat →
  let now := k_now (kernel w) in
  ∃ c',
    drain_timers fuel c w
    = Ok c' (timers_moved (not_due now (timer_mgr_ (iowait w)))
               (timeout_list_ (iowait w) ++ due now (timer_mgr_ (iowait w))) w)
    ∧ (0 <= c →
       c + Z.of_nat (length (due now (timer_mgr_ (iowait w)))) < 2147483648 →
       c' = c + Z.of_nat (length (due now (timer_mgr_ (iowait w))))).
Proof.
  induction fuel as [|fuel IH]; intros c w Hfuel now; [lia|].
  cbn [drain_timers]. unfold bind at 1. unfold GetExpired at 1.
  fold now.
  destruct (take_expired_spec 128 now (timer_mgr_ (iowait w)))
    as (H1 & H2 & H3 & H4 & H5 & H6).
  pose proof (take_expired_rest 128 now (timer_mgr_ (iowait w))) as H7.
  set (r := take_expired 128 now (timer_mgr_ (iowait w))) in *.
  destruct r.1 as [|t0 ts] eqn:Er.
  - assert (Hd : due now (timer_mgr_ (iowait w)) = []).
    { destruct (due now (timer_mgr_ (iowait w))); [done|]. done. }
    exists c. rewrite Hd, app_nil_r, (not_due_all _ _ Hd), (H6 Hd).
    split; [|simpl; lia]. unfold ret, timers_moved. by f_equal.
  - unfold upd_iowait, modify. unfold bind at 1.
    match goal with |- context [drain_timers fuel ?c1 ?x] =>
      set (c1' := c1); set (w2 := x) end.
    destruct (IH c1' w2) as (c' & E & Hc).
    { subst w2. simpl. simpl in H3, Hfuel, H4. rewrite H3.
      assert (length r.1 = S (length ts)) by (by rewrite Er). lia. }
    assert (Hdue : due now (timer_mgr_ (iowait w))
                   = (t0 :: ts) ++ due now r.2).
    { rewrite H2, H1. by rewrite take_drop. }
    exists c'. split.
    + rewrite E. subst w2. simpl. fold now. rewrite H7, Hdue.
      by rewrite <- app_assoc.
    + intros Hc0 Hlt. rewrite Hdue, length_app in Hlt |- *.
      subst w2. simpl in Hc. fold now in Hc.
      assert (Hlen : (length (t0 :: ts) ≤ 128)%nat).
      { rewrite H1. rewrite length_take. lia. }
      assert (Hc1 : c1' = c + Z.of_nat (length (t0 :: ts))).
      { subst c1'. unfold wrap_int. rewrite Z.mod_small; lia. }
      rewrite Hc; lia.
Qed.

(** The timer of the block of task 1 in [Running.world]. *)
Definition running_timer : CoTimer :=
  {| timer_id := 0; deadline := 50; cb_tk := 1; cb_id := 1; cb_task_id := 7 |}.

Lemma later_due :
  due (k_now (kernel Running.later)) (timer_mgr_ (iowait Running.later))
  = [running_timer].
Proof. vm_compute. reflexivity. Defined.

(** X8 — A [WaitLoop] that does not get the epoll lock only parks the
    expired timers.  It takes every pending timer whose deadline has passed
    out of [timer_mgr_] and merges it into [timeout_list_], leaves the others
    pending, and changes nothing else: no callback runs, no system call is
    issued, no task is touched, [loop_index_] is not advanced.  It returns
    the number of timers it has parked, or -1 if there are none. *)
Theorem X8_WaitLoop_unlocked_parks_timers (w : World) (env : LoopEnv)
    (enable_block : bool) :
  lock_acquired env = false →
  Z.of_nat (due_count w) < 2147483648 →
  let now := k_now (kernel w) in
  ∃ w',
    WaitLoop env enable_block w
    = Ok (if decide (due_count w ≠ 0%nat) then Z.of_nat (due_count w) else -1) w'
    ∧ timer_mgr_ (iowait w') = not_due now (timer_mgr_ (iowait w))
    ∧ timeout_list_ (iowait w')
      ≡ₚ timeout_list_ (iowait w) ++ due now (timer_mgr_ (iowait w))
    ∧ w' = timers_moved (timer_mgr_ (iowait w')) (timeout_list_ (iowait w')) w.
Proof.
  intros Hlock Hrange now. unfold WaitLoop. unfold bind at 1, gets at 1.
  destruct (drain_timers_moves (S (length (timer_mgr_ (iowait w)))) 0 w)
    as (c' & E & Hc); [lia|].
  unfold bind at 1. rewrite E, Hlock. cbn [negb]. unfold ret.
  rewrite Hc by (unfold due_count in Hrange; lia). rewrite Z.add_0_l.
  fold (due_count w). eexists. split.
  { f_equal. destruct (decide (due_count w ≠ 0%nat)) as [H|H].
    - rewrite decide_True by lia. done.
    - rewrite decide_False by lia. done. }
  done.
Qed.

Lemma X8_witness :
  lock_acquired Running.contended_pump = false
  ∧ Z.of_nat (due_count Running.later) < 2147483648
  ∧ ∃ w', WaitLoop Running.contended_pump true Running.later = Ok 1 w'
          ∧ timer_mgr_ (iowait w') = []
          ∧ timeout_list_ (iowait w') ≡ₚ [running_timer].
Proof.
  assert (D : due_count Running.later = 1%nat) by (vm_compute; reflexivity).
  assert (R : Z.of_nat (due_count Running.later) < 2147483648)
    by (rewrite D; reflexivity).
  split; [reflexivity|]. split; [exact R|].
  destruct (X8_WaitLoop_unlocked_parks_timers Running.later
              Running.contended_pump true eq_refl R) as (w' & E & Htm & Htl & _).
  rewrite D in E. exists w'. split; [exact E|].
  assert (N : not_due (k_now (kernel Running.later))
                (timer_mgr_ (iowait Running.later)) = [])
    by (vm_compute; reflexivity).
  assert (L : timeout_list_ (iowait Running.later) = [])
    by (vm_compute; reflexivity).
  rewrite N in Htm. rewrite L, later_due in Htl.
  split; [exact Htm | exact Htl].
Defined.

(** ** The wait loop with the lock *)

Lemma keeps_weaken (R R' : relation World) {A} (m : M A) :
  (∀ w w', R w w' → R' w w') → keeps R m → keeps R' m.
Proof. intros H Hm w a w' E. apply H. by apply (Hm w a). Qed.

Lemma bind_Ok {A B} (m : M A) (k : A → M B) w b w' :
  bind m k w = Ok b w' → ∃ a w1, m w = Ok a w1 ∧ k a w1 = Ok b w'.
Proof.
  unfold bind. destruct (m w) as [a w1|]; [|done]. intros E. by exists a, w1.
Qed.

(** What the delivery of an event leaves alone: the kernel, the pair of
    instances and everything [calm] lists. *)
Record still (w w' : World) : Prop := mk_still {
  still_kernel : kernel w' = kernel w;
  still_owner : epoll_owner_pid_ (iowait w') = epoll_owner_pid_ (iowait w);
  still_fds : epoll_fds_ (iowait w') = epoll_fds_ (iowait w);
  still_wait_tasks : wait_tasks_ (iowait w') = wait_tasks_ (iowait w);
  still_run_queue : run_queue (sched w') = run_queue (sched w);
  still_delete_list : delete_list (sched w') = delete_list (sched w);
  still_calm : calm w w'
}.

#[global] Instance still_preorder : PreOrder still.
Proof.
  split.
  - intros w. by split.
  - intros w1 w2 w3 [] []. split; try congruence. by etrans.
Qed.

Lemma still_settled w w' : still w w' → settled w → settled w'.
Proof. intros [Hk Ho _ _ _ _ _]. unfold settled. by rewrite Hk, Ho. Qed.

Lemma still_on_event e : keeps still (on_event e).
Proof.
  keeps_step; [keeps_step | intros owner].
  destruct (_ !! _) as [fdst|]; [|keeps_step].
  keeps_step.
  { apply keeps_modify_task; try apply _. intros w t _. by repeat split. }
  intros _. destruct (ep_tk _) as [tk|]; [|keeps_step].
  keeps_step.
  { apply keeps_modify_task; try apply _. intros w t _. by repeat split. }
  intros _. apply keeps_modify. intros w. simpl.
  destruct (decide _); by repeat split.
Qed.

Lemma calm_epoll_wait_retry eb c ty n final :
  keeps calm (epoll_wait_retry eb c ty n final).
Proof.
  induction n as [|n IH]; cbn [epoll_wait_retry].
  - keeps_step; [keeps_step | intros ms].
    keeps_step; [apply (keeps_weaken tame); [apply tame_calm | apply tame_GetEpoll]
                | intros epfd].
    keeps_step; [|intros _; keeps_step].
    apply keeps_modify. intros w. by split.
  - keeps_step; [keeps_step | intros ms].
    keeps_step; [apply (keeps_weaken tame); [apply tame_calm | apply tame_GetEpoll]
                | intros epfd].
    keeps_step; [|intros _; exact IH].
    apply keeps_modify. intros w. by split.
Qed.

Lemma calm_drain_instance eb c ty a n : keeps calm (drain_instance eb c ty a n).
Proof.
  keeps_step; [apply calm_epoll_wait_retry | intros [evs|]]; [|keeps_step].
  keeps_step; [|intros _; keeps_step].
  keeps_step. intros e. apply (keeps_weaken still); [|apply still_on_event].
  by intros w w' [].
Qed.

Lemma calm_drain_epoll env eb c : keeps calm (drain_epoll env eb c).
Proof.
  keeps_step; [apply calm_drain_instance | intros n1].
  keeps_step; [apply calm_drain_instance | intros n2].
  keeps_step; [keeps_step | intros sts].
  keeps_step.
  { keeps_step. intros st. apply (keeps_weaken tame); [apply tame_calm | apply tame_Cancel]. }
  intros _. keeps_step; [|intros _; keeps_step].
  apply keeps_modify. intros w. by split.
Qed.

Lemma drain_epoll_clears env eb c w n w' :
  drain_epoll env eb c w = Ok n w' → epollwait_tasks_ (iowait w') = [].
Proof.
  unfold drain_epoll. intros E.
  apply bind_Ok in E as (n1 & w1 & _ & E).
  apply bind_Ok in E as (n2 & w2 & _ & E).
  apply bind_Ok in E as (sts & w3 & _ & E).
  apply bind_Ok in E as ([] & w4 & _ & E).
  apply bind_Ok in E as ([] & w5 & E5 & E).
  injection E as _ <-. by injection E5 as <-.
Qed.

(** [run_timeout_list] empties [timeout_list_]; its callbacks change
    nothing that [tame] lists. *)
Lemma run_timeout_list_tame w w' :
  run_timeout_list w = Ok tt w' →
  timeout_list_ (iowait w') = []
  ∧ tame (set_iowait (i_set_timeout_list [] (iowait w)) w) w'.
Proof.
  unfold run_timeout_list. intros E.
  apply bind_Ok in E as (tl & w1 & E1 & E). injection E1 as <- <-.
  apply bind_Ok in E as ([] & w2 & E2 & E). injection E2 as <-.
  assert (H : tame (set_iowait (i_set_timeout_list [] (iowait w)) w) w').
  { revert E. apply keeps_for_each; [apply _|]. apply tame_timer_callback. }
  split; [|done]. destruct H as [[_ _ _ _ Htl _ _ _] _ _]. exact Htl.
Qed.

Lemma foldr_delete_lookup (h : gmap nat Task) (l : list TaskPtr) tk :
  tk ∈ l → foldr (fun tk h => delete tk h) h l !! tk = None.
Proof.
  induction l as [|x l IH]; [by intros ?%elem_of_nil|].
  intros [->|Hin]%elem_of_cons; simpl.
  - apply lookup_delete_eq.
  - destruct (decide (tk = x)) as [->|Hne]; [apply lookup_delete_eq|].
    rewrite lookup_delete_ne by done. by apply IH.
Qed.

(** The stages of a [WaitLoop] that gets the lock. *)
Lemma WaitLoop_locked_stages env eb w v w' :
  lock_acquired env = true →
  WaitLoop env eb w = Ok v w' →
  ∃ c w1 n w3 w4,
    drain_timers (S (length (timer_mgr_ (iowait w)))) 0 w = Ok c w1
    ∧ (let w2 := set_iowait
                   (i_set_loop_index (wrap64 (loop_index_ (iowait w1) + 1))
                      (iowait w1)) w1 in
       (if bool_decide (epoll_owner_pid_ (iowait w2) = k_pid (kernel w2))
        then drain_epoll env eb c w2 else Ok 0 w2) = Ok n w3)
    ∧ run_timeout_list w3 = Ok tt w4
    ∧ w' = set_sched
             (s_set_delete_list []
                (s_set_heap (foldr (fun tk h => delete tk h) (heap (sched w4))
                               (delete_list (sched w4))) (sched w4))) w4
    ∧ v = wrap_int (n + c).
Proof.
  intros Hlock E. unfold WaitLoop in E.
  apply bind_Ok in E as (pending & w0 & E0 & E). injection E0 as <- <-.
  apply bind_Ok in E as (c & w1 & E1 & E). rewrite Hlock in E. cbn [negb] in E.
  apply bind_Ok in E as ([] & w2 & E2 & E). injection E2 as <-.
  apply bind_Ok in E as (cr & w2' & E2 & E).
  unfold IsEpollCreated, bind, getpid, gets, ret in E2. injection E2 as <- <-.
  apply bind_Ok in E as (n & w3 & E3 & E).
  apply bind_Ok in E as ([] & w4 & E4 & E).
  apply bind_Ok in E as ([] & w5 & E5 & E).
  injection E as <- <-. injection E5 as <-.
  exists c, w1, n, w3, w4. split; [done|]. split.
  { simpl. destruct (bool_decide _); done. }
  done.
Qed.

(** X9 — Housekeeping of a [WaitLoop] that gets the lock.  The call
    advances [loop_index_] by one, leaves pending exactly the timers that
    are not due, runs every parked callback so that [timeout_list_] is empty,
    clears the buffer [epollwait_tasks_] if the instances belong to the
    process, and destroys every task of the delete list, which is empty
    afterwards.  The wait quantum and the clock are not changed. *)
Theorem X9_WaitLoop_locked_housekeeping (w : World) (env : LoopEnv)
    (enable_block : bool) :
  lock_acquired env = true →
  epoll_usable w →
  pointers_ok w env →
  Z.of_nat (drained w env) + Z.of_nat (due_count w) < 2147483648 →
  ∃ w',
    WaitLoop env enable_block w
    = Ok (Z.of_nat (drained w env) + Z.of_nat (due_count w)) w'
    ∧ loop_index_ (iowait w') = wrap64 (loop_index_ (iowait w) + 1)
    ∧ timer_mgr_ (iowait w') = not_due (k_now (kernel w)) (timer_mgr_ (iowait w))
    ∧ timeout_list_ (iowait w') = []
    ∧ (settled w → epollwait_tasks_ (iowait w') = [])
    ∧ delete_list (sched w') = []
    ∧ (∀ tk, tk ∈ delete_list (sched w) → task_at tk w' = None)
    ∧ epollwait_ms_ (iowait w') = epollwait_ms_ (iowait w)
    ∧ k_now (kernel w') = k_now (kernel w).
Proof.
  intros Hlock Huse Hptr Hrange.
  destruct (WaitLoop_locked env enable_block w Hlock Huse Hptr Hrange) as (w' & E).
  exists w'. split; [exact E|].
  destruct (WaitLoop_locked_stages _ _ _ _ _ Hlock E)
    as (c & w1 & n & w3 & w4 & E1 & E3 & E4 & -> & _).
  destruct (drain_timers_moves (S (length (timer_mgr_ (iowait w)))) 0 w)
    as (c' & E1' & _); [lia|].
  rewrite E1 in E1'. injection E1' as _ ->.
  cbv zeta in E3. set (w2 := set_iowait _ _) in E3.
  assert (H23 : calm w2 w3
                ∧ (settled w → epollwait_tasks_ (iowait w3) = [])).
  { change (epoll_owner_pid_ (iowait w2) = k_pid (kernel w2)) with (settled w) in E3.
    destruct (decide (settled w)) as [Hs|Hs].
    - rewrite bool_decide_true in E3 by done.
      split; [by apply (calm_drain_epoll _ _ _ _ _ _ E3)|].
      intros _. by apply (drain_epoll_clears _ _ _ _ _ _ E3).
    - rewrite bool_decide_false in E3 by done. injection E3 as _ <-.
      split; [reflexivity | done]. }
  destruct H23 as [[H1 H2 H3 H4 H5 H6 H7 H8] Hbuf].
  destruct (run_timeout_list_tame _ _ E4)
    as [Htl [[G1 G2 G3 G4 G5 G6 G7 G8] _ Gbuf]].
  simpl in *.
  split; [by rewrite G1, H1|]. split; [by rewrite G3, H3|].
  split; [done|].
  split; [intros Hs; by rewrite Gbuf, Hbuf|].
  split; [done|].
  split.
  { intros tk Hin. unfold task_at. simpl. apply foldr_delete_lookup.
    assert (Hp : delete_list (sched w) `prefix_of` delete_list (sched w4))
      by (by etrans).
    destruct Hp as [l ->]. apply elem_of_app. by left. }
  split; [by rewrite G2, H2 | by rewrite G6, H6].
Qed.

Lemma X9_witness :
  lock_acquired Running.both_ready = true
  ∧ epoll_usable Running.world
  ∧ pointers_ok Running.world Running.both_ready
  ∧ Z.of_nat (drained Running.world Running.both_ready)
    + Z.of_nat (due_count Running.world) < 2147483648
  ∧ ∃ w', WaitLoop Running.both_ready true Running.world = Ok 2 w'
          ∧ loop_index_ (iowait w') = 1
          ∧ length (timer_mgr_ (iowait w')) = 1%nat
          ∧ timeout_list_ (iowait w') = []
          ∧ epollwait_tasks_ (iowait w') = [].
Proof.
  assert (Hu : epoll_usable Running.world) by (left; by vm_compute).
  assert (Hs : settled Running.world) by (by vm_compute).
  assert (D2 : due_count Running.world = 0%nat) by (vm_compute; reflexivity).
  assert (D3 : drained Running.world Running.both_ready = 2%nat)
    by (vm_compute; reflexivity).
  assert (R3 : Z.of_nat (drained Running.world Running.both_ready)
               + Z.of_nat (due_count Running.world) < 2147483648)
    by (rewrite D2, D3; reflexivity).
  split; [reflexivity|]. split; [exact Hu|].
  split; [exact running_pointers_ok|]. split; [exact R3|].
  destruct (X9_WaitLoop_locked_housekeeping Running.world Running.both_ready true
              eq_refl Hu running_pointers_ok R3)
    as (w' & E & Hli & Htm & Htl & Hbuf & _).
  rewrite D2, D3 in E.
  exists w'. split; [exact E|].
  split; [rewrite Hli; by vm_compute|].
  split; [rewrite Htm; by vm_compute|].
  split; [exact Htl | exact (Hbuf Hs)].
Defined.

(** ** The wait loop: the calls of [epoll_wait] *)

(** The timeout [WaitLoop] passes to [epoll_wait] on the instance [ty]. *)
Definition wait_timeout (enable_block : bool) (c : Z) (ty : EpollType)
    (w : World) : Z :=
  if enable_block && bool_decide (ty = read) && bool_decide (c = 0)
  then epollwait_ms_ (iowait w) else 0.

Lemma epoll_wait_retry_log eb c ty n final : ∀ w,
  settled w →
  ∃ w', epoll_wait_retry eb c ty n final w = Ok final w'
        ∧ sched w' = sched w
        ∧ iowait w' = iowait w
        ∧ settled w'
        ∧ k_log (kernel w')
          = k_log (kernel w)
            ++ replicate (S n) (sys_epoll_wait (epoll_fd_of ty (iowait w))
                                  (wait_timeout eb c ty w)).
Proof.
  induction n as [|n IH]; intros w Hs.
  - cbn [epoll_wait_retry]. unfold bind, gets, upd_kernel, modify, ret.
    rewrite (GetEpoll_settled _ _ Hs). eexists. split; [reflexivity|]. done.
  - cbn [epoll_wait_retry]. unfold bind at 1, gets at 1.
    unfold bind at 1. rewrite (GetEpoll_settled _ _ Hs).
    unfold bind at 1, upd_kernel at 1, modify at 1.
    match goal with |- context [epoll_wait_retry _ _ _ _ _ ?x] => set (w1 := x) end.
    destruct (IH w1) as (w' & E & H1 & H2 & H3 & H4); [exact Hs|].
    exists w'. split; [done|]. split; [done|]. split; [done|]. split; [done|].
    rewrite H4. simpl. rewrite <- app_assoc. done.
Qed.

Lemma drain_instance_log eb c ty a n w n' w' :
  settled w →
  drain_instance eb c ty a n w = Ok n' w' →
  settled w'
  ∧ epoll_fds_ (iowait w') = epoll_fds_ (iowait w)
  ∧ epollwait_ms_ (iowait w') = epollwait_ms_ (iowait w)
  ∧ k_log (kernel w')
    = k_log (kernel w)
      ++ replicate (S (eintrs a)) (sys_epoll_wait (epoll_fd_of ty (iowait w))
                                     (wait_timeout eb c ty w)).
Proof.
  intros Hs E. unfold drain_instance in E.
  apply bind_Ok in E as (r & w1 & E1 & E).
  destruct (epoll_wait_retry_log eb c ty (eintrs a) (answer a) w Hs)
    as (w1' & E1' & Hsc & Hio & Hs1 & Hlog).
  rewrite E1 in E1'. injection E1' as -> <-.
  destruct (answer a) as [evs|].
  - apply bind_Ok in E as ([] & w2 & E2 & E). injection E as _ <-.
    assert (H : still w1 w2).
    { revert E2. apply keeps_for_each; [apply _|]. apply still_on_event. }
    destruct H as [Hk Ho Hf _ _ _ [_ Hms _ _ _ _ _ _]].
    split; [unfold settled; by rewrite Hk, Ho|].
    split; [by rewrite Hf, Hio|]. split; [by rewrite Hms, Hio|].
    by rewrite Hk.
  - injection E as _ <-. by rewrite Hio.
Qed.

(** X10 — The calls of [epoll_wait] in a [WaitLoop] that gets the lock.
    If the instances belong to the process, the loop first polls the read
    instance and then the write instance, each once more than the kernel
    answers EINTR, and issues no other [epoll_wait].  Only the read
    instance is ever given a timeout: [epollwait_ms_], and only when the
    caller enables blocking and no timer has expired; every other call is
    given 0.  If the instances belong to another process no [epoll_wait] is
    issued at all. *)
Theorem X10_WaitLoop_epoll_wait_calls (w : World) (env : LoopEnv)
    (enable_block : bool) :
  lock_acquired env = true →
  epoll_usable w →
  pointers_ok w env →
  Z.of_nat (drained w env) + Z.of_nat (due_count w) < 2147483648 →
  ∃ w' others,
    WaitLoop env enable_block w
    = Ok (Z.of_nat (drained w env) + Z.of_nat (due_count w)) w'
    ∧ Forall (fun c => ¬ is_wait c) others
    ∧ (settled w →
       new_calls w w'
       = replicate (S (eintrs (wait_read env)))
           (sys_epoll_wait (epoll_fds_ (iowait w)).1
              (if enable_block && bool_decide (due_count w = 0%nat)
               then epollwait_ms_ (iowait w) else 0))
         ++ replicate (S (eintrs (wait_write env)))
              (sys_epoll_wait (epoll_fds_ (iowait w)).2 0)
         ++ others)
    ∧ (¬ settled w → new_calls w w' = others).
Proof.
  intros Hlock Huse Hptr Hrange.
  destruct (WaitLoop_locked env enable_block w Hlock Huse Hptr Hrange) as (w' & E).
  destruct (WaitLoop_locked_stages _ _ _ _ _ Hlock E)
    as (c & w1 & n & w3 & w4 & E1 & E3 & E4 & -> & _).
  destruct (drain_timers_moves (S (length (timer_mgr_ (iowait w)))) 0 w)
    as (c' & E1' & Hc); [lia|].
  rewrite E1 in E1'. injection E1' as <- ->.
  rewrite Z.add_0_l in Hc. fold (due_count w) in Hc.
  rewrite Hc in E3 by lia. clear Hc E1.
  cbv zeta in E3. set (w2 := set_iowait _ _) in E3.
  destruct (run_timeout_list_tame _ _ E4) as [_ [_ (d4 & Hd4 & Hnw4) _]].
  simpl in Hd4.
  change (epoll_owner_pid_ (iowait w2) = k_pid (kernel w2)) with (settled w) in E3.
  destruct (decide (settled w)) as [Hs|Hs].
  - rewrite bool_decide_true in E3 by done.
    unfold drain_epoll in E3.
    apply bind_Ok in E3 as (n1 & wa & Ea & E3).
    apply bind_Ok in E3 as (n2 & wb & Eb & E3).
    apply bind_Ok in E3 as (sts & wc & Ec & E3). injection Ec as <- <-.
    apply bind_Ok in E3 as ([] & wd & Ed & E3).
    apply bind_Ok in E3 as ([] & we & Ee & E3).
    injection E3 as _ <-. injection Ee as <-.
    assert (Hs2 : settled w2) by exact Hs.
    destruct (drain_instance_log _ _ _ _ _ _ _ _ Hs2 Ea) as (Hsa & Hfa & Hma & Hla).
    destruct (drain_instance_log _ _ _ _ _ _ _ _ Hsa Eb) as (Hsb & Hfb & Hmb & Hlb).
    assert (Hd : tame wb wd).
    { revert Ed. apply keeps_for_each; [apply _|]. intros st. apply tame_Cancel. }
    destruct Hd as [_ (d3 & Hd3 & Hnw3) _].
    eexists _, (d3 ++ d4). split; [exact E|].
    split; [by apply Forall_app|].
    split; [|done]. intros _. apply new_calls_app. simpl. simpl in Hd4.
    rewrite Hd4, Hd3, Hlb, Hla. simpl.
    unfold wait_timeout. simpl. rewrite Hfa. simpl.
    rewrite andb_true_r.
    replace (bool_decide (Z.of_nat (due_count w) = 0))
      with (bool_decide (due_count w = 0%nat))
      by (apply bool_decide_ext; lia).
    rewrite <- !app_assoc. simpl. by rewrite andb_false_r.
  - rewrite bool_decide_false in E3 by done. injection E3 as _ <-.
    eexists _, d4. split; [exact E|]. split; [done|].
    split; [done|]. intros _. apply new_calls_app. exact Hd4.
Qed.

Lemma X10_witness :
  lock_acquired Running.both_ready = true
  ∧ epoll_usable Running.world
  ∧ pointers_ok Running.world Running.both_ready
  ∧ Z.of_nat (drained Running.world Running.both_ready)
    + Z.of_nat (due_count Running.world) < 2147483648
  ∧ settled Running.world
  ∧ ∃ w' others,
      WaitLoop Running.both_ready true Running.world = Ok 2 w'
      ∧ Forall (fun c => ¬ is_wait c) others
      ∧ new_calls Running.world w'
        = replicate 2 (sys_epoll_wait 3 0) ++ replicate 1 (sys_epoll_wait 4 0)
          ++ others.
Proof.
  assert (Hs : settled Running.world) by (by vm_compute).
  assert (Hu : epoll_usable Running.world) by (left; exact Hs).
  assert (D2 : due_count Running.world = 0%nat) by (vm_compute; reflexivity).
  assert (D3 : drained Running.world Running.both_ready = 2%nat)
    by (vm_compute; reflexivity).
  assert (F : epoll_fds_ (iowait Running.world) = (3, 4))
    by (vm_compute; reflexivity).
  assert (R3 : Z.of_nat (drained Running.world Running.both_ready)
               + Z.of_nat (due_count Running.world) < 2147483648)
    by (rewrite D2, D3; reflexivity).
  split; [reflexivity|]. split; [exact Hu|].
  split; [exact running_pointers_ok|]. split; [exact R3|]. split; [exact Hs|].
  destruct (X10_WaitLoop_epoll_wait_calls Running.world Running.both_ready true
              eq_refl Hu running_pointers_ok R3)
    as (w' & others & E & Hno & Hcalls & _).
  specialize (Hcalls Hs). rewrite D2, D3 in E. rewrite D2, F in Hcalls.
  assert (M : epollwait_ms_ (iowait Running.world) = 0)
    by (vm_compute; reflexivity).
  rewrite M in Hcalls.
  exists w', others. split; [exact E|]. split; [exact Hno | exact Hcalls].
Defined.

(** ** The wait loop: readiness *)

(** The entry [fdst] after the kernel reported [events] for it. *)
Definition with_revent (events : Z) (fdst : FdStruct) : FdStruct :=
  {| fd := fd fdst; event := event fdst;
     epoll_ptr := {| ep_tk := ep_tk (epoll_ptr fdst);
                     ep_io_block_id := ep_io_block_id (epoll_ptr fdst);
                     ep_revent := events |} |}.

(** What the delivery of the event [e] does to the task that owns the
    entry: the entry records the events, the count of ready entries goes up
    by one. *)
Definition deliver (e : epoll_event) (t : Task) : Task :=
  match wait_fds_ (io_wait_data_ t) !! (ev_data_ptr e).2 with
  | None => t
  | Some fdst =>
      t_upd_data
        (fun d => d_set_wait_successful (wrap32 (wait_successful_ d + 1)) d)
        (t_upd_data
           (fun d => d_set_wait_fds
                       (<[(ev_data_ptr e).2 := with_revent (ev_events e) fdst]>
                          (wait_fds_ d)) d) t)
  end.

Definition delivered (es : list epoll_event) (t : Task) : Task :=
  foldl (fun t e => deliver e t) t es.

(** Every entry of the task carries the back-pointer [CoSwitch] stamps:
    the task itself and its current generation. *)
Definition stamped (tk : TaskPtr) (t : Task) : Prop :=
  Forall (fun f => ep_tk (epoll_ptr f) = Some tk
                   ∧ ep_io_block_id (epoll_ptr f) = io_block_id_ (io_wait_data_ t))
    (wait_fds_ (io_wait_data_ t)).

(** The cookie of the event addresses an entry of task [tk]. *)
Definition aims_at (tk : TaskPtr) (t : Task) (e : epoll_event) : Prop :=
  (ev_data_ptr e).1 = tk
  ∧ ((ev_data_ptr e).2 < length (wait_fds_ (io_wait_data_ t)))%nat.

Lemma deliver_facts tk t e :
  stamped tk t →
  stamped tk (deliver e t)
  ∧ io_block_id_ (io_wait_data_ (deliver e t)) = io_block_id_ (io_wait_data_ t)
  ∧ ref_count_ (deliver e t) = ref_count_ t
  ∧ length (wait_fds_ (io_wait_data_ (deliver e t)))
    = length (wait_fds_ (io_wait_data_ t))
  ∧ map fdst_pair (wait_fds_ (io_wait_data_ (deliver e t)))
    = map fdst_pair (wait_fds_ (io_wait_data_ t))
  ∧ (∀ i, i ≠ (ev_data_ptr e).2 →
          wait_fds_ (io_wait_data_ (deliver e t)) !! i
          = wait_fds_ (io_wait_data_ t) !! i).
Proof.
  intros Hst. unfold deliver.
  destruct (wait_fds_ (io_wait_data_ t) !! (ev_data_ptr e).2) as [fdst|] eqn:Hf;
    [|done].
  simpl. split.
  { unfold stamped in *. simpl. apply Forall_insert; [done|].
    rewrite Forall_forall in Hst. apply (Hst fdst).
    by apply list_elem_of_lookup_2 in Hf. }
  split; [done|]. split; [done|]. split; [by rewrite length_insert|].
  split.
  { rewrite list_fmap_insert. apply list_insert_id.
    rewrite list_lookup_fmap, Hf. done. }
  intros i Hi. by rewrite list_lookup_insert_ne.
Qed.

Lemma deliver_count t e :
  ((ev_data_ptr e).2 < length (wait_fds_ (io_wait_data_ t)))%nat →
  wait_successful_ (io_wait_data_ (deliver e t))
  = wrap32 (wait_successful_ (io_wait_data_ t) + 1)
  ∧ ∃ fdst', wait_fds_ (io_wait_data_ (deliver e t)) !! (ev_data_ptr e).2
             = Some fdst'
             ∧ ep_revent (epoll_ptr fdst') = ev_events e.
Proof.
  intros Hlt. unfold deliver.
  destruct (lookup_lt_is_Some_2 _ _ Hlt) as [fdst Hf]. rewrite Hf. simpl.
  split; [done|]. exists (with_revent (ev_events e) fdst). split; [|reflexivity].
  by rewrite list_lookup_insert_eq.
Qed.

(** [on_event] on an event for an entry of a stamped task. *)
Lemma on_event_own e w tk t :
  task_at tk w = Some t →
  stamped tk t →
  aims_at tk t e →
  ∃ w',
    on_event e w = Ok tt w'
    ∧ task_at tk w' = Some (deliver e t)
    ∧ epollwait_tasks_ (iowait w')
      = (if decide ((tk, io_block_id_ (io_wait_data_ t)) ∈ epollwait_tasks_ (iowait w))
         then epollwait_tasks_ (iowait w)
         else epollwait_tasks_ (iowait w) ++ [(tk, io_block_id_ (io_wait_data_ t))]).
Proof.
  intros Ht Hst [Htk Hlt]. unfold task_at in Ht.
  destruct (lookup_lt_is_Some_2 _ _ Hlt) as [fdst Hf].
  assert (Hfd : ep_tk (epoll_ptr fdst) = Some tk
                ∧ ep_io_block_id (epoll_ptr fdst) = io_block_id_ (io_wait_data_ t)).
  { unfold stamped in Hst. rewrite Forall_forall in Hst. apply Hst.
    by apply list_elem_of_lookup_2 in Hf. }
  destruct Hfd as [Hp Hg].
  unfold on_event. rewrite Htk. unfold bind at 1. rewrite (get_task_ok _ _ _ Ht).
  rewrite Hf. unfold bind at 1. rewrite (modify_task_ok _ _ _ _ Ht).
  rewrite Hp. unfold bind at 1.
  rewrite (modify_task_ok _ _ _ _ (heap_with_task _ _ _)), with_task_twice.
  unfold epollwait_tasks_insert, upd_iowait, modify. rewrite Hg.
  eexists. split; [reflexivity|]. split.
  - unfold task_at. simpl. rewrite lookup_insert_eq. f_equal.
    unfold deliver, with_revent. by rewrite Hf, Hp, Hg.
  - simpl. by destruct (decide _).
Qed.

Lemma aims_at_deliver tk t e e' :
  stamped tk t → aims_at tk t e' → aims_at tk (deliver e t) e'.
Proof.
  intros Hst [H1 H2]. destruct (deliver_facts tk t e Hst) as (_ & _ & _ & Hl & _).
  split; [done|]. by rewrite Hl.
Qed.

Lemma delivered_facts tk es : ∀ t,
  stamped tk t →
  Forall (aims_at tk t) es →
  stamped tk (delivered es t)
  ∧ io_block_id_ (io_wait_data_ (delivered es t)) = io_block_id_ (io_wait_data_ t)
  ∧ ref_count_ (delivered es t) = ref_count_ t
  ∧ length (wait_fds_ (io_wait_data_ (delivered es t)))
    = length (wait_fds_ (io_wait_data_ t))
  ∧ map fdst_pair (wait_fds_ (io_wait_data_ (delivered es t)))
    = map fdst_pair (wait_fds_ (io_wait_data_ t))
  ∧ (wait_successful_ (io_wait_data_ (delivered es t))
     = wrap32 (wait_successful_ (io_wait_data_ t) + Z.of_nat (length es))
     ∨ es = [])
  ∧ (∀ i, i ∉ map (fun e => (ev_data_ptr e).2) es →
          wait_fds_ (io_wait_data_ (delivered es t)) !! i
          = wait_fds_ (io_wait_data_ t) !! i)
  ∧ (NoDup (map (fun e => (ev_data_ptr e).2) es) →
     ∀ e, e ∈ es →
          ∃ fdst', wait_fds_ (io_wait_data_ (delivered es t)) !! (ev_data_ptr e).2
                   = Some fdst'
                   ∧ ep_revent (epoll_ptr fdst') = ev_events e).
Proof.
  induction es as [|e0 es IH]; intros t Hst Haim.
  { simpl. do 5 (split; [done|]). split; [by right|]. split; [done|].
    intros _ e He. by apply elem_of_nil in He. }
  apply Forall_cons in Haim as [Ha0 Haim].
  destruct (deliver_facts tk t e0 Hst) as (Hst1 & Hid1 & Hr1 & Hl1 & Hp1 & Hoth1).
  destruct (deliver_count t e0 (proj2 Ha0)) as (Hws1 & fdst1 & Hf1 & Hrev1).
  assert (Haim1 : Forall (aims_at tk (deliver e0 t)) es).
  { eapply Forall_impl; [exact Haim|]. intros e'. by apply aims_at_deliver. }
  destruct (IH (deliver e0 t) Hst1 Haim1)
    as (Hst2 & Hid2 & Hr2 & Hl2 & Hp2 & Hws2 & Hoth2 & Hrev2).
  change (delivered (e0 :: es) t) with (delivered es (deliver e0 t)).
  split; [done|]. split; [by rewrite Hid2|]. split; [by rewrite Hr2|].
  split; [by rewrite Hl2|]. split; [by rewrite Hp2|].
  split.
  { left. destruct Hws2 as [Hws2| ->].
    - rewrite Hws2, Hws1. unfold wrap32. rewrite Z.add_mod_idemp_l by lia.
      f_equal. simpl length. lia.
    - simpl. rewrite Hws1. done. }
  split.
  { intros i Hi. simpl in Hi. apply not_elem_of_cons in Hi as [Hne Hi].
    rewrite Hoth2 by done. by apply Hoth1. }
  intros Hnd e He. simpl in Hnd. apply NoDup_cons in Hnd as [Hnotin Hnd].
  apply elem_of_cons in He as [->|He].
  - exists fdst1. rewrite Hoth2 by done. done.
  - by apply Hrev2.
Qed.

(** [st] put into the buffer [epollwait_tasks_], a set. *)
Definition buffered (st : EpollWaitSt) (buf : list EpollWaitSt)
  : list EpollWaitSt :=
  if decide (st ∈ buf) then buf else buf ++ [st].

Lemma buffered_twice st buf : buffered st (buffered st buf) = buffered st buf.
Proof.
  unfold buffered. destruct (decide (st ∈ buf)) as [H|H].
  - by rewrite decide_True.
  - rewrite decide_True; [done|]. apply elem_of_app. right.
    by apply list_elem_of_singleton.
Qed.

(** The events [es] of one [epoll_wait], all for entries of the task [tk]. *)
Lemma for_each_on_event_own tk es : ∀ w t,
  task_at tk w = Some t →
  stamped tk t →
  Forall (aims_at tk t) es →
  ∃ w',
    for_each on_event es w = Ok tt w'
    ∧ still w w'
    ∧ task_at tk w' = Some (delivered es t)
    ∧ epollwait_tasks_ (iowait w')
      = match es with
        | [] => epollwait_tasks_ (iowait w)
        | _ :: _ => buffered (tk, io_block_id_ (io_wait_data_ t))
                      (epollwait_tasks_ (iowait w))
        end.
Proof.
  induction es as [|e0 es IH]; intros w t Ht Hst Haim.
  { exists w. simpl. split; [done|]. split; [reflexivity | done]. }
  apply Forall_cons in Haim as [Ha0 Haim].
  destruct (on_event_own e0 w tk t Ht Hst Ha0) as (w1 & E1 & Ht1 & Hb1).
  destruct (deliver_facts tk t e0 Hst) as (Hst1 & Hid1 & _).
  assert (Haim1 : Forall (aims_at tk (deliver e0 t)) es).
  { eapply Forall_impl; [exact Haim|]. intros e'. by apply aims_at_deliver. }
  destruct (IH w1 (deliver e0 t) Ht1 Hst1 Haim1) as (w2 & E2 & Hs2 & Ht2 & Hb2).
  exists w2. cbn [for_each]. unfold bind. rewrite E1.
  split; [exact E2|].
  split; [etrans; [exact (still_on_event e0 w tt w1 E1) | exact Hs2]|].
  split; [exact Ht2|].
  rewrite Hb2, Hid1.
  fold (buffered (tk, io_block_id_ (io_wait_data_ t)) (epollwait_tasks_ (iowait w))) in Hb1.
  rewrite Hb1. destruct es; [done | apply buffered_twice].
Qed.

(** One round of the drain when every event is for an entry of [tk]. *)
Lemma drain_instance_own eb c ty a n tk es w t :
  settled w →
  task_at tk w = Some t →
  stamped tk t →
  answer a = Some es →
  Forall (aims_at tk t) es →
  ∃ w',
    drain_instance eb c ty a n w = Ok (wrap_int (n + Z.of_nat (length es))) w'
    ∧ settled w'
    ∧ task_at tk w' = Some (delivered es t)
    ∧ epollwait_tasks_ (iowait w')
      = match es with
        | [] => epollwait_tasks_ (iowait w)
        | _ :: _ => buffered (tk, io_block_id_ (io_wait_data_ t))
                      (epollwait_tasks_ (iowait w))
        end
    ∧ wait_tasks_ (iowait w') = wait_tasks_ (iowait w)
    ∧ run_queue (sched w') = run_queue (sched w)
    ∧ delete_list (sched w') = delete_list (sched w)
    ∧ timeout_list_ (iowait w') = timeout_list_ (iowait w).
Proof.
  intros Hs Ht Hst Ha Haim. unfold drain_instance, bind.
  destruct (epoll_wait_retry_log eb c ty (eintrs a) (answer a) w Hs)
    as (w1 & E1 & Hsc & Hio & Hs1 & _).
  rewrite E1, Ha.
  assert (Ht1 : task_at tk w1 = Some t) by (unfold task_at; by rewrite Hsc).
  destruct (for_each_on_event_own tk es w1 t Ht1 Hst Haim)
    as (w2 & E2 & Hstill & Ht2 & Hb2).
  rewrite E2. exists w2. split; [done|].
  split; [by apply (still_settled w1)|]. split; [done|].
  destruct Hstill as [_ _ _ Hwt Hq Hdl [_ _ _ _ Htl _ _ _]].
  split; [by rewrite Hb2, Hio|]. split; [by rewrite Hwt, Hio|].
  split; [by rewrite Hq, Hsc|]. split; [by rewrite Hdl, Hsc|].
  by rewrite Htl, Hio.
Qed.

(** X11 — Readiness.  Let a [WaitLoop] get the lock while a stamped task
    is in the wait-set, no timer is due, and the kernel reports events for
    entries of that task only, [n] in all and at least one.  Then the call
    returns [n]; the task leaves the wait-set and is enqueued exactly once,
    however many of its entries are ready; its count [wait_successful_]
    goes up by [n] (in [uint32_t] arithmetic); every entry that is reported
    once holds the reported events in [revent], and the entries that are not
    reported are unchanged.  The task holds more references than it has
    entries, and so stays alive. *)
Theorem X11_WaitLoop_readiness (w : World) (env : LoopEnv) (enable_block : bool)
    (tk : TaskPtr) (t : Task) (er ew : list epoll_event) :
  lock_acquired env = true →
  settled w →
  task_at tk w = Some t →
  tk ∈ wait_tasks_ (iowait w) →
  stamped tk t →
  Z.of_nat (length (wait_fds_ (io_wait_data_ t))) < ref_count_ t →
  answer (wait_read env) = Some er →
  answer (wait_write env) = Some ew →
  Forall (aims_at tk t) (er ++ ew) →
  er ++ ew ≠ [] →
  Z.of_nat (length (er ++ ew)) < 2147483648 →
  epollwait_tasks_ (iowait w) = [] →
  due (k_now (kernel w)) (timer_mgr_ (iowait w)) = [] →
  timeout_list_ (iowait w) = [] →
  delete_list (sched w) = [] →
  ∃ w' t',
    WaitLoop env enable_block w = Ok (Z.of_nat (length (er ++ ew))) w'
    ∧ (tk ∉ wait_tasks_ (iowait w'))
    ∧ run_queue (sched w') = run_queue (sched w) ++ [tk]
    ∧ task_at tk w' = Some t'
    ∧ wait_successful_ (io_wait_data_ t')
      = wrap32 (wait_successful_ (io_wait_data_ t) + Z.of_nat (length (er ++ ew)))
    ∧ io_block_id_ (io_wait_data_ t') = io_block_id_ (io_wait_data_ t)
    ∧ map fdst_pair (wait_fds_ (io_wait_data_ t'))
      = map fdst_pair (wait_fds_ (io_wait_data_ t))
    ∧ (∀ i, i ∉ map (fun e => (ev_data_ptr e).2) (er ++ ew) →
            wait_fds_ (io_wait_data_ t') !! i = wait_fds_ (io_wait_data_ t) !! i)
    ∧ (NoDup (map (fun e => (ev_data_ptr e).2) (er ++ ew)) →
       ∀ e, e ∈ er ++ ew →
            ∃ fdst', wait_fds_ (io_wait_data_ t') !! (ev_data_ptr e).2 = Some fdst'
                     ∧ ep_revent (epoll_ptr fdst') = ev_events e).
Proof.
  intros Hlock Hs Ht Hin Hst Href Her Hew Haim Hne Hrange Hbuf Hdue Htl Hdl.
  apply Forall_app in Haim as Haim'. destruct Haim' as [Haimr Haimw].
  rewrite length_app, Nat2Z.inj_add in Hrange.
  unfold WaitLoop. unfold bind at 1, gets at 1.
  destruct (drain_timers_moves (S (length (timer_mgr_ (iowait w)))) 0 w)
    as (c' & E1 & Hc); [lia|].
  rewrite Hdue, (not_due_all _ _ Hdue), app_nil_r, timers_moved_self in E1.
  rewrite Hdue in Hc. simpl in Hc. rewrite Hc in E1 by lia. clear Hc c'.
  unfold bind at 1. rewrite E1, Hlock. cbn [negb]. clear E1.
  change (0 + Z.of_nat 0) with 0.
  unfold bind at 1, upd_iowait at 1, modify at 1.
  unfold bind at 1, IsEpollCreated, bind, getpid, gets, ret.
  match goal with |- context [bool_decide (epoll_owner_pid_ (iowait ?x) = _)] =>
    set (w2 := x) end.
  rewrite (bool_decide_true (epoll_owner_pid_ (iowait w2) = k_pid (kernel w2)))
    by exact Hs.
  (* the drain *)
  unfold drain_epoll.
  destruct (drain_instance_own enable_block 0 read (wait_read env) 0 tk er w2 t)
    as (wa & Ea & Hsa & Hta & Hba & Hwa & Hqa & Hda & Hla); try done.
  unfold bind at 1. unfold bind at 1. rewrite Ea.
  destruct (delivered_facts tk er t Hst Haimr)
    as (Hst1 & Hid1 & Hr1 & Hl1 & _).
  assert (Haimw1 : Forall (aims_at tk (delivered er t)) ew).
  { eapply Forall_impl; [exact Haimw|]. intros e [H1 H2]. split; [done|].
    by rewrite Hl1. }
  destruct (drain_instance_own enable_block 0 write (wait_write env)
              (wrap_int (0 + Z.of_nat (length er))) tk ew wa (delivered er t))
    as (wb & Eb & Hsb & Htb & Hbb & Hwb & Hqb & Hdb & Hlb); try done.
  unfold bind at 1. rewrite Eb.
  assert (Hfold : delivered ew (delivered er t) = delivered (er ++ ew) t).
  { unfold delivered. by rewrite foldl_app. }
  rewrite Hfold in Htb.
  destruct (delivered_facts tk (er ++ ew) t Hst Haim)
    as (Hst2 & Hid2 & Hr2 & Hl2 & Hp2 & Hws2 & Hoth2 & Hrev2).
  destruct Hws2 as [Hws2|Hnil]; [|done].
  set (tb := delivered (er ++ ew) t) in *.
  assert (Hbufb : epollwait_tasks_ (iowait wb)
                  = [(tk, io_block_id_ (io_wait_data_ tb))]).
  { rewrite Hbb, Hba, Hid1, Hid2.
    change (epollwait_tasks_ (iowait w2)) with (epollwait_tasks_ (iowait w)).
    rewrite Hbuf.
    assert (Hone : ∀ st : EpollWaitSt, buffered st [] = [st]).
    { intros st. unfold buffered. rewrite decide_False; [done|].
      apply not_elem_of_nil. }
    destruct er as [|e1 er'], ew as [|e2 ew']; [done| | |];
      rewrite ?buffered_twice; apply Hone. }
  unfold bind at 1, gets at 1. rewrite Hbufb. cbn [for_each fst snd].
  assert (Hinb : tk ∈ wait_tasks_ (iowait wb)) by (by rewrite Hwb, Hwa).
  assert (Hrefb : Z.of_nat (length (wait_fds_ (io_wait_data_ tb))) < ref_count_ tb)
    by (by rewrite Hl2, Hr2).
  destruct (Cancel_winner wb tk tb Htb Hinb (or_introl Hsb))
    as (wd & Ed & Hwd & Hqd & _ & _ & Htd & _ & _ & _ & _ & _ & Hdd).
  specialize (Hdd Hrefb).
  assert (Htame : tame wb wd) by exact (tame_Cancel _ _ _ _ _ Ed).
  destruct Htame as [[_ _ _ _ Htld _ _ _] _ _].
  unfold bind at 1. rewrite Ed. unfold ret at 1.
  unfold bind at 1, upd_iowait at 1, modify at 1, ret at 1.
  (* the callbacks and the delete list *)
  unfold run_timeout_list, bind, gets, upd_iowait, modify.
  cbn [iowait set_iowait timeout_list_ i_set_epollwait_tasks].
  rewrite Htld, Hlb, Hla. change (timeout_list_ (iowait w2)) with (timeout_list_ (iowait w)).
  rewrite Htl. cbn [for_each]. unfold ret.
  unfold PopDeleteList_and_delete, upd_sched, modify. simpl.
  rewrite Hdd, Hdb, Hda. change (delete_list (sched w2)) with (delete_list (sched w)).
  rewrite Hdl. simpl.
  eexists _, _. split.
  { f_equal.
    repeat match goal with
           | |- context [wrap_int ?z] => rewrite (wrap_int_small z) by lia
           end.
    rewrite length_app. lia. }
  simpl. split; [rewrite Hwd; set_solver|].
  split; [by rewrite Hqd, Hqb, Hqa|].
  split; [exact Htd|]. simpl.
  split; [exact Hws2|]. split; [exact Hid2|]. split; [exact Hp2|].
  split; [exact Hoth2 | exact Hrev2].
Qed.

(** Task 1 of [Running.world]. *)
Definition running_task1 : Task :=
  {| id_ := 7; state_ := io_block; ref_count_ := 4;
     io_wait_data_ :=
       {| io_block_id_ := 1;
          wait_fds_ := [stamp 1%nat 1 (Scenario.fds 10 EPOLLIN);
                        stamp 1%nat 1 (Scenario.fds 12 EPOLLOUT)];
          wait_successful_ := 0; io_block_timeout_ := 50;
          io_block_timer_ := Some 0%nat |} |}.

Lemma running_task1_at : task_at 1%nat Running.world = Some running_task1.
Proof. vm_compute. reflexivity. Defined.

Lemma running_waiting : 1%nat ∈ wait_tasks_ (iowait Running.world).
Proof. apply (bool_decide_unpack _). vm_compute. exact I. Defined.

Lemma X11_witness :
  settled Running.world
  ∧ task_at 1%nat Running.world = Some running_task1
  ∧ 1%nat ∈ wait_tasks_ (iowait Running.world)
  ∧ stamped 1%nat running_task1
  ∧ ∃ w' t',
      WaitLoop Running.both_ready true Running.world = Ok 2 w'
      ∧ run_queue (sched w') = run_queue (sched Running.world) ++ [1%nat]
      ∧ task_at 1%nat w' = Some t'
      ∧ wait_successful_ (io_wait_data_ t') = 2.
Proof.
  assert (Hs : settled Running.world) by (by vm_compute).
  assert (Hst : stamped 1%nat running_task1) by (repeat constructor).
  split; [exact Hs|]. split; [exact running_task1_at|].
  split; [exact running_waiting|]. split; [exact Hst|].
  destruct (X11_WaitLoop_readiness Running.world Running.both_ready true 1%nat
              running_task1
              [{| ev_events := EPOLLIN; ev_data_ptr := (1%nat, 0%nat) |}]
              [{| ev_events := EPOLLOUT; ev_data_ptr := (1%nat, 1%nat) |}]
              eq_refl Hs running_task1_at running_waiting Hst)
    as (w' & t' & E & _ & Hq & Ht' & Hws & _).
  - simpl. lia.
  - reflexivity.
  - reflexivity.
  - repeat constructor; simpl; lia.
  - discriminate.
  - simpl. lia.
  - vm_compute. reflexivity.
  - vm_compute. reflexivity.
  - vm_compute. reflexivity.
  - vm_compute. reflexivity.
  - exists w', t'. split; [exact E|]. split; [exact Hq|]. split; [exact Ht'|].
    exact Hws.
Defined.

(** ** Generations *)

(** X12 — A new block outdates the cancels of the previous one.  After a
    task has blocked again ([CoSwitch] and [SchedulerSwitch]), a [Cancel]
    that carries the generation the task had before is a no-op, whatever
    became of the new block; and the callback of a timer left over from the
    previous block only drops the reference the timer held: it does not
    touch the wait-set, the run queue or the kernel. *)
Theorem X12_previous_generation_is_stale (w : World) (tk : TaskPtr) (t : Task)
    (fdsts : list FdStruct) (timeout_ms : Z) :
  current_task (sched w) = Some tk →
  task_at tk w = Some t →
  epoll_usable w →
  0 <= io_block_id_ (io_wait_data_ t) < 4294967296 →
  ∃ w' t',
    block_call tk fdsts timeout_ms w = Ok tt w'
    ∧ task_at tk w' = Some t'
    ∧ io_block_id_ (io_wait_data_ t') ≠ io_block_id_ (io_wait_data_ t)
    ∧ Cancel tk (io_block_id_ (io_wait_data_ t)) w' = Ok tt w'
    ∧ (∀ tm, cb_tk tm = tk →
             cb_id tm = io_block_id_ (io_wait_data_ t) →
             ∃ w'',
               timer_callback tm w' = Ok tt w''
               ∧ task_at tk w'' = Some (t_set_ref_count (ref_count_ t' - 1) t')
               ∧ wait_tasks_ (iowait w'') = wait_tasks_ (iowait w')
               ∧ run_queue (sched w'') = run_queue (sched w')
               ∧ kernel w'' = kernel w').
Proof.
  intros Hcur Hheap Huse Hrange. unfold task_at in Hheap.
  unfold block_call, bind. rewrite (CoSwitch_ok _ _ _ _ _ Hcur Hheap).
  set (t0 := blocked tk t fdsts timeout_ms).
  set (w0 := yielded (with_task tk t0 w)).
  assert (Huse0 : epoll_usable w0).
  { destruct Huse as [H|H]; [by left | by right]. }
  destruct (SchedulerSwitch_spec tk t0 w0 (lookup_insert_eq _ _ _) (fun _ => Huse0))
    as (w' & delta & r' & o & E & Hh & _).
  set (t' := t_upd_data (d_set_io_block_timer o) (t_set_ref_count r' t0)) in Hh.
  assert (Ht' : heap (sched w') !! tk = Some t').
  { rewrite Hh. apply lookup_insert_eq. }
  assert (Hgen : io_block_id_ (io_wait_data_ t') ≠ io_block_id_ (io_wait_data_ t)).
  { simpl. unfold wrap32.
    destruct (decide (io_block_id_ (io_wait_data_ t) = 4294967295)) as [->|Hn].
    - done.
    - rewrite Z.mod_small by lia. lia. }
  assert (Hstale : Cancel tk (io_block_id_ (io_wait_data_ t)) w' = Ok tt w').
  { by apply (Cancel_stale tk t'). }
  exists w', t'. split; [exact E|]. split; [exact Ht'|]. split; [exact Hgen|].
  split; [exact Hstale|].
  intros tm Htk Hid. unfold timer_callback, bind. rewrite Htk, Hid, Hstale.
  destruct (DecrementRef_ok tk t' w' Ht') as [dl Ed]. rewrite Ed.
  eexists. split; [reflexivity|]. simpl.
  split; [unfold task_at; simpl; apply lookup_insert_eq | done].
Qed.

Lemma X12_witness :
  current_task (sched Scenario.world0) = Some 1%nat
  ∧ task_at 1%nat Scenario.world0 = Some Scenario.task0
  ∧ epoll_usable Scenario.world0
  ∧ 0 <= io_block_id_ (io_wait_data_ Scenario.task0) < 4294967296
  ∧ ∃ w', block_call 1%nat [Scenario.fds 10 EPOLLIN] 50 Scenario.world0 = Ok tt w'
          ∧ Cancel 1%nat 0 w' = Ok tt w'.
Proof.
  assert (R : 0 <= io_block_id_ (io_wait_data_ Scenario.task0) < 4294967296)
    by (simpl; lia).
  split; [reflexivity|]. split; [reflexivity|]. split; [exact world0_usable|].
  split; [exact R|].
  destruct (X12_previous_generation_is_stale Scenario.world0 1%nat Scenario.task0
              [Scenario.fds 10 EPOLLIN] 50 eq_refl eq_refl world0_usable R)
    as (w' & t' & E & _ & _ & Hstale & _).
  exists w'. split; [exact E | exact Hstale].
Defined.

(** ** Registration: the cookie *)

(** No registration is made or changed: the interest lists only lose
    entries. *)
Definition shrinks (w w' : World) : Prop :=
  k_interest (kernel w') ⊆ k_interest (kernel w).

#[global] Instance shrinks_preorder : PreOrder shrinks.
Proof.
  split.
  - intros w. unfold shrinks. reflexivity.
  - intros w1 w2 w3 H1 H2. unfold shrinks in *. by etrans.
Qed.

Lemma shrinks_same_kernel w w' : kernel w' = kernel w → shrinks w w'.
Proof. intros E. unfold shrinks. by rewrite E. Qed.

Lemma shrinks_CreateEpoll_one ty : keeps shrinks (CreateEpoll_one ty).
Proof.
  unfold CreateEpoll_one.
  keeps_step; [keeps_step | intros old].
  keeps_step.
  { apply keeps_modify. intros w. unfold shrinks. simpl.
    apply map_filter_subseteq. }
  intros _. keeps_step; [keeps_step | intros size].
  keeps_step.
  { intros w a w' E. unfold epoll_create in E. injection E as _ <-.
    unfold shrinks, kernel_epoll_create. by destruct (_ && _). }
  intros efd. keeps_step.
  { apply keeps_modify. intros w. by apply shrinks_same_kernel. }
  intros _. destruct (decide _); keeps_step.
Qed.

Lemma shrinks_CreateEpoll : keeps shrinks CreateEpoll.
Proof.
  unfold CreateEpoll, getpid.
  keeps_step; [keeps_step | intros pid].
  keeps_step; [keeps_step | intros owner].
  destruct (decide _); [keeps_step|].
  keeps_step.
  { apply keeps_modify. intros w. by apply shrinks_same_kernel. }
  intros _. keeps_step; [keeps_step | intros size].
  keeps_step.
  { apply keeps_modify. intros w. by apply shrinks_same_kernel. }
  intros _. apply keeps_for_each; try apply _.
  intros ty. apply shrinks_CreateEpoll_one.
Qed.

Lemma shrinks_ChooseEpoll ev : keeps shrinks (ChooseEpoll ev).
Proof. keeps_step; [apply shrinks_CreateEpoll | intros _; keeps_step]. Qed.

Lemma shrinks_DecrementRef tk : keeps shrinks (DecrementRef tk).
Proof.
  intros w a w' E. unfold DecrementRef, bind, get_task in E.
  destruct (heap (sched w) !! tk) as [t|]; [|done].
  unfold put_task, upd_sched, modify, ret in E.
  destruct (decide _); injection E as _ <-; by apply shrinks_same_kernel.
Qed.

Lemma shrinks_IncrementRef tk : keeps shrinks (IncrementRef tk).
Proof.
  apply keeps_modify_task; try apply _. intros w t _. by apply shrinks_same_kernel.
Qed.

Lemma shrinks_del_one tk fd_ ev : keeps shrinks (del_one tk fd_ ev).
Proof.
  keeps_step; [apply shrinks_ChooseEpoll | intros epfd].
  keeps_step.
  { intros w a w' E. unfold epoll_ctl_del in E. injection E as _ <-.
    unfold shrinks, kernel_ctl_del. simpl.
    destruct (ctl_target_ok _ _ _); [destruct (_ !! _)|]; simpl; try done.
    apply delete_subseteq. }
  intros []; [apply shrinks_DecrementRef | keeps_step].
Qed.

(** What [epoll_ctl_add] does to the interest lists. *)
Lemma epoll_ctl_add_Ok epfd fd_ ev c w r w' :
  epoll_ctl_add epfd fd_ ev c w = Ok r w' →
  (r = CtlOk
   ∧ k_interest (kernel w') = <[(epfd, fd_) := (ev, c)]> (k_interest (kernel w)))
  ∨ (r ≠ CtlOk ∧ k_interest (kernel w') = k_interest (kernel w)).
Proof.
  unfold epoll_ctl_add, kernel_ctl_add. intros E. injection E as <- <-.
  destruct (ctl_target_ok _ _ _); [destruct (_ !! _)|]; simpl; auto.
Qed.

(** A registration of the interest lists is either one that was there or
    one the loop has made for an entry of [fds]: on the descriptor of the
    entry, with the mask of the entry and EPOLLONESHOT, and with the address
    of the entry as its cookie. *)
Definition made_for (tk : TaskPtr) (fds : list FdStruct) (idx : nat)
    (k : Z * Z) (v : Z * Cookie) : Prop :=
  ∃ i fdst, fds !! i = Some fdst
            ∧ k.2 = fd fdst
            ∧ v = (Z.lor (event fdst) EPOLLONESHOT, (tk, (idx + i)%nat)).

Lemma register_fds_cookies tk fds : ∀ idx ok rb w ok' w',
  register_fds tk fds idx ok rb w = Ok ok' w' →
  ∀ k v, k_interest (kernel w') !! k = Some v →
         k_interest (kernel w) !! k = Some v ∨ made_for tk fds idx k v.
Proof.
  induction fds as [|fdst rest IH]; intros idx ok rb w ok' w' E k v Hk.
  { injection E as _ <-. by left. }
  cbn [register_fds] in E.
  apply bind_Ok in E as (epfd & w1 & E1 & E).
  apply bind_Ok in E as ([] & w2 & E2 & E).
  apply bind_Ok in E as (r & w3 & E3 & E).
  pose proof (shrinks_ChooseEpoll _ _ _ _ E1) as S1.
  pose proof (shrinks_IncrementRef _ _ _ _ E2) as S2.
  assert (S12 : shrinks w w2) by (by etrans).
  assert (Hshift : ∀ k v, made_for tk rest (S idx) k v →
                          made_for tk (fdst :: rest) idx k v).
  { intros k0 v0 (i & f & Hi & Hfd & Hv). exists (S i), f.
    split; [done|]. split; [done|]. rewrite Hv.
    by replace (idx + S i)%nat with (S idx + i)%nat by lia. }
  destruct (epoll_ctl_add_Ok _ _ _ _ _ _ _ E3) as [[-> Hm]|[Hr Hm]].
  - destruct (IH _ _ _ _ _ _ E k v Hk) as [Hold|Hnew]; [|right; by apply Hshift].
    rewrite Hm in Hold. destruct (decide (k = (epfd, fd fdst))) as [->|Hne].
    + rewrite lookup_insert_eq in Hold. injection Hold as <-.
      right. exists 0%nat, fdst. split; [done|]. split; [done|].
      by rewrite Nat.add_0_r.
    + rewrite lookup_insert_ne in Hold by done. left.
      by apply (lookup_weaken _ _ _ _ Hold S12).
  - destruct r as [|errno]; [done|].
    apply bind_Ok in E as ([] & w4 & E4 & E).
    pose proof (shrinks_DecrementRef _ _ _ _ E4) as S4.
    assert (S14 : shrinks w w4).
    { etrans; [exact S12|]. etrans; [|exact S4]. unfold shrinks. by rewrite Hm. }
    destruct (decide (errno = EEXIST)).
    + apply bind_Ok in E as ([] & w5 & E5 & E). injection E as _ <-.
      assert (S5 : shrinks w4 w5).
      { revert E5. apply keeps_for_each; [apply _|]. intros p. apply shrinks_del_one. }
      left. apply (lookup_weaken _ _ _ _ Hk). by etrans.
    + destruct (IH _ _ _ _ _ _ E k v Hk) as [Hold|Hnew]; [|right; by apply Hshift].
      left. by apply (lookup_weaken _ _ _ _ Hold S14).
Qed.

(** The kernel is as before. *)
Definition same_kernel (w w' : World) : Prop := kernel w' = kernel w.

#[global] Instance same_kernel_preorder : PreOrder same_kernel.
Proof.
  split; [done|]. intros w1 w2 w3 H1 H2. unfold same_kernel in *. congruence.
Qed.

Lemma same_kernel_DecrementRef tk : keeps same_kernel (DecrementRef tk).
Proof.
  intros w a w' E. unfold DecrementRef, bind, get_task in E.
  destruct (heap (sched w) !! tk) as [t|]; [|done].
  unfold put_task, upd_sched, modify, ret in E.
  by destruct (decide _); injection E as _ <-.
Qed.

Lemma same_kernel_modify_task tk f : keeps same_kernel (modify_task tk f).
Proof. apply keeps_modify_task; try apply _. done. Qed.

(** X13 — The cookie of a registration.  Every registration found in the
    interest lists after [SchedulerSwitch] either was there before the
    registration loop or was made by the loop for an entry of the task's
    [wait_fds_]: it is on the descriptor of that entry, its mask is the
    mask of the entry with EPOLLONESHOT added, and its cookie is the address
    of that very entry (the task and the index in [wait_fds_]), which is
    what [WaitLoop] dereferences when the event arrives.  If the task stays
    in the wait-set, every key of the block that the kernel accepts holds
    such a registration. *)
Theorem X13_registration_cookies (w : World) (tk : TaskPtr) (t : Task) :
  task_at tk w = Some t →
  epoll_usable w →
  let b := pre_reg w (wait_fds_ (io_wait_data_ t)) in
  ∃ w',
    SchedulerSwitch tk w = Ok tt w'
    ∧ (∀ k v, k_interest (kernel w') !! k = Some v →
              k_interest (kernel b) !! k = Some v
              ∨ made_for tk (wait_fds_ (io_wait_data_ t)) 0 k v)
    ∧ (tk ∈ wait_tasks_ (iowait w') →
       ∀ k, k ∈ ok_keys b (pairs_of t) →
            ∃ v, k_interest (kernel w') !! k = Some v
                 ∧ made_for tk (wait_fds_ (io_wait_data_ t)) 0 k v).
Proof.
  intros Hheap Huse b. unfold task_at in Hheap.
  destruct (SchedulerSwitch_spec tk t w Hheap (fun _ => Huse))
    as (w' & delta & r' & o & E & _ & _ & _ & _ & _ & _ & _ & _ & _ & Hcase).
  fold b in Hcase.
  exists w'. split; [exact E|].
  assert (Hall : ∀ k v, k_interest (kernel w') !! k = Some v →
                        k_interest (kernel b) !! k = Some v
                        ∨ made_for tk (wait_fds_ (io_wait_data_ t)) 0 k v).
  { unfold SchedulerSwitch in E.
    apply bind_Ok in E as (t1 & w0 & E0 & E).
    rewrite (get_task_ok _ _ _ Hheap) in E0. injection E0 as <- <-.
    apply bind_Ok in E as ([] & w1 & E1 & E).
    rewrite (IncrementRef_ok _ _ _ Hheap) in E1. injection E1 as <-.
    apply bind_Ok in E as ([] & w2 & E2 & E). injection E2 as <-.
    apply bind_Ok in E as (ok & w3 & E3 & E).
    apply bind_Ok in E as ([] & w4 & E4 & E).
    assert (K4 : same_kernel w3 w4).
    { revert E4. destruct ok; cbn [negb].
      - keeps_step; [keeps_step | intros t4].
        destruct (decide _); [|keeps_step].
        keeps_step; [apply same_kernel_modify_task | intros _].
        keeps_step; [|intros tm; apply same_kernel_modify_task].
        intros x a y Ex. unfold ExpireAt in Ex. by injection Ex as _ <-.
      - keeps_step.
        { intros x a y Ex. unfold wait_tasks_erase in Ex.
          by destruct (decide _); injection Ex as _ <-. }
        intros []; [by apply keeps_modify | keeps_step]. }
    pose proof (same_kernel_DecrementRef _ _ _ _ E) as K5.
    assert (K : kernel w' = kernel w3) by (by etrans).
    rewrite K. clear K K4 K5 E E4.
    subst b. destruct (wait_fds_ (io_wait_data_ t)) as [|fdst rest] eqn:Hfds.
    { injection E3 as _ <-. intros k v Hk. by left. }
    match type of E3 with register_fds _ _ _ _ _ ?x = _ => set (w1 := x) in * end.
    assert (Huse1 : epoll_usable w1).
    { apply (epoll_usable_frame w
               (s_set_heap (<[tk:=t_set_ref_count (ref_count_ t + 1) t]> (heap (sched w)))
                  (sched w))
               ({[tk]} ∪ wait_tasks_ (iowait w))); done. }
    rewrite (register_fds_created _ _ _ _ _ _ _ Huse1) in E3.
    assert (Eb1 : kernel (created w1) = kernel (created w)).
    { unfold w1, with_task.
      rewrite (created_frame w
                 (s_set_heap (<[tk:=t_set_ref_count (ref_count_ t + 1) t]> (heap (sched w)))
                    (sched w))
                 ({[tk]} ∪ wait_tasks_ (iowait w))) by done.
      done. }
    intros k v Hk.
    destruct (register_fds_cookies _ _ _ _ _ _ _ _ E3 k v Hk) as [H|H];
      [left; cbn [pre_reg]; by rewrite <- Eb1 | by right]. }
  split; [exact Hall|].
  intros Hin k Hk.
  destruct Hcase as [(Hwt & _)|(_ & _ & _ & _ & Hreg & _)].
  { rewrite Hwt in Hin. set_solver. }
  destruct (Hreg k Hk) as [Hnone [v Hv]].
  exists v. split; [exact Hv|].
  destruct (Hall k v Hv) as [Hold|Hnew]; [congruence | exact Hnew].
Qed.

Lemma X13_witness :
  task_at 1%nat Mixed.world = Some Mixed.task1
  ∧ epoll_usable Mixed.world
  ∧ ∃ w', SchedulerSwitch 1%nat Mixed.world = Ok tt w'
          ∧ 1%nat ∈ wait_tasks_ (iowait w')
          ∧ ∃ v, k_interest (kernel w') !! (4, 11) = Some v
                 ∧ made_for 1%nat (wait_fds_ (io_wait_data_ Mixed.task1)) 0
                     (4, 11) v.
Proof.
  split; [reflexivity|]. split; [exact mixed_usable|].
  destruct (X13_registration_cookies Mixed.world 1%nat Mixed.task1
              eq_refl mixed_usable) as (w' & E & _ & Hreg).
  assert (Hin : 1%nat ∈ wait_tasks_ (iowait w')).
  { pose proof E as E'. vm_compute in E'. injection E' as Hw'.
    rewrite <- Hw'. apply (bool_decide_unpack _). vm_compute. exact I. }
  exists w'. split; [exact E|]. split; [exact Hin|].
  apply (Hreg Hin). apply (bool_decide_unpack _). vm_compute. exact I.
Defined.

(** ** The wait loop: timeouts *)

Lemma count_acked_del_targets log :
  count_acked EPOLL_CTL_DEL log <= Z.of_nat (length (del_targets log)).
Proof.
  induction log as [|c log IH]; [done|].
  change (c :: log) with ([c] ++ log).
  rewrite count_acked_app, del_targets_app, length_app, Nat2Z.inj_add.
  assert (count_acked EPOLL_CTL_DEL [c] <= Z.of_nat (length (del_targets [c]))).
  { destruct c as [[] e f []| | |]; unfold count_acked; simpl; lia. }
  lia.
Qed.

(** One round of the drain when the kernel reports nothing. *)
Lemma drain_instance_quiet eb c ty a n w :
  settled w →
  answer a = Some [] →
  ∃ w',
    drain_instance eb c ty a n w = Ok (wrap_int (n + 0)) w'
    ∧ sched w' = sched w
    ∧ iowait w' = iowait w
    ∧ settled w'
    ∧ k_log (kernel w')
      = k_log (kernel w)
        ++ replicate (S (eintrs a)) (sys_epoll_wait (epoll_fd_of ty (iowait w))
                                       (wait_timeout eb c ty w)).
Proof.
  intros Hs Ha. unfold drain_instance, bind.
  destruct (epoll_wait_retry_log eb c ty (eintrs a) (answer a) w Hs)
    as (w1 & E1 & H1 & H2 & H3 & H4).
  rewrite E1, Ha. simpl. exists w1. done.
Qed.

(** X14 — Timeout.  Let a [WaitLoop] get the lock while a task is in the
    wait-set, the one timer that is due is the timer of the task's current
    block, and the kernel reports no event.  Then the call returns 1; the
    callback of the timer takes the task out of the wait-set, tears its
    registrations down and enqueues it exactly once, with
    [wait_successful_] as it was (0 since [CoSwitch]);
    the task has lost one reference per acknowledged delete and the
    reference of the timer; the timer is neither pending nor parked any
    more. *)
Theorem X14_WaitLoop_timeout (w : World) (env : LoopEnv) (enable_block : bool)
    (tk : TaskPtr) (t : Task) (tm : CoTimer) :
  lock_acquired env = true →
  settled w →
  task_at tk w = Some t →
  tk ∈ wait_tasks_ (iowait w) →
  Z.of_nat (length (wait_fds_ (io_wait_data_ t))) + 1 < ref_count_ t →
  due (k_now (kernel w)) (timer_mgr_ (iowait w)) = [tm] →
  cb_tk tm = tk →
  cb_id tm = io_block_id_ (io_wait_data_ t) →
  answer (wait_read env) = Some [] →
  answer (wait_write env) = Some [] →
  epollwait_tasks_ (iowait w) = [] →
  timeout_list_ (iowait w) = [] →
  delete_list (sched w) = [] →
  ∃ w' dels,
    WaitLoop env enable_block w = Ok 1 w'
    ∧ (tk ∉ wait_tasks_ (iowait w'))
    ∧ run_queue (sched w') = run_queue (sched w) ++ [tk]
    ∧ task_at tk w' = Some (t_set_ref_count (ref_count_ t - dels - 1) t)
    ∧ 0 <= dels <= Z.of_nat (length (wait_fds_ (io_wait_data_ t)))
    ∧ dels = count_acked EPOLL_CTL_DEL (new_calls w w')
    ∧ timer_mgr_ (iowait w') = not_due (k_now (kernel w)) (timer_mgr_ (iowait w))
    ∧ timeout_list_ (iowait w') = [].
Proof.
  intros Hlock Hs Ht Hin Href Hdue Htk Hid Her Hew Hbuf Htl Hdl.
  unfold WaitLoop. unfold bind at 1, gets at 1.
  destruct (drain_timers_moves (S (length (timer_mgr_ (iowait w)))) 0 w)
    as (c' & E1 & Hc); [lia|].
  rewrite Hdue, Htl in E1. rewrite Hdue in Hc. simpl in Hc. cbn [app] in E1.
  rewrite Hc in E1 by lia. clear Hc c'.
  unfold bind at 1. rewrite E1, Hlock. cbn [negb]. clear E1.
  change (0 + Z.of_nat 1) with 1.
  unfold bind at 1, upd_iowait at 1, modify at 1.
  unfold bind at 1, IsEpollCreated, bind, getpid, gets, ret.
  match goal with |- context [bool_decide (epoll_owner_pid_ (iowait ?x) = _)] =>
    set (w2 := x) end.
  rewrite (bool_decide_true (epoll_owner_pid_ (iowait w2) = k_pid (kernel w2)))
    by exact Hs.
  (* the drain finds nothing *)
  unfold drain_epoll.
  destruct (drain_instance_quiet enable_block 1 read (wait_read env) 0 w2 Hs Her)
    as (wa & Ea & Hsca & Hioa & Hsa & Hla).
  unfold bind at 1. unfold bind at 1. rewrite Ea.
  destruct (drain_instance_quiet enable_block 1 write (wait_write env)
              (wrap_int (0 + 0)) wa Hsa Hew)
    as (wb & Eb & Hscb & Hiob & Hsb & Hlb).
  unfold bind at 1. rewrite Eb.
  unfold bind at 1, gets at 1.
  assert (Hbufb : epollwait_tasks_ (iowait wb) = []) by (by rewrite Hiob, Hioa).
  rewrite Hbufb. cbn [for_each].
  (* the callback of the timer *)
  unfold run_timeout_list, timer_callback, bind, ret, gets, upd_iowait, modify.
  cbn [iowait set_iowait timeout_list_ i_set_epollwait_tasks i_set_timeout_list].
  rewrite Hiob, Hioa.
  change (timeout_list_ (iowait w2)) with [tm]. cbn [for_each].
  unfold bind, ret. rewrite Htk, Hid.
  match goal with |- context [Cancel tk _ ?x] => set (wc := x) end.
  assert (Htc : task_at tk wc = Some t).
  { unfold task_at, wc. simpl. by rewrite Hscb, Hsca. }
  assert (Hinc : tk ∈ wait_tasks_ (iowait wc)) by exact Hin.
  assert (Hsc : settled wc).
  { unfold settled in *. unfold wc. simpl.
    unfold settled in Hsb. by rewrite Hiob, Hioa in Hsb. }
  destruct (Cancel_winner wc tk t Htc Hinc (or_introl Hsc))
    as (wd & Ed & Hwd & Hqd & Hdel & _ & Htd & Hclr & _ & Htmd & _ & _ & Hdd).
  rewrite Ed.
  assert (Hcnt : 0 <= count_acked EPOLL_CTL_DEL (new_calls wc wd)
                 <= Z.of_nat (length (wait_fds_ (io_wait_data_ t)))).
  { split; [unfold count_acked; lia|].
    etrans; [apply count_acked_del_targets|].
    rewrite Hdel. unfold pairs_of. rewrite !length_map. lia. }
  set (dels := count_acked EPOLL_CTL_DEL (new_calls wc wd)) in *.
  unfold DecrementRef, bind. unfold task_at in Htd. rewrite (get_task_ok _ _ _ Htd).
  unfold put_task, upd_sched, modify. cbn [ref_count_ t_set_ref_count].
  rewrite decide_False by lia. unfold ret.
  unfold PopDeleteList_and_delete, upd_sched, modify.
  cbn [sched set_sched delete_list s_set_heap].
  rewrite Hdd by lia.
  assert (Hdlc : delete_list (sched wc) = []).
  { unfold wc. simpl. by rewrite Hscb, Hsca. }
  rewrite Hdlc. cbn [foldr].
  destruct (tame_Cancel _ _ _ _ _ Ed) as [[_ _ _ _ Htld _ _ _] (d & Hd & _) _].
  eexists _, dels. split; [reflexivity|]. simpl.
  split; [rewrite Hwd; set_solver|].
  split; [rewrite Hqd; unfold wc; simpl; by rewrite Hscb, Hsca|].
  split.
  { unfold task_at. simpl. by rewrite lookup_insert_eq. }
  split; [exact Hcnt|].
  split.
  { assert (Hw : k_log (kernel wc)
                 = k_log (kernel w)
                   ++ (replicate (S (eintrs (wait_read env)))
                         (sys_epoll_wait (epoll_fd_of read (iowait w2))
                            (wait_timeout enable_block 1 read w2))
                       ++ replicate (S (eintrs (wait_write env)))
                            (sys_epoll_wait (epoll_fd_of write (iowait wa))
                               (wait_timeout enable_block 1 write wa)))).
    { unfold wc. simpl. rewrite Hlb, Hla. by rewrite <- app_assoc. }
    assert (Hd' : new_calls wc wd = d) by (by apply new_calls_app).
    assert (Hz : ∀ n e f, count_acked EPOLL_CTL_DEL
                            (replicate n (sys_epoll_wait e f)) = 0).
    { intros n e f. induction n as [|n IH]; [done|]. simpl.
      change (?x :: ?l) with ([x] ++ l). by rewrite count_acked_app, IH. }
    unfold dels. rewrite Hd'.
    erewrite new_calls_app; [|simpl; rewrite Hd, Hw, <- app_assoc; reflexivity].
    rewrite !count_acked_app, !Hz. lia. }
  split; [by rewrite Htmd | by rewrite Htld].
Qed.

(** A pump that gets the lock and finds no event. *)
Definition idle_pump : LoopEnv :=
  {| lock_acquired := true;
     wait_read := {| eintrs := 0; answer := Some [] |};
     wait_write := {| eintrs := 0; answer := Some [] |} |}.

Lemma later_task1_at : task_at 1%nat Running.later = Some running_task1.
Proof. vm_compute. reflexivity. Defined.

Lemma later_waiting : 1%nat ∈ wait_tasks_ (iowait Running.later).
Proof. apply (bool_decide_unpack _). vm_compute. exact I. Defined.

Lemma X14_witness :
  settled Running.later
  ∧ task_at 1%nat Running.later = Some running_task1
  ∧ 1%nat ∈ wait_tasks_ (iowait Running.later)
  ∧ due (k_now (kernel Running.later)) (timer_mgr_ (iowait Running.later))
    = [running_timer]
  ∧ ∃ w' dels,
      WaitLoop idle_pump true Running.later = Ok 1 w'
      ∧ run_queue (sched w') = run_queue (sched Running.later) ++ [1%nat]
      ∧ task_at 1%nat w' = Some (t_set_ref_count (4 - dels - 1) running_task1)
      ∧ timeout_list_ (iowait w') = [].
Proof.
  assert (Hs : settled Running.later) by (by vm_compute).
  split; [exact Hs|]. split; [exact later_task1_at|].
  split; [exact later_waiting|]. split; [exact later_due|].
  destruct (X14_WaitLoop_timeout Running.later idle_pump true 1%nat
              running_task1 running_timer
              eq_refl Hs later_task1_at later_waiting)
    as (w' & dels & E & _ & Hq & Ht' & _ & _ & _ & Htl).
  - simpl. lia.
  - exact later_due.
  - reflexivity.
  - reflexivity.
  - reflexivity.
  - reflexivity.
  - vm_compute. reflexivity.
  - vm_compute. reflexivity.
  - vm_compute. reflexivity.
  - exists w', dels. split; [exact E|]. split; [exact Hq|].
    split; [exact Ht' | exact Htl].
Defined.

(** The world in which the drain of a [WaitLoop] that got the lock starts:
    the expired timers are parked and [loop_index_] is advanced. *)
Definition before_drain (w : World) : World :=
  set_iowait
    (i_set_loop_index
       (wrap64 (loop_index_ (iowait w) + 1))
       (iowait (timers_moved
                  (not_due (k_now (kernel w)) (timer_mgr_ (iowait w)))
                  (timeout_list_ (iowait w)
                   ++ due (k_now (kernel w)) (timer_mgr_ (iowait w))) w)))
    (timers_moved
       (not_due (k_now (kernel w)) (timer_mgr_ (iowait w)))
       (timeout_list_ (iowait w)
        ++ due (k_now (kernel w)) (timer_mgr_ (iowait w))) w).

Lemma count_acked_waits op n e f :
  count_acked op (replicate n (sys_epoll_wait e f)) = 0.
Proof.
  induction n as [|n IH]; [done|]. simpl.
  change (?x :: ?l) with ([x] ++ l). by rewrite count_acked_app, IH.
Qed.

(** X15 — Readiness is served before the timeout.  Let a [WaitLoop] get
    the lock while the timer of a block is due and the kernel reports [n]
    events, at least one, for entries of the blocked task.  Then the call
    returns [n + 1], and it is the drain that resumes the task: at the end
    of the drain the task is out of the wait-set and enqueued, with
    [wait_successful_] raised by [n], and every acknowledged
    [EPOLL_CTL_DEL] of the call has been issued, one reference dropped for
    each.  The callback of the timer runs after the drain, finds the task
    gone from the wait-set, issues no call, enqueues nothing and only drops
    the reference of the timer. *)
Theorem X15_WaitLoop_readiness_before_timeout (w : World) (env : LoopEnv)
    (enable_block : bool) (tk : TaskPtr) (t : Task) (tm : CoTimer)
    (er ew : list epoll_event) :
  lock_acquired env = true →
  settled w →
  task_at tk w = Some t →
  tk ∈ wait_tasks_ (iowait w) →
  stamped tk t →
  Z.of_nat (length (wait_fds_ (io_wait_data_ t))) + 1 < ref_count_ t →
  due (k_now (kernel w)) (timer_mgr_ (iowait w)) = [tm] →
  cb_tk tm = tk →
  cb_id tm = io_block_id_ (io_wait_data_ t) →
  answer (wait_read env) = Some er →
  answer (wait_write env) = Some ew →
  Forall (aims_at tk t) (er ++ ew) →
  er ++ ew ≠ [] →
  Z.of_nat (length (er ++ ew)) + 1 < 2147483648 →
  epollwait_tasks_ (iowait w) = [] →
  timeout_list_ (iowait w) = [] →
  delete_list (sched w) = [] →
  ∃ w' t' dels,
    WaitLoop env enable_block w = Ok (Z.of_nat (length (er ++ ew)) + 1) w'
    ∧ (tk ∉ wait_tasks_ (iowait w'))
    ∧ run_queue (sched w') = run_queue (sched w) ++ [tk]
    ∧ task_at tk w' = Some t'
    ∧ wait_successful_ (io_wait_data_ t')
      = wrap32 (wait_successful_ (io_wait_data_ t) + Z.of_nat (length (er ++ ew)))
    ∧ ref_count_ t' = ref_count_ t - dels - 1
    ∧ dels = count_acked EPOLL_CTL_DEL (new_calls w w')
    ∧ 0 <= dels <= Z.of_nat (length (wait_fds_ (io_wait_data_ t)))
    ∧ timeout_list_ (iowait w') = []
    ∧ timer_mgr_ (iowait w') = not_due (k_now (kernel w)) (timer_mgr_ (iowait w))
    ∧ ∃ w1 w2 t1,
        drain_epoll env enable_block 1 (before_drain w)
        = Ok (Z.of_nat (length (er ++ ew))) w1
        ∧ (tk ∉ wait_tasks_ (iowait w1))
        ∧ run_queue (sched w1) = run_queue (sched w) ++ [tk]
        ∧ task_at tk w1 = Some t1
        ∧ ref_count_ t1 = ref_count_ t - dels
        ∧ count_acked EPOLL_CTL_DEL (new_calls w w1) = dels
        ∧ timeout_list_ (iowait w1) = [tm]
        ∧ run_timeout_list w1 = Ok tt w2
        ∧ kernel w2 = kernel w1
        ∧ run_queue (sched w2) = run_queue (sched w1)
        ∧ wait_tasks_ (iowait w2) = wait_tasks_ (iowait w1)
        ∧ task_at tk w2 = Some (t_set_ref_count (ref_count_ t1 - 1) t1)
        ∧ PopDeleteList_and_delete w2 = Ok tt w'.
Proof.
  intros Hlock Hs Ht Hin Hst Href Hdue Htk Hid Her Hew Haim Hne Hrange Hbuf Htl Hdl.
  apply Forall_app in Haim as Haim'. destruct Haim' as [Haimr Haimw].
  rewrite length_app, Nat2Z.inj_add in Hrange.
  set (w2 := before_drain w).
  assert (Hs2 : settled w2) by exact Hs.
  assert (Ht2 : task_at tk w2 = Some t) by exact Ht.
  assert (Htl2 : timeout_list_ (iowait w2) = [tm]).
  { unfold w2, before_drain. simpl. by rewrite Htl, Hdue. }
  (* the drain *)
  destruct (drain_instance_own enable_block 1 read (wait_read env) 0 tk er w2 t)
    as (wa & Ea & Hsa & Hta & Hba & Hwa & Hqa & Hda & Hla); try done.
  destruct (delivered_facts tk er t Hst Haimr)
    as (Hst1 & Hid1 & Hr1 & Hl1 & _).
  assert (Haimw1 : Forall (aims_at tk (delivered er t)) ew).
  { eapply Forall_impl; [exact Haimw|]. intros e [H1 H2]. split; [done|].
    by rewrite Hl1. }
  destruct (drain_instance_own enable_block 1 write (wait_write env)
              (wrap_int (0 + Z.of_nat (length er))) tk ew wa (delivered er t))
    as (wb & Eb & Hsb & Htb & Hbb & Hwb & Hqb & Hdb & Hlb); try done.
  assert (Hfold : delivered ew (delivered er t) = delivered (er ++ ew) t).
  { unfold delivered. by rewrite foldl_app. }
  rewrite Hfold in Htb.
  destruct (delivered_facts tk (er ++ ew) t Hst Haim)
    as (Hst2 & Hid2 & Hr2 & Hl2 & Hp2 & Hws2 & Hoth2 & Hrev2).
  destruct Hws2 as [Hws2|Hnil]; [|done].
  set (tb := delivered (er ++ ew) t) in *.
  assert (Hbufb : epollwait_tasks_ (iowait wb)
                  = [(tk, io_block_id_ (io_wait_data_ tb))]).
  { rewrite Hbb, Hba, Hid1, Hid2.
    change (epollwait_tasks_ (iowait w2)) with (epollwait_tasks_ (iowait w)).
    rewrite Hbuf.
    assert (Hone : ∀ st : EpollWaitSt, buffered st [] = [st]).
    { intros st. unfold buffered. rewrite decide_False; [done|].
      apply not_elem_of_nil. }
    destruct er as [|e1 er'], ew as [|e2 ew']; [done| | |];
      rewrite ?buffered_twice; apply Hone. }
  assert (Hinb : tk ∈ wait_tasks_ (iowait wb)) by (by rewrite Hwb, Hwa).
  assert (Hrefb : Z.of_nat (length (wait_fds_ (io_wait_data_ tb))) < ref_count_ tb)
    by (rewrite Hl2, Hr2; lia).
  destruct (Cancel_winner wb tk tb Htb Hinb (or_introl Hsb))
    as (wd & Ed & Hwd & Hqd & Hdel & _ & Htd & _ & _ & Htmd & _ & _ & Hdd).
  specialize (Hdd Hrefb).
  destruct (tame_Cancel _ _ _ _ _ Ed) as [[_ _ Htmc _ Htld _ _ _] (d & Hd & _) _].
  assert (Hcnt : 0 <= count_acked EPOLL_CTL_DEL (new_calls wb wd)
                 <= Z.of_nat (length (wait_fds_ (io_wait_data_ t)))).
  { split; [unfold count_acked; lia|].
    etrans; [apply count_acked_del_targets|].
    rewrite Hdel. unfold pairs_of. rewrite !length_map. lia. }
  set (dels := count_acked EPOLL_CTL_DEL (new_calls wb wd)) in *.
  set (wc := set_iowait (i_set_epollwait_tasks [] (iowait wd)) wd).
  assert (Hn : wrap_int (wrap_int (0 + Z.of_nat (length er)) + Z.of_nat (length ew))
               = Z.of_nat (length (er ++ ew))).
  { repeat match goal with
           | |- context [wrap_int ?z] => rewrite (wrap_int_small z) by lia
           end.
    rewrite length_app. lia. }
  assert (Edrain : drain_epoll env enable_block 1 w2
                   = Ok (Z.of_nat (length (er ++ ew))) wc).
  { unfold drain_epoll. unfold bind at 1. rewrite Ea.
    unfold bind at 1. rewrite Eb.
    unfold bind at 1, gets at 1. rewrite Hbufb. cbn [for_each fst snd].
    unfold bind. rewrite Ed. unfold ret, upd_iowait, modify. by rewrite Hn. }
  (* the calls of the drain *)
  destruct (drain_instance_log _ _ _ _ _ _ _ _ Hs2 Ea) as (_ & _ & _ & Hloga).
  destruct (drain_instance_log _ _ _ _ _ _ _ _ Hsa Eb) as (_ & _ & _ & Hlogb).
  assert (Hlogc : count_acked EPOLL_CTL_DEL (new_calls w wc) = dels).
  { assert (Hd' : new_calls wb wd = d) by (by apply new_calls_app).
    unfold dels. rewrite Hd'.
    erewrite new_calls_app;
      [|simpl; rewrite Hd, Hlogb, Hloga, <- !app_assoc; reflexivity].
    rewrite !count_acked_app, !count_acked_waits. lia. }
  (* the callback of the timer *)
  assert (Htlc : timeout_list_ (iowait wc) = [tm]).
  { unfold wc. simpl. by rewrite Htld, Hlb, Hla. }
  set (t1 := t_set_ref_count (ref_count_ tb - dels) tb).
  assert (Htc : task_at tk wc = Some t1) by exact Htd.
  assert (Houtc : tk ∉ wait_tasks_ (iowait wc)).
  { unfold wc. simpl. rewrite Hwd. set_solver. }
  set (w3 := set_iowait (i_set_timeout_list [] (iowait wc)) wc).
  set (we := with_task tk (t_set_ref_count (ref_count_ t1 - 1) t1) w3).
  assert (Ecb : run_timeout_list wc = Ok tt we).
  { unfold run_timeout_list, bind, gets, upd_iowait, modify. rewrite Htlc.
    cbn [for_each]. unfold timer_callback, bind. rewrite Htk, Hid, <- Hid2.
    fold tb. fold w3.
    assert (Htc3 : heap (sched w3) !! tk = Some t1) by exact Htc.
    rewrite (Cancel_lost tk t1 _ w3 Htc3 Houtc).
    unfold DecrementRef, bind. rewrite (get_task_ok _ _ _ Htc3).
    unfold put_task, upd_sched, modify.
    rewrite decide_False by (unfold t1; simpl; lia). reflexivity. }
  assert (Hdlc : delete_list (sched we) = []).
  { unfold we, w3, wc. simpl. rewrite Hdd, Hdb, Hda. exact Hdl. }
  (* the whole call *)
  unfold WaitLoop. unfold bind at 1, gets at 1.
  destruct (drain_timers_moves (S (length (timer_mgr_ (iowait w)))) 0 w)
    as (c' & E1 & Hc); [lia|].
  rewrite Hdue in Hc. simpl in Hc. rewrite Hc in E1 by lia. clear Hc c'.
  unfold bind at 1. rewrite E1, Hlock. cbn [negb]. clear E1.
  change (0 + Z.of_nat 1) with 1.
  unfold bind at 1, upd_iowait at 1, modify at 1.
  change (set_iowait _ (timers_moved _ _ w)) with w2.
  unfold bind at 1, IsEpollCreated, bind, getpid, gets, ret.
  rewrite (bool_decide_true (epoll_owner_pid_ (iowait w2) = k_pid (kernel w2)))
    by exact Hs.
  rewrite Edrain, Ecb.
  unfold PopDeleteList_and_delete, upd_sched, modify. rewrite Hdlc. cbn [foldr].
  eexists _, _, dels. split.
  { f_equal. rewrite wrap_int_small by (rewrite length_app; lia). done. }
  split; [exact Houtc|].
  split; [simpl; by rewrite Hqd, Hqb, Hqa|].
  split; [unfold task_at; simpl; by rewrite lookup_insert_eq|]. simpl.
  split; [exact Hws2|]. split; [rewrite Hr2; lia|].
  split; [symmetry; exact Hlogc|]. split; [exact Hcnt|].
  split; [done|].
  split.
  { rewrite Htmc.
    destruct (calm_drain_instance _ _ _ _ _ _ _ _ Ea) as [_ _ Ha _ _ _ _ _].
    destruct (calm_drain_instance _ _ _ _ _ _ _ _ Eb) as [_ _ Hb _ _ _ _ _].
    by rewrite Hb, Ha. }
  exists wc, we, t1.
  split; [done|]. split; [exact Houtc|].
  split; [simpl; by rewrite Hqd, Hqb, Hqa|].
  split; [exact Htc|]. split; [unfold t1; simpl; by rewrite Hr2|].
  split; [exact Hlogc|]. split; [exact Htlc|]. split; [done|].
  split; [done|]. split; [done|]. split; [done|].
  split; [unfold task_at, we; simpl; by rewrite lookup_insert_eq|].
  unfold PopDeleteList_and_delete, upd_sched, modify. rewrite Hdlc. reflexivity.
Qed.

Lemma X15_witness :
  settled Running.later
  ∧ task_at 1%nat Running.later = Some running_task1
  ∧ 1%nat ∈ wait_tasks_ (iowait Running.later)
  ∧ stamped 1%nat running_task1
  ∧ due (k_now (kernel Running.later)) (timer_mgr_ (iowait Running.later))
    = [running_timer]
  ∧ ∃ w' t' dels,
      WaitLoop Running.both_ready true Running.later = Ok 3 w'
      ∧ run_queue (sched w') = run_queue (sched Running.later) ++ [1%nat]
      ∧ task_at 1%nat w' = Some t'
      ∧ wait_successful_ (io_wait_data_ t') = 2
      ∧ ref_count_ t' = 4 - dels - 1
      ∧ dels = count_acked EPOLL_CTL_DEL (new_calls Running.later w').
Proof.
  assert (Hs : settled Running.later) by (by vm_compute).
  assert (Hst : stamped 1%nat running_task1) by (repeat constructor).
  split; [exact Hs|]. split; [exact later_task1_at|].
  split; [exact later_waiting|]. split; [exact Hst|]. split; [exact later_due|].
  destruct (X15_WaitLoop_readiness_before_timeout Running.later Running.both_ready
              true 1%nat running_task1 running_timer
              [{| ev_events := EPOLLIN; ev_data_ptr := (1%nat, 0%nat) |}]
              [{| ev_events := EPOLLOUT; ev_data_ptr := (1%nat, 1%nat) |}]
              eq_refl Hs later_task1_at later_waiting Hst)
    as (w' & t' & dels & E & _ & Hq & Ht' & Hws & Hr & Hd & _).
  - simpl. lia.
  - exact later_due.
  - reflexivity.
  - reflexivity.
  - reflexivity.
  - reflexivity.
  - repeat constructor; simpl; lia.
  - discriminate.
  - simpl. lia.
  - vm_compute. reflexivity.
  - vm_compute. reflexivity.
  - vm_compute. reflexivity.
  - exists w', t', dels. split; [exact E|]. split; [exact Hq|].
    split; [exact Ht'|]. split; [exact Hws|]. split; [exact Hr | exact Hd].
Defined.

(** * What every operation keeps of the pair of instances *)

(** What [CreateEpoll] reads. *)
Definition epoll_state (w : World) : Z * Z * (Z * Z) * Z * Z * Z :=
  (epoll_owner_pid_ (iowait w), k_pid (kernel w), epoll_fds_ (iowait w),
   k_next (kernel w), k_limit (kernel w), opt_epoll_event_size (sched w)).

(** A pair that can be used can still be used, and a pair that belongs to
    the process stays as it is. *)
Definition kept (w w' : World) : Prop :=
  (epoll_usable w → epoll_usable w')
  ∧ (settled w → settled w' ∧ epoll_fds_ (iowait w') = epoll_fds_ (iowait w)).

#[global] Instance kept_preorder : PreOrder kept.
Proof.
  split.
  - intros w. by split.
  - intros w1 w2 w3 [H1 H1'] [H2 H2']. split; [tauto|].
    intros Hs. destruct (H1' Hs) as [Hs2 E2]. destruct (H2' Hs2) as [Hs3 E3].
    split; [done | congruence].
Qed.

Lemma kept_same w w' : epoll_state w' = epoll_state w → kept w w'.
Proof.
  unfold epoll_state. intros [= Ho Hp Hf Hn Hl Hz].
  unfold kept, epoll_usable, settled, can_create. rewrite Ho, Hp, Hn, Hl, Hz.
  tauto.
Qed.

Lemma kept_CreateEpoll : keeps kept CreateEpoll.
Proof.
  intros w a w' E. split.
  - intros [Hs|Hc].
    + rewrite (CreateEpoll_settled w Hs) in E. injection E as _ <-. by left.
    + destruct (CreateEpoll_can_create w Hc) as (w2 & E2 & Hs2 & _).
      rewrite E2 in E. injection E as _ <-. by left.
  - intros Hs. rewrite (CreateEpoll_settled w Hs) in E. by injection E as _ <-.
Qed.

Lemma kept_ChooseEpoll ev : keeps kept (ChooseEpoll ev).
Proof. keeps_step; [apply kept_CreateEpoll | intros _; keeps_step]. Qed.


Lemma kept_DecrementRef tk : keeps kept (DecrementRef tk).
Proof.
  intros w a w' E. unfold DecrementRef, bind, get_task in E.
  destruct (heap (sched w) !! tk) as [t|]; [|done].
  unfold put_task, upd_sched, modify, ret in E.
  destruct (decide _); injection E as _ <-; by apply kept_same.
Qed.

Lemma kept_epoll_ctl_del epfd fd_ : keeps kept (epoll_ctl_del epfd fd_).
Proof.
  intros w a w' E. unfold epoll_ctl_del in E. injection E as _ <-.
  apply kept_same. unfold kernel_ctl_del.
  by destruct (ctl_target_ok _ _ _); [destruct (_ !! _)|].
Qed.


Lemma kept_del_one tk fd_ ev : keeps kept (del_one tk fd_ ev).
Proof.
  keeps_step; [apply kept_ChooseEpoll | intros epfd].
  keeps_step; [apply kept_epoll_ctl_del | intros []].
  - apply kept_DecrementRef.
  - keeps_step.
Qed.

Lemma kept_wait_tasks_erase tk : keeps kept (wait_tasks_erase tk).
Proof.
  intros w a w' E. unfold wait_tasks_erase in E.
  destruct (decide _); injection E as _ <-; by apply kept_same.
Qed.

Lemma kept_AddTaskRunnable tk : keeps kept (AddTaskRunnable tk).
Proof. apply keeps_modify. intros w. by apply kept_same. Qed.

Lemma kept_Cancel tk id : keeps kept (Cancel tk id).
Proof.
  keeps_step; [keeps_step | intros t].
  destruct (decide _); [keeps_step|].
  keeps_step; [apply kept_wait_tasks_erase | intros []].
  2: keeps_step.
  keeps_step; [keeps_step | intros t'].
  keeps_step; [| intros _; apply kept_AddTaskRunnable].
  keeps_step. intros fdst. apply kept_del_one.
Qed.

Lemma kept_timer_callback tm : keeps kept (timer_callback tm).
Proof.
  keeps_step; [apply kept_Cancel | intros _; apply kept_DecrementRef].
Qed.

Lemma kept_close fd_ : keeps kept (close fd_).
Proof. apply keeps_modify. intros w. by apply kept_same. Qed.





(** * The rollback on a duplicate descriptor *)

(** [dup] is the entry at which a registration loop over [pre ++ dup :: _]
    that starts from the interest lists of [b] is refused with EEXIST: the
    admissible keys of the entries before it are distinct and not
    registered, so that these entries are registered or skipped, and its own
    key is admissible and either registered already or the key of an entry
    before it. *)
Definition first_duplicate (b : World) (pre : list (Z * Z)) (dup : Z * Z) : Prop :=
  NoDup (ok_keys b pre)
  ∧ Forall (fun k => k_interest (kernel b) !! k = None) (ok_keys b pre)
  ∧ key_ok b (fd_key b dup)
  ∧ (is_Some (k_interest (kernel b) !! fd_key b dup)
     ∨ fd_key b dup ∈ ok_keys b pre).

#[global] Instance first_duplicate_dec b pre dup :
  Decision (first_duplicate b pre dup).
Proof. unfold first_duplicate. apply _. Defined.

Lemma ok_keys_app b l1 l2 : ok_keys b (l1 ++ l2) = ok_keys b l1 ++ ok_keys b l2.
Proof. unfold ok_keys. by rewrite map_app, filter_app. Qed.

(** A list has one first duplicate at most. *)
Lemma first_duplicate_longer b pre dup mid dup' :
  first_duplicate b pre dup →
  ¬ first_duplicate b (pre ++ dup :: mid) dup'.
Proof.
  intros (_ & _ & Hok & Hin) (Hnd & Hfr & _).
  rewrite ok_keys_app, ok_keys_cons, decide_True in Hnd, Hfr by done.
  destruct Hin as [[v Hv]|Hin].
  - rewrite Forall_app, Forall_cons in Hfr. destruct Hfr as (_ & Hnone & _).
    congruence.
  - apply NoDup_app in Hnd as (_ & Hdis & _). apply (Hdis _ Hin). by left.
Qed.

Lemma first_duplicate_unique b pre dup post pre' dup' post' :
  pre ++ dup :: post = pre' ++ dup' :: post' →
  first_duplicate b pre dup →
  first_duplicate b pre' dup' →
  pre = pre' ∧ dup = dup' ∧ post = post'.
Proof.
  intros E H H'.
  apply app_eq_inv in E as [(k & E1 & E2)|(k & E1 & E2)];
    (destruct k as [|x k];
     [ rewrite app_nil_r in E1; simpl in E2; injection E2 as ? ?; by subst
     | simpl in E2; injection E2 as ? ?; subst; exfalso;
       first [ by eapply first_duplicate_longer; [exact H | exact H']
             | by eapply first_duplicate_longer; [exact H' | exact H] ] ]).
Qed.

Module Shared.

(** Two tasks in the process that owns the instances 3 and 4.  Task 1 is
    blocked on descriptor 10, which is registered for it in the read
    instance; task 2 is running. *)
Definition task2 : Task :=
  {| id_ := 8; state_ := running; ref_count_ := 1;
     io_wait_data_ := {| io_block_id_ := 0; wait_fds_ := [];
                         wait_successful_ := 0; io_block_timeout_ := -1;
                         io_block_timer_ := None |} |}.

Definition world : World :=
  {| kernel := {| k_pid := 200; k_epolls := {[3; 4]};
                  k_interest := {[(3, 10) := (Z.lor EPOLLIN EPOLLONESHOT,
                                              (1%nat, 0%nat))]};
                  k_files := {[10; 11]}; k_next := 5; k_limit := 1024;
                  k_now := 0; k_log := [] |};
     sched := {| opt_max_sleep_ms := 20; opt_epoll_event_size := 1024;
                 current_task := Some 2%nat;
                 heap := {[1%nat := Forked.task1; 2%nat := task2]};
                 run_queue := []; yields := 1; delete_list := [] |};
     iowait := {| loop_index_ := 0; epollwait_ms_ := 0; epoll_fds_ := (3, 4);
                  epoll_event_size_ := 1024; epoll_owner_pid_ := 200;
                  wait_tasks_ := {[1%nat]}; timer_mgr_ := [];
                  timer_seq_ := 0; timeout_list_ := [];
                  epollwait_tasks_ := [] |} |}.

End Shared.

(** C2, as stated, fails in its last clause.  Task 2 blocks on the
    descriptors 11 and 10 while descriptor 10 is registered for task 1.  The
    add of 11 is acknowledged, the add of 10 is answered EEXIST, the
    registration of 11 is rolled back and task 2 is made runnable at once
    with [wait_successful_] 0 and its reference count back at 1; but
    descriptor 10, one of the descriptors of the block, is registered in the
    read instance after the call as it was before: the rollback deletes what
    is on the rollback list only. *)
Lemma C2_counterexample :
  returns (block_call 2%nat [Scenario.fds 11 EPOLLIN; Scenario.fds 10 EPOLLIN] (-1)
             Shared.world)
    (fun _ w' =>
       new_calls Shared.world w'
       = [sys_epoll_ctl EPOLL_CTL_ADD 3 11 CtlOk;
          sys_epoll_ctl EPOLL_CTL_ADD 3 10 (CtlErr EEXIST);
          sys_epoll_ctl EPOLL_CTL_DEL 3 11 CtlOk]
       ∧ elements (wait_tasks_ (iowait w')) = [1%nat]
       ∧ run_queue (sched w') = [2%nat]
       ∧ (wait_successful_ ∘ io_wait_data_) <$> task_at 2%nat w' = Some 0
       ∧ ref_at 2%nat w' = Some 1
       ∧ 10 ∈ map fd [Scenario.fds 11 EPOLLIN; Scenario.fds 10 EPOLLIN]
       ∧ k_interest (kernel w') !! (3, 10)
         = Some (Z.lor EPOLLIN EPOLLONESHOT, (1%nat, 0%nat))).
Proof. vm_compute. repeat split. right. left. Qed.

(** C2, amended — Duplicate-fd rollback.  Let [dup] be the first entry of
    the list whose add the kernel refuses with EEXIST.  Then the calls of
    [SchedulerSwitch] are exactly: the adds of the entries before [dup], the
    refused add, and one acknowledged delete for each registration made
    before, each on its instance; nothing is added after the refusal.  The
    reference count is back at its value, the task is out of the wait-set
    and enqueued runnable, [wait_successful_] is 0 and no timer is armed.
    The interest lists are what they were before the loop: none of the
    registrations this call made is left; a registration of the refused
    descriptor that was there before the call (made for another task, or
    left from an earlier block) is still there; and if no key of the block
    was registered before the call, none is registered after it. *)
Theorem C2_duplicate_fd_rollback (w : World) (tk : TaskPtr) (t : Task)
    (fdsts : list FdStruct) (timeout_ms : Z)
    (pre : list (Z * Z)) (dup : Z * Z) (post : list (Z * Z)) :
  current_task (sched w) = Some tk →
  task_at tk w = Some t →
  epoll_usable w →
  map fdst_pair fdsts = pre ++ dup :: post →
  first_duplicate (created w) pre dup →
  let b := created w in
  ∃ w' t',
    block_call tk fdsts timeout_ms w = Ok tt w'
    ∧ new_calls b w'
      = map (add_entry b) pre
        ++ [ctl_entry EPOLL_CTL_ADD (fd_key b dup) (CtlErr EEXIST)]
        ++ map (del_entry b) (ok_pairs b pre)
    ∧ task_at tk w' = Some t'
    ∧ ref_count_ t' = ref_count_ t
    ∧ wait_successful_ (io_wait_data_ t') = 0
    ∧ io_block_timer_ (io_wait_data_ t') = None
    ∧ (tk ∉ wait_tasks_ (iowait w'))
    ∧ run_queue (sched w') = run_queue (sched w) ++ [tk]
    ∧ timer_mgr_ (iowait w') = timer_mgr_ (iowait w)
    ∧ k_interest (kernel w') = k_interest (kernel b)
    ∧ (∀ k, k ∈ ok_keys b pre → k_interest (kernel w') !! k = None)
    ∧ (is_Some (k_interest (kernel b) !! fd_key b dup) →
       is_Some (k_interest (kernel w') !! fd_key b dup))
    ∧ (Forall (fun p => k_interest (kernel b) !! fd_key b p = None)
         (map fdst_pair fdsts) →
       Forall (fun p => k_interest (kernel w') !! fd_key b p = None)
         (map fdst_pair fdsts)).
Proof.
  intros Hcur Hheap Huse Hsplit Hfirst b. fold b in Hfirst.
  unfold block_call, bind.
  rewrite (CoSwitch_ok _ _ _ _ _ Hcur Hheap).
  set (t0 := blocked tk t fdsts timeout_ms).
  set (w0 := yielded (with_task tk t0 w)).
  assert (Huse0 : epoll_usable w0).
  { destruct Huse as [H|H]; [by left | by right]. }
  assert (Hc0 : created w0
                = set_iowait (i_set_wait_tasks (wait_tasks_ (iowait w)) (iowait (created w)))
                    (set_sched (sched w0) (created w))).
  { rewrite <- (created_frame w (sched w0) (wait_tasks_ (iowait w))) by done.
    f_equal. unfold w0, yielded, with_task, set_sched, set_iowait. simpl.
    f_equal. by destruct (iowait w). }
  destruct (SchedulerSwitch_spec tk t0 w0 (lookup_insert_eq _ _ _) (fun _ => Huse0))
    as (w' & delta & r' & o & E & Hh & Hlog & _ & _ & _ & _ & _ & _ & _ & Hcase).
  assert (Hne : fdsts ≠ []).
  { intros ->. by destruct pre. }
  assert (Hpc : pre_reg w0 (wait_fds_ (io_wait_data_ t0)) = created w0).
  { unfold t0. simpl. by destruct fdsts. }
  rewrite Hpc, Hc0 in Hcase, Hlog.
  change (ok_keys (set_iowait _ _)) with (ok_keys b) in Hcase.
  change (add_entry (set_iowait _ _)) with (add_entry b) in Hcase.
  change (del_entry (set_iowait _ _)) with (del_entry b) in Hcase.
  change (ok_pairs (set_iowait _ _)) with (ok_pairs b) in Hcase.
  change (fd_key (set_iowait _ _)) with (fd_key b) in Hcase.
  change (key_ok (set_iowait _ _)) with (key_ok b) in Hcase.
  change (kernel (set_iowait _ _)) with (kernel b) in Hcase, Hlog.
  assert (Hps : pairs_of t0 = map fdst_pair fdsts) by apply pairs_of_blocked.
  rewrite Hps in Hcase. clear Hps.
  pose proof Hfirst as (Hnd & Hfr & Hok & Hin).
  destruct Hcase as [(Hwt & Hq & Htm & Hr & Ho & Hint & Hd)
                    |(_ & _ & Hnd' & _ & Hreg & _)].
  2: { (* the loop cannot register every entry *)
    exfalso. rewrite Hsplit, ok_keys_app, ok_keys_cons, decide_True in Hnd', Hreg
      by done.
    destruct Hin as [[v Hv]|Hin].
    - destruct (Hreg (fd_key b dup)) as [Hnone _]; [|congruence].
      apply elem_of_app. right. by left.
    - apply NoDup_app in Hnd' as (_ & Hdis & _). apply (Hdis _ Hin). by left. }
  destruct Hd as [[Hnil _]|(pre' & dup' & post' & Hs & Hd & Hnd' & Hfr' & Hok' & Hin')].
  { exfalso. rewrite Hsplit, ok_keys_app, ok_keys_cons, decide_True in Hnil by done.
    by destruct (ok_keys b pre). }
  rewrite Hsplit in Hs.
  destruct (first_duplicate_unique b pre dup post pre' dup' post' Hs Hfirst)
    as (<- & <- & <-).
  { split; [done|]. split; [by apply Forall_forall|]. done. }
  exists w', (t_upd_data (d_set_io_block_timer o) (t_set_ref_count r' t0)).
  split; [done|]. split; [apply new_calls_app; by rewrite Hlog, Hd|].
  split; [unfold task_at; rewrite Hh; apply lookup_insert_eq|].
  split; [by rewrite Hr|]. split; [done|]. split; [by rewrite Ho|].
  split; [rewrite Hwt; set_solver|].
  split; [by rewrite Hq|]. split; [by rewrite Htm|]. split; [done|].
  rewrite Hint. split.
  { intros k Hk. rewrite Forall_forall in Hfr. by apply Hfr. }
  done.
Qed.

Lemma C2_witness :
  current_task (sched Scenario.world0) = Some 1%nat
  ∧ task_at 1%nat Scenario.world0 = Some Scenario.task0
  ∧ epoll_usable Scenario.world0
  ∧ first_duplicate (created Scenario.world0) [(13, EPOLLIN)] (13, EPOLLIN)
  ∧ ∃ w' t',
      block_call 1%nat
        [Scenario.fds 13 EPOLLIN; Scenario.fds 13 EPOLLIN; Scenario.fds 14 EPOLLIN]
        (-1) Scenario.world0 = Ok tt w'
      ∧ new_calls (created Scenario.world0) w'
        = [sys_epoll_ctl EPOLL_CTL_ADD 3 13 CtlOk;
           sys_epoll_ctl EPOLL_CTL_ADD 3 13 (CtlErr EEXIST);
           sys_epoll_ctl EPOLL_CTL_DEL 3 13 CtlOk]
      ∧ task_at 1%nat w' = Some t'
      ∧ ref_count_ t' = 1
      ∧ wait_successful_ (io_wait_data_ t') = 0
      ∧ run_queue (sched w') = [1%nat]
      ∧ k_interest (kernel w') = k_interest (kernel (created Scenario.world0)).
Proof.
  assert (Hf : first_duplicate (created Scenario.world0) [(13, EPOLLIN)] (13, EPOLLIN)).
  { apply (bool_decide_unpack _). vm_compute. exact I. }
  split; [reflexivity|]. split; [reflexivity|]. split; [exact world0_usable|].
  split; [exact Hf|].
  destruct (C2_duplicate_fd_rollback Scenario.world0 1%nat Scenario.task0
              [Scenario.fds 13 EPOLLIN; Scenario.fds 13 EPOLLIN;
               Scenario.fds 14 EPOLLIN] (-1)
              [(13, EPOLLIN)] (13, EPOLLIN) [(14, EPOLLIN)]
              eq_refl eq_refl world0_usable eq_refl Hf)
    as (w' & t' & E & Hlog & Ht' & Hr & Hws & _ & _ & Hq & _ & Hint & _).
  exists w', t'. split; [exact E|].
  split; [rewrite Hlog; vm_compute; reflexivity|].
  split; [exact Ht'|]. split; [exact Hr|].
  split; [exact Hws|]. split; [exact Hq | exact Hint].
Defined.

(** * A block during which descriptors are closed *)

(** What can happen while a task is blocked, as seen from its block: an
    event of the block, or the program closes a descriptor ([close(2)]),
    which removes the descriptor from every interest list it is in. *)
Inductive Happening : Set :=
  | on_block (e : BlockEvent)
  | closes (fd_ : Z).

#[global] Instance Happening_eq_dec : EqDecision Happening.
Proof. solve_decision. Defined.

Definition happen (tk : TaskPtr) (G : Z) (h : Happening) : M unit :=
  match h with
  | on_block e => block_event tk G e
  | closes fd_ => close fd_
  end.

Definition run_happenings (tk : TaskPtr) (G : Z) (hs : list Happening) : M unit :=
  for_each (happen tk G) hs.

(** The close [h], if it is one, is of a descriptor that is neither one of
    the pair [F] of instances nor a descriptor of the pairs [ps]. *)
Definition leaves_alone (F : Z * Z) (ps : list (Z * Z)) (h : Happening) : Prop :=
  match h with
  | on_block _ => True
  | closes fd_ => fd_ ≠ F.1 ∧ fd_ ≠ F.2 ∧ fd_ ∉ map fst ps
  end.

#[global] Instance leaves_alone_dec F ps h : Decision (leaves_alone F ps h).
Proof. destruct h; simpl; apply _. Defined.


#[global] Instance completed_dec tk G w : Decision (completed tk G w).
Proof. unfold completed. apply _. Defined.




Section Accounting.
Context (tk : TaskPtr) (G : Z) (w0 : World).







End Accounting.





Module Closing.

(** Task 1 of [Scenario.world0] blocks on descriptor 10 without a timeout;
    the program closes descriptor 10; then the block is cancelled. *)
Definition run : M unit :=
  block_call 1%nat [Scenario.fds 10 EPOLLIN] (-1);;
  run_happenings 1%nat 1 [closes 10; on_block ev_cancel].

End Closing.




(** * The wait loop in a forked child *)

(** The [Cancel] of the callback [tm] would win in [w] and have something
    to tear down: its task is in the wait-set with the generation of the
    callback and a non-empty list. *)
Definition wins (tm : CoTimer) (w : World) : Prop :=
  match task_at (cb_tk tm) w with
  | Some t => cb_id tm = io_block_id_ (io_wait_data_ t)
              ∧ cb_tk tm ∈ wait_tasks_ (iowait w)
              ∧ wait_fds_ (io_wait_data_ t) ≠ []
  | None => False
  end.

#[global] Instance wins_dec tm w : Decision (wins tm w).
Proof. unfold wins. destruct (task_at (cb_tk tm) w); apply _. Defined.

(** What a callback that does not reach [CreateEpoll] leaves as it is:
    what [CreateEpoll] reads, the generation and the list of every task,
    and the membership in the wait-set of the tasks with a non-empty
    list. *)
Record untouched (w w' : World) : Prop := mk_untouched {
  ut_state : epoll_state w' = epoll_state w;
  ut_tasks : ∀ tk t, task_at tk w = Some t →
               ∃ t', task_at tk w' = Some t'
                     ∧ io_block_id_ (io_wait_data_ t') = io_block_id_ (io_wait_data_ t)
                     ∧ wait_fds_ (io_wait_data_ t') = wait_fds_ (io_wait_data_ t);
  ut_waiting : ∀ tk t, task_at tk w = Some t →
                 wait_fds_ (io_wait_data_ t) ≠ [] →
                 tk ∈ wait_tasks_ (iowait w) → tk ∈ wait_tasks_ (iowait w')
}.

#[global] Instance untouched_preorder : PreOrder untouched.
Proof.
  split.
  - intros w. split; [done| |done]. intros tk t Ht. by exists t.
  - intros w1 w2 w3 [S1 T1 W1] [S2 T2 W2]. split.
    + congruence.
    + intros tk t Ht. destruct (T1 tk t Ht) as (t2 & Ht2 & Hg2 & Hf2).
      destruct (T2 tk t2 Ht2) as (t3 & Ht3 & Hg3 & Hf3).
      exists t3. split; [done|]. split; congruence.
    + intros tk t Ht Hne Hin. destruct (T1 tk t Ht) as (t2 & Ht2 & Hg2 & Hf2).
      apply (W2 tk t2 Ht2); [congruence|]. by apply (W1 tk t).
Qed.

Lemma untouched_can_create w w' : untouched w w' → can_create w → can_create w'.
Proof.
  intros [S _ _]. unfold epoll_state in S. injection S as Ho Hp Hf Hn Hl Hz.
  unfold can_create. by rewrite Ho, Hp, Hn, Hl, Hz.
Qed.

Lemma untouched_wins tm w w' : untouched w w' → wins tm w → wins tm w'.
Proof.
  intros [_ T W]. unfold wins. destruct (task_at (cb_tk tm) w) as [t|] eqn:Ht; [|done].
  intros (Hg & Hin & Hne). destruct (T _ _ Ht) as (t' & -> & Hg' & Hf').
  split; [congruence|]. split; [by apply (W _ t) | congruence].
Qed.

Lemma untouched_DecrementRef tk w w' :
  DecrementRef tk w = Ok tt w' → untouched w w'.
Proof.
  intros E. unfold DecrementRef, bind, get_task in E.
  destruct (heap (sched w) !! tk) as [t|] eqn:Ht; [|done].
  assert (HT : ∀ tk' t', task_at tk' w = Some t' →
            ∃ t'', <[tk := t_set_ref_count (ref_count_ t - 1) t]> (heap (sched w)) !! tk'
                   = Some t''
                   ∧ io_block_id_ (io_wait_data_ t'') = io_block_id_ (io_wait_data_ t')
                   ∧ wait_fds_ (io_wait_data_ t'') = wait_fds_ (io_wait_data_ t')).
  { intros tk' t' Ht'. destruct (decide (tk' = tk)) as [->|Hne].
    - unfold task_at in Ht'. rewrite Ht in Ht'. injection Ht' as <-.
      eexists. by rewrite lookup_insert_eq.
    - exists t'. by rewrite lookup_insert_ne. }
  unfold put_task, upd_sched, modify, ret in E.
  destruct (decide _); injection E as <-; by split.
Qed.

(** One callback in a process that does not own the pair: if its [Cancel]
    wins and has something to tear down, the pair is created; otherwise
    nothing that matters to the creation is touched. *)
Lemma timer_callback_fork tm w w1 :
  can_create w →
  timer_callback tm w = Ok tt w1 →
  if decide (wins tm w)
  then settled w1
       ∧ epoll_fds_ (iowait w1) = (k_next (kernel w), k_next (kernel w) + 1)
  else untouched w w1.
Proof.
  intros Hc E. unfold timer_callback in E.
  apply bind_Ok in E as ([] & wa & E1 & E2).
  destruct (task_at (cb_tk tm) w) as [t|] eqn:Ht.
  2: { exfalso. unfold Cancel, bind, get_task in E1. unfold task_at in Ht.
       by rewrite Ht in E1. }
  destruct (decide (wins tm w)) as [Hw|Hw]; unfold wins in Hw; rewrite Ht in Hw.
  - destruct Hw as (Hg & Hin & Hne).
    destruct (Cancel_won _ t w Ht Hin (fun _ => or_intror Hc))
      as (w2 & delta & r2 & E' & _ & _ & _ & _ & _ & Hf & _ & _ & Hpid & Hown & _).
    rewrite <- Hg, E1 in E'. injection E' as <-.
    destruct (wait_fds_ (io_wait_data_ t)) as [|fdst rest] eqn:Hfds; [done|].
    cbn [pre_reg] in Hf, Hown.
    destruct (created_facts w (or_intror Hc)) as (Hsb & _ & Hpb & _).
    destruct (CreateEpoll_can_create w Hc)
      as (wb & Eb & _ & _ & _ & _ & _ & _ & _ & _ & Hfb & _).
    assert (Hb : created w = wb) by (unfold created; by rewrite Eb).
    assert (Hsa : settled wa).
    { unfold settled in *. by rewrite Hown, Hpid, Hsb, Hpb. }
    destruct (kept_DecrementRef _ _ _ _ E2) as [_ Hk].
    destruct (Hk Hsa) as [Hs1 Hf1].
    split; [done|]. by rewrite Hf1, Hf, Hb.
  - etrans; [|by apply (untouched_DecrementRef (cb_tk tm) wa)].
    destruct (decide (io_block_id_ (io_wait_data_ t) = cb_id tm)) as [Hg|Hg].
    2: { rewrite (Cancel_stale _ t _ _ Ht Hg) in E1. by injection E1 as <-. }
    destruct (decide (cb_tk tm ∈ wait_tasks_ (iowait w))) as [Hin|Hout].
    2: { rewrite (Cancel_lost _ t _ _ Ht Hout) in E1. by injection E1 as <-. }
    destruct (wait_fds_ (io_wait_data_ t)) as [|fdst rest] eqn:Hfds.
    2: { exfalso. apply Hw. done. }
    unfold Cancel, bind in E1. rewrite (get_task_ok _ _ _ Ht) in E1.
    rewrite decide_False in E1 by (intros H; by apply H).
    unfold wait_tasks_erase in E1. rewrite decide_True in E1 by done.
    unfold get_task in E1. simpl in E1. unfold task_at in Ht. rewrite Ht, Hfds in E1.
    simpl in E1. injection E1 as <-. split; [done| |].
    + intros tk' t' Ht'. by exists t'.
    + intros tk' t' Ht' Hne Hin'. simpl.
      destruct (decide (tk' = cb_tk tm)) as [->|Hne']; [|set_solver].
      unfold task_at in Ht'. rewrite Ht in Ht'. injection Ht' as <-. done.
Qed.

(** The callbacks of one [WaitLoop] in such a process. *)
Lemma callbacks_fork l : ∀ w w',
  can_create w →
  for_each timer_callback l w = Ok tt w' →
  ((¬ settled w' ∧ untouched w w')
   ∨ (settled w'
      ∧ epoll_fds_ (iowait w') = (k_next (kernel w), k_next (kernel w) + 1)))
  ∧ (Exists (fun tm => wins tm w) l → settled w').
Proof.
  induction l as [|c l IH]; intros w w' Hc E.
  - injection E as <-. split; [|by intros H%Exists_nil]. left.
    split; [|reflexivity]. destruct Hc as [Hne _]. exact Hne.
  - cbn [for_each] in E. apply bind_Ok in E as ([] & w1 & E1 & E).
    pose proof (timer_callback_fork c w w1 Hc E1) as H1.
    destruct (decide (wins c w)) as [Hw|Hw].
    + destruct H1 as [Hs1 Hf1].
      assert (Hk : kept w1 w').
      { apply (keeps_for_each kept timer_callback l kept_timer_callback _ _ _ E). }
      destruct Hk as [_ Hk]. destruct (Hk Hs1) as [Hs' Hf'].
      split; [|done]. right. split; [done|]. by rewrite Hf'.
    + pose proof (untouched_can_create _ _ H1 Hc) as Hc1.
      destruct (IH w1 w' Hc1 E) as [Hcase Hex].
      assert (Hn : k_next (kernel w1) = k_next (kernel w)).
      { destruct H1 as [S _ _]. unfold epoll_state in S. by injection S. }
      split.
      * destruct Hcase as [[Hns Hu]|[Hs Hf]].
        -- left. split; [done|]. by etrans.
        -- right. split; [done|]. by rewrite Hf, Hn.
      * intros [Hw'|Hl]%Exists_cons; [done|]. apply Hex.
        eapply Exists_impl; [exact Hl|]. intros tm. by apply untouched_wins.
Qed.

Module ForkedTimed.

(** The child of [Forked] with the timeout callback of the block of task 1
    parked in [timeout_list_]. *)
Definition callback : CoTimer :=
  {| timer_id := 0; deadline := 0; cb_tk := 1%nat; cb_id := 1; cb_task_id := 7 |}.

Definition world : World :=
  set_iowait (i_set_timeout_list [callback] (iowait Forked.world)) Forked.world.

End ForkedTimed.

(** C8, amended — A [WaitLoop] that gets the lock while the recorded owner
    pid differs from the pid of the process skips the drain of the
    instances: between the bookkeeping of the timers and the delete list it
    runs the parked callbacks and nothing else, it issues no [epoll_wait],
    and it returns the number of expired timers alone.  With no callback to
    run it returns 0 and leaves the kernel, the owner pid, both descriptors,
    the wait-set and the run queue as they are.  The pair is created by the
    first call that reaches [CreateEpoll]: in the same [WaitLoop], the
    [Cancel] of a callback that wins the erase of a task with a non-empty
    list (at the end of the call the pair is either untouched or owned by
    the process, with fresh descriptors); afterwards, a [ChooseEpoll] such
    as the registration loop makes.  The creation records the pid of the
    process and installs two fresh descriptors. *)
Theorem C8_WaitLoop_skips_drain_after_fork (w : World) (env : LoopEnv)
    (enable_block : bool) :
  lock_acquired env = true →
  ¬ settled w →
  can_create w →
  pointers_ok w env →
  Z.of_nat (due_count w) < 2147483648 →
  (∃ w' w3,
     WaitLoop env enable_block w = Ok (Z.of_nat (due_count w)) w'
     ∧ run_timeout_list (before_drain w) = Ok tt w3
     ∧ PopDeleteList_and_delete w3 = Ok tt w'
     ∧ Forall (fun c => ¬ is_wait c) (new_calls w w')
     ∧ (due (k_now (kernel w)) (timer_mgr_ (iowait w)) = [] →
        timeout_list_ (iowait w) = [] →
        kernel w' = kernel w
        ∧ epoll_owner_pid_ (iowait w') = epoll_owner_pid_ (iowait w)
        ∧ epoll_fds_ (iowait w') = epoll_fds_ (iowait w)
        ∧ wait_tasks_ (iowait w') = wait_tasks_ (iowait w)
        ∧ run_queue (sched w') = run_queue (sched w))
     ∧ ((¬ settled w' ∧ epoll_state w' = epoll_state w)
        ∨ (settled w'
           ∧ epoll_fds_ (iowait w') = (k_next (kernel w), k_next (kernel w) + 1)))
     ∧ (Exists (fun tm => wins tm w)
          (timeout_list_ (iowait w)
           ++ due (k_now (kernel w)) (timer_mgr_ (iowait w))) →
        settled w'))
  ∧ ((epoll_fds_ (iowait w)).2 ≠ k_next (kernel w) →
     ∀ ev, ∃ w'',
       ChooseEpoll ev w = Ok (chosen_fd w ev) w''
       ∧ epoll_owner_pid_ (iowait w'') = k_pid (kernel w)
       ∧ epoll_fds_ (iowait w'') = (k_next (kernel w), k_next (kernel w) + 1)
       ∧ {[k_next (kernel w); k_next (kernel w) + 1]} ⊆ k_epolls (kernel w'')).
Proof.
  intros Hlock Hns Hc Hptr Hrange. split.
  - assert (Hdr : drained w env = 0%nat) by (unfold drained; by rewrite decide_False).
    destruct (WaitLoop_locked env enable_block w Hlock (or_intror Hc) Hptr)
      as (w' & E); [rewrite Hdr; simpl; lia|].
    rewrite Hdr in E. change (Z.of_nat 0 + ?x) with x in E.
    destruct (WaitLoop_locked_stages env enable_block w _ w' Hlock E)
      as (c & w1 & n & w3 & w4 & E1 & E3 & E4 & Hw' & Hv).
    destruct (drain_timers_moves (S (length (timer_mgr_ (iowait w)))) 0 w)
      as (c' & E1' & _); [lia|].
    rewrite E1 in E1'. injection E1' as -> ->.
    cbv zeta in E3. change (set_iowait _ (timers_moved _ _ w)) with (before_drain w) in E3.
    rewrite (bool_decide_false
               (epoll_owner_pid_ (iowait (before_drain w))
                = k_pid (kernel (before_drain w)))) in E3 by exact Hns.
    injection E3 as <- <-.
    exists w', w4. split; [done|]. split; [done|].
    split; [unfold PopDeleteList_and_delete, upd_sched, modify; by rewrite Hw'|].
    destruct (run_timeout_list_tame _ _ E4) as [_ [_ (d & Hd & Hnw) _]].
    split.
    { erewrite new_calls_app; [exact Hnw|]. rewrite Hw'. exact Hd. }
    unfold run_timeout_list in E4.
    apply bind_Ok in E4 as (tl & wx0 & Eg & E4). injection Eg as <- <-.
    apply bind_Ok in E4 as ([] & wx & Eu & E4). injection Eu as <-.
    split.
    { intros Hdue Htl.
      change (timeout_list_ (iowait (before_drain w)))
        with (timeout_list_ (iowait w)
              ++ due (k_now (kernel w)) (timer_mgr_ (iowait w))) in E4.
      rewrite Hdue, Htl in E4. simpl in E4. injection E4 as <-.
      rewrite Hw'. done. }
    assert (Hcx : can_create
                    (set_iowait (i_set_timeout_list [] (iowait (before_drain w)))
                       (before_drain w))) by exact Hc.
    destruct (callbacks_fork _ _ _ Hcx E4) as [Hcase Hex].
    assert (Hsw : settled w' ↔ settled w4) by (by rewrite Hw').
    split.
    + destruct Hcase as [[Hn4 [S _ _]]|[Hs4 Hf4]].
      * left. split; [by rewrite Hsw|]. rewrite Hw'. exact S.
      * right. split; [by rewrite Hsw|]. rewrite Hw'. exact Hf4.
    + intros Hx. apply Hsw. apply Hex. exact Hx.
  - intros Hfresh ev.
    destruct (CreateEpoll_can_create w Hc)
      as (w'' & E & Hs & _ & Hpid & _ & _ & _ & _ & _ & Hfds & Hsub & _).
    exists w''.
    rewrite (ChooseEpoll_chosen w ev (or_intror Hc)). unfold created. rewrite E.
    split; [done|]. split; [by rewrite <- Hpid|]. split; [done|]. by apply Hsub.
Qed.

Lemma forked_pointers_ok : pointers_ok Forked.world Forked.env.
Proof.
  assert (H1 : is_Some (shapes Forked.world !! 1%nat)) by (vm_compute; eauto).
  split; [|split; [|split]].
  - vm_compute timer_mgr_. vm_compute timeout_list_. simpl. constructor.
  - vm_compute epollwait_tasks_. constructor.
  - unfold answer_ok. simpl. repeat constructor.
    exists [Some 1%nat], 1%nat. split; [by vm_compute|].
    split; [reflexivity | exact H1].
  - unfold answer_ok. simpl. constructor.
Defined.

Lemma forked_timed_pointers_ok : pointers_ok ForkedTimed.world Forked.env.
Proof.
  assert (H1 : is_Some (shapes ForkedTimed.world !! 1%nat)) by (vm_compute; eauto).
  split; [|split; [|split]].
  - vm_compute timer_mgr_. vm_compute timeout_list_. simpl. repeat constructor.
    exact H1.
  - vm_compute epollwait_tasks_. constructor.
  - unfold answer_ok. simpl. repeat constructor.
    exists [Some 1%nat], 1%nat. split; [by vm_compute|].
    split; [reflexivity | exact H1].
  - unfold answer_ok. simpl. constructor.
Defined.

Lemma C8_witness :
  lock_acquired Forked.env = true
  ∧ ¬ settled Forked.world
  ∧ can_create Forked.world
  ∧ pointers_ok Forked.world Forked.env
  ∧ (epoll_fds_ (iowait Forked.world)).2 ≠ k_next (kernel Forked.world)
  ∧ (∃ w', WaitLoop Forked.env true Forked.world = Ok 0 w'
           ∧ new_calls Forked.world w' = []
           ∧ epoll_fds_ (iowait w') = (3, 4)
           ∧ epoll_owner_pid_ (iowait w') = 100)
  ∧ (∃ w'', ChooseEpoll EPOLLIN Forked.world = Ok 5 w''
            ∧ epoll_owner_pid_ (iowait w'') = 200
            ∧ epoll_fds_ (iowait w'') = (5, 6))
  ∧ (∃ w', WaitLoop Forked.env true ForkedTimed.world = Ok 0 w'
           ∧ Forall (fun c => ¬ is_wait c) (new_calls ForkedTimed.world w')
           ∧ settled w'
           ∧ epoll_fds_ (iowait w') = (5, 6)).
Proof.
  assert (H2 : ¬ settled Forked.world).
  { unfold settled. simpl. lia. }
  assert (H5 : can_create Forked.world).
  { unfold can_create. simpl. repeat split; (lia || done). }
  assert (H6 : (epoll_fds_ (iowait Forked.world)).2 ≠ k_next (kernel Forked.world)).
  { simpl. lia. }
  split; [reflexivity|]. split; [exact H2|]. split; [exact H5|].
  split; [exact forked_pointers_ok|]. split; [exact H6|].
  destruct (C8_WaitLoop_skips_drain_after_fork Forked.world Forked.env true
              eq_refl H2 H5 forked_pointers_ok)
    as [(w' & w3 & E & _ & _ & _ & Hsame & _) Hre]; [by vm_compute|].
  destruct (C8_WaitLoop_skips_drain_after_fork ForkedTimed.world Forked.env true
              eq_refl H2 H5 forked_timed_pointers_ok)
    as [(v' & v3 & F & _ & _ & Hnw & _ & Hpair & Hwin) _]; [by vm_compute|].
  split; [|split].
  - destruct (Hsame eq_refl eq_refl) as (Hk & Ho & Hf & _).
    exists w'. split; [exact E|]. unfold new_calls. rewrite Hk.
    split; [reflexivity|]. split; [exact Hf | exact Ho].
  - destruct (Hre H6 EPOLLIN) as (w'' & E2 & Ho2 & Hf2 & _).
    exists w''. split; [exact E2|]. split; [exact Ho2 | exact Hf2].
  - assert (Hs : settled v').
    { apply Hwin. apply (bool_decide_unpack _). vm_compute. exact I. }
    exists v'. split; [exact F|]. split; [exact Hnw|]. split; [exact Hs|].
    destruct Hpair as [[Hn _]|[_ Hf]]; [contradiction | exact Hf].
Defined.

(** * Contention for the wake-up of a block *)

(** ** The steps of the actors

    The actors that try to resume a task run on different threads, so the
    calls they make do not run one after another as wholes: they interleave
    at their accesses to what they share.  [Cancel] reads the generation
    [io_block_id_] at line 145, erases at line 148, deletes the
    registrations one by one in the loop of lines 156 to 165 and enqueues
    the task at line 167.  [SchedulerSwitch] reads the generation and pushes
    the task (lines 74 to 77), goes round the loop of lines 79 to 115, and
    then either erases (line 122) and enqueues (line 123), or arms the timer
    (lines 126 to 137).  Each call is cut at these places.  The locks
    [io_block_lock_] and [epoll_lock_] keep some of the orders from
    happening; they are left out, so every order the program can take is
    among the orders considered. *)

(** Line 145 of [Cancel]: do the generations agree? *)
Definition Cancel_check (tk : TaskPtr) (id : Z) : M bool :=
  let* t := get_task tk in
  ret (bool_decide (io_block_id_ (io_wait_data_ t) = id)).

(** [Cancel], put together again from its steps. *)
Lemma Cancel_steps tk id w :
  Cancel tk id w
  = (let* same := Cancel_check tk id in
     if same then
       let* answer := wait_tasks_erase tk in
       if answer then
         let* t' := get_task tk in
         for_each (fun fdst => del_one tk (fd fdst) (event fdst))
           (wait_fds_ (io_wait_data_ t'));;
         AddTaskRunnable tk
       else ret tt
     else ret tt) w.
Proof.
  unfold Cancel, Cancel_check, bind, ret.
  destruct (get_task tk w) as [t w1|]; [|done].
  destruct (decide _) as [Hne|Heq].
  - by rewrite bool_decide_false.
  - by rewrite bool_decide_true by (by apply dec_stable).
Qed.

(** The local variables of the registration loop: the entries still to
    visit, the position of the first of them in [wait_fds_], [ok] and
    [rollback_list]. *)
Record Loop : Type := mkLoop {
  lp_fds : list FdStruct;
  lp_idx : nat;
  lp_ok : bool;
  lp_rollback : list (Z * Z)
}.

(** Lines 67 to 78 of [SchedulerSwitch]: the generation is read, the guard
    takes its reference and the task is pushed into the wait-set.  The
    result is the generation read and the variables the loop starts with. *)
Definition SchedulerSwitch_push (tk : TaskPtr) : M (Z * Loop) :=
  let* t := get_task tk in
  let id := io_block_id_ (io_wait_data_ t) in
  IncrementRef tk;;
  wait_tasks_push tk;;
  ret (id, mkLoop (wait_fds_ (io_wait_data_ t)) 0 false []).

(** One round of the loop of lines 79 to 115: the variables for the next
    round, or [ok] when the loop is left, at its end or by the [break] of
    the rollback. *)
Definition register_round (tk : TaskPtr) (l : Loop) : M (Loop + bool) :=
  match lp_fds l with
  | [] => ret (inr (lp_ok l))
  | fdst :: rest =>
      let* epoll_fd := ChooseEpoll (event fdst) in
      IncrementRef tk;;
      let* r := epoll_ctl_add epoll_fd (fd fdst)
                  (Z.lor (event fdst) EPOLLONESHOT) (tk, lp_idx l) in
      match r with
      | CtlErr errno =>
          DecrementRef tk;;
          if decide (errno = EEXIST) then
            for_each (fun fd_pair => del_one tk fd_pair.1 fd_pair.2) (lp_rollback l);;
            ret (inr false)
          else ret (inl (mkLoop rest (S (lp_idx l)) (lp_ok l) (lp_rollback l)))
      | CtlOk =>
          ret (inl (mkLoop rest (S (lp_idx l)) true
                      (lp_rollback l ++ [(fd fdst, event fdst)])))
      end
  end.

(** At most [n] rounds. *)
Fixpoint register_rounds (tk : TaskPtr) (n : nat) (l : Loop) : M bool :=
  match n with
  | O => ret (lp_ok l)
  | S n' =>
      let* r := register_round tk l in
      match r with
      | inl l' => register_rounds tk n' l'
      | inr ok => ret ok
      end
  end.

(** Lines 126 to 137 of [SchedulerSwitch]: the timer of the block. *)
Definition SchedulerSwitch_arm (tk : TaskPtr) (id : Z) : M unit :=
  let* t' := get_task tk in
  if decide (io_block_timeout_ (io_wait_data_ t') ≠ -1) then
    IncrementRef tk;;
    let task_id := id_ t' in
    let* timer := ExpireAt (io_block_timeout_ (io_wait_data_ t')) tk id task_id in
    modify_task tk (t_upd_data (d_set_io_block_timer (Some timer)))
  else ret tt.

Lemma bind_assoc {A B C} (m : M A) (f : A → M B) (g : B → M C) w :
  bind (bind m f) g w = bind m (fun a => bind (f a) g) w.
Proof. unfold bind. by destruct (m w). Qed.

Lemma bind_ext {A B} (m : M A) (k k' : A → M B) w :
  (∀ a w', k a w' = k' a w') → bind m k w = bind m k' w.
Proof. intros H. unfold bind. by destruct (m w). Qed.

(** The rounds, one after another, are the loop. *)
Lemma register_fds_rounds tk fds : ∀ idx ok rb w,
  register_fds tk fds idx ok rb w
  = register_rounds tk (S (length fds)) (mkLoop fds idx ok rb) w.
Proof.
  induction fds as [|fdst rest IH]; intros idx ok rb w.
  { reflexivity. }
  cbn [register_fds length].
  change (register_rounds tk (S (S (length rest))) (mkLoop (fdst :: rest) idx ok rb))
    with (let* r := register_round tk (mkLoop (fdst :: rest) idx ok rb) in
          match r with
          | inl l' => register_rounds tk (S (length rest)) l'
          | inr ok => ret ok
          end).
  unfold register_round. cbn [lp_fds lp_idx lp_ok lp_rollback].
  rewrite bind_assoc. apply bind_ext. intros epoll_fd w1.
  rewrite bind_assoc. apply bind_ext. intros [] w2.
  rewrite bind_assoc. apply bind_ext. intros [|errno] w3.
  - unfold bind at 1, ret at 1. apply IH.
  - rewrite bind_assoc. apply bind_ext. intros [] w4.
    destruct (decide _).
    + rewrite bind_assoc. apply bind_ext. intros [] w5. reflexivity.
    + unfold bind at 1, ret at 1. apply IH.
Qed.

(** [SchedulerSwitch], put together again from its steps. *)
Lemma SchedulerSwitch_steps tk w :
  SchedulerSwitch tk w
  = (let* r := SchedulerSwitch_push tk in
     let* ok := register_rounds tk (S (length (lp_fds r.2))) r.2 in
     if ok then
       SchedulerSwitch_arm tk r.1;;
       DecrementRef tk
     else
       let* answer := wait_tasks_erase tk in
       (if answer then AddTaskRunnable tk else ret tt);;
       DecrementRef tk) w.
Proof.
  unfold SchedulerSwitch, SchedulerSwitch_push.
  rewrite bind_assoc. apply bind_ext. intros t w1.
  rewrite bind_assoc. apply bind_ext. intros [] w2.
  rewrite bind_assoc. apply bind_ext. intros [] w3.
  change ((let* r := ret (io_block_id_ (io_wait_data_ t),
                          mkLoop (wait_fds_ (io_wait_data_ t)) 0 false []) in
           let* ok := register_rounds tk (S (length (lp_fds r.2))) r.2 in
           if ok then SchedulerSwitch_arm tk r.1;; DecrementRef tk
           else let* answer := wait_tasks_erase tk in
                (if answer then AddTaskRunnable tk else ret tt);;
                DecrementRef tk) w3)
    with ((let* ok := register_rounds tk (S (length (wait_fds_ (io_wait_data_ t))))
                        (mkLoop (wait_fds_ (io_wait_data_ t)) 0 false []) in
           if ok then SchedulerSwitch_arm tk (io_block_id_ (io_wait_data_ t));;
                      DecrementRef tk
           else let* answer := wait_tasks_erase tk in
                (if answer then AddTaskRunnable tk else ret tt);;
                DecrementRef tk) w3).
  unfold bind at 1. symmetry. unfold bind at 1. symmetry.
  rewrite register_fds_rounds.
  destruct (register_rounds _ _ _ w3) as [ok w4|]; [|reflexivity].
  destruct ok; cbn [negb]; [reflexivity|].
  rewrite bind_assoc. reflexivity.
Qed.

(** ** What the steps rely on, and what they leave *)

(** [m] returns from every world in which [I] holds, in a world in which
    [I] holds again. *)
Definition total_on (I : World → Prop) {A} (m : M A) : Prop :=
  ∀ w, I w → ∃ a w', m w = Ok a w' ∧ I w'.

Section TotalOn.
Context (I : World → Prop).

Lemma total_ret {A} (a : A) : total_on I (ret a).
Proof. intros w H. by exists a, w. Qed.

Lemma total_gets {A} (f : World → A) : total_on I (gets f).
Proof. intros w H. by exists (f w), w. Qed.

Lemma total_bind {A B} (m : M A) (k : A → M B) :
  total_on I m → (∀ a, total_on I (k a)) → total_on I (bind m k).
Proof.
  intros Hm Hk w H. destruct (Hm w H) as (a & w1 & E1 & H1).
  destruct (Hk a w1 H1) as (b & w2 & E2 & H2).
  exists b, w2. unfold bind. by rewrite E1.
Qed.

Lemma total_for_each {A} (f : A → M unit) (l : list A) :
  (∀ x, total_on I (f x)) → total_on I (for_each f l).
Proof.
  intros Hf. induction l as [|x l IH]; simpl.
  - apply total_ret.
  - apply total_bind; [apply Hf | intros _; exact IH].
Qed.

Lemma total_modify (g : World → World) :
  (∀ w, I w → I (g w)) → total_on I (modify g).
Proof. intros Hg w H. exists tt, (g w). split; [done | by apply Hg]. Qed.

End TotalOn.

(** One structural step of a proof of [total_on]. *)
Ltac total_step :=
  first [ apply total_ret | apply total_gets | apply total_bind
        | apply total_for_each ].

(** The task [tk] is alive and is the current task, and the pair of
    instances can be used. *)
Definition playing (tk : TaskPtr) (w : World) : Prop :=
  is_Some (task_at tk w)
  ∧ current_task (sched w) = Some tk
  ∧ epoll_usable w.

Section Playing.
Context (tk : TaskPtr).

Local Abbreviation I := (playing tk).

Lemma playing_same w w' :
  (is_Some (task_at tk w) → is_Some (task_at tk w')) →
  current_task (sched w') = current_task (sched w) →
  epoll_state w' = epoll_state w →
  I w → I w'.
Proof.
  intros Ha Hc Hs (H1 & H2 & H3). split; [by apply Ha|]. split; [congruence|].
  by apply (kept_same w w').
Qed.

Lemma total_get_task : total_on I (get_task tk).
Proof.
  intros w H. pose proof H as ([t Ht] & _). exists t, w.
  split; [by apply get_task_ok | done].
Qed.

Lemma total_modify_task f : total_on I (modify_task tk f).
Proof.
  intros w H. pose proof H as ([t Ht] & _).
  exists tt, (with_task tk (f t) w). split; [by apply modify_task_ok|].
  apply (playing_same w); try done. intros _. unfold task_at. simpl.
  rewrite lookup_insert_eq. eauto.
Qed.

Lemma total_DecrementRef : total_on I (DecrementRef tk).
Proof.
  intros w H. pose proof H as ([t Ht] & _).
  destruct (DecrementRef_ok tk t w Ht) as [dl E]. eexists tt, _.
  split; [exact E|]. apply (playing_same w); try done. intros _.
  unfold task_at. simpl. rewrite lookup_insert_eq. eauto.
Qed.

Lemma total_CreateEpoll : total_on I CreateEpoll.
Proof.
  intros w (Ha & Hc & [Hs|Hcr]).
  - exists tt, w. split; [by apply CreateEpoll_settled|]. split; [done|].
    split; [done | by left].
  - destruct (CreateEpoll_can_create w Hcr) as (w' & E & Hs' & Hsch & _).
    exists tt, w'. split; [done|]. unfold playing, task_at. rewrite Hsch.
    split; [done|]. split; [done | by left].
Qed.

Lemma total_ChooseEpoll ev : total_on I (ChooseEpoll ev).
Proof. total_step; [apply total_CreateEpoll | intros _; total_step]. Qed.

Lemma total_epoll_ctl_add epfd fd_ ev c : total_on I (epoll_ctl_add epfd fd_ ev c).
Proof.
  intros w H. eexists _, _. split; [reflexivity|].
  apply (playing_same w); try done. unfold kernel_ctl_add.
  by destruct (ctl_target_ok _ _ _); [destruct (_ !! _)|].
Qed.

Lemma total_epoll_ctl_del epfd fd_ : total_on I (epoll_ctl_del epfd fd_).
Proof.
  intros w H. eexists _, _. split; [reflexivity|].
  apply (playing_same w); try done. unfold kernel_ctl_del.
  by destruct (ctl_target_ok _ _ _); [destruct (_ !! _)|].
Qed.

Lemma total_del_one fd_ ev : total_on I (del_one tk fd_ ev).
Proof.
  total_step; [apply total_ChooseEpoll | intros epfd].
  total_step; [apply total_epoll_ctl_del | intros []].
  - apply total_DecrementRef.
  - total_step.
Qed.

Lemma total_register_fds fds : ∀ idx ok rb,
  total_on I (register_fds tk fds idx ok rb).
Proof.
  induction fds as [|fdst rest IH]; intros idx ok rb; cbn [register_fds].
  { total_step. }
  total_step; [apply total_ChooseEpoll | intros epfd].
  total_step; [apply total_modify_task | intros _].
  total_step; [apply total_epoll_ctl_add | intros [|errno]]; [apply IH|].
  total_step; [apply total_DecrementRef | intros _].
  destruct (decide _); [|apply IH].
  total_step; [|intros _; total_step].
  apply total_for_each. intros p. apply total_del_one.
Qed.

Lemma total_wait_tasks_erase : total_on I (wait_tasks_erase tk).
Proof.
  intros w H. unfold wait_tasks_erase. destruct (decide _).
  - eexists _, _. split; [reflexivity|]. by apply (playing_same w).
  - by exists false, w.
Qed.


Lemma total_AddTaskRunnable : total_on I (AddTaskRunnable tk).
Proof. apply total_modify. intros w H. by apply (playing_same w). Qed.

Lemma total_Cancel_check id : total_on I (Cancel_check tk id).
Proof. total_step; [apply total_get_task | intros t; total_step]. Qed.





End Playing.

(** The wait-set, the run queue and the generation of every task are as
    before. *)
Record parked (w w' : World) : Prop := mk_parked {
  pk_wait : wait_tasks_ (iowait w') = wait_tasks_ (iowait w);
  pk_queue : run_queue (sched w') = run_queue (sched w);
  pk_gen : ∀ tk t, task_at tk w = Some t →
             ∃ t', task_at tk w' = Some t'
                   ∧ io_block_id_ (io_wait_data_ t') = io_block_id_ (io_wait_data_ t)
}.

#[global] Instance parked_preorder : PreOrder parked.
Proof.
  split.
  - intros w. split; [done|done|]. intros tk t Ht. by exists t.
  - intros w1 w2 w3 [W1 Q1 G1] [W2 Q2 G2]. split; [congruence|congruence|].
    intros tk t Ht. destruct (G1 tk t Ht) as (t2 & Ht2 & E2).
    destruct (G2 tk t2 Ht2) as (t3 & Ht3 & E3). exists t3. split; congruence.
Qed.

Lemma parked_same_heap w w' :
  wait_tasks_ (iowait w') = wait_tasks_ (iowait w) →
  run_queue (sched w') = run_queue (sched w) →
  heap (sched w') = heap (sched w) →
  parked w w'.
Proof.
  intros H1 H2 H3. split; [done|done|]. intros tk t Ht. exists t.
  unfold task_at in *. by rewrite H3.
Qed.

Lemma parked_CreateEpoll : keeps parked CreateEpoll.
Proof.
  intros w a w' E.
  unfold CreateEpoll, bind, getpid, gets in E.
  destruct (decide _) as [e|_].
  { injection E as _ <-. reflexivity. }
  unfold upd_iowait, modify, for_each, CreateEpoll_one, bind, gets, close,
    upd_kernel, modify, epoll_create, upd_iowait, kernel_epoll_create in E.
  simpl in E.
  repeat match type of E with
         | context [decide (?x ≠ -1)] => destruct (decide (x ≠ -1)); simpl in E
         | context [?x && ?y] => destruct (x && y); simpl in E
         end;
    try discriminate; injection E as _ <-; by apply parked_same_heap.
Qed.

Lemma parked_ChooseEpoll ev : keeps parked (ChooseEpoll ev).
Proof. keeps_step; [apply parked_CreateEpoll | intros _; keeps_step]. Qed.

Lemma parked_with_task tk t t' w :
  heap (sched w) !! tk = Some t →
  io_block_id_ (io_wait_data_ t') = io_block_id_ (io_wait_data_ t) →
  parked w (with_task tk t' w).
Proof.
  intros Ht Hg. split; [done|done|]. intros tk' t0 Ht0. unfold task_at. simpl.
  destruct (decide (tk' = tk)) as [->|Hne].
  - exists t'. rewrite lookup_insert_eq. split; [done|].
    unfold task_at in Ht0. congruence.
  - exists t0. by rewrite lookup_insert_ne.
Qed.

Lemma parked_modify_task tk f :
  (∀ t, io_block_id_ (io_wait_data_ (f t)) = io_block_id_ (io_wait_data_ t)) →
  keeps parked (modify_task tk f).
Proof.
  intros Hf. apply keeps_modify_task; try apply _.
  intros w t Ht. by apply (parked_with_task tk t).
Qed.

Lemma parked_DecrementRef tk : keeps parked (DecrementRef tk).
Proof.
  intros w a w' E. unfold DecrementRef, bind, get_task in E.
  destruct (heap (sched w) !! tk) as [t|] eqn:Ht; [|done].
  unfold put_task, upd_sched, modify, ret in E.
  pose proof (parked_with_task tk t (t_set_ref_count (ref_count_ t - 1) t) w Ht
                eq_refl) as [H1 H2 H3].
  by destruct (decide _); injection E as _ <-.
Qed.

Lemma parked_same_sched w w' :
  sched w' = sched w → wait_tasks_ (iowait w') = wait_tasks_ (iowait w) →
  parked w w'.
Proof. intros H1 H2. apply parked_same_heap; [done| |]; by rewrite H1. Qed.

Lemma parked_del_one tk fd_ ev : keeps parked (del_one tk fd_ ev).
Proof.
  keeps_step; [apply parked_ChooseEpoll | intros epfd].
  keeps_step; [intros w a w' [= _ <-]; by apply parked_same_sched | intros []].
  - apply parked_DecrementRef.
  - keeps_step.
Qed.

Lemma parked_register_fds tk fds : ∀ idx ok rb,
  keeps parked (register_fds tk fds idx ok rb).
Proof.
  induction fds as [|fdst rest IH]; intros idx ok rb; cbn [register_fds].
  { keeps_step. }
  keeps_step; [apply parked_ChooseEpoll | intros epfd].
  keeps_step; [by apply parked_modify_task | intros _].
  keeps_step; [intros w a w' [= _ <-]; by apply parked_same_sched
              | intros [|errno]]; [apply IH|].
  keeps_step; [apply parked_DecrementRef | intros _].
  destruct (decide _); [|apply IH].
  keeps_step; [|intros _; keeps_step].
  apply keeps_for_each; try apply _. intros p. apply parked_del_one.
Qed.



Lemma parked_Cancel_check tk id : keeps parked (Cancel_check tk id).
Proof. keeps_step; [apply keeps_get_task; apply _ | intros t; keeps_step]. Qed.


(** ** The race for a task

    One task goes through blocks, one after another; the actors that try to
    resume it take their steps in any order.  The state of the race beside
    the world is where each actor is in its call, and a record of what the
    actors were answered and did. *)


(** A contender is a call [Cancel(tk, id)]: by the drain for a descriptor
    that is ready (line 226), by a timeout callback, which drops the
    reference of the timer when [Cancel] has returned (lines 133 and 134),
    or by an explicit cancellation. *)
Inductive Kind : Set := by_readiness | by_timeout | by_cancel.

Record Contender : Set := mkContender { ct_kind : Kind; ct_id : Z }.

(** Where a contender is in its call: before line 145; before line 148;
    answered [true] at line 148, with entries of the loop of lines 156 to
    165 still to visit and line 167 to come; or back from the call. *)
Inductive Pc : Type :=
  | at_entry
  | at_erase
  | tearing (fds : list FdStruct)
  | returned.

(** Where a [SchedulerSwitch] that has pushed the task is: in the loop,
    with the generation it read; before line 121, with [ok]; answered
    [true] at line 122, before line 123; or back from the call. *)
Inductive SPc : Type :=
  | sw_looping (id : Z) (l : Loop)
  | sw_registered (id : Z) (ok : bool)
  | sw_won
  | sw_returned.

Inductive Actor : Set := contender (i : nat) | switcher (n : nat).

#[global] Instance Actor_eq_dec : EqDecision Actor.
Proof. solve_decision. Defined.

(** What is recorded: contender [i] found another generation at line 145;
    it found its own, when the task had started [blocks] blocks; an actor
    was given [answer] by an erase, when the task had started [blocks]
    blocks, so the block under way was block [pred blocks]; an actor called
    [AddTaskRunnable]. *)
Inductive Obs : Set :=
  | stale (i : nat)
  | passed (i : nat) (blocks : nat)
  | erased (a : Actor) (answer : bool) (blocks : nat)
  | added (a : Actor).

Record Race : Type := mkRace {
  r_pcs : list Pc;
  r_pending : nat;
  r_switches : list SPc;
  r_gens : list Z;
  r_obs : list Obs
}.


Definition adder (o : Obs) : option Actor :=
  match o with
  | added a => Some a
  | _ => None
  end.


Definition adders (g : Race) : list Actor := omap adder (r_obs g).







Definition set_pc (i : nat) (pc : Pc) (os : list Obs) (g : Race) : Race :=
  mkRace (<[i := pc]> (r_pcs g)) (r_pending g) (r_switches g) (r_gens g)
    (r_obs g ++ os).

Definition set_switch (n : nat) (s : SPc) (os : list Obs) (g : Race) : Race :=
  mkRace (r_pcs g) (r_pending g) (<[n := s]> (r_switches g)) (r_gens g)
    (r_obs g ++ os).

(** The steps: the task starts a block ([CoSwitch], which it can only do
    when it runs, that is at the start and again each time it has been
    enqueued); the [SchedulerSwitch] of the block the task has yielded in
    begins, up to the push; the [SchedulerSwitch] number [n] takes its next
    step; contender [i] takes its next step. *)
Inductive Step : Type :=
  | do_co_switch (fdsts : list FdStruct) (timeout_ms : Z)
  | do_push
  | do_switch (n : nat)
  | do_cancel (i : nat).

Section Race.
Context (tk : TaskPtr) (cs : list Contender).

Definition after_Cancel (k : Kind) : M unit :=
  match k with by_timeout => DecrementRef tk | _ => ret tt end.

(** A step that has nothing to do leaves the race as it is. *)
Definition step (s : Step) (g : Race) : M Race :=
  let blocks := length (r_gens g) in
  match s with
  | do_co_switch fdsts timeout_ms =>
      if decide (blocks ≤ length (adders g))%nat then
        CoSwitch fdsts timeout_ms;;
        let* t := get_task tk in
        ret (mkRace (r_pcs g) (S (r_pending g)) (r_switches g)
               (r_gens g ++ [io_block_id_ (io_wait_data_ t)]) (r_obs g))
      else ret g
  | do_push =>
      match r_pending g with
      | S n =>
          let* r := SchedulerSwitch_push tk in
          ret (mkRace (r_pcs g) n (r_switches g ++ [sw_looping r.1 r.2])
                 (r_gens g) (r_obs g))
      | O => ret g
      end
  | do_switch n =>
      match r_switches g !! n with
      | Some (sw_looping id l) =>
          let* r := register_round tk l in
          match r with
          | inl l' => ret (set_switch n (sw_looping id l') [] g)
          | inr ok => ret (set_switch n (sw_registered id ok) [] g)
          end
      | Some (sw_registered id true) =>
          SchedulerSwitch_arm tk id;;
          DecrementRef tk;;
          ret (set_switch n sw_returned [] g)
      | Some (sw_registered id false) =>
          let* answer := wait_tasks_erase tk in
          if answer then
            ret (set_switch n sw_won [erased (switcher n) true blocks] g)
          else
            DecrementRef tk;;
            ret (set_switch n sw_returned [erased (switcher n) false blocks] g)
      | Some sw_won =>
          AddTaskRunnable tk;;
          DecrementRef tk;;
          ret (set_switch n sw_returned [added (switcher n)] g)
      | _ => ret g
      end
  | do_cancel i =>
      match r_pcs g !! i, cs !! i with
      | Some at_entry, Some c =>
          let* same := Cancel_check tk (ct_id c) in
          if same then ret (set_pc i at_erase [passed i blocks] g)
          else
            after_Cancel (ct_kind c);;
            ret (set_pc i returned [stale i] g)
      | Some at_erase, Some c =>
          let* answer := wait_tasks_erase tk in
          if answer then
            let* t' := get_task tk in
            ret (set_pc i (tearing (wait_fds_ (io_wait_data_ t')))
                   [erased (contender i) true blocks] g)
          else
            after_Cancel (ct_kind c);;
            ret (set_pc i returned [erased (contender i) false blocks] g)
      | Some (tearing (fdst :: rest)), Some c =>
          del_one tk (fd fdst) (event fdst);;
          ret (set_pc i (tearing rest) [] g)
      | Some (tearing []), Some c =>
          AddTaskRunnable tk;;
          after_Cancel (ct_kind c);;
          ret (set_pc i returned [added (contender i)] g)
      | _, _ => ret g
      end
  end.

Fixpoint run (ss : list Step) (g : Race) : M Race :=
  match ss with
  | [] => ret g
  | s :: ss' => let* g' := step s g in run ss' g'
  end.






































End Race.

Module Contest.

(** Three contenders for the first block of task 1 of [Scenario.world0],
    all with its generation 1: the drain, the timeout callback and a
    cancellation.  The block is started and registered; the three make
    their tests; the cancellation erases first, tears down and enqueues;
    the two others erase; the [SchedulerSwitch] returns. *)
Definition contenders : list Contender :=
  [mkContender by_readiness 1; mkContender by_timeout 1; mkContender by_cancel 1].

Definition schedule : list Step :=
  [do_co_switch [Scenario.fds 10 EPOLLIN] 50; do_push;
   do_switch 0; do_switch 0;
   do_cancel 0; do_cancel 1; do_cancel 2;
   do_cancel 2; do_cancel 2; do_cancel 2;
   do_cancel 0; do_cancel 1;
   do_switch 0].

End Contest.

Module Stale.

(** Two contenders with the generation 1 of the first block of task 1: the
    drain and a cancellation.  Both pass the test of line 145 in the first
    block.  The cancellation erases, tears down and enqueues the task; the
    task runs and starts its second block, of generation 2, which is
    pushed and registered.  Then the drain makes its erase. *)
Definition contenders : list Contender :=
  [mkContender by_readiness 1; mkContender by_cancel 1].

Definition schedule : list Step :=
  [do_co_switch [Scenario.fds 10 EPOLLIN] (-1); do_push;
   do_switch 0; do_switch 0;
   do_cancel 0; do_cancel 1;
   do_cancel 1; do_cancel 1; do_cancel 1;
   do_switch 0;
   do_co_switch [Scenario.fds 11 EPOLLIN] (-1); do_push;
   do_switch 1; do_switch 1;
   do_cancel 0; do_cancel 0; do_cancel 0].





End Stale.




(** ** The debug names of the instance types *)

From Stdlib Require Import String.

(** [EpollTypeName(int type)], with the spelling of the source. *)
Definition EpollTypeName (type : Z) : string :=
  if decide (type = EpollType_to_int read) then "read"
  else if decide (type = EpollType_to_int write) then "write"
  else "unkown".

(** X16 — The name the debug output gives an instance.
    [EpollTypeName (GetEpollType epoll_fd)] is "read" exactly for the read
    descriptor, "write" exactly for a write descriptor that is not also the
    read descriptor, and "unkown" for every other number; and for the
    descriptor a creating [ChooseEpoll] returns for a mask it is "read" if
    the mask has the EPOLLIN bit and "write" otherwise, as the messages of
    [SchedulerSwitch] print it. *)
Theorem X16_EpollTypeName_of_GetEpollType (w : World) :
  (∀ epoll_fd, ∃ v,
     GetEpollType epoll_fd w = Ok v w
     ∧ (EpollTypeName v = "read"%string
        ↔ epoll_fd = (epoll_fds_ (iowait w)).1)
     ∧ (EpollTypeName v = "write"%string
        ↔ epoll_fd ≠ (epoll_fds_ (iowait w)).1
          ∧ epoll_fd = (epoll_fds_ (iowait w)).2)
     ∧ (EpollTypeName v = "unkown"%string
        ↔ epoll_fd ≠ (epoll_fds_ (iowait w)).1
          ∧ epoll_fd ≠ (epoll_fds_ (iowait w)).2))
  ∧ (can_create w →
     ∀ ev, ∃ epoll_fd w' v,
       ChooseEpoll ev w = Ok epoll_fd w'
       ∧ GetEpollType epoll_fd w' = Ok v w'
       ∧ EpollTypeName v
         = (if Z.testbit ev 0 then "read" else "write")%string).
Proof.
  split.
  - intros epoll_fd. eexists. split; [apply GetEpollType_eq|].
    unfold EpollTypeName. simpl.
    destruct (decide (epoll_fd = (epoll_fds_ (iowait w)).1)) as [H1|H1];
      [|destruct (decide (epoll_fd = (epoll_fds_ (iowait w)).2)) as [H2|H2]];
      simpl; repeat split; intros; try done; try tauto.
  - intros Hc ev.
    destruct (CreateEpoll_can_create w Hc)
      as (w' & E & Hs & _ & _ & _ & _ & _ & _ & _ & Hfds & _).
    exists (chosen_fd w ev), (created w), (if Z.testbit ev 0 then 0 else 1).
    split; [apply ChooseEpoll_chosen; by right|].
    split; [|by destruct (Z.testbit ev 0)].
    unfold chosen_fd, created. rewrite E, GetEpollType_eq, Hfds.
    destruct (Z.testbit ev 0); simpl; f_equal.
    + by rewrite decide_True.
    + rewrite decide_False by lia. by rewrite decide_True.
Qed.

Lemma X16_witness :
  can_create Scenario.world0
  ∧ ∃ epoll_fd w' v,
      ChooseEpoll EPOLLOUT Scenario.world0 = Ok epoll_fd w'
      ∧ GetEpollType epoll_fd w' = Ok v w'
      ∧ EpollTypeName v = "write"%string.
Proof.
  assert (H : can_create Scenario.world0) by (unfold can_create; simpl; lia).
  split; [exact H|].
  exact (proj2 (X16_EpollTypeName_of_GetEpollType Scenario.world0) H EPOLLOUT).
Defined.
